(** * DaroEngine2: compositor, frame-buffer hand-off and video timing

    A shallow embedding of the engine sources
    ([Engine/DaroEngine.cpp], [Engine/Renderer.cpp], [Engine/FrameBuffer.cpp],
    [Engine/VideoPlayer.cpp], [Engine/FFmpegDecoder.cpp], [Engine/SharedTypes.h])
    together with the properties the design document states about them
    (Part III) and further properties of the code itself (Part IV).

    Conventions.
    - C++ [int] / [long long] values are [Z]; where the source can overflow the
      two's-complement wrap-around is written out ([Int.wrap32]).
    - [double] and [float] are IEEE-754 binary64 / binary32 values, computed
      with the executable specification of [SpecFloat] (round to nearest even),
      so every arithmetic step of the source rounds exactly as the hardware does.
    - Calls that leave the process (the performance counter, Media Foundation,
      libav, Direct3D and Direct2D) are resolved by answers given from
      outside: a script where the calls of one kind are followed one by one
      (each call consumes the next answer; what an exhausted script answers is
      said where it is defined), a flag where every call of one kind on one
      object gets the same answer.  Theorems are stated for all answers. *)

From Stdlib Require Import ZArith List Bool String Ascii Init.Byte Lia SpecFloat.
From stdpp Require Import base option list gmap.

Local Open Scope Z_scope.

(* ===================================================================== *)
(** * Part I.  The model                                                  *)
(* ===================================================================== *)

(** ** Machine integers *)

Module Int.

Definition INT_MAX : Z := 2147483647.
Definition INT_MIN : Z := -2147483648.

(** Two's-complement reduction of a mathematical integer to [int]. *)
Definition wrap32 (z : Z) : Z := (z + 2^31) mod 2^32 - 2^31.

(** Two's-complement reduction to [long long]. *)
Definition wrap64 (z : Z) : Z := (z + 2^63) mod 2^64 - 2^63.

Definition in_int (z : Z) : bool := (INT_MIN <=? z) && (z <=? INT_MAX).

End Int.

(** ** IEEE-754 arithmetic *)

(** [double]: binary64. *)
Module F64.

Definition prec : Z := 53.
Definition emax : Z := 1024.

Definition t : Type := spec_float.

(** [m * 2^e], correctly rounded. *)
Definition of_scaled (m e : Z) : t := binary_normalize prec emax m e false.

(** [static_cast<double>(z)] for an integer [z]. *)
Definition of_Z (z : Z) : t := of_scaled z 0.

Definition add : t -> t -> t := SFadd prec emax.
Definition sub : t -> t -> t := SFsub prec emax.
Definition mul : t -> t -> t := SFmul prec emax.
Definition div : t -> t -> t := SFdiv prec emax.

Definition ltb : t -> t -> bool := SFltb.
Definition leb : t -> t -> bool := SFleb.
Definition gtb (x y : t) : bool := SFltb y x.
Definition geb (x y : t) : bool := SFleb y x.

Definition zero : t := S754_zero false.
Definition one : t := of_Z 1.

(** A decimal literal [n / 10^k] of the source text, correctly rounded. *)
Definition decimal (n : Z) (k : Z) : t := div (of_Z n) (of_Z (10 ^ k)).

(** The integer part of a finite value, rounded toward zero. *)
Definition trunc (x : t) : option Z :=
  match x with
  | S754_zero _ => Some 0
  | S754_finite s m e =>
      let a := if 0 <=? e then Z.pos m * 2 ^ e else Z.pos m / 2 ^ (- e) in
      Some (if s then - a else a)
  | _ => None
  end.

(** [static_cast<int>(x)].  The conversion truncates toward zero; for a NaN
    or a value outside [int] the x86-64 conversion instruction the engine is
    compiled to ([cvttsd2si]) yields the "integer indefinite" [INT_MIN]. *)
Definition to_int (x : t) : Z :=
  match trunc x with
  | Some z => if Int.in_int z then z else Int.INT_MIN
  | None => Int.INT_MIN
  end.

(** [static_cast<LONGLONG>(x)], same convention with 64 bits. *)
Definition to_int64 (x : t) : Z :=
  match trunc x with
  | Some z => if (- 2^63 <=? z) && (z <? 2^63) then z else - 2^63
  | None => - 2^63
  end.

End F64.

(** Floating-point operations are computed on demand only. *)
Global Arguments F64.of_scaled : simpl never.
Global Arguments F64.of_Z : simpl never.
Global Arguments F64.add : simpl never.
Global Arguments F64.sub : simpl never.
Global Arguments F64.mul : simpl never.
Global Arguments F64.div : simpl never.
Global Arguments F64.ltb : simpl never.
Global Arguments F64.leb : simpl never.
Global Arguments F64.gtb : simpl never.
Global Arguments F64.geb : simpl never.
Global Arguments F64.decimal : simpl never.
Global Arguments F64.trunc : simpl never.
Global Arguments F64.to_int : simpl never.
Global Arguments F64.to_int64 : simpl never.
Global Arguments F64.one : simpl never.

(** [float]: binary32. *)
Module F32.

Definition prec : Z := 24.
Definition emax : Z := 128.

Definition t : Type := spec_float.

Definition of_scaled (m e : Z) : t := binary_normalize prec emax m e false.
Definition of_Z (z : Z) : t := of_scaled z 0.

Definition add : t -> t -> t := SFadd prec emax.
Definition sub : t -> t -> t := SFsub prec emax.
Definition mul : t -> t -> t := SFmul prec emax.
Definition div : t -> t -> t := SFdiv prec emax.

Definition ltb : t -> t -> bool := SFltb.
Definition eqb : t -> t -> bool := SFeqb.

Definition zero : t := S754_zero false.
Definition one : t := of_Z 1.
(** The literal [0.5f]. *)
Definition half : t := of_scaled 1 (-1).

Definition decimal (n : Z) (k : Z) : t := div (of_Z n) (of_Z (10 ^ k)).

(** [(std::min)(a, b)]: [b < a ? b : a]. *)
Definition min (a b : t) : t := if ltb b a then b else a.

End F32.

(** Floating-point operations are computed on demand only. *)
Global Arguments F32.of_scaled : simpl never.
Global Arguments F32.of_Z : simpl never.
Global Arguments F32.add : simpl never.
Global Arguments F32.sub : simpl never.
Global Arguments F32.mul : simpl never.
Global Arguments F32.div : simpl never.
Global Arguments F32.ltb : simpl never.
Global Arguments F32.eqb : simpl never.
Global Arguments F32.decimal : simpl never.
Global Arguments F32.min : simpl never.
Global Arguments F32.one : simpl never.
Global Arguments F32.half : simpl never.

(** ** [SharedTypes.h] *)

Module SharedTypes.

Definition DARO_MAX_LAYERS : Z := 64.
Definition DARO_MAX_PATH : Z := 260.
Definition DARO_MAX_TEXT : Z := 1024.
Definition DARO_MAX_FONTNAME : Z := 64.

Definition DARO_TYPE_RECTANGLE : Z := 0.
Definition DARO_TYPE_CIRCLE : Z := 1.
Definition DARO_TYPE_TEXT : Z := 2.
Definition DARO_TYPE_IMAGE : Z := 3.
Definition DARO_TYPE_VIDEO : Z := 4.
Definition DARO_TYPE_MASK : Z := 5.
Definition DARO_TYPE_GROUP : Z := 6.

Definition DARO_SOURCE_SOLID : Z := 0.
Definition DARO_SOURCE_SPOUT : Z := 1.
Definition DARO_SOURCE_IMAGE : Z := 2.
Definition DARO_SOURCE_VIDEO : Z := 3.

(** [struct DaroLayer], field for field (packed, 2832 bytes).  The three
    character arrays are kept as the lists of their code units. *)
Record DaroLayer := mkLayer {
  id : Z;
  active : Z;
  layerType : Z;
  posX : F32.t; posY : F32.t;
  sizeX : F32.t; sizeY : F32.t;
  rotX : F32.t; rotY : F32.t; rotZ : F32.t;
  anchorX : F32.t; anchorY : F32.t;
  opacity : F32.t;
  colorR : F32.t; colorG : F32.t; colorB : F32.t; colorA : F32.t;
  sourceType : Z;
  textureId : Z;
  spoutReceiverId : Z;
  texX : F32.t; texY : F32.t; texW : F32.t; texH : F32.t;
  texRot : F32.t;
  textureLocked : Z;
  textContent : list Z;
  fontFamily : list Z;
  fontSize : F32.t;
  fontBold : Z;
  fontItalic : Z;
  textAlignment : Z;
  lineHeight : F32.t;
  letterSpacing : F32.t;
  textAntialiasMode : Z;
  texturePath : list Z;
  maskMode : Z;
  maskedLayerCount : Z;
  maskedLayerIds : list Z
}.

(** The record [memset(.., 0, ..)] leaves behind. *)
Definition zero_layer : DaroLayer :=
  {| id := 0; active := 0; layerType := 0;
     posX := F32.zero; posY := F32.zero; sizeX := F32.zero; sizeY := F32.zero;
     rotX := F32.zero; rotY := F32.zero; rotZ := F32.zero;
     anchorX := F32.zero; anchorY := F32.zero;
     opacity := F32.zero;
     colorR := F32.zero; colorG := F32.zero; colorB := F32.zero; colorA := F32.zero;
     sourceType := 0; textureId := 0; spoutReceiverId := 0;
     texX := F32.zero; texY := F32.zero; texW := F32.zero; texH := F32.zero;
     texRot := F32.zero; textureLocked := 0;
     textContent := replicate 1024 0; fontFamily := replicate 64 0;
     fontSize := F32.zero; fontBold := 0; fontItalic := 0; textAlignment := 0;
     lineHeight := F32.zero; letterSpacing := F32.zero; textAntialiasMode := 0;
     texturePath := replicate 260 0;
     maskMode := 0; maskedLayerCount := 0; maskedLayerIds := replicate 64 0 |}.

End SharedTypes.

(** ** [FrameBuffer.cpp]: the shared-memory hand-off *)

Module FrameBuffer.

(** [struct DaroFrameHeader]. *)
Record DaroFrameHeader := mkHeader {
  width : Z;
  height : Z;
  stride : Z;
  frameNumber : Z;
  locked : Z
}.

(** A mapped view: the header followed by the pixel bytes. *)
Record MapView := mkView {
  header : DaroFrameHeader;
  pixels : list byte
}.

(** [m_pMapView] is the view as the object reaches it: the memory
    [m_pHeader] and [m_pPixels] point into, [None] when the two are null.
    [Lock], [Unlock] and [Write] test and follow these two pointers only. *)
Record DaroFrameBuffer := mkFB {
  m_Width : Z;
  m_Height : Z;
  m_Stride : Z;
  m_pMapView : option MapView;
  m_IsLocked : bool
}.

Definition set_header (f : DaroFrameHeader -> DaroFrameHeader) (v : MapView) : MapView :=
  {| header := f (header v); pixels := pixels v |}.

Definition set_view (fb : DaroFrameBuffer) (v : option MapView) : DaroFrameBuffer :=
  {| m_Width := m_Width fb; m_Height := m_Height fb; m_Stride := m_Stride fb;
     m_pMapView := v; m_IsLocked := m_IsLocked fb |}.

Definition set_locked (fb : DaroFrameBuffer) (b : bool) : DaroFrameBuffer :=
  {| m_Width := m_Width fb; m_Height := m_Height fb; m_Stride := m_Stride fb;
     m_pMapView := m_pMapView fb; m_IsLocked := b |}.

Definition unmapped : DaroFrameBuffer :=
  {| m_Width := 0; m_Height := 0; m_Stride := 0; m_pMapView := None; m_IsLocked := false |}.

(** [Initialize].  [map_ok] tells whether the operating system granted the
    file mapping and its view; a fresh mapping is zero-filled.  When either
    is refused the call returns with the new dimensions stored and
    [m_pHeader] and [m_pPixels] as they were: on a buffer that was mapped
    before they still point into the old view. *)
Definition Initialize (map_ok : bool) (fb : DaroFrameBuffer) (w h : Z)
  : bool * DaroFrameBuffer :=
  if (w <=? 0) || (h <=? 0) || (16384 <? w) || (16384 <? h) then (false, fb)
  else
    let fb1 := {| m_Width := w; m_Height := h; m_Stride := w * 4;
                  m_pMapView := m_pMapView fb; m_IsLocked := m_IsLocked fb |} in
    if map_ok then
      (true,
       {| m_Width := w; m_Height := h; m_Stride := w * 4;
          m_pMapView :=
            Some {| header := {| width := w; height := h; stride := w * 4;
                                 frameNumber := 0; locked := 0 |};
                    pixels := replicate (Z.to_nat (w * 4 * h)) x00 |};
          m_IsLocked := false |})
    else (false, fb1).

(** [memcpy(dst + doff, src + soff, n)] on byte arrays.  Reading or writing
    outside either array is undefined behaviour, rendered as [None]. *)
Definition memcpy (dst : list byte) (doff : Z) (src : list byte) (soff n : Z)
  : option (list byte) :=
  if (0 <=? doff) && (0 <=? soff) && (0 <=? n)
     && (soff + n <=? Z.of_nat (length src))
     && (doff + n <=? Z.of_nat (length dst))
  then Some (take (Z.to_nat doff) dst
             ++ take (Z.to_nat n) (drop (Z.to_nat soff) src)
             ++ drop (Z.to_nat (doff + n)) dst)
  else None.

(** The row loop of [Write]: [rows] iterations, the two cursors advancing by
    their own strides. *)
Fixpoint copy_rows (rows : nat) (dst : list byte) (doff : Z)
         (src : list byte) (soff : Z) (copyStride srcStride dstStride : Z)
  : option (list byte) :=
  match rows with
  | O => Some dst
  | S r =>
      match memcpy dst doff src soff copyStride with
      | Some dst' =>
          copy_rows r dst' (doff + dstStride) src (soff + srcStride)
                    copyStride srcStride dstStride
      | None => None
      end
  end.

(** What the reader may call while the writer sleeps on the condition
    variable. *)
Inductive ReaderOp := OpLock | OpUnlock.

(** [Lock]: returns whether it succeeded; the out-parameters receive the
    pixel pointer and the header's dimensions. *)
Definition Lock (fb : DaroFrameBuffer) : bool * DaroFrameBuffer :=
  match m_pMapView fb with
  | None => (false, fb)
  | Some v =>
      (true,
       set_locked
         (set_view fb (Some (set_header
            (fun h => {| width := width h; height := height h; stride := stride h;
                         frameNumber := frameNumber h; locked := 1 |}) v)))
         true)
  end.

Definition Unlock (fb : DaroFrameBuffer) : DaroFrameBuffer :=
  set_locked
    (set_view fb
       (option_map (set_header
          (fun h => {| width := width h; height := height h; stride := stride h;
                       frameNumber := frameNumber h; locked := 0 |})) (m_pMapView fb)))
    false.

Definition reader_step (fb : DaroFrameBuffer) (op : ReaderOp) : DaroFrameBuffer :=
  match op with
  | OpLock => snd (Lock fb)
  | OpUnlock => Unlock fb
  end.

(** [m_UnlockCondition.wait_for(lock, 10ms, [this]{ return !m_IsLocked; })].
    While the writer sleeps the mutex is released; [ops] are the reader calls
    that took effect before the writer holds the mutex again.  The wait
    returns the value of the predicate at that moment: [true] when the
    region was found unlocked, [false] when the ten milliseconds ran out
    with the region still locked. *)
Definition wait_for (ops : list ReaderOp) (fb : DaroFrameBuffer)
  : bool * DaroFrameBuffer :=
  let fb' := fold_left reader_step ops fb in
  (negb (m_IsLocked fb'), fb').

(** [Write(pData, srcStride, frameNumber)].  [pData = None] is the null
    pointer.  The result is [None] only if a [memcpy] runs out of bounds. *)
Definition Write (ops : list ReaderOp) (fb : DaroFrameBuffer)
           (pData : option (list byte)) (srcStride : Z) (frameNo : Z)
  : option DaroFrameBuffer :=
  match m_pMapView fb, pData with
  | None, _ | _, None => Some fb
  | Some _, Some src =>
      let fb1 := if m_IsLocked fb then snd (wait_for ops fb) else fb in
      if m_IsLocked fb && m_IsLocked fb1 then Some fb1
      else
        match m_pMapView fb1 with
        | None => Some fb1
        | Some v =>
            let copied :=
              if srcStride =? m_Stride fb1 then
                memcpy (pixels v) 0 src 0 (m_Stride fb1 * m_Height fb1)
              else
                let copyStride :=
                  if srcStride <? m_Stride fb1 then srcStride else m_Stride fb1 in
                copy_rows (Z.to_nat (m_Height fb1)) (pixels v) 0 src 0
                          copyStride srcStride (m_Stride fb1)
            in
            match copied with
            | None => None
            | Some px =>
                Some (set_view fb1
                        (Some {| header :=
                                   {| width := width (header v);
                                      height := height (header v);
                                      stride := stride (header v);
                                      frameNumber := frameNo;
                                      locked := locked (header v) |};
                                 pixels := px |}))
            end
        end
  end.

(** [Shutdown]: the flag is cleared, the view unmapped, and [m_pHeader] and
    [m_pPixels] set to null. *)
Definition Shutdown (fb : DaroFrameBuffer) : DaroFrameBuffer :=
  {| m_Width := m_Width fb; m_Height := m_Height fb; m_Stride := m_Stride fb;
     m_pMapView := None; m_IsLocked := false |}.

End FrameBuffer.

(** ** [Renderer.cpp]: layer dispatch and masking *)

Module Renderer.
Import SharedTypes.

(** [D2D1_COLOR_F] / [XMFLOAT4]. *)
Record Color := mkColor { cr : F32.t; cg : F32.t; cb : F32.t; ca : F32.t }.

(** [D2D1_ANTIALIAS_MODE]: Direct2D offers exactly these two. *)
Inductive AntialiasMode := PER_PRIMITIVE | ALIASED.

(** The four depth-stencil states the renderer creates. *)
Inductive StencilState := DSState_Disabled | DSState_WriteMask
                        | DSState_TestInner | DSState_TestOuter.

(** What reaches the drawing back ends, in order.  Redundant-state elision
    ([m_CachedState]) and the transform matrix of a quad are not recorded.
    [CmdQuad constants layer] is [DrawIndexed(6, 0, 0)] for [layer];
    [constants] is the tint [UpdateConstantBuffer] has just written, [None]
    when [Map] refused the constant buffer, which then still holds what an
    earlier draw left in it. *)
Inductive DrawCmd :=
| CmdClearTarget (color : Color)
| CmdClearStencil
| CmdSetStencil (s : StencilState) (ref : Z)
| CmdColorWrite (enabled : bool)
| CmdQuad (constants : option Color) (layer : DaroLayer)
| CmdFillEllipse (cx cy rx ry : F32.t) (brush : Color) (aa : AntialiasMode)
| CmdText (layer : DaroLayer) (mask : option DaroLayer)
| CmdBounds (layer : DaroLayer).

(** The answer of [ID2D1RenderTarget::EndDraw]; for
    [D2DERR_RECREATE_TARGET] also whether [RecreateD2DTarget] obtained a new
    target. *)
Inductive EndDraw := EndDrawOk | EndDrawFailed | EndDrawRecreate (recreated : bool).

(** The font properties the cached text format was created for:
    [m_LastFontFamily], [m_LastFontSize], [m_LastFontBold],
    [m_LastFontItalic], [m_LastTextAlignment], [m_LastLineHeight]. *)
Record FontKey := mkFontKey {
  fk_family : list Z;
  fk_size : F32.t;
  fk_bold : bool;
  fk_italic : bool;
  fk_alignment : Z;
  fk_lineHeight : F32.t
}.

Record DaroRenderer := mkRenderer {
  m_ShowBounds : bool;
  m_D2DRenderTarget : bool;      (* non-null *)
  m_D2DFactory : bool;
  m_DWriteFactory : bool;
  m_CachedShapeBrush : option Color;   (* the brush and the colour it holds *)
  m_LastShapeColor : Color;
  m_CachedTextBrush : option Color;
  m_LastTextColor : Color;
  m_CachedTextFormat : option FontKey; (* the format and what it was created for *)
  brush_create_ok : bool;        (* CreateSolidColorBrush succeeds *)
  format_create_ok : bool;       (* CreateTextFormat succeeds *)
  geometry_create_ok : bool;     (* CreateEllipseGeometry, CreateRectangleGeometry *)
  path_create_ok : bool;         (* CreatePathGeometry and its sink *)
  cb_map_ok : bool;              (* Map on the constant buffer succeeds *)
  end_draws : list EndDraw       (* answers of the coming EndDraw calls *)
}.

Definition minus_one : F32.t := SFopp F32.one.

Definition RecreateD2DTarget (recreated : bool) (r : DaroRenderer) : DaroRenderer :=
  {| m_ShowBounds := m_ShowBounds r;
     m_D2DRenderTarget := recreated;
     m_D2DFactory := m_D2DFactory r;
     m_DWriteFactory := m_DWriteFactory r;
     m_CachedShapeBrush := None;
     m_LastShapeColor := mkColor minus_one minus_one minus_one minus_one;
     m_CachedTextBrush := None;
     m_LastTextColor := mkColor minus_one minus_one minus_one minus_one;
     m_CachedTextFormat := None;
     brush_create_ok := brush_create_ok r;
     format_create_ok := format_create_ok r;
     geometry_create_ok := geometry_create_ok r;
     path_create_ok := path_create_ok r;
     cb_map_ok := cb_map_ok r;
     end_draws := end_draws r |}.

(** The tail every Direct2D routine shares: [EndDraw] and, on
    [D2DERR_RECREATE_TARGET], the rebuild of the target. *)
Definition finish_draw (r : DaroRenderer) : DaroRenderer :=
  let r' := {| m_ShowBounds := m_ShowBounds r;
               m_D2DRenderTarget := m_D2DRenderTarget r;
               m_D2DFactory := m_D2DFactory r;
               m_DWriteFactory := m_DWriteFactory r;
               m_CachedShapeBrush := m_CachedShapeBrush r;
               m_LastShapeColor := m_LastShapeColor r;
               m_CachedTextBrush := m_CachedTextBrush r;
               m_LastTextColor := m_LastTextColor r;
               m_CachedTextFormat := m_CachedTextFormat r;
               brush_create_ok := brush_create_ok r;
               format_create_ok := format_create_ok r;
               geometry_create_ok := geometry_create_ok r;
               path_create_ok := path_create_ok r;
               cb_map_ok := cb_map_ok r;
               end_draws := tail (end_draws r) |} in
  match end_draws r with
  | EndDrawRecreate b :: _ => RecreateD2DTarget b r'
  | _ => r'
  end.

Definition set_brush (r : DaroRenderer) (c : Color) : DaroRenderer :=
  {| m_ShowBounds := m_ShowBounds r;
     m_D2DRenderTarget := m_D2DRenderTarget r;
     m_D2DFactory := m_D2DFactory r;
     m_DWriteFactory := m_DWriteFactory r;
     m_CachedShapeBrush := Some c;
     m_LastShapeColor := c;
     m_CachedTextBrush := m_CachedTextBrush r;
     m_LastTextColor := m_LastTextColor r;
     m_CachedTextFormat := m_CachedTextFormat r;
     brush_create_ok := brush_create_ok r;
     format_create_ok := format_create_ok r;
     geometry_create_ok := geometry_create_ok r;
     path_create_ok := path_create_ok r;
     cb_map_ok := cb_map_ok r;
     end_draws := end_draws r |}.

Definition set_text_brush (r : DaroRenderer) (c : Color) : DaroRenderer :=
  {| m_ShowBounds := m_ShowBounds r;
     m_D2DRenderTarget := m_D2DRenderTarget r;
     m_D2DFactory := m_D2DFactory r;
     m_DWriteFactory := m_DWriteFactory r;
     m_CachedShapeBrush := m_CachedShapeBrush r;
     m_LastShapeColor := m_LastShapeColor r;
     m_CachedTextBrush := Some c;
     m_LastTextColor := c;
     m_CachedTextFormat := m_CachedTextFormat r;
     brush_create_ok := brush_create_ok r;
     format_create_ok := format_create_ok r;
     geometry_create_ok := geometry_create_ok r;
     path_create_ok := path_create_ok r;
     cb_map_ok := cb_map_ok r;
     end_draws := end_draws r |}.

Definition set_text_format (r : DaroRenderer) (f : option FontKey) : DaroRenderer :=
  {| m_ShowBounds := m_ShowBounds r;
     m_D2DRenderTarget := m_D2DRenderTarget r;
     m_D2DFactory := m_D2DFactory r;
     m_DWriteFactory := m_DWriteFactory r;
     m_CachedShapeBrush := m_CachedShapeBrush r;
     m_LastShapeColor := m_LastShapeColor r;
     m_CachedTextBrush := m_CachedTextBrush r;
     m_LastTextColor := m_LastTextColor r;
     m_CachedTextFormat := f;
     brush_create_ok := brush_create_ok r;
     format_create_ok := format_create_ok r;
     geometry_create_ok := geometry_create_ok r;
     path_create_ok := path_create_ok r;
     cb_map_ok := cb_map_ok r;
     end_draws := end_draws r |}.

(** [a != b] on floats. *)
Definition f32_neq (a b : F32.t) : bool := negb (F32.eqb a b).

Definition color_differs (c d : Color) : bool :=
  f32_neq (cr c) (cr d) || f32_neq (cg c) (cg d)
  || f32_neq (cb c) (cb d) || f32_neq (ca c) (ca d).

(** The tint [UpdateConstantBuffer] computes for a quad. *)
Definition quad_tint (layer : DaroLayer) : Color :=
  {| cr := F32.mul (colorR layer) (opacity layer);
     cg := F32.mul (colorG layer) (opacity layer);
     cb := F32.mul (colorB layer) (opacity layer);
     ca := opacity layer |}.

(** [UpdateConstantBuffer(layer, hasTexture)]: the constants are written
    under [if (SUCCEEDED(Map(...)))], and there is no [else]. *)
Definition UpdateConstantBuffer (r : DaroRenderer) (layer : DaroLayer) : option Color :=
  if cb_map_ok r then Some (quad_tint layer) else None.

(** [RenderRectangle]: the constants are updated, then one textured unit
    quad is drawn, whatever [Map] answered. *)
Definition RenderRectangle (r : DaroRenderer) (layer : DaroLayer) : list DrawCmd :=
  [CmdQuad (UpdateConstantBuffer r layer) layer].

(** [RenderCircle]. *)
Definition RenderCircle (r : DaroRenderer) (layer : DaroLayer)
  : DaroRenderer * list DrawCmd :=
  if negb (m_D2DRenderTarget r) then (r, [])
  else
    let color := {| cr := colorR layer; cg := colorG layer; cb := colorB layer;
                    ca := F32.mul (colorA layer) (opacity layer) |} in
    let brushed :=
      match m_CachedShapeBrush r with
      | None => if brush_create_ok r then Some (set_brush r color) else None
      | Some _ =>
          if color_differs color (m_LastShapeColor r)
          then Some (set_brush r color) else Some r
      end in
    match brushed with
    | None => (r, [])
    | Some r1 =>
        let radius := F32.mul (F32.min (sizeX layer) (sizeY layer)) F32.half in
        let brush := default color (m_CachedShapeBrush r1) in
        (finish_draw r1,
         [CmdFillEllipse (posX layer) (posY layer) radius radius brush PER_PRIMITIVE])
    end.

(** The characters of a [wchar_t] array before its first NUL. *)
Fixpoint until_nul (s : list Z) : list Z :=
  match s with
  | [] => []
  | c :: rest => if c =? 0 then [] else c :: until_nul rest
  end.

(** The font properties [RenderText] asks for: the family up to
    [wcsnlen(fontFamily, DARO_MAX_FONTNAME)], the size or 48 when it is not
    positive, the two style flags, the alignment and the line height. *)
Definition font_key (layer : DaroLayer) : FontKey :=
  {| fk_family := until_nul (take (Z.to_nat DARO_MAX_FONTNAME) (fontFamily layer));
     fk_size := if F32.ltb F32.zero (fontSize layer) then fontSize layer
                else F32.of_Z 48;
     fk_bold := negb (fontBold layer =? 0);
     fk_italic := negb (fontItalic layer =? 0);
     fk_alignment := textAlignment layer;
     fk_lineHeight := lineHeight layer |}.

(** [needNewFormat], given a cached format. *)
Definition font_differs (cached wanted : FontKey) : bool :=
  negb (bool_decide (fk_family cached = fk_family wanted))
  || f32_neq (fk_size cached) (fk_size wanted)
  || negb (eqb (fk_bold cached) (fk_bold wanted))
  || negb (eqb (fk_italic cached) (fk_italic wanted))
  || negb (fk_alignment cached =? fk_alignment wanted)
  || f32_neq (fk_lineHeight cached) (fk_lineHeight wanted).

(** The mask [RenderText] applies ([useMaskLayer]): the one it was given,
    if its geometry and, in Outer mode, the path with the hole cut out
    could be created. *)
Definition text_mask (r : DaroRenderer) (mask : option DaroLayer) : option DaroLayer :=
  match mask with
  | Some m =>
      if negb (geometry_create_ok r) then None
      else if (maskMode m =? 1) && negb (path_create_ok r) then None
      else Some m
  | None => None
  end.

(** [RenderText]: the guards of the source, the text format and the brush
    from their caches or made anew -- either can fail, and the routine then
    returns without drawing -- then one text draw under the mask that
    could be built; font selection and layout belong to the text back
    end. *)
Definition RenderText (r : DaroRenderer) (layer : DaroLayer) (mask : option DaroLayer)
  : DaroRenderer * list DrawCmd :=
  if negb (m_D2DRenderTarget r) || negb (m_DWriteFactory r) || negb (m_D2DFactory r)
  then (r, [])
  else if hd 0 (textContent layer) =? 0 then (r, [])
  else
    let needNewFormat :=
      match m_CachedTextFormat r with
      | None => true
      | Some cached => font_differs cached (font_key layer)
      end in
    let formatted :=
      if needNewFormat
      then if format_create_ok r
           then Some (set_text_format r (Some (font_key layer)))
           else None
      else Some r in
    match formatted with
    | None => (set_text_format r None, [])
    | Some r1 =>
        let color := {| cr := colorR layer; cg := colorG layer; cb := colorB layer;
                        ca := F32.mul (colorA layer) (opacity layer) |} in
        let brushed :=
          match m_CachedTextBrush r1 with
          | None => if brush_create_ok r1 then Some (set_text_brush r1 color) else None
          | Some _ =>
              if color_differs color (m_LastTextColor r1)
              then Some (set_text_brush r1 color) else Some r1
          end in
        match brushed with
        | None => (r1, [])
        | Some r2 =>
            (finish_draw r2, [CmdText layer (text_mask r2 mask)])
        end
    end.

(** [RenderBoundingBox]. *)
Definition RenderBoundingBox (r : DaroRenderer) (layer : DaroLayer)
  : DaroRenderer * list DrawCmd :=
  if negb (m_D2DRenderTarget r) || negb (m_D2DFactory r) then (r, [])
  else if negb (brush_create_ok r) then (r, [])
  else (finish_draw r, [CmdBounds layer]).

(** [Clear(r, g, b, a)]: the render target takes the colour and the stencil
    buffer is reset. *)
Definition Clear (red green blue alpha : F32.t) : list DrawCmd :=
  [CmdClearTarget (mkColor red green blue alpha); CmdClearStencil].

(** [RenderLayer]. *)
Definition RenderLayer (r : DaroRenderer) (layer : DaroLayer)
  : DaroRenderer * list DrawCmd :=
  if active layer =? 0 then (r, [])
  else if layerType layer =? DARO_TYPE_TEXT then RenderText r layer None
  else if layerType layer =? DARO_TYPE_CIRCLE then RenderCircle r layer
  else if (layerType layer =? DARO_TYPE_MASK) || (layerType layer =? DARO_TYPE_GROUP)
  then (r, [])
  else (r, RenderRectangle r layer).

(** [RenderMaskToStencil]: the mask's bounding quad, made opaque white,
    written to the stencil plane only. *)
Definition RenderMaskToStencil (r : DaroRenderer) (mask : DaroLayer) : list DrawCmd :=
  let tempMask :=
    {| id := id mask; active := active mask; layerType := layerType mask;
       posX := posX mask; posY := posY mask; sizeX := sizeX mask; sizeY := sizeY mask;
       rotX := rotX mask; rotY := rotY mask; rotZ := rotZ mask;
       anchorX := anchorX mask; anchorY := anchorY mask;
       opacity := F32.one;
       colorR := F32.one; colorG := F32.one; colorB := F32.one; colorA := F32.one;
       sourceType := sourceType mask; textureId := textureId mask;
       spoutReceiverId := spoutReceiverId mask;
       texX := texX mask; texY := texY mask; texW := texW mask; texH := texH mask;
       texRot := texRot mask; textureLocked := textureLocked mask;
       textContent := textContent mask; fontFamily := fontFamily mask;
       fontSize := fontSize mask; fontBold := fontBold mask;
       fontItalic := fontItalic mask; textAlignment := textAlignment mask;
       lineHeight := lineHeight mask; letterSpacing := letterSpacing mask;
       textAntialiasMode := textAntialiasMode mask;
       texturePath := texturePath mask;
       maskMode := maskMode mask; maskedLayerCount := maskedLayerCount mask;
       maskedLayerIds := maskedLayerIds mask |} in
  [CmdSetStencil DSState_WriteMask 1; CmdColorWrite false]
    ++ RenderRectangle r tempMask ++ [CmdColorWrite true].

(** The branch one iteration of the loop of [RenderWithMasks] takes. *)
Inductive Route :=
| RouteInactive                 (* [!layer->active]: continue *)
| RouteMaskPreview              (* a Mask layer *)
| RouteGroup                    (* a Group layer: continue *)
| RouteMasked (maskIndex : Z)   (* found in the index: masked path *)
| RouteBadMask                  (* index entry out of bounds: continue *)
| RoutePlain.                   (* not masked: [RenderLayer] *)

Definition route (layerCount : Z) (layerToMasks : gmap Z (list Z)) (layer : DaroLayer)
  : Route :=
  if active layer =? 0 then RouteInactive
  else if layerType layer =? DARO_TYPE_MASK then RouteMaskPreview
  else if layerType layer =? DARO_TYPE_GROUP then RouteGroup
  else
    match layerToMasks !! id layer with
    | Some (maskIndex :: _) =>
        if (maskIndex <? 0) || (layerCount <=? maskIndex) then RouteBadMask
        else RouteMasked maskIndex
    | _ => RoutePlain
    end.

(** [if (m_ShowBounds) RenderBoundingBox(layer)]. *)
Definition bounds_if_shown (r : DaroRenderer) (layer : DaroLayer)
  : DaroRenderer * list DrawCmd :=
  if m_ShowBounds r then RenderBoundingBox r layer else (r, []).

(** The masked path for [layer] under [mask]. *)
Definition render_masked (r : DaroRenderer) (layer mask : DaroLayer)
  : DaroRenderer * list DrawCmd :=
  if layerType layer =? DARO_TYPE_TEXT then RenderText r layer (Some mask)
  else
    let '(r1, cmds) := RenderLayer r layer in
    (r1,
     [CmdClearStencil] ++ RenderMaskToStencil r mask
       ++ [CmdSetStencil (if maskMode mask =? 0 then DSState_TestInner
                          else DSState_TestOuter) 1]
       ++ cmds ++ [CmdSetStencil DSState_Disabled 0]).

(** The body of the loop of [RenderWithMasks] for one layer. *)
Definition render_one (layers : list DaroLayer) (layerCount : Z)
           (layerToMasks : gmap Z (list Z))
           (r : DaroRenderer) (layer : DaroLayer)
  : DaroRenderer * list DrawCmd :=
  match route layerCount layerToMasks layer with
  | RouteInactive | RouteGroup | RouteBadMask => (r, [])
  | RouteMaskPreview =>
      let '(r1, b) := bounds_if_shown r layer in
      (r1, RenderRectangle r layer ++ b)
  | RouteMasked maskIndex =>
      match layers !! Z.to_nat maskIndex with
      | Some mask =>
          let '(r1, c) := render_masked r layer mask in
          let '(r2, b) := bounds_if_shown r1 layer in
          (r2, c ++ b)
      | None => (r, [])
      end
  | RoutePlain =>
      let '(r1, c) := RenderLayer r layer in
      let '(r2, b) := bounds_if_shown r1 layer in
      (r2, c ++ b)
  end.

(** [RenderWithMasks(layers, layerCount, layerToMasks)]: the layers in their
    original order. *)
Definition RenderWithMasks (r : DaroRenderer) (layers : list DaroLayer)
           (layerCount : Z) (layerToMasks : gmap Z (list Z))
  : DaroRenderer * list DrawCmd :=
  fold_left
    (fun acc layer =>
       let '(r1, c) := render_one layers layerCount layerToMasks (fst acc) layer in
       (r1, snd acc ++ c))
    (take (Z.to_nat layerCount) layers)
    (r, [CmdSetStencil DSState_Disabled 0]).

End Renderer.

(** ** [DaroEngine.cpp]: the exported entry points *)

Module Engine.
Import SharedTypes.

(** The file-scope state of [DaroEngine.cpp].  [layerToMasks] is the
    function-local [static thread_local] map of [Daro_Render], which
    survives from one frame to the next. *)
Record State := mkState {
  g_Renderer : option Renderer.DaroRenderer;
  g_FrameBuffer : option FrameBuffer.DaroFrameBuffer;
  g_Initialized : bool;
  g_Layers : list DaroLayer;          (* DaroLayer g_Layers[DARO_MAX_LAYERS] *)
  g_LayerCount : Z;
  g_FPS : F64.t;
  g_FrameTime : F64.t;
  g_DroppedFrames : Z;
  g_FrameNumber : Z;
  g_TargetFps : F64.t;
  g_PerfFreq : Z;
  g_LastFrameTime : Z;
  layerToMasks : gmap Z (list Z)
}.

Definition with_layers (st : State) (ls : list DaroLayer) (n : Z) : State :=
  {| g_Renderer := g_Renderer st; g_FrameBuffer := g_FrameBuffer st;
     g_Initialized := g_Initialized st;
     g_Layers := ls; g_LayerCount := n;
     g_FPS := g_FPS st; g_FrameTime := g_FrameTime st;
     g_DroppedFrames := g_DroppedFrames st; g_FrameNumber := g_FrameNumber st;
     g_TargetFps := g_TargetFps st; g_PerfFreq := g_PerfFreq st;
     g_LastFrameTime := g_LastFrameTime st;
     layerToMasks := layerToMasks st |}.

(** The state at program start (static initialisers). *)
Definition initial : State :=
  {| g_Renderer := None; g_FrameBuffer := None; g_Initialized := false;
     g_Layers := replicate 64 zero_layer; g_LayerCount := 0;
     g_FPS := F64.zero; g_FrameTime := F64.zero;
     g_DroppedFrames := 0; g_FrameNumber := 0;
     g_TargetFps := F64.of_Z 50; g_PerfFreq := 0; g_LastFrameTime := 0;
     layerToMasks := ∅ |}.

(** *** Layer table *)

(** [Daro_SetLayerCount]. *)
Definition Daro_SetLayerCount (st : State) (count : Z) : State :=
  let count := if count <? 0 then 0 else count in
  with_layers st (g_Layers st) (Z.min count DARO_MAX_LAYERS).

(** [Daro_UpdateLayer(index, layer)]; [layer = None] is the null pointer. *)
Definition Daro_UpdateLayer (st : State) (index : Z) (layer : option DaroLayer)
  : State :=
  match layer with
  | Some l =>
      if (index <? 0) || (DARO_MAX_LAYERS <=? index) then st
      else with_layers st (<[Z.to_nat index := l]> (g_Layers st)) (g_LayerCount st)
  | None => st
  end.

(** [Daro_GetLayer(index, layer)].  [out] is what the caller's buffer holds
    before the call ([None]: null pointer); the result is what it holds
    afterwards. *)
Definition Daro_GetLayer (st : State) (index : Z) (out : option DaroLayer)
  : option DaroLayer :=
  match out with
  | Some old =>
      if (index <? 0) || (DARO_MAX_LAYERS <=? index) then Some old
      else Some (default old (g_Layers st !! Z.to_nat index))
  | None => None
  end.

(** [Daro_ClearLayers]. *)
Definition Daro_ClearLayers (st : State) : State :=
  with_layers st (replicate 64 zero_layer) 0.

(** *** Frame statistics *)

Definition with_stats (st : State) (fps ft : F64.t) (dropped last frameNo : Z) : State :=
  {| g_Renderer := g_Renderer st; g_FrameBuffer := g_FrameBuffer st;
     g_Initialized := g_Initialized st;
     g_Layers := g_Layers st; g_LayerCount := g_LayerCount st;
     g_FPS := fps; g_FrameTime := ft;
     g_DroppedFrames := dropped; g_FrameNumber := frameNo;
     g_TargetFps := g_TargetFps st; g_PerfFreq := g_PerfFreq st;
     g_LastFrameTime := last;
     layerToMasks := layerToMasks st |}.

(** The elapsed seconds [Daro_EndFrame] measures when the performance
    counter reads [now]. *)
Definition measured_elapsed (st : State) (now : Z) : F64.t :=
  F64.div (F64.of_Z (Int.wrap64 (now - g_LastFrameTime st))) (F64.of_Z (g_PerfFreq st)).

(** [1.0 / g_TargetFps]. *)
Definition targetFrameTime (st : State) : F64.t := F64.div F64.one (g_TargetFps st).

(** The literal [1.5]. *)
Definition one_and_half : F64.t := F64.of_scaled 3 (-1).

(** The increment [Daro_EndFrame] applies to the dropped-frame counter. *)
Definition dropped_increment (elapsed target : F64.t) : Z :=
  if F64.gtb elapsed (F64.mul target one_and_half) then
    let droppedCount := Int.wrap32 (F64.to_int (F64.div elapsed target) - 1) in
    if 0 <? droppedCount then droppedCount else 0
  else 0.

(** [Daro_EndFrame]; [now] is the value [QueryPerformanceCounter] returns. *)
Definition Daro_EndFrame (st : State) (now : Z) : State :=
  if negb (g_Initialized st) then st
  else
    let elapsed := measured_elapsed st now in
    with_stats st
      (if F64.gtb elapsed (F64.decimal 1 6) then F64.div F64.one elapsed else F64.zero)
      (F64.mul elapsed (F64.of_Z 1000))
      (Int.wrap32 (g_DroppedFrames st + dropped_increment elapsed (targetFrameTime st)))
      now
      (Int.wrap64 (g_FrameNumber st + 1)).

(** *** Mask index *)

(** [layerToMasks[maskedId].push_back(i)]: [operator[]] creates an empty
    vector for a key that is not there yet. *)
Definition push_mask (m : gmap Z (list Z)) (maskedId i : Z) : gmap Z (list Z) :=
  <[maskedId := default [] (m !! maskedId) ++ [i]]> m.

(** The inner loop over [maskedLayerIds[0 .. safeCount)]. *)
Definition add_targets (m : gmap Z (list Z)) (i : Z) (targets : list Z)
  : gmap Z (list Z) :=
  fold_left (fun m maskedId => if 0 <=? maskedId then push_mask m maskedId i else m)
            targets m.

(** The target entries a mask layer contributes:
    [maskedLayerIds[0 .. min(maskedLayerCount, DARO_MAX_LAYERS))]. *)
Definition scanned_targets (layer : DaroLayer) : list Z :=
  take (Z.to_nat (Z.min (maskedLayerCount layer) DARO_MAX_LAYERS)) (maskedLayerIds layer).

(** One iteration of the outer loop, for the layer at index [i]. *)
Definition index_layer (m : gmap Z (list Z)) (i : Z) (layer : DaroLayer)
  : gmap Z (list Z) :=
  if (layerType layer =? DARO_TYPE_MASK) && (0 <? maskedLayerCount layer)
  then add_targets m i (scanned_targets layer)
  else m.

(** The outer loop, from index [i] on. *)
Fixpoint index_from (m : gmap Z (list Z)) (i : Z) (layers : list DaroLayer)
  : gmap Z (list Z) :=
  match layers with
  | [] => m
  | layer :: rest => index_from (index_layer m i layer) (i + 1) rest
  end.

(** The whole index construction of [Daro_Render]: every vector left from
    the previous frame is cleared (its key stays), then the snapshot is
    scanned. *)
Definition build_mask_index (prev : gmap Z (list Z)) (localLayers : list DaroLayer)
  : gmap Z (list Z) :=
  index_from ((fun _ => []) <$> prev) 0 localLayers.

(** *** Render *)

(** The answer of [MapStaging]: the mapped bytes and their row pitch. *)
Definition Staging : Type := option (list byte * Z).

(** [Daro_Render].  Returns the new state and the draw commands issued, or
    [None] if the publish ran out of bounds. *)
Definition Daro_Render (reader : list FrameBuffer.ReaderOp) (staging : Staging)
           (st : State) : option (State * list Renderer.DrawCmd) :=
  if negb (g_Initialized st) then Some (st, [])
  else
    match g_Renderer st with
    | None => Some (st, [])
    | Some r =>
        let localLayerCount := g_LayerCount st in
        let localLayers := take (Z.to_nat localLayerCount) (g_Layers st) in
        let idx := build_mask_index (layerToMasks st) localLayers in
        let '(r', drawn) :=
          Renderer.RenderWithMasks r localLayers localLayerCount idx in
        let cmds := Renderer.Clear F32.zero F32.zero F32.zero F32.zero ++ drawn in
        let published :=
          match staging, g_FrameBuffer st with
          | Some (pData, rowPitch), Some fb =>
              option_map Some
                (FrameBuffer.Write reader fb (Some pData) rowPitch (g_FrameNumber st))
          | _, fbo => Some fbo
          end in
        match published with
        | None => None
        | Some fbo =>
            Some ({| g_Renderer := Some r'; g_FrameBuffer := fbo;
                     g_Initialized := g_Initialized st;
                     g_Layers := g_Layers st; g_LayerCount := g_LayerCount st;
                     g_FPS := g_FPS st; g_FrameTime := g_FrameTime st;
                     g_DroppedFrames := g_DroppedFrames st;
                     g_FrameNumber := g_FrameNumber st;
                     g_TargetFps := g_TargetFps st; g_PerfFreq := g_PerfFreq st;
                     g_LastFrameTime := g_LastFrameTime st;
                     layerToMasks := idx |},
                  cmds)
        end
    end.

End Engine.

(** ** [FFmpegDecoder.cpp]: the fallback decode back end *)

Module FFmpegDecoder.

(** The answer of [avcodec_receive_frame]; a decoded frame carries a tag
    that identifies its picture. *)
Inductive AvRecv := RecvFrame (tag : Z) | RecvAgain | RecvError.

(** One turn of the packet pump: what [av_read_frame] delivers and what the
    codec does with it. *)
Inductive AvPacket :=
| AvReadFail (eof : bool)          (* av_read_frame < 0; eof: AVERROR_EOF *)
| AvPkt (video : bool) (send_ok : bool) (recv : AvRecv).

(** What libav reports when asked about a file. *)
Record AvFile := mkAvFile {
  av_open_ok : bool;               (* avformat_open_input *)
  av_stream_info_ok : bool;        (* avformat_find_stream_info *)
  av_best_stream : Z;              (* av_find_best_stream *)
  av_width : Z;
  av_height : Z;
  av_r_frame_rate : Z * Z;
  av_avg_frame_rate : Z * Z;
  av_format_duration : Z;          (* m_FmtCtx->duration, in 1/AV_TIME_BASE s *)
  av_stream_duration : Z;
  av_time_base : Z * Z;
  av_nb_frames : Z;
  av_codec_alloc_ok : bool;
  av_params_ok : bool;
  av_codec_open_ok : bool;
  av_pix_alpha : bool;             (* pixel format has AV_PIX_FMT_FLAG_ALPHA *)
  av_frames_alloc_ok : bool;
  av_sws_ok : bool;
  av_buf_size : Z;
  av_malloc_ok : bool;
  av_packets : list AvPacket;      (* the coming packets *)
  av_seeks : list bool             (* the answers of the coming av_seek_frame calls *)
}.

Definition AV_TIME_BASE : Z := 1000000.

Record Decoder := mkDecoder {
  m_Width : Z;
  m_Height : Z;
  m_Duration : F64.t;
  m_FrameRate : F64.t;
  m_TotalFrames : Z;
  m_HasAlpha : bool;
  m_EndOfStream : bool;
  m_Opened : bool;
  m_OutputBuffer : option Z;       (* the picture converted last, by its tag *)
  packets : list AvPacket;
  seeks : list bool;
  seek_log : list Z                (* timestamps handed to av_seek_frame, latest first *)
}.

(** A decoder as constructed, equally the state [Close] leaves. *)
Definition closed : Decoder :=
  {| m_Width := 0; m_Height := 0; m_Duration := F64.zero; m_FrameRate := F64.zero;
     m_TotalFrames := 0; m_HasAlpha := false; m_EndOfStream := false;
     m_Opened := false; m_OutputBuffer := None;
     packets := []; seeks := []; seek_log := [] |}.

Definition ratio (nd : Z * Z) : F64.t := F64.div (F64.of_Z (fst nd)) (F64.of_Z (snd nd)).

(** The frame rate [Open] settles on. *)
Definition probe_frame_rate (f : AvFile) : F64.t :=
  if (0 <? fst (av_r_frame_rate f)) && (0 <? snd (av_r_frame_rate f))
  then ratio (av_r_frame_rate f)
  else if (0 <? fst (av_avg_frame_rate f)) && (0 <? snd (av_avg_frame_rate f))
  then ratio (av_avg_frame_rate f)
  else F64.of_Z 25.

Definition probe_duration (f : AvFile) : F64.t :=
  if 0 <? av_format_duration f
  then F64.div (F64.of_Z (av_format_duration f)) (F64.of_Z AV_TIME_BASE)
  else if (0 <? av_stream_duration f) && (0 <? snd (av_time_base f))
  then F64.div (F64.mul (F64.of_Z (av_stream_duration f)) (F64.of_Z (fst (av_time_base f))))
               (F64.of_Z (snd (av_time_base f)))
  else F64.zero.

Definition probe_total_frames (f : AvFile) : Z :=
  if 0 <? av_nb_frames f then Int.wrap32 (av_nb_frames f)
  else if F64.gtb (probe_duration f) F64.zero && F64.gtb (probe_frame_rate f) F64.zero
  then F64.to_int (F64.mul (probe_duration f) (probe_frame_rate f))
  else 0.

(** [Open]: every early exit leaves the decoder closed. *)
Definition Open (f : AvFile) : bool * Decoder :=
  if negb (av_open_ok f) then (false, closed)
  else if negb (av_stream_info_ok f) then (false, closed)
  else if av_best_stream f <? 0 then (false, closed)
  else if (av_width f <=? 0) || (av_height f <=? 0)
          || (8192 <? av_width f) || (8192 <? av_height f) then (false, closed)
  else if negb (av_codec_alloc_ok f) then (false, closed)
  else if negb (av_params_ok f) then (false, closed)
  else if negb (av_codec_open_ok f) then (false, closed)
  else if negb (av_frames_alloc_ok f) then (false, closed)
  else if negb (av_sws_ok f) then (false, closed)
  else if av_buf_size f <=? 0 then (false, closed)
  else if negb (av_malloc_ok f) then (false, closed)
  else
    (true,
     {| m_Width := av_width f; m_Height := av_height f;
        m_Duration := probe_duration f;
        m_FrameRate := probe_frame_rate f;
        m_TotalFrames := probe_total_frames f;
        m_HasAlpha := av_pix_alpha f;
        m_EndOfStream := false; m_Opened := true;
        m_OutputBuffer := None;
        packets := av_packets f; seeks := av_seeks f; seek_log := [] |}).

(** How one run of the [while (true)] pump of [DecodeNextFrame] ends. *)
Inductive Pumped :=
| PumpFrame (tag : Z)              (* return true *)
| PumpFail (eof : bool).           (* return false; eof: m_EndOfStream = true *)

(** The pump.  The script lists the packets and read failures to come;
    past its end [av_read_frame] answers [AVERROR_EOF], as at the end of a
    file. *)
Fixpoint pump (pkts : list AvPacket) : Pumped * list AvPacket :=
  match pkts with
  | [] => (PumpFail true, [])
  | AvReadFail eof :: rest => (PumpFail eof, rest)
  | AvPkt video send_ok recv :: rest =>
      if negb video then pump rest
      else if negb send_ok then pump rest
      else
        match recv with
        | RecvAgain => pump rest
        | RecvError => (PumpFail false, rest)
        | RecvFrame tag => (PumpFrame tag, rest)
        end
  end.

Definition with_stream (d : Decoder) (eos : bool) (buf : option Z)
           (pk : list AvPacket) (sk : list bool) (lg : list Z) : Decoder :=
  {| m_Width := m_Width d; m_Height := m_Height d; m_Duration := m_Duration d;
     m_FrameRate := m_FrameRate d; m_TotalFrames := m_TotalFrames d;
     m_HasAlpha := m_HasAlpha d;
     m_EndOfStream := eos; m_Opened := m_Opened d;
     m_OutputBuffer := buf; packets := pk; seeks := sk; seek_log := lg |}.

(** [DecodeNextFrame]. *)
Definition DecodeNextFrame (d : Decoder) : bool * Decoder :=
  if negb (m_Opened d) || m_EndOfStream d then (false, d)
  else
    match pump (packets d) with
    | (PumpFrame tag, rest) =>
        (true, with_stream d (m_EndOfStream d) (Some tag) rest (seeks d) (seek_log d))
    | (PumpFail eof, rest) =>
        (false, with_stream d (eof || m_EndOfStream d) (m_OutputBuffer d) rest
                            (seeks d) (seek_log d))
    end.

(** [SeekToTime].  An exhausted answer script means the seek succeeds. *)
Definition SeekToTime (d : Decoder) (seconds : F64.t) : bool * Decoder :=
  if negb (m_Opened d) then (false, d)
  else
    let ts := F64.to_int64 (F64.mul seconds (F64.of_Z AV_TIME_BASE)) in
    let ok := hd true (seeks d) in
    (ok, with_stream d (if ok then false else m_EndOfStream d) (m_OutputBuffer d)
                     (packets d) (tail (seeks d)) (ts :: seek_log d)).

(** [SeekToFrame]. *)
Definition SeekToFrame (d : Decoder) (frame : Z) : bool * Decoder :=
  if negb (m_Opened d) then (false, d)
  else
    SeekToTime d (if F64.gtb (m_FrameRate d) F64.zero
                  then F64.div (F64.of_Z frame) (m_FrameRate d) else F64.zero).

End FFmpegDecoder.

(** ** [VideoPlayer.cpp]: one video source *)

Module VideoPlayer.

(** The answer of [IMFSourceReader::ReadSample].  A sample carries its
    timestamp (100 ns units) and whether its bytes can be had
    ([ConvertToContiguousBuffer] and [Lock] succeed). *)
Inductive ReadSample :=
| RS_Failed
| RS_EndOfStream
| RS_Sample (timestamp : Z) (buffer_ok : bool)
| RS_Null.

(** A Media Foundation source reader, seen from the caller. *)
Record MFReader := mkReader {
  reads : list ReadSample;         (* the answers of the coming ReadSample calls *)
  positions : list bool;           (* the answers of the coming SetCurrentPosition calls *)
  position_log : list Z            (* positions requested, latest first *)
}.

(** [ReadSample].  The script lists the answers of the coming calls,
    failures included; past its last answer the reader flags end of stream,
    as at the end of a file.  A reader that goes on failing is followed for
    as many calls as the script lists. *)
Definition read_sample (rd : MFReader) : ReadSample * MFReader :=
  (hd RS_EndOfStream (reads rd),
   {| reads := tail (reads rd); positions := positions rd;
      position_log := position_log rd |}).

(** [SetCurrentPosition].  An exhausted answer script means success. *)
Definition set_position (rd : MFReader) (pos : Z) : bool * MFReader :=
  (hd true (positions rd),
   {| reads := reads rd; positions := tail (positions rd);
      position_log := pos :: position_log rd |}).

Record Player := mkPlayer {
  m_Device : bool;   (* non-null *)
  m_Context : bool;
  m_Reader : option MFReader;
  m_Texture : option (option Z);   (* the texture and the frame it shows *)
  m_SRV : bool;
  m_FilePath : string;
  m_Width : Z;
  m_Height : Z;
  m_Duration : F64.t;
  m_FrameRate : F64.t;
  m_TotalFrames : Z;
  m_CurrentFrame : Z;
  m_CurrentTime : F64.t;
  m_Loaded : bool;
  m_Playing : bool;
  m_Loop : bool;
  m_EndOfStream : bool;
  m_FrameCopied : bool;
  m_NeedsAlphaFix : bool;
  m_VideoAlpha : bool;
  m_UsingFFmpeg : bool;
  m_FFmpegDecoder : option FFmpegDecoder.Decoder;
  m_LastFrameTime : Z;
  m_Frequency : Z;
  m_FrameDuration : F64.t;
  m_AccumulatedTime : F64.t;
  texture_maps : list bool         (* the answers of the coming Map calls on the texture *)
}.

(** Field updates. *)
Definition set_m_Device (v : bool) (p : Player) : Player :=
  mkPlayer v (m_Context p) (m_Reader p) (m_Texture p) (m_SRV p) (m_FilePath p)
    (m_Width p) (m_Height p) (m_Duration p) (m_FrameRate p) (m_TotalFrames p)
    (m_CurrentFrame p) (m_CurrentTime p) (m_Loaded p) (m_Playing p) (m_Loop p)
    (m_EndOfStream p) (m_FrameCopied p) (m_NeedsAlphaFix p) (m_VideoAlpha p)
    (m_UsingFFmpeg p) (m_FFmpegDecoder p) (m_LastFrameTime p) (m_Frequency p)
    (m_FrameDuration p) (m_AccumulatedTime p) (texture_maps p).
Definition set_m_Context (v : bool) (p : Player) : Player :=
  mkPlayer (m_Device p) v (m_Reader p) (m_Texture p) (m_SRV p) (m_FilePath p) 
    (m_Width p) (m_Height p) (m_Duration p) (m_FrameRate p) (m_TotalFrames p) 
    (m_CurrentFrame p) (m_CurrentTime p) (m_Loaded p) (m_Playing p) (m_Loop p) (m_EndOfStream p)
    (m_FrameCopied p) (m_NeedsAlphaFix p) (m_VideoAlpha p) (m_UsingFFmpeg p)
    (m_FFmpegDecoder p) (m_LastFrameTime p) (m_Frequency p) (m_FrameDuration p)
    (m_AccumulatedTime p) (texture_maps p).
Definition set_m_Reader (v : option MFReader) (p : Player) : Player :=
  mkPlayer (m_Device p) (m_Context p) v (m_Texture p) (m_SRV p) (m_FilePath p)
    (m_Width p) (m_Height p) (m_Duration p) (m_FrameRate p) (m_TotalFrames p)
    (m_CurrentFrame p) (m_CurrentTime p) (m_Loaded p) (m_Playing p) (m_Loop p)
    (m_EndOfStream p) (m_FrameCopied p) (m_NeedsAlphaFix p) (m_VideoAlpha p)
    (m_UsingFFmpeg p) (m_FFmpegDecoder p) (m_LastFrameTime p) (m_Frequency p)
    (m_FrameDuration p) (m_AccumulatedTime p) (texture_maps p).
Definition set_m_Texture (v : option (option Z)) (p : Player) : Player :=
  mkPlayer (m_Device p) (m_Context p) (m_Reader p) v (m_SRV p) (m_FilePath p) 
    (m_Width p) (m_Height p) (m_Duration p) (m_FrameRate p) (m_TotalFrames p) 
    (m_CurrentFrame p) (m_CurrentTime p) (m_Loaded p) (m_Playing p) (m_Loop p) (m_EndOfStream p)
    (m_FrameCopied p) (m_NeedsAlphaFix p) (m_VideoAlpha p) (m_UsingFFmpeg p)
    (m_FFmpegDecoder p) (m_LastFrameTime p) (m_Frequency p) (m_FrameDuration p)
    (m_AccumulatedTime p) (texture_maps p).
Definition set_m_SRV (v : bool) (p : Player) : Player :=
  mkPlayer (m_Device p) (m_Context p) (m_Reader p) (m_Texture p) v (m_FilePath p)
    (m_Width p) (m_Height p) (m_Duration p) (m_FrameRate p) (m_TotalFrames p)
    (m_CurrentFrame p) (m_CurrentTime p) (m_Loaded p) (m_Playing p) (m_Loop p)
    (m_EndOfStream p) (m_FrameCopied p) (m_NeedsAlphaFix p) (m_VideoAlpha p)
    (m_UsingFFmpeg p) (m_FFmpegDecoder p) (m_LastFrameTime p) (m_Frequency p)
    (m_FrameDuration p) (m_AccumulatedTime p) (texture_maps p).
Definition set_m_FilePath (v : string) (p : Player) : Player :=
  mkPlayer (m_Device p) (m_Context p) (m_Reader p) (m_Texture p) (m_SRV p) v 
    (m_Width p) (m_Height p) (m_Duration p) (m_FrameRate p) (m_TotalFrames p) 
    (m_CurrentFrame p) (m_CurrentTime p) (m_Loaded p) (m_Playing p) (m_Loop p) (m_EndOfStream p)
    (m_FrameCopied p) (m_NeedsAlphaFix p) (m_VideoAlpha p) (m_UsingFFmpeg p)
    (m_FFmpegDecoder p) (m_LastFrameTime p) (m_Frequency p) (m_FrameDuration p)
    (m_AccumulatedTime p) (texture_maps p).
Definition set_m_Width (v : Z) (p : Player) : Player :=
  mkPlayer (m_Device p) (m_Context p) (m_Reader p) (m_Texture p) (m_SRV p)
    (m_FilePath p) v (m_Height p) (m_Duration p) (m_FrameRate p) (m_TotalFrames p) 
    (m_CurrentFrame p) (m_CurrentTime p) (m_Loaded p) (m_Playing p) (m_Loop p) (m_EndOfStream p)
    (m_FrameCopied p) (m_NeedsAlphaFix p) (m_VideoAlpha p) (m_UsingFFmpeg p)
    (m_FFmpegDecoder p) (m_LastFrameTime p) (m_Frequency p) (m_FrameDuration p)
    (m_AccumulatedTime p) (texture_maps p).
Definition set_m_Height (v : Z) (p : Player) : Player :=
  mkPlayer (m_Device p) (m_Context p) (m_Reader p) (m_Texture p) (m_SRV p)
    (m_FilePath p) (m_Width p) v (m_Duration p) (m_FrameRate p) (m_TotalFrames p) 
    (m_CurrentFrame p) (m_CurrentTime p) (m_Loaded p) (m_Playing p) (m_Loop p) (m_EndOfStream p)
    (m_FrameCopied p) (m_NeedsAlphaFix p) (m_VideoAlpha p) (m_UsingFFmpeg p)
    (m_FFmpegDecoder p) (m_LastFrameTime p) (m_Frequency p) (m_FrameDuration p)
    (m_AccumulatedTime p) (texture_maps p).
Definition set_m_Duration (v : F64.t) (p : Player) : Player :=
  mkPlayer (m_Device p) (m_Context p) (m_Reader p) (m_Texture p) (m_SRV p)
    (m_FilePath p) (m_Width p) (m_Height p) v (m_FrameRate p) (m_TotalFrames p) (m_CurrentFrame p)
    (m_CurrentTime p) (m_Loaded p) (m_Playing p) (m_Loop p) (m_EndOfStream p)
    (m_FrameCopied p) (m_NeedsAlphaFix p) (m_VideoAlpha p) (m_UsingFFmpeg p)
    (m_FFmpegDecoder p) (m_LastFrameTime p) (m_Frequency p) (m_FrameDuration p)
    (m_AccumulatedTime p) (texture_maps p).
Definition set_m_FrameRate (v : F64.t) (p : Player) : Player :=
  mkPlayer (m_Device p) (m_Context p) (m_Reader p) (m_Texture p) (m_SRV p)
    (m_FilePath p) (m_Width p) (m_Height p) (m_Duration p) v (m_TotalFrames p) (m_CurrentFrame p)
    (m_CurrentTime p) (m_Loaded p) (m_Playing p) (m_Loop p) (m_EndOfStream p)
    (m_FrameCopied p) (m_NeedsAlphaFix p) (m_VideoAlpha p) (m_UsingFFmpeg p)
    (m_FFmpegDecoder p) (m_LastFrameTime p) (m_Frequency p) (m_FrameDuration p)
    (m_AccumulatedTime p) (texture_maps p).
Definition set_m_TotalFrames (v : Z) (p : Player) : Player :=
  mkPlayer (m_Device p) (m_Context p) (m_Reader p) (m_Texture p) (m_SRV p)
    (m_FilePath p) (m_Width p) (m_Height p) (m_Duration p) (m_FrameRate p) v (m_CurrentFrame p)
    (m_CurrentTime p) (m_Loaded p) (m_Playing p) (m_Loop p) (m_EndOfStream p)
    (m_FrameCopied p) (m_NeedsAlphaFix p) (m_VideoAlpha p) (m_UsingFFmpeg p)
    (m_FFmpegDecoder p) (m_LastFrameTime p) (m_Frequency p) (m_FrameDuration p)
    (m_AccumulatedTime p) (texture_maps p).
Definition set_m_CurrentFrame (v : Z) (p : Player) : Player :=
  mkPlayer (m_Device p) (m_Context p) (m_Reader p) (m_Texture p) (m_SRV p)
    (m_FilePath p) (m_Width p) (m_Height p) (m_Duration p) (m_FrameRate p) (m_TotalFrames p) v
    (m_CurrentTime p) (m_Loaded p) (m_Playing p) (m_Loop p) (m_EndOfStream p)
    (m_FrameCopied p) (m_NeedsAlphaFix p) (m_VideoAlpha p) (m_UsingFFmpeg p)
    (m_FFmpegDecoder p) (m_LastFrameTime p) (m_Frequency p) (m_FrameDuration p)
    (m_AccumulatedTime p) (texture_maps p).
Definition set_m_CurrentTime (v : F64.t) (p : Player) : Player :=
  mkPlayer (m_Device p) (m_Context p) (m_Reader p) (m_Texture p) (m_SRV p)
    (m_FilePath p) (m_Width p) (m_Height p) (m_Duration p) (m_FrameRate p) (m_TotalFrames p)
    (m_CurrentFrame p) v (m_Loaded p) (m_Playing p) (m_Loop p) (m_EndOfStream p)
    (m_FrameCopied p) (m_NeedsAlphaFix p) (m_VideoAlpha p) (m_UsingFFmpeg p)
    (m_FFmpegDecoder p) (m_LastFrameTime p) (m_Frequency p) (m_FrameDuration p)
    (m_AccumulatedTime p) (texture_maps p).
Definition set_m_Loaded (v : bool) (p : Player) : Player :=
  mkPlayer (m_Device p) (m_Context p) (m_Reader p) (m_Texture p) (m_SRV p)
    (m_FilePath p) (m_Width p) (m_Height p) (m_Duration p) (m_FrameRate p) (m_TotalFrames p)
    (m_CurrentFrame p) (m_CurrentTime p) v (m_Playing p) (m_Loop p) (m_EndOfStream p)
    (m_FrameCopied p) (m_NeedsAlphaFix p) (m_VideoAlpha p) (m_UsingFFmpeg p)
    (m_FFmpegDecoder p) (m_LastFrameTime p) (m_Frequency p) (m_FrameDuration p)
    (m_AccumulatedTime p) (texture_maps p).
Definition set_m_Playing (v : bool) (p : Player) : Player :=
  mkPlayer (m_Device p) (m_Context p) (m_Reader p) (m_Texture p) (m_SRV p)
    (m_FilePath p) (m_Width p) (m_Height p) (m_Duration p) (m_FrameRate p) (m_TotalFrames p)
    (m_CurrentFrame p) (m_CurrentTime p) (m_Loaded p) v (m_Loop p) (m_EndOfStream p)
    (m_FrameCopied p) (m_NeedsAlphaFix p) (m_VideoAlpha p) (m_UsingFFmpeg p)
    (m_FFmpegDecoder p) (m_LastFrameTime p) (m_Frequency p) (m_FrameDuration p)
    (m_AccumulatedTime p) (texture_maps p).
Definition set_m_Loop (v : bool) (p : Player) : Player :=
  mkPlayer (m_Device p) (m_Context p) (m_Reader p) (m_Texture p) (m_SRV p)
    (m_FilePath p) (m_Width p) (m_Height p) (m_Duration p) (m_FrameRate p) (m_TotalFrames p)
    (m_CurrentFrame p) (m_CurrentTime p) (m_Loaded p) (m_Playing p) v 
    (m_EndOfStream p) (m_FrameCopied p) (m_NeedsAlphaFix p) (m_VideoAlpha p) (m_UsingFFmpeg p)
    (m_FFmpegDecoder p) (m_LastFrameTime p) (m_Frequency p) (m_FrameDuration p)
    (m_AccumulatedTime p) (texture_maps p).
Definition set_m_EndOfStream (v : bool) (p : Player) : Player :=
  mkPlayer (m_Device p) (m_Context p) (m_Reader p) (m_Texture p) (m_SRV p)
    (m_FilePath p) (m_Width p) (m_Height p) (m_Duration p) (m_FrameRate p) (m_TotalFrames p)
    (m_CurrentFrame p) (m_CurrentTime p) (m_Loaded p) (m_Playing p) (m_Loop p) v
    (m_FrameCopied p) (m_NeedsAlphaFix p) (m_VideoAlpha p) (m_UsingFFmpeg p)
    (m_FFmpegDecoder p) (m_LastFrameTime p) (m_Frequency p) (m_FrameDuration p)
    (m_AccumulatedTime p) (texture_maps p).
Definition set_m_FrameCopied (v : bool) (p : Player) : Player :=
  mkPlayer (m_Device p) (m_Context p) (m_Reader p) (m_Texture p) (m_SRV p)
    (m_FilePath p) (m_Width p) (m_Height p) (m_Duration p) (m_FrameRate p) (m_TotalFrames p)
    (m_CurrentFrame p) (m_CurrentTime p) (m_Loaded p) (m_Playing p) (m_Loop p)
    (m_EndOfStream p) v (m_NeedsAlphaFix p) (m_VideoAlpha p) (m_UsingFFmpeg p)
    (m_FFmpegDecoder p) (m_LastFrameTime p) (m_Frequency p) (m_FrameDuration p)
    (m_AccumulatedTime p) (texture_maps p).
Definition set_m_NeedsAlphaFix (v : bool) (p : Player) : Player :=
  mkPlayer (m_Device p) (m_Context p) (m_Reader p) (m_Texture p) (m_SRV p)
    (m_FilePath p) (m_Width p) (m_Height p) (m_Duration p) (m_FrameRate p) (m_TotalFrames p)
    (m_CurrentFrame p) (m_CurrentTime p) (m_Loaded p) (m_Playing p) (m_Loop p)
    (m_EndOfStream p) (m_FrameCopied p) v (m_VideoAlpha p) (m_UsingFFmpeg p)
    (m_FFmpegDecoder p) (m_LastFrameTime p) (m_Frequency p) (m_FrameDuration p)
    (m_AccumulatedTime p) (texture_maps p).
Definition set_m_VideoAlpha (v : bool) (p : Player) : Player :=
  mkPlayer (m_Device p) (m_Context p) (m_Reader p) (m_Texture p) (m_SRV p)
    (m_FilePath p) (m_Width p) (m_Height p) (m_Duration p) (m_FrameRate p) (m_TotalFrames p)
    (m_CurrentFrame p) (m_CurrentTime p) (m_Loaded p) (m_Playing p) (m_Loop p)
    (m_EndOfStream p) (m_FrameCopied p) (m_NeedsAlphaFix p) v (m_UsingFFmpeg p)
    (m_FFmpegDecoder p) (m_LastFrameTime p) (m_Frequency p) (m_FrameDuration p)
    (m_AccumulatedTime p) (texture_maps p).
Definition set_m_UsingFFmpeg (v : bool) (p : Player) : Player :=
  mkPlayer (m_Device p) (m_Context p) (m_Reader p) (m_Texture p) (m_SRV p)
    (m_FilePath p) (m_Width p) (m_Height p) (m_Duration p) (m_FrameRate p) (m_TotalFrames p)
    (m_CurrentFrame p) (m_CurrentTime p) (m_Loaded p) (m_Playing p) (m_Loop p)
    (m_EndOfStream p) (m_FrameCopied p) (m_NeedsAlphaFix p) (m_VideoAlpha p) v
    (m_FFmpegDecoder p) (m_LastFrameTime p) (m_Frequency p) (m_FrameDuration p)
    (m_AccumulatedTime p) (texture_maps p).
Definition set_m_FFmpegDecoder (v : option FFmpegDecoder.Decoder) (p : Player) : Player :=
  mkPlayer (m_Device p) (m_Context p) (m_Reader p) (m_Texture p) (m_SRV p)
    (m_FilePath p) (m_Width p) (m_Height p) (m_Duration p) (m_FrameRate p) (m_TotalFrames p)
    (m_CurrentFrame p) (m_CurrentTime p) (m_Loaded p) (m_Playing p) (m_Loop p)
    (m_EndOfStream p) (m_FrameCopied p) (m_NeedsAlphaFix p) (m_VideoAlpha p)
    (m_UsingFFmpeg p) v (m_LastFrameTime p) (m_Frequency p) (m_FrameDuration p)
    (m_AccumulatedTime p) (texture_maps p).
Definition set_m_LastFrameTime (v : Z) (p : Player) : Player :=
  mkPlayer (m_Device p) (m_Context p) (m_Reader p) (m_Texture p) (m_SRV p)
    (m_FilePath p) (m_Width p) (m_Height p) (m_Duration p) (m_FrameRate p) (m_TotalFrames p)
    (m_CurrentFrame p) (m_CurrentTime p) (m_Loaded p) (m_Playing p) (m_Loop p)
    (m_EndOfStream p) (m_FrameCopied p) (m_NeedsAlphaFix p) (m_VideoAlpha p)
    (m_UsingFFmpeg p) (m_FFmpegDecoder p) v (m_Frequency p) (m_FrameDuration p)
    (m_AccumulatedTime p) (texture_maps p).
Definition set_m_Frequency (v : Z) (p : Player) : Player :=
  mkPlayer (m_Device p) (m_Context p) (m_Reader p) (m_Texture p) (m_SRV p)
    (m_FilePath p) (m_Width p) (m_Height p) (m_Duration p) (m_FrameRate p) (m_TotalFrames p)
    (m_CurrentFrame p) (m_CurrentTime p) (m_Loaded p) (m_Playing p) (m_Loop p)
    (m_EndOfStream p) (m_FrameCopied p) (m_NeedsAlphaFix p) (m_VideoAlpha p)
    (m_UsingFFmpeg p) (m_FFmpegDecoder p) (m_LastFrameTime p) v (m_FrameDuration p)
    (m_AccumulatedTime p) (texture_maps p).
Definition set_m_FrameDuration (v : F64.t) (p : Player) : Player :=
  mkPlayer (m_Device p) (m_Context p) (m_Reader p) (m_Texture p) (m_SRV p)
    (m_FilePath p) (m_Width p) (m_Height p) (m_Duration p) (m_FrameRate p) (m_TotalFrames p)
    (m_CurrentFrame p) (m_CurrentTime p) (m_Loaded p) (m_Playing p) (m_Loop p)
    (m_EndOfStream p) (m_FrameCopied p) (m_NeedsAlphaFix p) (m_VideoAlpha p)
    (m_UsingFFmpeg p) (m_FFmpegDecoder p) (m_LastFrameTime p) (m_Frequency p) v
    (m_AccumulatedTime p) (texture_maps p).
Definition set_m_AccumulatedTime (v : F64.t) (p : Player) : Player :=
  mkPlayer (m_Device p) (m_Context p) (m_Reader p) (m_Texture p) (m_SRV p)
    (m_FilePath p) (m_Width p) (m_Height p) (m_Duration p) (m_FrameRate p) (m_TotalFrames p)
    (m_CurrentFrame p) (m_CurrentTime p) (m_Loaded p) (m_Playing p) (m_Loop p)
    (m_EndOfStream p) (m_FrameCopied p) (m_NeedsAlphaFix p) (m_VideoAlpha p)
    (m_UsingFFmpeg p) (m_FFmpegDecoder p) (m_LastFrameTime p) (m_Frequency p)
    (m_FrameDuration p) v (texture_maps p).
Definition set_texture_maps (v : list bool) (p : Player) : Player :=
  mkPlayer (m_Device p) (m_Context p) (m_Reader p) (m_Texture p) (m_SRV p)
    (m_FilePath p) (m_Width p) (m_Height p) (m_Duration p) (m_FrameRate p) (m_TotalFrames p)
    (m_CurrentFrame p) (m_CurrentTime p) (m_Loaded p) (m_Playing p) (m_Loop p)
    (m_EndOfStream p) (m_FrameCopied p) (m_NeedsAlphaFix p) (m_VideoAlpha p)
    (m_UsingFFmpeg p) (m_FFmpegDecoder p) (m_LastFrameTime p) (m_Frequency p)
    (m_FrameDuration p) (m_AccumulatedTime p) v.

(** The constructor reads the counter frequency and the counter. *)
Definition new_player (freq now : Z) : Player :=
  {| m_Device := false; m_Context := false; m_Reader := None; m_Texture := None;
     m_SRV := false; m_FilePath := EmptyString; m_Width := 0; m_Height := 0;
     m_Duration := F64.zero; m_FrameRate := F64.zero; m_TotalFrames := 0;
     m_CurrentFrame := 0; m_CurrentTime := F64.zero;
     m_Loaded := false; m_Playing := false; m_Loop := false;
     m_EndOfStream := false; m_FrameCopied := false; m_NeedsAlphaFix := false;
     m_VideoAlpha := false; m_UsingFFmpeg := false; m_FFmpegDecoder := None;
     m_LastFrameTime := now; m_Frequency := freq;
     m_FrameDuration := F64.zero; m_AccumulatedTime := F64.zero;
     texture_maps := [] |}.

(** [Initialize(device, context)]. *)
Definition Initialize (device context : bool) (p : Player) : bool * Player :=
  if negb device || negb context then (false, p)
  else (true, set_m_Context true (set_m_Device true p)).

Definition MAX_VIDEO_FILE_SIZE : Z := 4 * 1024 * 1024 * 1024.
Definition MAX_VIDEO_DIMENSION : Z := 8192.

(** [UnloadVideoInternal]. *)
Definition UnloadVideoInternal (p : Player) : Player :=
  set_m_TotalFrames 0 (set_m_Duration F64.zero (set_m_Height 0 (set_m_Width 0
  (set_m_Reader None (set_m_Texture None (set_m_SRV false (set_m_FFmpegDecoder None
  (set_m_CurrentTime F64.zero (set_m_CurrentFrame 0 (set_m_UsingFFmpeg false
  (set_m_NeedsAlphaFix false (set_m_FrameCopied false (set_m_EndOfStream false
  (set_m_Loaded false (set_m_Playing false p))))))))))))))).

(** [CreateTexture]; [tex] tells whether [CreateTexture2D] and
    [CreateShaderResourceView] succeed. *)
Definition CreateTexture (tex : bool * bool) (p : Player) : bool * Player :=
  if negb (m_Device p) || (m_Width p <=? 0) || (m_Height p <=? 0) then (false, p)
  else if negb (fst tex) then (false, p)
  else (snd tex, set_m_SRV (snd tex) (set_m_Texture (Some None) p)).

(** The part [CopyFrameToTexture] and [CopyBufferToTexture] share: [Map]
    the texture, copy the rows of frame [tag], mark the frame as copied. *)
Definition map_and_copy (tag : Z) (p : Player) : Player :=
  let p1 := set_texture_maps (tail (texture_maps p)) p in
  if hd true (texture_maps p)
  then set_m_FrameCopied true (set_m_Texture (Some (Some tag)) p1)
  else p1.

(** [CopyFrameToTexture(sample)]. *)
Definition CopyFrameToTexture (timestamp : Z) (buffer_ok : bool) (p : Player) : Player :=
  match m_Texture p with
  | None => p
  | Some _ =>
      if negb (m_Context p) then p
      else if negb buffer_ok then p
      else if m_Width p * 4 =? 0 then set_texture_maps (tail (texture_maps p)) p
      else map_and_copy timestamp p
  end.

(** [CopyBufferToTexture(srcData, srcStride)]; [frame = None] is a null
    [srcData]. *)
Definition CopyBufferToTexture (frame : option Z) (srcStride : Z) (p : Player) : Player :=
  match frame, m_Texture p with
  | Some tag, Some _ =>
      if negb (m_Context p) || (srcStride <=? 0) then p else map_and_copy tag p
  | _, _ => p
  end.

Definition ticks_per_second : F64.t := F64.of_Z 10000000.

(** [DecodeNextFrame] (Media Foundation). *)
Definition DecodeNextFrame (p : Player) : bool * Player :=
  match m_Reader p with
  | None => (false, p)
  | Some rd =>
      let '(res, rd') := read_sample rd in
      let p1 := set_m_Reader (Some rd') p in
      match res with
      | RS_Failed => (false, p1)
      | RS_EndOfStream => (false, set_m_EndOfStream true p1)
      | RS_Sample timestamp buffer_ok =>
          let p2 := CopyFrameToTexture timestamp buffer_ok p1 in
          let t := F64.div (F64.of_Z timestamp) ticks_per_second in
          (true,
           set_m_CurrentFrame (F64.to_int (F64.mul t (m_FrameRate p2)))
             (set_m_CurrentTime t p2))
      | RS_Null => (false, p1)
      end
  end.

(** The decoder's [DecodeNextFrame] followed, on success, by
    [CopyBufferToTexture(GetFrameData(), GetFrameStride())]. *)
Definition ffmpeg_decode_and_copy (d : FFmpegDecoder.Decoder) (p : Player)
  : bool * Player :=
  let '(ok, d') := FFmpegDecoder.DecodeNextFrame d in
  let p1 := set_m_FFmpegDecoder (Some d') p in
  if ok
  then (true, CopyBufferToTexture (FFmpegDecoder.m_OutputBuffer d')
                                  (FFmpegDecoder.m_Width d' * 4) p1)
  else (false, p1).

(** [SeekToFrameInternal(frame)]. *)
Definition SeekToFrameInternal (frame : Z) (p : Player) : Player :=
  if negb (m_Loaded p) then p
  else
    let frame := Z.max 0 (Z.min frame (if 0 <? m_TotalFrames p
                                       then m_TotalFrames p - 1 else 0)) in
    let targetTime :=
      if F64.gtb (m_FrameRate p) F64.zero
      then F64.div (F64.of_Z frame) (m_FrameRate p) else F64.zero in
    if m_UsingFFmpeg p then
      let p1 :=
        match m_FFmpegDecoder p with
        | Some d =>
            snd (ffmpeg_decode_and_copy (snd (FFmpegDecoder.SeekToFrame d frame)) p)
        | None => p
        end in
      set_m_EndOfStream false (set_m_CurrentTime targetTime (set_m_CurrentFrame frame p1))
    else
      match m_Reader p with
      | None => p
      | Some rd =>
          let '(ok, rd') :=
            set_position rd (F64.to_int64 (F64.mul targetTime ticks_per_second)) in
          let p1 := set_m_Reader (Some rd') p in
          if ok then
            snd (DecodeNextFrame
                   (set_m_EndOfStream false
                      (set_m_CurrentTime targetTime (set_m_CurrentFrame frame p1))))
          else p1
      end.

(** [SeekToFrame(frame)]. *)
Definition SeekToFrame (frame : Z) (p : Player) : Player :=
  if negb (m_Loaded p) then p else SeekToFrameInternal frame p.

(** [SeekToTime(seconds)]. *)
Definition SeekToTime (seconds : F64.t) (p : Player) : Player :=
  if F64.gtb (m_FrameRate p) F64.zero
  then SeekToFrame (F64.to_int (F64.mul seconds (m_FrameRate p))) p
  else p.

(** [Play]; [now] is the counter reading. *)
Definition Play (now : Z) (p : Player) : Player :=
  if negb (m_Loaded p) then p
  else set_m_LastFrameTime now (set_m_AccumulatedTime F64.zero (set_m_Playing true p)).

(** [Pause]. *)
Definition Pause (p : Player) : Player := set_m_Playing false p.

(** [Stop]. *)
Definition Stop (p : Player) : Player :=
  let p0 := set_m_Playing false p in
  if negb (m_Loaded p0) then p0
  else if m_UsingFFmpeg p0 then
    let p1 :=
      match m_FFmpegDecoder p0 with
      | Some d =>
          snd (ffmpeg_decode_and_copy (snd (FFmpegDecoder.SeekToTime d F64.zero)) p0)
      | None => p0
      end in
    set_m_EndOfStream false (set_m_CurrentTime F64.zero (set_m_CurrentFrame 0 p1))
  else
    match m_Reader p0 with
    | None => p0
    | Some rd =>
        let '(ok, rd') := set_position rd 0 in
        let p1 := set_m_Reader (Some rd') p0 in
        if ok then
          snd (DecodeNextFrame
                 (set_m_EndOfStream false
                    (set_m_CurrentTime F64.zero (set_m_CurrentFrame 0 p1))))
        else p1
    end.

(** [SetLoop], [SetVideoAlpha]. *)
Definition SetLoop (loop : bool) (p : Player) : Player := set_m_Loop loop p.
Definition SetVideoAlpha (alpha : bool) (p : Player) : Player := set_m_VideoAlpha alpha p.

(** *** Loading *)

(** What Media Foundation reports when asked about a file. *)
Record MFFile := mkMFFile {
  mf_attributes_ok : bool;         (* MFCreateAttributes *)
  mf_reader : option MFReader;     (* MFCreateSourceReaderFromURL *)
  mf_type_ok : bool;               (* MFCreateMediaType, first call *)
  mf_argb32_ok : bool;             (* SetCurrentMediaType(ARGB32) *)
  mf_type2_ok : bool;              (* MFCreateMediaType, second call *)
  mf_rgb32_ok : bool;              (* SetCurrentMediaType(RGB32) *)
  mf_current_type_ok : bool;       (* GetCurrentMediaType *)
  mf_frame_size : option (Z * Z);  (* MFGetAttributeSize, two UINT32 *)
  mf_frame_rate : option (Z * Z);  (* MFGetAttributeRatio, two UINT32 *)
  mf_duration : option Z           (* MF_PD_DURATION as VT_UI8, 100 ns units *)
}.

(** Everything outside the process that one [LoadVideo] call consults. *)
Record LoadEnv := mkLoadEnv {
  has_ffmpeg : bool;               (* HAS_FFMPEG: the build includes libav *)
  wide_ok : bool;                  (* MultiByteToWideChar yields a length > 0 *)
  file_size : option Z;            (* GetFileAttributesExW; None: no such file *)
  mf_file : MFFile;
  av_file : FFmpegDecoder.AvFile;
  tex_mf : bool * bool;            (* texture creation during the primary attempt *)
  tex_ff : bool * bool;            (* texture creation during the fallback attempt *)
  maps : list bool;                (* the answers of the coming Map calls *)
  now_mf : Z;                      (* counter reading during the primary attempt *)
  now_ff : Z                       (* counter reading during the fallback attempt *)
}.

(** [strstr(filePath, "..") != nullptr]. *)
Fixpoint has_dotdot (s : string) : bool :=
  match s with
  | EmptyString => false
  | String c rest =>
      match rest with
      | EmptyString => false
      | String c' _ => (Ascii.eqb c "." && Ascii.eqb c' ".") || has_dotdot rest
      end
  end.

(** The frame rate and frame duration [LoadVideoMF] settles on. *)
Definition mf_rate (e : MFFile) : F64.t * F64.t :=
  match mf_frame_rate e with
  | Some (numerator, denominator) =>
      if (0 <? denominator) && (0 <? numerator) then
        let rate := F64.div (F64.of_Z numerator) (F64.of_Z denominator) in
        (rate, F64.div F64.one rate)
      else (F64.of_Z 25, F64.decimal 4 2)
  | None => (F64.of_Z 25, F64.decimal 4 2)
  end.

(** The pixel format negotiation of [LoadVideoMF]: [Some needsFix] when a format
    was accepted, [needsFix] telling whether alpha must be forced. *)
Definition mf_negotiate (e : MFFile) : option bool :=
  if mf_argb32_ok e then Some false
  else if negb (mf_type2_ok e) then None
  else if mf_rgb32_ok e then Some true
  else None.

(** [LoadVideoMF]. *)
Definition LoadVideoMF (e : MFFile) (tex : bool * bool) (now : Z) (p : Player)
  : bool * Player :=
  if negb (mf_attributes_ok e) then (false, p)
  else
    match mf_reader e with
    | None => (false, set_m_Reader None p)
    | Some rd =>
        let p1 := set_m_Reader (Some rd) p in
        if negb (mf_type_ok e) then (false, set_m_Reader None p1)
        else
          match mf_negotiate e with
          | None => (false, set_m_Reader None p1)
          | Some needsFix =>
              let p2 := set_m_NeedsAlphaFix needsFix p1 in
              if negb (mf_current_type_ok e) then (false, set_m_Reader None p2)
              else
                match mf_frame_size e with
                | None => (false, set_m_Reader None p2)
                | Some (width, height) =>
                    if (MAX_VIDEO_DIMENSION <? width) || (MAX_VIDEO_DIMENSION <? height)
                       || (width =? 0) || (height =? 0)
                    then (false, set_m_Reader None p2)
                    else
                      let p3 := set_m_Height height (set_m_Width width p2) in
                      let p4 := set_m_FrameDuration (snd (mf_rate e))
                                  (set_m_FrameRate (fst (mf_rate e)) p3) in
                      let p5 :=
                        match mf_duration e with
                        | Some q =>
                            let dur := F64.div (F64.of_Z q) ticks_per_second in
                            let totalFramesD := F64.mul dur (m_FrameRate p4) in
                            set_m_TotalFrames
                              (if F64.gtb totalFramesD (F64.of_Z Int.INT_MAX)
                               then Int.INT_MAX else F64.to_int totalFramesD)
                              (set_m_Duration dur p4)
                        | None => p4
                        end in
                      match CreateTexture tex p5 with
                      | (false, p6) =>
                          (false, set_m_Height 0 (set_m_Width 0 (set_m_Reader None p6)))
                      | (true, p6) =>
                          let p7 :=
                            set_m_LastFrameTime now
                              (set_m_AccumulatedTime F64.zero
                              (set_m_EndOfStream false
                              (set_m_CurrentTime F64.zero
                              (set_m_CurrentFrame 0
                              (set_m_UsingFFmpeg false
                              (set_m_Loaded true p6)))))) in
                          (true, set_m_Loop true (set_m_Playing true
                                   (snd (DecodeNextFrame p7))))
                      end
                end
          end
    end.

(** [LoadVideoFFmpeg]. *)
Definition LoadVideoFFmpeg (available : bool) (f : FFmpegDecoder.AvFile)
           (tex : bool * bool) (now : Z) (p : Player) : bool * Player :=
  if negb available then (false, p)
  else
    match FFmpegDecoder.Open f with
    | (false, _) => (false, set_m_FFmpegDecoder None p)
    | (true, d) =>
        let rate := FFmpegDecoder.m_FrameRate d in
        let p1 :=
          set_m_FrameDuration
            (if F64.gtb rate F64.zero then F64.div F64.one rate else F64.decimal 4 2)
            (set_m_TotalFrames (FFmpegDecoder.m_TotalFrames d)
            (set_m_FrameRate rate
            (set_m_Duration (FFmpegDecoder.m_Duration d)
            (set_m_Height (FFmpegDecoder.m_Height d)
            (set_m_Width (FFmpegDecoder.m_Width d)
            (set_m_FFmpegDecoder (Some d) p)))))) in
        match CreateTexture tex p1 with
        | (false, p2) =>
            (false, set_m_Height 0 (set_m_Width 0 (set_m_FFmpegDecoder None p2)))
        | (true, p2) =>
            let p3 :=
              set_m_LastFrameTime now
                (set_m_AccumulatedTime F64.zero
                (set_m_EndOfStream false
                (set_m_CurrentTime F64.zero
                (set_m_CurrentFrame 0
                (set_m_NeedsAlphaFix (negb (FFmpegDecoder.m_HasAlpha d))
                (set_m_UsingFFmpeg true
                (set_m_Loaded true p2))))))) in
            (true, set_m_Loop true (set_m_Playing true
                     (snd (ffmpeg_decode_and_copy d p3))))
        end
    end.

(** The decode back ends, in the order of preference. *)
Inductive Backend := Primary | Fallback.

(** [LoadVideo(filePath)]; [filePath = None] is the null pointer.  Besides
    the result the model returns which back ends were tried, in order. *)
Definition LoadVideo (env : LoadEnv) (filePath : option string) (p : Player)
  : bool * Player * list Backend :=
  match filePath with
  | None => (false, p, [])
  | Some path =>
      if negb (m_Device p) then (false, p, [])
      else if has_dotdot path then (false, p, [])
      else
        let p1 := set_texture_maps (maps env)
                    (set_m_FilePath path (UnloadVideoInternal p)) in
        if negb (wide_ok env) then (false, p1, [])
        else
          match file_size env with
          | None => (false, p1, [])
          | Some size =>
              if MAX_VIDEO_FILE_SIZE <? size then (false, p1, [])
              else
                match LoadVideoMF (mf_file env) (tex_mf env) (now_mf env) p1 with
                | (true, p2) => (true, p2, [Primary])
                | (false, p2) =>
                    match LoadVideoFFmpeg (has_ffmpeg env) (av_file env)
                                          (tex_ff env) (now_ff env) p2 with
                    | (true, p3) => (true, p3, [Primary; Fallback])
                    | (false, p3) => (false, p3, [Primary; Fallback])
                    end
                end
          end
  end.

(** *** The per-tick update *)

(** The seconds [UpdateFrame] measures when the counter reads [now]. *)
Definition elapsed_since (p : Player) (now : Z) : F64.t :=
  F64.div (F64.of_Z (Int.wrap64 (now - m_LastFrameTime p))) (F64.of_Z (m_Frequency p)).

(** What [UpdateFrame] does when the stream has ended. *)
Definition on_end_of_stream (p : Player) : Player :=
  if m_Loop p
  then set_m_EndOfStream false (set_m_Playing true (SeekToFrameInternal 0 p))
  else set_m_Playing false p.

(** The [while] loop of the FFmpeg path.  [fuel] bounds the iterations;
    [None] means the bound was hit. *)
Fixpoint ffmpeg_loop (fuel : nat) (decoded : bool) (p : Player)
  : option (bool * Player) :=
  if F64.geb (m_AccumulatedTime p) (m_FrameDuration p) && negb (m_EndOfStream p) then
    match fuel with
    | O => None
    | S fuel' =>
        let p1 := set_m_AccumulatedTime
                    (F64.sub (m_AccumulatedTime p) (m_FrameDuration p)) p in
        match m_FFmpegDecoder p1 with
        | None => Some (decoded, p1)     (* the branch is entered with a decoder *)
        | Some d =>
            match ffmpeg_decode_and_copy d p1 with
            | (true, p2) =>
                let frame := Int.wrap32 (m_CurrentFrame p2 + 1) in
                ffmpeg_loop fuel' true
                  (set_m_CurrentTime
                     (if F64.gtb (m_FrameRate p2) F64.zero
                      then F64.div (F64.of_Z frame) (m_FrameRate p2) else F64.zero)
                     (set_m_CurrentFrame frame p2))
            | (false, p2) =>
                if match m_FFmpegDecoder p2 with
                   | Some d' => FFmpegDecoder.m_EndOfStream d'
                   | None => false
                   end
                then Some (decoded, on_end_of_stream (set_m_EndOfStream true p2))
                else ffmpeg_loop fuel' decoded p2
            end
        end
    end
  else Some (decoded, p).

(** The [while] loop of the Media Foundation path. *)
Fixpoint mf_loop (fuel : nat) (decoded : bool) (p : Player)
  : option (bool * Player) :=
  if F64.geb (m_AccumulatedTime p) (m_FrameDuration p) && negb (m_EndOfStream p) then
    match fuel with
    | O => None
    | S fuel' =>
        let p1 := set_m_AccumulatedTime
                    (F64.sub (m_AccumulatedTime p) (m_FrameDuration p)) p in
        let '(decoded', p2) := DecodeNextFrame p1 in
        if m_EndOfStream p2 then Some (decoded', on_end_of_stream p2)
        else mf_loop fuel' decoded' p2
    end
  else Some (decoded, p).

(** The number of iterations the model follows the loop for: one per
    scripted answer of the active back end, and one more. *)
Definition loop_fuel (p : Player) : nat :=
  if m_UsingFFmpeg p
  then match m_FFmpegDecoder p with
       | Some d => S (length (FFmpegDecoder.packets d))
       | None => 1%nat
       end
  else match m_Reader p with
       | Some rd => S (length (reads rd))
       | None => 1%nat
       end.

(** [UpdateFrame]; [now] is the counter reading.  The result is the
    returned flag and the new state, [None] if the loop does not end
    within [loop_fuel]. *)
Definition UpdateFrame (now : Z) (p : Player) : option (bool * Player) :=
  if negb (m_Loaded p) || negb (m_Playing p) then Some (false, p)
  else
    let p1 := set_m_AccumulatedTime
                (F64.add (m_AccumulatedTime p) (elapsed_since p now))
                (set_m_LastFrameTime now p) in
    if F64.ltb (m_AccumulatedTime p1) (m_FrameDuration p1) then Some (false, p1)
    else if m_UsingFFmpeg p1 && bool_decide (is_Some (m_FFmpegDecoder p1))
    then ffmpeg_loop (loop_fuel p1) false p1
    else mf_loop (loop_fuel p1) false p1.

End VideoPlayer.

(** ** [VideoPlayer.cpp]: the registry of video sources *)

Module VideoManager.

Record Manager := mkManager {
  m_Device : bool;                 (* non-null *)
  m_Context : bool;
  m_Players : gmap Z VideoPlayer.Player;
  m_NextVideoId : Z;
  m_Initialized : bool
}.

(** The singleton as constructed. *)
Definition initial : Manager :=
  {| m_Device := false; m_Context := false; m_Players := ∅;
     m_NextVideoId := 1; m_Initialized := false |}.

Definition with_players (m : Manager) (ps : gmap Z VideoPlayer.Player) : Manager :=
  {| m_Device := m_Device m; m_Context := m_Context m; m_Players := ps;
     m_NextVideoId := m_NextVideoId m; m_Initialized := m_Initialized m |}.

(** [Initialize(device, context)]; [startup_ok] is the answer of [MFStartup]. *)
Definition Initialize (device context startup_ok : bool) (m : Manager)
  : bool * Manager :=
  if m_Initialized m then (true, m)
  else if negb device || negb context then (false, m)
  else if negb startup_ok then
    (false, {| m_Device := false; m_Context := false; m_Players := m_Players m;
               m_NextVideoId := m_NextVideoId m; m_Initialized := false |})
  else
    (true, {| m_Device := true; m_Context := true; m_Players := m_Players m;
              m_NextVideoId := m_NextVideoId m; m_Initialized := true |}).

(** [Shutdown]. *)
Definition Shutdown (m : Manager) : Manager :=
  {| m_Device := false; m_Context := false; m_Players := ∅;
     m_NextVideoId := m_NextVideoId m; m_Initialized := false |}.

Definition MAX_LOADED_VIDEOS : Z := 32.

(** [LoadVideo(filePath)].  [freq] and [now] are what the new player's
    constructor reads from the performance counter. *)
Definition LoadVideo (env : VideoPlayer.LoadEnv) (freq now : Z)
           (filePath : option string) (m : Manager) : Z * Manager :=
  if negb (m_Initialized m) || negb (bool_decide (is_Some filePath)) then (0, m)
  else if MAX_LOADED_VIDEOS <=? Z.of_nat (size (m_Players m)) then (0, m)
  else
    match VideoPlayer.Initialize (m_Device m) (m_Context m)
                                 (VideoPlayer.new_player freq now) with
    | (false, _) => (0, m)
    | (true, player) =>
        match VideoPlayer.LoadVideo env filePath player with
        | (false, _, _) => (0, m)
        | (true, player', _) =>
            let id := m_NextVideoId m in
            let next := Int.wrap32 (id + 1) in
            let '(id, next) := if id <=? 0 then (1, 1) else (id, next) in
            (id, {| m_Device := m_Device m; m_Context := m_Context m;
                    m_Players := <[id := player']> (m_Players m);
                    m_NextVideoId := next; m_Initialized := m_Initialized m |})
        end
    end.

(** [UnloadVideo(videoId)]. *)
Definition UnloadVideo (videoId : Z) (m : Manager) : Manager :=
  match m_Players m !! videoId with
  | Some _ => with_players m (delete videoId (m_Players m))
  | None => m
  end.

(** [GetPlayer(videoId)]; [None] is the null pointer. *)
Definition GetPlayer (videoId : Z) (m : Manager) : option VideoPlayer.Player :=
  m_Players m !! videoId.

(** [UpdateAll]; [clock id] is the counter reading when player [id] is
    updated.  [None] if some player's update is [None]. *)
Definition UpdateAll (clock : Z -> Z) (m : Manager) : option Manager :=
  let updated := map_imap (fun id p => Some (VideoPlayer.UpdateFrame (clock id) p))
                          (m_Players m) in
  if bool_decide (map_Forall (fun _ r => is_Some r) updated)
  then Some (with_players m (omap (fun r => snd <$> r) updated))
  else None.

(** *** The per-video entry points of [Renderer.cpp]

    Each looks the player up and acts on it through the returned pointer;
    a null pointer means the call does nothing. *)

Definition on_player (f : VideoPlayer.Player -> VideoPlayer.Player)
           (videoId : Z) (m : Manager) : Manager :=
  match GetPlayer videoId m with
  | Some player => with_players m (<[videoId := f player]> (m_Players m))
  | None => m
  end.

Definition PlayVideo (now : Z) (videoId : Z) (m : Manager) : Manager :=
  on_player (VideoPlayer.Play now) videoId m.
Definition PauseVideo (videoId : Z) (m : Manager) : Manager :=
  on_player VideoPlayer.Pause videoId m.
Definition StopVideo (videoId : Z) (m : Manager) : Manager :=
  on_player VideoPlayer.Stop videoId m.
Definition SeekVideo (videoId frame : Z) (m : Manager) : Manager :=
  on_player (VideoPlayer.SeekToFrame frame) videoId m.
Definition SeekVideoTime (videoId : Z) (seconds : F64.t) (m : Manager) : Manager :=
  on_player (VideoPlayer.SeekToTime seconds) videoId m.
Definition SetVideoLoop (videoId : Z) (loop : bool) (m : Manager) : Manager :=
  on_player (VideoPlayer.SetLoop loop) videoId m.
Definition SetVideoAlpha (videoId : Z) (alpha : bool) (m : Manager) : Manager :=
  on_player (VideoPlayer.SetVideoAlpha alpha) videoId m.

Definition IsVideoPlaying (videoId : Z) (m : Manager) : bool :=
  match GetPlayer videoId m with
  | Some player => VideoPlayer.m_Playing player
  | None => false
  end.
Definition GetVideoFrame (videoId : Z) (m : Manager) : Z :=
  match GetPlayer videoId m with
  | Some player => VideoPlayer.m_CurrentFrame player
  | None => 0
  end.
Definition GetVideoTotalFrames (videoId : Z) (m : Manager) : Z :=
  match GetPlayer videoId m with
  | Some player => VideoPlayer.m_TotalFrames player
  | None => 0
  end.
(** [GetVideoSRV]: whether a shader resource view comes back. *)
Definition GetVideoSRV (videoId : Z) (m : Manager) : bool :=
  match GetPlayer videoId m with
  | Some player => VideoPlayer.m_SRV player
  | None => false
  end.

(** [DaroRenderer::LoadVideo]: the manager is initialised on first use. *)
Definition Renderer_LoadVideo (device context startup_ok : bool)
           (env : VideoPlayer.LoadEnv) (freq now : Z)
           (filePath : option string) (m : Manager) : Z * Manager :=
  LoadVideo env freq now filePath (snd (Initialize device context startup_ok m)).

End VideoManager.

(** ** [DaroEngine.cpp]: the timeline *)

Module Timeline.

(** [g_IsPlaying], [g_CurrentFrame], [g_TotalFrames]. *)
Record Clock := mkClock {
  g_IsPlaying : bool;
  g_CurrentFrame : Z;
  g_TotalFrames : Z
}.

(** The static initialisers. *)
Definition initial : Clock :=
  {| g_IsPlaying := false; g_CurrentFrame := 0; g_TotalFrames := 250 |}.

Definition Daro_Play (c : Clock) : Clock :=
  {| g_IsPlaying := true; g_CurrentFrame := g_CurrentFrame c;
     g_TotalFrames := g_TotalFrames c |}.

Definition Daro_Stop (c : Clock) : Clock :=
  {| g_IsPlaying := false; g_CurrentFrame := g_CurrentFrame c;
     g_TotalFrames := g_TotalFrames c |}.

(** [Daro_SeekToFrame(frame)]; [initialized] is [g_Initialized]. *)
Definition Daro_SeekToFrame (initialized : bool) (frame : Z) (c : Clock) : Clock :=
  if negb initialized then c
  else
    let totalFrames := g_TotalFrames c in
    if totalFrames <=? 0 then c
    else {| g_IsPlaying := g_IsPlaying c;
            g_CurrentFrame := Z.max 0 (Z.min frame (totalFrames - 1));
            g_TotalFrames := totalFrames |}.

(** The [float] argument of [Daro_SeekToTime] as the [double] it is promoted
    to: the conversion is exact. *)
Definition promote (x : F32.t) : F64.t :=
  match x with
  | S754_finite s m e =>
      binary_normalize F64.prec F64.emax (if s then Z.neg m else Z.pos m) e s
  | other => other
  end.

(** [Daro_SeekToTime(time)]: [(int)(time * g_TargetFps)]. *)
Definition Daro_SeekToTime (initialized : bool) (targetFps : F64.t) (time : F32.t)
           (c : Clock) : Clock :=
  if negb initialized then c
  else Daro_SeekToFrame initialized
         (F64.to_int (F64.mul (promote time) targetFps)) c.

Definition Daro_IsPlaying (c : Clock) : bool := g_IsPlaying c.
Definition Daro_GetCurrentFrame (c : Clock) : Z := g_CurrentFrame c.

End Timeline.

(** ** [DaroEngine.cpp]: start-up and shut-down *)

Module Lifecycle.

Definition DARO_OK : Z := 0.
Definition DARO_ERROR_ALREADY_INIT : Z := 1.
Definition DARO_ERROR_CREATE_DEVICE : Z := 2.
Definition DARO_ERROR_CREATE_RT : Z := 3.
Definition DARO_ERROR_CREATE_SHADERS : Z := 4.
Definition DARO_ERROR_CREATE_GEOMETRY : Z := 5.
Definition DARO_ERROR_CREATE_STAGING : Z := 6.
Definition DARO_ERROR_CREATE_FRAMEBUFFER : Z := 7.

(** Whether each creation step of [DaroRenderer::Initialize] succeeds, in
    the order of the source. *)
Record RendererSteps := mkSteps {
  CreateDevice : bool;
  CreateRenderTarget : bool;
  CreateMSAARenderTarget : bool;
  CreateDepthStencil : bool;
  CreateShaders : bool;
  CreateDepthStencilStates : bool;
  CreateGeometry : bool;
  CreateStagingTexture : bool;
  InitWIC : bool;
  InitDirect2D : bool
}.

(** The code [DaroRenderer::Initialize] returns. *)
Definition Renderer_Initialize (s : RendererSteps) : Z :=
  if negb (CreateDevice s) then DARO_ERROR_CREATE_DEVICE
  else if negb (CreateRenderTarget s) then DARO_ERROR_CREATE_RT
  else if negb (CreateMSAARenderTarget s) then DARO_ERROR_CREATE_RT
  else if negb (CreateDepthStencil s) then DARO_ERROR_CREATE_RT
  else if negb (CreateShaders s) then DARO_ERROR_CREATE_SHADERS
  else if negb (CreateDepthStencilStates s) then DARO_ERROR_CREATE_SHADERS
  else if negb (CreateGeometry s) then DARO_ERROR_CREATE_GEOMETRY
  else if negb (CreateStagingTexture s) then DARO_ERROR_CREATE_STAGING
  else if negb (InitWIC s) then DARO_ERROR_CREATE_DEVICE
  else if negb (InitDirect2D s) then DARO_ERROR_CREATE_DEVICE
  else DARO_OK.

(** The renderer a successful [Initialize] leaves: the Direct2D objects in
    place, no brush cached yet, the overlay off. *)
Definition fresh_renderer (brush_ok format_ok geometry_ok path_ok constants_ok : bool)
           (draws : list Renderer.EndDraw) : Renderer.DaroRenderer :=
  {| Renderer.m_ShowBounds := false;
     Renderer.m_D2DRenderTarget := true;
     Renderer.m_D2DFactory := true;
     Renderer.m_DWriteFactory := true;
     Renderer.m_CachedShapeBrush := None;
     Renderer.m_LastShapeColor :=
       Renderer.mkColor Renderer.minus_one Renderer.minus_one
                        Renderer.minus_one Renderer.minus_one;
     Renderer.m_CachedTextBrush := None;
     Renderer.m_LastTextColor :=
       Renderer.mkColor Renderer.minus_one Renderer.minus_one
                        Renderer.minus_one Renderer.minus_one;
     Renderer.m_CachedTextFormat := None;
     Renderer.brush_create_ok := brush_ok;
     Renderer.format_create_ok := format_ok;
     Renderer.geometry_create_ok := geometry_ok;
     Renderer.path_create_ok := path_ok;
     Renderer.cb_map_ok := constants_ok;
     Renderer.end_draws := draws |}.

(** The answer of [CoInitializeEx]. *)
Inductive ComAnswer :=
| ComFresh           (* S_OK *)
| ComAlready         (* S_FALSE *)
| ComChangedMode     (* RPC_E_CHANGED_MODE *)
| ComFailed.         (* any other failure *)

(** What the world answers during one [Daro_Initialize]. *)
Record InitEnv := mkInitEnv {
  com : ComAnswer;
  steps : RendererSteps;
  brush_ok : bool;            (* CreateSolidColorBrush *)
  format_ok : bool;           (* CreateTextFormat *)
  geometry_ok : bool;         (* CreateEllipseGeometry, CreateRectangleGeometry *)
  path_ok : bool;             (* CreatePathGeometry and its sink *)
  constants_ok : bool;        (* Map on the constant buffer *)
  draws : list Renderer.EndDraw;
  map_ok : bool;              (* the file mapping of the frame buffer *)
  frequency : Z;              (* QueryPerformanceFrequency *)
  counter : Z                 (* QueryPerformanceCounter *)
}.

(** The engine together with the globals the claims' state leaves out and
    the video registry the renderer owns. *)
Record Session := mkSession {
  engine : Engine.State;
  g_LastError : Z;
  g_ComInitializedByUs : bool;
  videos : VideoManager.Manager
}.

Definition initial : Session :=
  {| engine := Engine.initial; g_LastError := DARO_OK;
     g_ComInitializedByUs := false; videos := VideoManager.initial |}.

(** The engine with its clock fields, renderer, frame buffer and flag set. *)
Definition started (st : Engine.State) (targetFps : F64.t) (freq now : Z)
           (r : option Renderer.DaroRenderer)
           (fb : option FrameBuffer.DaroFrameBuffer) (init : bool)
           (layers : list SharedTypes.DaroLayer) (count : Z) : Engine.State :=
  {| Engine.g_Renderer := r; Engine.g_FrameBuffer := fb;
     Engine.g_Initialized := init;
     Engine.g_Layers := layers; Engine.g_LayerCount := count;
     Engine.g_FPS := Engine.g_FPS st; Engine.g_FrameTime := Engine.g_FrameTime st;
     Engine.g_DroppedFrames := Engine.g_DroppedFrames st;
     Engine.g_FrameNumber := Engine.g_FrameNumber st;
     Engine.g_TargetFps := targetFps; Engine.g_PerfFreq := freq;
     Engine.g_LastFrameTime := now;
     Engine.layerToMasks := Engine.layerToMasks st |}.

(** [Daro_Initialize(width, height, targetFps)].  Releasing the renderer
    runs its destructor, which shuts the video registry down. *)
Definition Daro_Initialize (env : InitEnv) (width height : Z) (targetFps : F64.t)
           (s : Session) : Z * Session :=
  let st := engine s in
  if Engine.g_Initialized st then
    (DARO_ERROR_ALREADY_INIT,
     {| engine := st; g_LastError := DARO_ERROR_ALREADY_INIT;
        g_ComInitializedByUs := g_ComInitializedByUs s; videos := videos s |})
  else
    match com env with
    | ComFailed =>
        (DARO_ERROR_CREATE_DEVICE,
         {| engine := st; g_LastError := DARO_ERROR_CREATE_DEVICE;
            g_ComInitializedByUs := g_ComInitializedByUs s; videos := videos s |})
    | answer =>
        let byUs := match answer with ComFresh => true | _ => false end in
        let rendererResult := Renderer_Initialize (steps env) in
        if negb (rendererResult =? DARO_OK) then
          (rendererResult,
           {| engine := started st targetFps (frequency env) (counter env)
                          None (Engine.g_FrameBuffer st) false
                          (Engine.g_Layers st) (Engine.g_LayerCount st);
              g_LastError := rendererResult;
              g_ComInitializedByUs := byUs;
              videos := VideoManager.Shutdown (videos s) |})
        else
          match FrameBuffer.Initialize (map_ok env) FrameBuffer.unmapped width height with
          | (false, _) =>
              (DARO_ERROR_CREATE_FRAMEBUFFER,
               {| engine := started st targetFps (frequency env) (counter env)
                              None None false
                              (Engine.g_Layers st) (Engine.g_LayerCount st);
                  g_LastError := DARO_ERROR_CREATE_FRAMEBUFFER;
                  g_ComInitializedByUs := byUs;
                  videos := VideoManager.Shutdown (videos s) |})
          | (true, fb) =>
              (DARO_OK,
               {| engine := started st targetFps (frequency env) (counter env)
                              (Some (fresh_renderer (brush_ok env) (format_ok env)
                                                    (geometry_ok env) (path_ok env)
                                                    (constants_ok env) (draws env)))
                              (Some fb) true
                              (replicate 64 SharedTypes.zero_layer) 0;
                  g_LastError := DARO_OK;
                  g_ComInitializedByUs := byUs;
                  videos := videos s |})
          end
    end.

(** [Daro_Shutdown]. *)
Definition Daro_Shutdown (s : Session) : Session :=
  let st := engine s in
  if negb (Engine.g_Initialized st) then s
  else
    {| engine := started st (Engine.g_TargetFps st) (Engine.g_PerfFreq st)
                   (Engine.g_LastFrameTime st) None None false
                   (Engine.g_Layers st) (Engine.g_LayerCount st);
       g_LastError := g_LastError s;
       g_ComInitializedByUs := false;
       videos := VideoManager.Shutdown (videos s) |}.

Definition Daro_IsInitialized (s : Session) : bool := Engine.g_Initialized (engine s).
Definition Daro_GetLastError (s : Session) : Z := g_LastError s.

(** Whether the entry points that need the renderer go ahead:
    [g_Initialized && g_Renderer]. *)
Definition ready (s : Session) : bool :=
  Engine.g_Initialized (engine s) && bool_decide (is_Some (Engine.g_Renderer (engine s))).

Definition with_videos (s : Session) (m : VideoManager.Manager) : Session :=
  {| engine := engine s; g_LastError := g_LastError s;
     g_ComInitializedByUs := g_ComInitializedByUs s; videos := m |}.

(** [Daro_LoadVideo(filePath)].  The renderer hands its device and context
    to the registry, both present once it is initialised. *)
Definition Daro_LoadVideo (startup_ok : bool) (env : VideoPlayer.LoadEnv)
           (freq now : Z) (filePath : option string) (s : Session) : Z * Session :=
  if negb (ready s) then (-1, s)
  else
    let '(videoId, m) :=
      VideoManager.Renderer_LoadVideo true true startup_ok env freq now filePath
                                      (videos s) in
    (videoId, with_videos s m).

(** The per-video entry points: each does nothing unless the engine is
    ready. *)
Definition Daro_UnloadVideo (videoId : Z) (s : Session) : Session :=
  if ready s then with_videos s (VideoManager.UnloadVideo videoId (videos s)) else s.
Definition Daro_PlayVideo (now videoId : Z) (s : Session) : Session :=
  if ready s then with_videos s (VideoManager.PlayVideo now videoId (videos s)) else s.
Definition Daro_PauseVideo (videoId : Z) (s : Session) : Session :=
  if ready s then with_videos s (VideoManager.PauseVideo videoId (videos s)) else s.
Definition Daro_StopVideo (videoId : Z) (s : Session) : Session :=
  if ready s then with_videos s (VideoManager.StopVideo videoId (videos s)) else s.
Definition Daro_SeekVideo (videoId frame : Z) (s : Session) : Session :=
  if ready s then with_videos s (VideoManager.SeekVideo videoId frame (videos s)) else s.
Definition Daro_IsVideoPlaying (videoId : Z) (s : Session) : bool :=
  if ready s then VideoManager.IsVideoPlaying videoId (videos s) else false.
Definition Daro_GetVideoFrame (videoId : Z) (s : Session) : Z :=
  if ready s then VideoManager.GetVideoFrame videoId (videos s) else 0.
Definition Daro_GetVideoTotalFrames (videoId : Z) (s : Session) : Z :=
  if ready s then VideoManager.GetVideoTotalFrames videoId (videos s) else 0.

(** [Daro_LockFrameBuffer(ppData, pWidth, pHeight, pStride)]; [outs] tells
    whether all four out-pointers are non-null. *)
Definition Daro_LockFrameBuffer (outs : bool) (s : Session) : bool * Session :=
  let st := engine s in
  match Engine.g_FrameBuffer st with
  | Some fb =>
      if negb (Engine.g_Initialized st) || negb outs then (false, s)
      else
        let '(ok, fb') := FrameBuffer.Lock fb in
        (ok,
         {| engine := started st (Engine.g_TargetFps st) (Engine.g_PerfFreq st)
                        (Engine.g_LastFrameTime st) (Engine.g_Renderer st) (Some fb')
                        (Engine.g_Initialized st)
                        (Engine.g_Layers st) (Engine.g_LayerCount st);
            g_LastError := g_LastError s;
            g_ComInitializedByUs := g_ComInitializedByUs s; videos := videos s |})
  | None => (false, s)
  end.

(** [Daro_UnlockFrameBuffer]: it asks only for the buffer, not for
    [g_Initialized]. *)
Definition Daro_UnlockFrameBuffer (s : Session) : Session :=
  let st := engine s in
  match Engine.g_FrameBuffer st with
  | Some fb =>
      {| engine := started st (Engine.g_TargetFps st) (Engine.g_PerfFreq st)
                     (Engine.g_LastFrameTime st) (Engine.g_Renderer st)
                     (Some (FrameBuffer.Unlock fb))
                     (Engine.g_Initialized st)
                     (Engine.g_Layers st) (Engine.g_LayerCount st);
         g_LastError := g_LastError s;
         g_ComInitializedByUs := g_ComInitializedByUs s; videos := videos s |}
  | None => s
  end.

End Lifecycle.

(** ** [Renderer.cpp]: textures, Spout output and Spout receivers *)

Module Resources.

(** What WIC and Direct3D answer while one image file is loaded, in the
    order [LoadTexture] asks. *)
Record ImageFile := mkImageFile {
  img_wide_ok : bool;              (* MultiByteToWideChar yields a length > 0 *)
  img_decoder_ok : bool;           (* CreateDecoderFromFilename *)
  img_frame_ok : bool;             (* GetFrame(0) *)
  img_size : option (N * N);       (* GetSize, two UINT; None: the call fails *)
  img_converter_ok : bool;         (* CreateFormatConverter *)
  img_convert_init_ok : bool;      (* converter->Initialize *)
  img_copy_ok : bool;              (* CopyPixels *)
  img_texture_ok : bool;           (* CreateTexture2D *)
  img_srv_ok : bool                (* CreateShaderResourceView *)
}.

(** [TextureInfo]: an entry holds its texture and view, both non-null. *)
Record TextureInfo := mkTextureInfo {
  tex_width : Z;
  tex_height : Z;
  tex_path : string
}.

(** [SpoutReceiverInfo]. *)
Record SpoutReceiverInfo := mkReceiverInfo {
  senderName : string;
  connected : bool;
  rcv_width : Z;
  rcv_height : Z;
  rcv_texture : bool;              (* non-null *)
  rcv_srv : bool
}.

(** The part of [DaroRenderer] these routines use. *)
Record Store := mkStore {
  m_WICFactory : bool;             (* non-null *)
  m_Device : bool;
  m_RenderTarget : bool;
  m_Textures : gmap Z TextureInfo;
  m_NextTextureId : Z;
  m_SpoutEnabled : bool;
  sender_name : option string;     (* the name given to the Spout sender *)
  m_SpoutReceivers : gmap Z SpoutReceiverInfo;
  m_NextReceiverId : Z
}.

(** The renderer after a successful [Initialize]. *)
Definition initial : Store :=
  {| m_WICFactory := true; m_Device := true; m_RenderTarget := true;
     m_Textures := ∅; m_NextTextureId := 1;
     m_SpoutEnabled := false; sender_name := None;
     m_SpoutReceivers := ∅; m_NextReceiverId := 1 |}.

Definition with_textures (s : Store) (ts : gmap Z TextureInfo) (next : Z) : Store :=
  {| m_WICFactory := m_WICFactory s; m_Device := m_Device s;
     m_RenderTarget := m_RenderTarget s;
     m_Textures := ts; m_NextTextureId := next;
     m_SpoutEnabled := m_SpoutEnabled s; sender_name := sender_name s;
     m_SpoutReceivers := m_SpoutReceivers s;
     m_NextReceiverId := m_NextReceiverId s |}.

Definition with_sender (s : Store) (enabled : bool) (name : option string) : Store :=
  {| m_WICFactory := m_WICFactory s; m_Device := m_Device s;
     m_RenderTarget := m_RenderTarget s;
     m_Textures := m_Textures s; m_NextTextureId := m_NextTextureId s;
     m_SpoutEnabled := enabled; sender_name := name;
     m_SpoutReceivers := m_SpoutReceivers s;
     m_NextReceiverId := m_NextReceiverId s |}.

Definition with_receivers (s : Store) (rs : gmap Z SpoutReceiverInfo) (next : Z)
  : Store :=
  {| m_WICFactory := m_WICFactory s; m_Device := m_Device s;
     m_RenderTarget := m_RenderTarget s;
     m_Textures := m_Textures s; m_NextTextureId := m_NextTextureId s;
     m_SpoutEnabled := m_SpoutEnabled s; sender_name := sender_name s;
     m_SpoutReceivers := rs; m_NextReceiverId := next |}.

Definition MAX_TEXTURE_DIMENSION : Z := 8192.

(** The loop over [m_Textures] that looks for the path: a [std::map] is
    walked in ascending key order, and the first entry that matches wins. *)
Definition find_path (path : string) (ts : gmap Z TextureInfo) : option Z :=
  foldr (fun kv acc =>
           if bool_decide (tex_path (snd kv) = path)
           then Some (match acc with Some j => Z.min (fst kv) j | None => fst kv end)
           else acc)
        None (map_to_list ts).

(** [int id = next++; if (id <= 0) next = id = 1;] *)
Definition issue_id (next : Z) : Z * Z :=
  if next <=? 0 then (1, 1) else (next, Int.wrap32 (next + 1)).

(** [LoadTexture(filePath)]; [filePath = None] is the null pointer. *)
Definition LoadTexture (img : ImageFile) (filePath : option string) (s : Store)
  : Z * Store :=
  if negb (m_WICFactory s) || negb (m_Device s) then (-1, s)
  else
    match filePath with
    | None => (-1, s)
    | Some EmptyString => (-1, s)
    | Some path =>
        if VideoPlayer.has_dotdot path then (-1, s)
        else
          match find_path path (m_Textures s) with
          | Some id => (id, s)
          | None =>
              if negb (img_wide_ok img) then (-1, s)
              else if negb (img_decoder_ok img) then (-1, s)
              else if negb (img_frame_ok img) then (-1, s)
              else
                match img_size img with
                | None => (-1, s)
                | Some (w, h) =>
                    let width := Z.of_N w in
                    let height := Z.of_N h in
                    if (MAX_TEXTURE_DIMENSION <? width) || (MAX_TEXTURE_DIMENSION <? height)
                       || (width =? 0) || (height =? 0)
                    then (-1, s)
                    else if negb (img_converter_ok img) then (-1, s)
                    else if negb (img_convert_init_ok img) then (-1, s)
                    else if negb (img_copy_ok img) then (-1, s)
                    else if negb (img_texture_ok img) then (-1, s)
                    else if negb (img_srv_ok img) then (-1, s)
                    else
                      let '(id, next) := issue_id (m_NextTextureId s) in
                      (id,
                       with_textures s
                         (<[id := {| tex_width := width; tex_height := height;
                                     tex_path := path |}]> (m_Textures s))
                         next)
                end
          end
    end.

(** [UnloadTexture(textureId)]. *)
Definition UnloadTexture (textureId : Z) (s : Store) : Store :=
  with_textures s (delete textureId (m_Textures s)) (m_NextTextureId s).

(** [GetTextureSRV(textureId)]: whether a view comes back. *)
Definition GetTextureSRV (textureId : Z) (s : Store) : bool :=
  bool_decide (is_Some (m_Textures s !! textureId)).

(** [EnableSpout(name)]. *)
Definition EnableSpout (name : option string) (s : Store) : bool * Store :=
  if m_SpoutEnabled s then (true, s)
  else if negb (m_Device s) then (false, s)
  else
    match name with
    | None => (false, s)
    | Some EmptyString => (false, s)
    | Some n =>
        if 255 <? Z.of_nat (String.length n) then (false, s)
        else (true, with_sender s true (Some n))
    end.

(** [DisableSpout]: the sender is released, its name goes with it. *)
Definition DisableSpout (s : Store) : Store :=
  if negb (m_SpoutEnabled s) then s else with_sender s false None.

(** [SendSpout]: whether the render target is handed to the sender. *)
Definition SendSpout (s : Store) : bool :=
  m_SpoutEnabled s && m_RenderTarget s.

(** [ConnectSpoutReceiver(senderName)]. *)
Definition ConnectSpoutReceiver (name : option string) (s : Store) : Z * Store :=
  if negb (m_Device s) then (-1, s)
  else
    match name with
    | None => (-1, s)
    | Some EmptyString => (-1, s)
    | Some n =>
        if 255 <? Z.of_nat (String.length n) then (-1, s)
        else
          let '(id, next) := issue_id (m_NextReceiverId s) in
          (id,
           with_receivers s
             (<[id := {| senderName := n; connected := false;
                         rcv_width := 0; rcv_height := 0;
                         rcv_texture := false; rcv_srv := false |}]>
                (m_SpoutReceivers s))
             next)
    end.

(** [DisconnectSpoutReceiver(receiverId)]. *)
Definition DisconnectSpoutReceiver (receiverId : Z) (s : Store) : Store :=
  match m_SpoutReceivers s !! receiverId with
  | Some _ => with_receivers s (delete receiverId (m_SpoutReceivers s))
                             (m_NextReceiverId s)
  | None => s
  end.

(** What a sender answers during one [UpdateSpoutReceivers]. *)
Record SenderAnswer := mkSenderAnswer {
  receive_ok : bool;               (* ReceiveTexture *)
  is_updated : bool;               (* IsUpdated *)
  sender_size : N * N;             (* GetSenderWidth, GetSenderHeight: unsigned *)
  rcv_texture_ok : bool;           (* CreateTexture2D *)
  rcv_srv_ok : bool                (* CreateShaderResourceView *)
}.

(** The body of the loop of [UpdateSpoutReceivers] for one receiver. *)
Definition update_receiver (a : SenderAnswer) (info : SpoutReceiverInfo)
  : SpoutReceiverInfo :=
  if negb (receive_ok a) then info
  else if negb (connected info) || is_updated a then
    let width := Z.of_N (fst (sender_size a)) in
    let height := Z.of_N (snd (sender_size a)) in
    if (width =? 0) || (height =? 0) then
      {| senderName := senderName info; connected := false;
         rcv_width := width; rcv_height := height;
         rcv_texture := false; rcv_srv := false |}
    else
      let made := rcv_texture_ok a && rcv_srv_ok a in
      {| senderName := senderName info; connected := made;
         rcv_width := width; rcv_height := height;
         rcv_texture := made; rcv_srv := made |}
  else info.

(** [UpdateSpoutReceivers]; [answers id] is what the sender of receiver
    [id] answers. *)
Definition UpdateSpoutReceivers (answers : Z -> SenderAnswer) (s : Store) : Store :=
  with_receivers s
    (map_imap (fun id info => Some (update_receiver (answers id) info))
              (m_SpoutReceivers s))
    (m_NextReceiverId s).

(** [GetSpoutReceiverSRV(receiverId)]: whether a view comes back. *)
Definition GetSpoutReceiverSRV (receiverId : Z) (s : Store) : bool :=
  match m_SpoutReceivers s !! receiverId with
  | Some info => connected info && rcv_srv info
  | None => false
  end.

(** [DaroRenderer::Shutdown], as far as these resources go. *)
Definition Shutdown (s : Store) : Store :=
  {| m_WICFactory := false; m_Device := false; m_RenderTarget := false;
     m_Textures := ∅; m_NextTextureId := m_NextTextureId s;
     m_SpoutEnabled := false; sender_name := None;
     m_SpoutReceivers := ∅; m_NextReceiverId := m_NextReceiverId s |}.

(** The head of [RenderRectangle]: whether the quad of [layer] is drawn
    with a texture ([hasTexture]). *)
Definition has_texture (s : Store) (videos : VideoManager.Manager)
           (layer : SharedTypes.DaroLayer) : bool :=
  if (SharedTypes.sourceType layer =? 2) && (0 <? SharedTypes.textureId layer)
  then GetTextureSRV (SharedTypes.textureId layer) s
  else if (SharedTypes.sourceType layer =? 1) && (0 <? SharedTypes.spoutReceiverId layer)
  then GetSpoutReceiverSRV (SharedTypes.spoutReceiverId layer) s
  else if (SharedTypes.sourceType layer =? 3) && (0 <? SharedTypes.textureId layer)
  then VideoManager.GetVideoSRV (SharedTypes.textureId layer) videos
  else false.

End Resources.

(* ===================================================================== *)
(** * Part II.  Vocabulary of the statements                              *)
(* ===================================================================== *)

Module Spec.
Import SharedTypes.

(** ** Frame buffer *)

(** The pixel bytes of the shared region, if it is mapped. *)
Definition region_pixels (fb : FrameBuffer.DaroFrameBuffer) : option (list byte) :=
  FrameBuffer.pixels <$> FrameBuffer.m_pMapView fb.

(** The frame number stored in the shared header, if it is mapped. *)
Definition region_frame (fb : FrameBuffer.DaroFrameBuffer) : option Z :=
  (fun v => FrameBuffer.frameNumber (FrameBuffer.header v))
    <$> FrameBuffer.m_pMapView fb.

(** The mapped pixel area has the size [Initialize] gives it. *)
Definition region_sized (fb : FrameBuffer.DaroFrameBuffer) : Prop :=
  0 <= FrameBuffer.m_Stride fb ∧ 0 <= FrameBuffer.m_Height fb
  ∧ ∀ px, region_pixels fb = Some px →
          Z.of_nat (length px) = FrameBuffer.m_Stride fb * FrameBuffer.m_Height fb.

(** A 2 x 2 frame buffer as [Initialize] leaves it, and frames to publish. *)
Definition sample_fb : FrameBuffer.DaroFrameBuffer :=
  snd (FrameBuffer.Initialize true FrameBuffer.unmapped 2 2).

Definition sample_frame (n : nat) : list byte := replicate n x2a.

(** ** Layer table *)

(** The arguments of one [Daro_UpdateLayer] call. *)
Definition Update : Type := Z * option DaroLayer.

Definition run_updates (st : Engine.State) (ops : list Update) : Engine.State :=
  fold_left (fun s op => Engine.Daro_UpdateLayer s (fst op) (snd op)) ops st.

(** ** Masks *)

(** The layer at index [k] of the snapshot is a Mask layer whose scanned
    target entries contain [target]. *)
Definition lists_target (layers : list DaroLayer) (k : nat) (target : Z) : Prop :=
  ∃ mask, layers !! k = Some mask
          ∧ layerType mask = DARO_TYPE_MASK
          ∧ 0 < maskedLayerCount mask
          ∧ target ∈ Engine.scanned_targets mask.

(** A layer the loop of [RenderWithMasks] dispatches: active, neither Mask
    nor Group. *)
Definition dispatched (layer : DaroLayer) : Prop :=
  active layer ≠ 0 ∧ layerType layer ≠ DARO_TYPE_MASK
  ∧ layerType layer ≠ DARO_TYPE_GROUP.


(** The vector the index holds for [target]; a missing key reads as an empty
    vector. *)
Definition targets_of (m : gmap Z (list Z)) (target : Z) : list Z :=
  default [] (m !! target).

(** The indices the scan appends for [target] while it visits the layer at
    index [i]: one per occurrence among the scanned entries. *)
Definition pushes_of (target i : Z) (layer : DaroLayer) : list Z :=
  if (layerType layer =? DARO_TYPE_MASK) && (0 <? maskedLayerCount layer)
     && (0 <=? target)
  then (fun _ => i) <$> filter (fun x => x = target) (Engine.scanned_targets layer)
  else [].

Fixpoint pushes_from (target i : Z) (layers : list DaroLayer) : list Z :=
  match layers with
  | [] => []
  | layer :: rest => pushes_of target i layer ++ pushes_from target (i + 1) rest
  end.

(** ** Circles *)

(** The claim's colour: every channel multiplied by the opacity. *)
Definition premultiplied (layer : DaroLayer) : Renderer.Color :=
  {| Renderer.cr := F32.mul (colorR layer) (opacity layer);
     Renderer.cg := F32.mul (colorG layer) (opacity layer);
     Renderer.cb := F32.mul (colorB layer) (opacity layer);
     Renderer.ca := F32.mul (colorA layer) (opacity layer) |}.

(** The colour the source hands to Direct2D: only alpha carries the
    opacity. *)
Definition straight_alpha (layer : DaroLayer) : Renderer.Color :=
  {| Renderer.cr := colorR layer;
     Renderer.cg := colorG layer;
     Renderer.cb := colorB layer;
     Renderer.ca := F32.mul (colorA layer) (opacity layer) |}.

(** Two colours the comparison [!=] of the source cannot tell apart. *)
Definition same_color (c d : Renderer.Color) : Prop :=
  c = d ∨ Renderer.color_differs d c = false.

(** The circle claim as the design document words it: one filled ellipse
    centred at the position, both radii half the smaller size, best
    antialiasing, filled with the premultiplied colour. *)
Definition circle_claim (r : Renderer.DaroRenderer) (layer : DaroLayer) : Prop :=
  snd (Renderer.RenderLayer r layer)
  = [Renderer.CmdFillEllipse (posX layer) (posY layer)
       (F32.mul (F32.min (sizeX layer) (sizeY layer)) F32.half)
       (F32.mul (F32.min (sizeX layer) (sizeY layer)) F32.half)
       (premultiplied layer) Renderer.PER_PRIMITIVE].

(** The brush cache is coherent: [m_LastShapeColor] is the colour the cached
    brush holds. *)
Definition brush_coherent (r : Renderer.DaroRenderer) : Prop :=
  ∀ c, Renderer.m_CachedShapeBrush r = Some c → Renderer.m_LastShapeColor r = c.

(** A brush is at hand: cached already, or creatable. *)
Definition brush_available (r : Renderer.DaroRenderer) : Prop :=
  Renderer.m_CachedShapeBrush r = None → Renderer.brush_create_ok r = true.


(** The routing claim as the design document words it: masked exactly when
    some Mask layer of the snapshot lists the layer's id. *)
Definition masked_iff_listed_claim (prev : gmap Z (list Z))
           (layers : list DaroLayer) (layer : DaroLayer) : Prop :=
  dispatched layer →
  ((∃ m, Renderer.route (Z.of_nat (length layers))
                        (Engine.build_mask_index prev layers) layer
         = Renderer.RouteMasked m)
   ↔ ∃ k, lists_target layers k (id layer)).

(** ** Video sources *)

(** A loaded player that decodes through Media Foundation: the reader
    exists, no FFmpeg decoder does. *)
Definition on_primary (p : VideoPlayer.Player) : Prop :=
  VideoPlayer.m_Loaded p = true
  ∧ VideoPlayer.m_UsingFFmpeg p = false
  ∧ is_Some (VideoPlayer.m_Reader p)
  ∧ VideoPlayer.m_FFmpegDecoder p = None.

(** A loaded player that decodes through FFmpeg: an open decoder exists, no
    Media Foundation reader does. *)
Definition on_fallback (p : VideoPlayer.Player) : Prop :=
  VideoPlayer.m_Loaded p = true
  ∧ VideoPlayer.m_UsingFFmpeg p = true
  ∧ VideoPlayer.m_Reader p = None
  ∧ ∃ d, VideoPlayer.m_FFmpegDecoder p = Some d
         ∧ FFmpegDecoder.m_Opened d = true.

(** The number of requests a player has sent to each back end so far:
    positions set on the Media Foundation reader, seeks sent to libav. *)
Definition primary_seeks (p : VideoPlayer.Player) : nat :=
  match VideoPlayer.m_Reader p with
  | Some rd => length (VideoPlayer.position_log rd)
  | None => 0
  end.

Definition fallback_seeks (p : VideoPlayer.Player) : nat :=
  match VideoPlayer.m_FFmpegDecoder p with
  | Some d => length (FFmpegDecoder.seek_log d)
  | None => 0
  end.

(** The seeks a player has sent to its back ends so far. *)
Definition seeks_sent (p : VideoPlayer.Player) : nat :=
  (primary_seeks p + fallback_seeks p)%nat.

(** The clock owes less than one frame duration: the test
    [m_AccumulatedTime >= m_FrameDuration] fails. *)
Definition clock_paid (p : VideoPlayer.Player) : Prop :=
  F64.geb (VideoPlayer.m_AccumulatedTime p) (VideoPlayer.m_FrameDuration p) = false.

(** Why an update of the playing video [p] has returned [flag] and left [q]:
    the clock is paid up; or the stream had ended before the call, and
    nothing was decoded; or the stream ended during the call and the video,
    which does not loop, has stopped; or it ended during the call and the
    video, which loops, was sent back to its start. *)
Definition update_outcome (p : VideoPlayer.Player) (flag : bool)
           (q : VideoPlayer.Player) : Prop :=
  clock_paid q
  ∨ (VideoPlayer.m_EndOfStream p = true ∧ flag = false)
  ∨ (VideoPlayer.m_Loop p = false ∧ VideoPlayer.m_Playing q = false
     ∧ VideoPlayer.m_EndOfStream q = true)
  ∨ (VideoPlayer.m_Loop p = true ∧ VideoPlayer.m_Playing q = true
     ∧ VideoPlayer.m_EndOfStream q = false
     ∧ seeks_sent q = S (seeks_sent p)).

(** The calls a loaded player can receive later on. *)
Inductive PlayerOp :=
| DoPlay (now : Z)
| DoPause
| DoStop
| DoSeekToFrame (frame : Z)
| DoSeekToTime (seconds : F64.t)
| DoUpdateFrame (now : Z)
| DoSetLoop (loop : bool)
| DoSetVideoAlpha (alpha : bool).

Definition run_op (op : PlayerOp) (p : VideoPlayer.Player) : option VideoPlayer.Player :=
  match op with
  | DoPlay now => Some (VideoPlayer.Play now p)
  | DoPause => Some (VideoPlayer.Pause p)
  | DoStop => Some (VideoPlayer.Stop p)
  | DoSeekToFrame frame => Some (VideoPlayer.SeekToFrame frame p)
  | DoSeekToTime seconds => Some (VideoPlayer.SeekToTime seconds p)
  | DoUpdateFrame now => snd <$> VideoPlayer.UpdateFrame now p
  | DoSetLoop loop => Some (VideoPlayer.SetLoop loop p)
  | DoSetVideoAlpha alpha => Some (VideoPlayer.SetVideoAlpha alpha p)
  end.


(** The player [LoadVideo] hands to the back ends: unloaded, carrying the
    path. *)
Definition prepared (env : VideoPlayer.LoadEnv) (path : string)
           (p : VideoPlayer.Player) : VideoPlayer.Player :=
  VideoPlayer.set_texture_maps (VideoPlayer.maps env)
    (VideoPlayer.set_m_FilePath path (VideoPlayer.UnloadVideoInternal p)).



(** libav opens the file: every step of [FFmpegDecoder::Open] succeeds and
    the picture size lies within 1..8192 both ways. *)
Definition av_opens (f : FFmpegDecoder.AvFile) : bool :=
  FFmpegDecoder.av_open_ok f
  && FFmpegDecoder.av_stream_info_ok f
  && (0 <=? FFmpegDecoder.av_best_stream f)
  && (0 <? FFmpegDecoder.av_width f) && (FFmpegDecoder.av_width f <=? 8192)
  && (0 <? FFmpegDecoder.av_height f) && (FFmpegDecoder.av_height f <=? 8192)
  && FFmpegDecoder.av_codec_alloc_ok f
  && FFmpegDecoder.av_params_ok f
  && FFmpegDecoder.av_codec_open_ok f
  && FFmpegDecoder.av_frames_alloc_ok f
  && FFmpegDecoder.av_sws_ok f
  && (0 <? FFmpegDecoder.av_buf_size f)
  && FFmpegDecoder.av_malloc_ok f.


(** The player a manager creates for a load. *)
Definition fresh_player (m : VideoManager.Manager) (freq now : Z) : VideoPlayer.Player :=
  snd (VideoPlayer.Initialize (VideoManager.m_Device m) (VideoManager.m_Context m)
         (VideoPlayer.new_player freq now)).

(** ** Sample data *)

(** A layer of the given id and type, active, white, half transparent,
    200 x 100 at (50, 60). *)
Definition sample_layer (ident type : Z) : DaroLayer :=
  {| id := ident; active := 1; layerType := type;
     posX := F32.of_Z 50; posY := F32.of_Z 60;
     sizeX := F32.of_Z 200; sizeY := F32.of_Z 100;
     rotX := F32.zero; rotY := F32.zero; rotZ := F32.zero;
     anchorX := F32.half; anchorY := F32.half;
     opacity := F32.half;
     colorR := F32.one; colorG := F32.one; colorB := F32.one; colorA := F32.one;
     sourceType := 0; textureId := 0; spoutReceiverId := 0;
     texX := F32.zero; texY := F32.zero; texW := F32.one; texH := F32.one;
     texRot := F32.zero; textureLocked := 0;
     textContent := replicate 1024 0; fontFamily := replicate 64 0;
     fontSize := F32.of_Z 48; fontBold := 0; fontItalic := 0; textAlignment := 0;
     lineHeight := F32.one; letterSpacing := F32.zero; textAntialiasMode := 0;
     texturePath := replicate 260 0;
     maskMode := 0; maskedLayerCount := 0; maskedLayerIds := replicate 64 0 |}.

(** A Mask layer with the given targets. *)
Definition sample_mask (ident : Z) (targets : list Z) : DaroLayer :=
  let l := sample_layer ident DARO_TYPE_MASK in
  {| id := id l; active := active l; layerType := layerType l;
     posX := posX l; posY := posY l; sizeX := sizeX l; sizeY := sizeY l;
     rotX := rotX l; rotY := rotY l; rotZ := rotZ l;
     anchorX := anchorX l; anchorY := anchorY l;
     opacity := opacity l;
     colorR := colorR l; colorG := colorG l; colorB := colorB l; colorA := colorA l;
     sourceType := sourceType l; textureId := textureId l;
     spoutReceiverId := spoutReceiverId l;
     texX := texX l; texY := texY l; texW := texW l; texH := texH l;
     texRot := texRot l; textureLocked := textureLocked l;
     textContent := textContent l; fontFamily := fontFamily l;
     fontSize := fontSize l; fontBold := fontBold l; fontItalic := fontItalic l;
     textAlignment := textAlignment l;
     lineHeight := lineHeight l; letterSpacing := letterSpacing l;
     textAntialiasMode := textAntialiasMode l;
     texturePath := texturePath l;
     maskMode := 0; maskedLayerCount := Z.of_nat (length targets);
     maskedLayerIds := take 64 (targets ++ replicate 64 0) |}.

(** A renderer with its Direct2D objects in place. *)
Definition sample_renderer (showBounds : bool) : Renderer.DaroRenderer :=
  {| Renderer.m_ShowBounds := showBounds;
     Renderer.m_D2DRenderTarget := true;
     Renderer.m_D2DFactory := true;
     Renderer.m_DWriteFactory := true;
     Renderer.m_CachedShapeBrush := None;
     Renderer.m_LastShapeColor :=
       Renderer.mkColor Renderer.minus_one Renderer.minus_one
                        Renderer.minus_one Renderer.minus_one;
     Renderer.m_CachedTextBrush := None;
     Renderer.m_LastTextColor :=
       Renderer.mkColor Renderer.minus_one Renderer.minus_one
                        Renderer.minus_one Renderer.minus_one;
     Renderer.m_CachedTextFormat := None;
     Renderer.brush_create_ok := true;
     Renderer.format_create_ok := true;
     Renderer.geometry_create_ok := true;
     Renderer.path_create_ok := true;
     Renderer.cb_map_ok := true;
     Renderer.end_draws := [] |}.

(** ** The per-tick update *)

(** The clock after [k] frame durations have been taken off. *)
Fixpoint drained (acc fd : F64.t) (k : nat) : F64.t :=
  match k with
  | O => acc
  | S k' => drained (F64.sub acc fd) fd k'
  end.

(** The clock lets the loop enter its first [k] iterations. *)
Definition clock_allows (acc fd : F64.t) (k : nat) : Prop :=
  ∀ j, (j < k)%nat → F64.geb (drained acc fd j) fd = true.

(** After [k] iterations the clock ends the loop. *)
Definition clock_stops (acc fd : F64.t) (k : nat) : Prop :=
  F64.geb (drained acc fd k) fd = false.

(** What the settings of a player are; decoding changes none of them. *)
Definition same_settings (p q : VideoPlayer.Player) : Prop :=
  VideoPlayer.m_Loaded q = VideoPlayer.m_Loaded p
  ∧ VideoPlayer.m_Playing q = VideoPlayer.m_Playing p
  ∧ VideoPlayer.m_Loop q = VideoPlayer.m_Loop p
  ∧ VideoPlayer.m_UsingFFmpeg q = VideoPlayer.m_UsingFFmpeg p
  ∧ VideoPlayer.m_FrameRate q = VideoPlayer.m_FrameRate p
  ∧ VideoPlayer.m_FrameDuration q = VideoPlayer.m_FrameDuration p
  ∧ VideoPlayer.m_TotalFrames q = VideoPlayer.m_TotalFrames p.

(** [static_cast<int>(timestamp / 10000000.0 * m_FrameRate)]. *)
Definition frame_of_timestamp (rate : F64.t) (timestamp : Z) : Z :=
  F64.to_int (F64.mul (F64.div (F64.of_Z timestamp) VideoPlayer.ticks_per_second) rate).

Definition is_eos (r : VideoPlayer.ReadSample) : bool :=
  match r with VideoPlayer.RS_EndOfStream => true | _ => false end.

Definition is_sample (r : VideoPlayer.ReadSample) : bool :=
  match r with VideoPlayer.RS_Sample _ _ => true | _ => false end.

(** The frame counter after the reader has answered [answers], none of
    which ends the stream: the index of the sample decoded last. *)
Fixpoint frame_after (rate : F64.t) (answers : list VideoPlayer.ReadSample) (frame : Z)
  : Z :=
  match answers with
  | [] => frame
  | VideoPlayer.RS_Sample timestamp _ :: rest =>
      frame_after rate rest (frame_of_timestamp rate timestamp)
  | _ :: rest => frame_after rate rest frame
  end.

(** The flag [UpdateFrame] returns on the primary path: whether the last
    read delivered a sample. *)
Fixpoint decoded_after (answers : list VideoPlayer.ReadSample) (decoded : bool)
  : bool :=
  match answers with
  | [] => decoded
  | r :: rest => decoded_after rest (is_sample r)
  end.

(** The decoder after [n] calls of its [DecodeNextFrame], and what those
    calls returned. *)
Fixpoint ff_after (n : nat) (d : FFmpegDecoder.Decoder) : FFmpegDecoder.Decoder :=
  match n with
  | O => d
  | S n' => ff_after n' (snd (FFmpegDecoder.DecodeNextFrame d))
  end.

Fixpoint ff_outcomes (n : nat) (d : FFmpegDecoder.Decoder) : list bool :=
  match n with
  | O => []
  | S n' => fst (FFmpegDecoder.DecodeNextFrame d)
            :: ff_outcomes n' (snd (FFmpegDecoder.DecodeNextFrame d))
  end.

(** None of the first [n] calls finds the stream at its end. *)
Definition ff_no_eos (n : nat) (d : FFmpegDecoder.Decoder) : Prop :=
  ∀ j, (1 <= j <= n)%nat → FFmpegDecoder.m_EndOfStream (ff_after j d) = false.

(** The number of frames among the outcomes. *)
Definition successes (outcomes : list bool) : nat := length (filter (fun b => b = true) outcomes).

(** [m_CurrentFrame++], [n] times. *)
Fixpoint advance (n : nat) (frame : Z) : Z :=
  match n with
  | O => frame
  | S n' => advance n' (Int.wrap32 (frame + 1))
  end.

(** The scripted answers the active back end still holds. *)
Definition pending (p : VideoPlayer.Player) : nat :=
  if VideoPlayer.m_UsingFFmpeg p
  then match VideoPlayer.m_FFmpegDecoder p with
       | Some d => length (FFmpegDecoder.packets d)
       | None => 0
       end
  else match VideoPlayer.m_Reader p with
       | Some rd => length (VideoPlayer.reads rd)
       | None => 0
       end.

(** The number of answers one update takes from the active back end; when
    every answer is a frame, the number of frames it decodes. *)
Definition frames_taken (now : Z) (p : VideoPlayer.Player) : option nat :=
  match VideoPlayer.UpdateFrame now p with
  | Some (_, p') => Some (pending p - pending p')%nat
  | None => None
  end.

(** The timing claim as the design document words it: the update decodes
    exactly three frames. *)
Definition three_frames_claim (now : Z) (p : VideoPlayer.Player) : Prop :=
  frames_taken now p = Some 3%nat.

(** The looping claim as the design document words it, for a looping player
    whose stream ends during the update: afterwards the frame counter is 0
    and the player plays. *)
Definition loop_restart_claim (now : Z) (p : VideoPlayer.Player) : Prop :=
  ∃ decoded p', VideoPlayer.UpdateFrame now p = Some (decoded, p')
                ∧ VideoPlayer.m_CurrentFrame p' = 0
                ∧ VideoPlayer.m_Playing p' = true.

(** The clock as the update sees it once the elapsed time is added. *)
Definition clock_at (now : Z) (p : VideoPlayer.Player) : F64.t :=
  F64.add (VideoPlayer.m_AccumulatedTime p) (VideoPlayer.elapsed_since p now).

(** The answers of the reader that do not end the stream. *)
Definition stream_goes_on (answers : list VideoPlayer.ReadSample) : Prop :=
  Forall (fun r => is_eos r = false) answers.

(** The active back end answers [k] further decode calls without finding
    the end of the stream. *)
Definition answers_ahead (k : nat) (p : VideoPlayer.Player) : Prop :=
  if VideoPlayer.m_UsingFFmpeg p
  then ∃ d, VideoPlayer.m_FFmpegDecoder p = Some d
            ∧ FFmpegDecoder.m_Opened d = true
            ∧ ff_no_eos k d
  else ∃ rd, VideoPlayer.m_Reader p = Some rd
             ∧ (k <= length (VideoPlayer.reads rd))%nat
             ∧ stream_goes_on (take k (VideoPlayer.reads rd)).

(** The frame counter after [k] decode calls of the active back end: the
    primary path takes it from the timestamp of the last sample, the
    fallback path counts the frames. *)
Definition frame_counter_after (k : nat) (p : VideoPlayer.Player) : Z :=
  if VideoPlayer.m_UsingFFmpeg p
  then match VideoPlayer.m_FFmpegDecoder p with
       | Some d => advance (successes (ff_outcomes k d)) (VideoPlayer.m_CurrentFrame p)
       | None => VideoPlayer.m_CurrentFrame p
       end
  else match VideoPlayer.m_Reader p with
       | Some rd => frame_after (VideoPlayer.m_FrameRate p)
                                (take k (VideoPlayer.reads rd))
                                (VideoPlayer.m_CurrentFrame p)
       | None => VideoPlayer.m_CurrentFrame p
       end.

(** The frames [k] decode calls deliver. *)
Definition frames_decoded (k : nat) (p : VideoPlayer.Player) : nat :=
  if VideoPlayer.m_UsingFFmpeg p
  then match VideoPlayer.m_FFmpegDecoder p with
       | Some d => successes (ff_outcomes k d)
       | None => 0
       end
  else match VideoPlayer.m_Reader p with
       | Some rd => length (filter (fun r => is_sample r = true)
                                   (take k (VideoPlayer.reads rd)))
       | None => 0
       end.

(** The flag the update returns after [k] decode calls: on the primary path
    whether the last call delivered a frame, on the fallback path whether
    any call did. *)
Definition update_flag (k : nat) (p : VideoPlayer.Player) : bool :=
  if VideoPlayer.m_UsingFFmpeg p
  then bool_decide (frames_decoded k p ≠ 0%nat)
  else match VideoPlayer.m_Reader p with
       | Some rd => decoded_after (take k (VideoPlayer.reads rd)) false
       | None => false
       end.

(** The back end of [q] is that of [p] after exactly [k] decode calls. *)
Definition back_end_after (k : nat) (p q : VideoPlayer.Player) : Prop :=
  if VideoPlayer.m_UsingFFmpeg p
  then ∃ d, VideoPlayer.m_FFmpegDecoder p = Some d
            ∧ VideoPlayer.m_FFmpegDecoder q = Some (ff_after k d)
  else ∃ rd, VideoPlayer.m_Reader p = Some rd
             ∧ VideoPlayer.m_Reader q
               = Some {| VideoPlayer.reads := drop k (VideoPlayer.reads rd);
                         VideoPlayer.positions := VideoPlayer.positions rd;
                         VideoPlayer.position_log := VideoPlayer.position_log rd |}.

(** The active back end answers [k] decode calls and finds the end of the
    stream at the next one. *)
Definition ends_after (k : nat) (p : VideoPlayer.Player) : Prop :=
  answers_ahead k p
  ∧ if VideoPlayer.m_UsingFFmpeg p
    then ∃ d, VideoPlayer.m_FFmpegDecoder p = Some d
              ∧ FFmpegDecoder.m_EndOfStream (ff_after (S k) d) = true
    else ∃ rd, VideoPlayer.m_Reader p = Some rd
               ∧ hd VideoPlayer.RS_EndOfStream (drop k (VideoPlayer.reads rd))
                 = VideoPlayer.RS_EndOfStream.

(** The restart asked the active back end of [p] for position 0; [q] is the
    player afterwards. *)
Definition asked_for_start (p q : VideoPlayer.Player) : Prop :=
  if VideoPlayer.m_UsingFFmpeg p
  then ∃ d d', VideoPlayer.m_FFmpegDecoder p = Some d
               ∧ VideoPlayer.m_FFmpegDecoder q = Some d'
               ∧ FFmpegDecoder.seek_log d' = 0 :: FFmpegDecoder.seek_log d
  else ∃ rd rd', VideoPlayer.m_Reader p = Some rd
                 ∧ VideoPlayer.m_Reader q = Some rd'
                 ∧ VideoPlayer.position_log rd' = 0 :: VideoPlayer.position_log rd.

(** The frame counter after a restart that followed [k] decode calls.  The
    fallback path sets it to 0.  The primary path sets it to 0 and reads one
    sample, whose timestamp then decides, when the reader accepts the new
    position; it leaves the counter alone when the reader refuses. *)
Definition restart_frame (k : nat) (p : VideoPlayer.Player) : Z :=
  if VideoPlayer.m_UsingFFmpeg p then 0
  else match VideoPlayer.m_Reader p with
       | Some rd =>
           if hd true (VideoPlayer.positions rd)
           then frame_after (VideoPlayer.m_FrameRate p)
                  [hd VideoPlayer.RS_EndOfStream (drop (S k) (VideoPlayer.reads rd))] 0
           else frame_counter_after k p
       | None => frame_counter_after k p
       end.

(** ** Frame statistics *)

(** The literal [2.5]. *)
Definition two_and_half : F64.t := F64.decimal 25 1.

(** A positive normal double away from the ends of the exponent range; every
    frame interval between 2^-848 s and 2^952 s is one. *)
Definition ordinary (x : F64.t) : Prop :=
  match x with
  | S754_finite false m e => 2 ^ 52 <= Z.pos m < 2 ^ 53 ∧ -900 <= e <= 900
  | _ => False
  end.

(** An initialised engine as [Daro_EndFrame] sees it: the target rate and
    the counter frequency [Daro_Initialize] stored, the counter reading of
    the previous frame and the dropped frames counted so far. *)
Definition running_engine (targetFps : F64.t) (freq last dropped : Z) : Engine.State :=
  {| Engine.g_Renderer := None; Engine.g_FrameBuffer := None;
     Engine.g_Initialized := true;
     Engine.g_Layers := replicate 64 SharedTypes.zero_layer;
     Engine.g_LayerCount := 0;
     Engine.g_FPS := F64.zero; Engine.g_FrameTime := F64.zero;
     Engine.g_DroppedFrames := dropped; Engine.g_FrameNumber := 0;
     Engine.g_TargetFps := targetFps; Engine.g_PerfFreq := freq;
     Engine.g_LastFrameTime := last;
     Engine.layerToMasks := ∅ |}.

(** ** The registry *)

(** The calls the registry can receive. *)
Inductive ManagerOp :=
| MInitialize (device context startup_ok : bool)
| MShutdown
| MLoadVideo (env : VideoPlayer.LoadEnv) (freq now : Z) (filePath : option string)
| MUnloadVideo (videoId : Z)
| MUpdateAll (clock : Z -> Z)
| MPlayVideo (now videoId : Z)
| MPauseVideo (videoId : Z)
| MStopVideo (videoId : Z)
| MSeekVideo (videoId frame : Z)
| MSeekVideoTime (videoId : Z) (seconds : F64.t)
| MSetVideoLoop (videoId : Z) (loop : bool)
| MSetVideoAlpha (videoId : Z) (alpha : bool).

(** One call.  Next to the registry runs the set of ids that successful
    loads have returned so far. *)
Definition manager_step (op : ManagerOp) (st : VideoManager.Manager * gset Z)
  : option (VideoManager.Manager * gset Z) :=
  let '(m, issued) := st in
  match op with
  | MInitialize device context startup_ok =>
      Some (snd (VideoManager.Initialize device context startup_ok m), issued)
  | MShutdown => Some (VideoManager.Shutdown m, issued)
  | MLoadVideo env freq now filePath =>
      let '(videoId, m') := VideoManager.LoadVideo env freq now filePath m in
      Some (m', if videoId =? 0 then issued else {[videoId]} ∪ issued)
  | MUnloadVideo videoId => Some (VideoManager.UnloadVideo videoId m, issued)
  | MUpdateAll clock => (fun m' => (m', issued)) <$> VideoManager.UpdateAll clock m
  | MPlayVideo now videoId => Some (VideoManager.PlayVideo now videoId m, issued)
  | MPauseVideo videoId => Some (VideoManager.PauseVideo videoId m, issued)
  | MStopVideo videoId => Some (VideoManager.StopVideo videoId m, issued)
  | MSeekVideo videoId frame => Some (VideoManager.SeekVideo videoId frame m, issued)
  | MSeekVideoTime videoId seconds =>
      Some (VideoManager.SeekVideoTime videoId seconds m, issued)
  | MSetVideoLoop videoId loop => Some (VideoManager.SetVideoLoop videoId loop m, issued)
  | MSetVideoAlpha videoId alpha =>
      Some (VideoManager.SetVideoAlpha videoId alpha m, issued)
  end.

Fixpoint manager_run (ops : list ManagerOp) (st : VideoManager.Manager * gset Z)
  : option (VideoManager.Manager * gset Z) :=
  match ops with
  | [] => Some st
  | op :: rest =>
      match manager_step op st with
      | Some st' => manager_run rest st'
      | None => None
      end
  end.


(** The reasons for which [VideoManager::LoadVideo] gives up. *)
Definition load_fails (env : VideoPlayer.LoadEnv) (freq now : Z)
           (filePath : option string) (m : VideoManager.Manager) : Prop :=
  VideoManager.m_Initialized m = false
  ∨ filePath = None
  ∨ VideoManager.MAX_LOADED_VIDEOS <= Z.of_nat (size (VideoManager.m_Players m))
  ∨ fst (VideoPlayer.Initialize (VideoManager.m_Device m) (VideoManager.m_Context m)
           (VideoPlayer.new_player freq now)) = false
  ∨ fst (fst (VideoPlayer.LoadVideo env filePath (fresh_player m freq now))) = false.

(** What Media Foundation reports for the sample clip: 1920 x 1080 at 25
    frames per second, the given samples to come. *)
Definition sample_mf_file (opens : bool) (reads : list VideoPlayer.ReadSample)
           (positions : list bool) : VideoPlayer.MFFile :=
  {| VideoPlayer.mf_attributes_ok := true;
     VideoPlayer.mf_reader :=
       if opens
       then Some {| VideoPlayer.reads := reads; VideoPlayer.positions := positions;
                    VideoPlayer.position_log := [] |}
       else None;
     VideoPlayer.mf_type_ok := true;
     VideoPlayer.mf_argb32_ok := true;
     VideoPlayer.mf_type2_ok := true;
     VideoPlayer.mf_rgb32_ok := true;
     VideoPlayer.mf_current_type_ok := true;
     VideoPlayer.mf_frame_size := Some (1920, 1080);
     VideoPlayer.mf_frame_rate := Some (25, 1);
     VideoPlayer.mf_duration := Some 4000000 |}.

(** What libav reports for the sample clip: 1280 x 720 at 25 frames per
    second, the given packets to come. *)
Definition sample_av_file (opens : bool) (packets : list FFmpegDecoder.AvPacket)
           (seeks : list bool) : FFmpegDecoder.AvFile :=
  {| FFmpegDecoder.av_open_ok := opens;
     FFmpegDecoder.av_stream_info_ok := true;
     FFmpegDecoder.av_best_stream := 0;
     FFmpegDecoder.av_width := 1280;
     FFmpegDecoder.av_height := 720;
     FFmpegDecoder.av_r_frame_rate := (25, 1);
     FFmpegDecoder.av_avg_frame_rate := (25, 1);
     FFmpegDecoder.av_format_duration := 400000;
     FFmpegDecoder.av_stream_duration := 0;
     FFmpegDecoder.av_time_base := (1, 25);
     FFmpegDecoder.av_nb_frames := 10;
     FFmpegDecoder.av_codec_alloc_ok := true;
     FFmpegDecoder.av_params_ok := true;
     FFmpegDecoder.av_codec_open_ok := true;
     FFmpegDecoder.av_pix_alpha := true;
     FFmpegDecoder.av_frames_alloc_ok := true;
     FFmpegDecoder.av_sws_ok := true;
     FFmpegDecoder.av_buf_size := 3686400;
     FFmpegDecoder.av_malloc_ok := true;
     FFmpegDecoder.av_packets := packets;
     FFmpegDecoder.av_seeks := seeks |}.

(** [n] video samples, 0.04 s apart, the first stamped [start]. *)
Fixpoint sample_reads (n : nat) (start : Z) : list VideoPlayer.ReadSample :=
  match n with
  | O => []
  | S n' => VideoPlayer.RS_Sample start true :: sample_reads n' (start + 400000)
  end.

(** [n] video packets, each yielding one frame. *)
Fixpoint sample_packets (n : nat) (tag : Z) : list FFmpegDecoder.AvPacket :=
  match n with
  | O => []
  | S n' => FFmpegDecoder.AvPkt true true (FFmpegDecoder.RecvFrame tag)
              :: sample_packets n' (tag + 1)
  end.

(** The world around one load of the sample clip.  The performance counter
    runs at 10 MHz and reads 1000 when the load happens. *)
Definition sample_env (mf_opens av_opens : bool) (frames : nat)
           (positions seeks : list bool) : VideoPlayer.LoadEnv :=
  {| VideoPlayer.has_ffmpeg := true;
     VideoPlayer.wide_ok := true;
     VideoPlayer.file_size := Some 1048576;
     VideoPlayer.mf_file := sample_mf_file mf_opens (sample_reads frames 0) positions;
     VideoPlayer.av_file := sample_av_file av_opens (sample_packets frames 0) seeks;
     VideoPlayer.tex_mf := (true, true);
     VideoPlayer.tex_ff := (true, true);
     VideoPlayer.maps := [];
     VideoPlayer.now_mf := 1000;
     VideoPlayer.now_ff := 1000 |}.

Definition sample_path : option string := Some "clip.mov"%string.

Definition sample_manager : VideoManager.Manager :=
  snd (VideoManager.Initialize true true true VideoManager.initial).

(** The sample clip loaded into a fresh player. *)
Definition sample_load (env : VideoPlayer.LoadEnv)
  : bool * VideoPlayer.Player * list VideoPlayer.Backend :=
  VideoPlayer.LoadVideo env sample_path (fresh_player sample_manager 10000000 1000).

Definition sample_player (env : VideoPlayer.LoadEnv) : VideoPlayer.Player :=
  snd (fst (sample_load env)).

(** ** The frame buffer over its life *)

(** The calls a frame buffer receives once it is initialised. *)
Inductive FbOp :=
| FbLock
| FbUnlock
| FbWrite (reader : list FrameBuffer.ReaderOp) (pData : option (list byte))
          (srcStride frameNo : Z).

Definition fb_step (op : FbOp) (fb : FrameBuffer.DaroFrameBuffer)
  : option FrameBuffer.DaroFrameBuffer :=
  match op with
  | FbLock => Some (snd (FrameBuffer.Lock fb))
  | FbUnlock => Some (FrameBuffer.Unlock fb)
  | FbWrite reader pData srcStride frameNo =>
      FrameBuffer.Write reader fb pData srcStride frameNo
  end.

Fixpoint fb_run (ops : list FbOp) (fb : FrameBuffer.DaroFrameBuffer)
  : option FrameBuffer.DaroFrameBuffer :=
  match ops with
  | [] => Some fb
  | op :: rest =>
      match fb_step op fb with
      | Some fb' => fb_run rest fb'
      | None => None
      end
  end.

(** The flag in the shared header says what the in-process flag says. *)
Definition lock_mirrored (fb : FrameBuffer.DaroFrameBuffer) : Prop :=
  ∀ v, FrameBuffer.m_pMapView fb = Some v →
       FrameBuffer.locked (FrameBuffer.header v)
       = if FrameBuffer.m_IsLocked fb then 1 else 0.

(** The buffer is mapped for [w] x [h] pixels and its header says so. *)
Definition mapped_for (w h : Z) (fb : FrameBuffer.DaroFrameBuffer) : Prop :=
  FrameBuffer.m_Width fb = w ∧ FrameBuffer.m_Height fb = h
  ∧ FrameBuffer.m_Stride fb = w * 4
  ∧ ∃ v, FrameBuffer.m_pMapView fb = Some v
         ∧ FrameBuffer.width (FrameBuffer.header v) = w
         ∧ FrameBuffer.height (FrameBuffer.header v) = h
         ∧ FrameBuffer.stride (FrameBuffer.header v) = w * 4
         ∧ length (FrameBuffer.pixels v) = Z.to_nat (w * 4 * h).

(** What holds of an initialised buffer at every moment. *)
Definition fb_inv (w h : Z) (fb : FrameBuffer.DaroFrameBuffer) : Prop :=
  mapped_for w h fb ∧ lock_mirrored fb.

(** ** The layer table over its life *)

(** The calls that write the layer table. *)
Inductive LayerOp :=
| LSetCount (count : Z)
| LUpdate (index : Z) (layer : option DaroLayer)
| LClear.

Definition layer_step (st : Engine.State) (op : LayerOp) : Engine.State :=
  match op with
  | LSetCount count => Engine.Daro_SetLayerCount st count
  | LUpdate index layer => Engine.Daro_UpdateLayer st index layer
  | LClear => Engine.Daro_ClearLayers st
  end.

Definition layer_run (ops : list LayerOp) (st : Engine.State) : Engine.State :=
  fold_left layer_step ops st.

(** The table has its 64 slots and the count lies within them. *)
Definition table_ok (st : Engine.State) : Prop :=
  length (Engine.g_Layers st) = 64%nat ∧ 0 <= Engine.g_LayerCount st <= 64.

(** The layers [Daro_Render] copies out under the lock. *)
Definition snapshot (st : Engine.State) : list DaroLayer :=
  take (Z.to_nat (Engine.g_LayerCount st)) (Engine.g_Layers st).

(** ** The timeline *)

Inductive ClockOp :=
| CPlay
| CStop
| CSeekToFrame (initialized : bool) (frame : Z)
| CSeekToTime (initialized : bool) (targetFps : F64.t) (time : F32.t).

Definition clock_step (c : Timeline.Clock) (op : ClockOp) : Timeline.Clock :=
  match op with
  | CPlay => Timeline.Daro_Play c
  | CStop => Timeline.Daro_Stop c
  | CSeekToFrame initialized frame => Timeline.Daro_SeekToFrame initialized frame c
  | CSeekToTime initialized targetFps time =>
      Timeline.Daro_SeekToTime initialized targetFps time c
  end.

Definition clock_run (ops : list ClockOp) (c : Timeline.Clock) : Timeline.Clock :=
  fold_left clock_step ops c.

(** ** Start-up and shut-down *)

Inductive LifeOp :=
| LifeInitialize (env : Lifecycle.InitEnv) (width height : Z) (targetFps : F64.t)
| LifeShutdown
| LifeLoadVideo (startup_ok : bool) (env : VideoPlayer.LoadEnv) (freq now : Z)
                (filePath : option string)
| LifeUnloadVideo (videoId : Z)
| LifeLock (outs : bool)
| LifeUnlock.

Definition life_step (s : Lifecycle.Session) (op : LifeOp) : Lifecycle.Session :=
  match op with
  | LifeInitialize env width height targetFps =>
      snd (Lifecycle.Daro_Initialize env width height targetFps s)
  | LifeShutdown => Lifecycle.Daro_Shutdown s
  | LifeLoadVideo startup_ok env freq now filePath =>
      snd (Lifecycle.Daro_LoadVideo startup_ok env freq now filePath s)
  | LifeUnloadVideo videoId => Lifecycle.Daro_UnloadVideo videoId s
  | LifeLock outs => snd (Lifecycle.Daro_LockFrameBuffer outs s)
  | LifeUnlock => Lifecycle.Daro_UnlockFrameBuffer s
  end.

Definition life_run (ops : list LifeOp) (s : Lifecycle.Session) : Lifecycle.Session :=
  fold_left life_step ops s.

(** An initialised engine owns a renderer and a mapped frame buffer; an
    engine that is not initialised owns neither, and no video. *)
Definition session_ok (s : Lifecycle.Session) : Prop :=
  if Engine.g_Initialized (Lifecycle.engine s)
  then is_Some (Engine.g_Renderer (Lifecycle.engine s))
       ∧ ∃ fb w h, Engine.g_FrameBuffer (Lifecycle.engine s) = Some fb
                   ∧ fb_inv w h fb
  else Engine.g_Renderer (Lifecycle.engine s) = None
       ∧ Engine.g_FrameBuffer (Lifecycle.engine s) = None
       ∧ VideoManager.m_Players (Lifecycle.videos s) = ∅
       ∧ VideoManager.m_Initialized (Lifecycle.videos s) = false.

(** What the world answers when everything works. *)
Definition all_steps (ok : bool) : Lifecycle.RendererSteps :=
  Lifecycle.mkSteps ok ok ok ok ok ok ok ok ok ok.

Definition sample_init (steps : Lifecycle.RendererSteps) (map_ok : bool)
  : Lifecycle.InitEnv :=
  {| Lifecycle.com := Lifecycle.ComFresh; Lifecycle.steps := steps;
     Lifecycle.brush_ok := true; Lifecycle.format_ok := true;
     Lifecycle.geometry_ok := true; Lifecycle.path_ok := true;
     Lifecycle.constants_ok := true;
     Lifecycle.draws := [];
     Lifecycle.map_ok := map_ok;
     Lifecycle.frequency := 10000000; Lifecycle.counter := 1000 |}.

(** ** A video source after a load *)

(** What a successful load hands over: a playing, looping video of a size
    the texture can hold, with its texture and shader resource view. *)
Definition loaded_ok (p : VideoPlayer.Player) : Prop :=
  VideoPlayer.m_Loaded p = true ∧ VideoPlayer.m_Playing p = true
  ∧ VideoPlayer.m_Loop p = true
  ∧ 0 < VideoPlayer.m_Width p <= 8192 ∧ 0 < VideoPlayer.m_Height p <= 8192
  ∧ VideoPlayer.m_SRV p = true ∧ is_Some (VideoPlayer.m_Texture p).

(** What a failed load leaves behind: no video. *)
Definition unloaded (p : VideoPlayer.Player) : Prop :=
  VideoPlayer.m_Loaded p = false ∧ VideoPlayer.m_Playing p = false
  ∧ VideoPlayer.m_Reader p = None ∧ VideoPlayer.m_FFmpegDecoder p = None
  ∧ VideoPlayer.m_Width p = 0 ∧ VideoPlayer.m_Height p = 0
  ∧ VideoPlayer.m_SRV p = false.

(** ** The registry over its life *)

(** After [n] calls: at most 32 videos, each loaded on a back end; the ids
    handed out so far lie below the next one, which has not wrapped. *)
Definition registry_ok (m : VideoManager.Manager) (issued : gset Z) (n : Z) : Prop :=
  Z.of_nat (size (VideoManager.m_Players m)) <= VideoManager.MAX_LOADED_VIDEOS
  ∧ 1 <= VideoManager.m_NextVideoId m <= 1 + n
  ∧ dom (VideoManager.m_Players m) ⊆ issued
  ∧ (∀ k, k ∈ issued → 1 <= k < VideoManager.m_NextVideoId m)
  ∧ (∀ k p, VideoManager.m_Players m !! k = Some p → on_primary p ∨ on_fallback p).

(** ** The fallback decoder over its life *)

(** A packet the pump of [DecodeNextFrame] passes over: one of another
    stream, one the codec refuses, or one after which the codec wants more
    input. *)
Definition passed_over (pk : FFmpegDecoder.AvPacket) : bool :=
  match pk with
  | FFmpegDecoder.AvReadFail _ => false
  | FFmpegDecoder.AvPkt video send_ok recv =>
      negb video || negb send_ok
      || match recv with FFmpegDecoder.RecvAgain => true | _ => false end
  end.





(** ** Textures and Spout over their life *)

(** The calls that touch the texture cache, the Spout sender and the Spout
    receivers. *)
Inductive ResourceOp :=
| RLoadTexture (img : Resources.ImageFile) (filePath : option string)
| RUnloadTexture (textureId : Z)
| REnableSpout (name : option string)
| RDisableSpout
| RConnectSpoutReceiver (name : option string)
| RDisconnectSpoutReceiver (receiverId : Z)
| RUpdateSpoutReceivers (answers : Z -> Resources.SenderAnswer).

Definition resource_step (s : Resources.Store) (op : ResourceOp) : Resources.Store :=
  match op with
  | RLoadTexture img filePath => snd (Resources.LoadTexture img filePath s)
  | RUnloadTexture textureId => Resources.UnloadTexture textureId s
  | REnableSpout name => snd (Resources.EnableSpout name s)
  | RDisableSpout => Resources.DisableSpout s
  | RConnectSpoutReceiver name => snd (Resources.ConnectSpoutReceiver name s)
  | RDisconnectSpoutReceiver receiverId => Resources.DisconnectSpoutReceiver receiverId s
  | RUpdateSpoutReceivers answers => Resources.UpdateSpoutReceivers answers s
  end.

Definition resource_run (ops : list ResourceOp) (s : Resources.Store) : Resources.Store :=
  fold_left resource_step ops s.

(** After [n] calls: every cached texture has a positive id below the next
    one and a size within 1..8192, is filed under a path that is not empty
    and has no two dots in a row, and no two entries share a path. *)
Definition textures_ok (s : Resources.Store) (n : Z) : Prop :=
  1 <= Resources.m_NextTextureId s <= 1 + n
  ∧ (∀ id info, Resources.m_Textures s !! id = Some info →
       1 <= id < Resources.m_NextTextureId s
       ∧ 0 < Resources.tex_width info <= 8192
       ∧ 0 < Resources.tex_height info <= 8192
       ∧ Resources.tex_path info ≠ EmptyString
       ∧ VideoPlayer.has_dotdot (Resources.tex_path info) = false)
  ∧ (∀ i j a b, Resources.m_Textures s !! i = Some a →
       Resources.m_Textures s !! j = Some b →
       Resources.tex_path a = Resources.tex_path b → i = j).

(** After [n] calls: every receiver has a positive id below the next one
    and a sender name of 1..255 characters; one that counts as connected
    has its texture and view, of a size that is not zero. *)
Definition receivers_ok (s : Resources.Store) (n : Z) : Prop :=
  1 <= Resources.m_NextReceiverId s <= 1 + n
  ∧ (∀ id info, Resources.m_SpoutReceivers s !! id = Some info →
       1 <= id < Resources.m_NextReceiverId s
       ∧ (0 < String.length (Resources.senderName info) <= 255)%nat
       ∧ (Resources.connected info = true →
            Resources.rcv_texture info = true ∧ Resources.rcv_srv info = true
            ∧ 0 < Resources.rcv_width info ∧ 0 < Resources.rcv_height info)).

(** The sender is enabled exactly when it carries a name, of 1..255
    characters. *)
Definition sender_ok (s : Resources.Store) : Prop :=
  if Resources.m_SpoutEnabled s
  then ∃ n, Resources.sender_name s = Some n ∧ (0 < String.length n <= 255)%nat
  else Resources.sender_name s = None.

(** An image file every step of the load succeeds on. *)
Definition sample_image (width height : N) : Resources.ImageFile :=
  {| Resources.img_wide_ok := true; Resources.img_decoder_ok := true;
     Resources.img_frame_ok := true; Resources.img_size := Some (width, height);
     Resources.img_converter_ok := true; Resources.img_convert_init_ok := true;
     Resources.img_copy_ok := true; Resources.img_texture_ok := true;
     Resources.img_srv_ok := true |}.

(** ** What the mask index reads *)

(** Two layers that agree on what the index construction reads: the type
    and the list of targets. *)
Definition same_mask_data (a b : DaroLayer) : Prop :=
  layerType a = layerType b
  ∧ maskedLayerCount a = maskedLayerCount b
  ∧ maskedLayerIds a = maskedLayerIds b.

(** The engine with another mask index left over from earlier frames. *)
Definition with_left_over (st : Engine.State) (idx : gmap Z (list Z)) : Engine.State :=
  {| Engine.g_Renderer := Engine.g_Renderer st;
     Engine.g_FrameBuffer := Engine.g_FrameBuffer st;
     Engine.g_Initialized := Engine.g_Initialized st;
     Engine.g_Layers := Engine.g_Layers st;
     Engine.g_LayerCount := Engine.g_LayerCount st;
     Engine.g_FPS := Engine.g_FPS st; Engine.g_FrameTime := Engine.g_FrameTime st;
     Engine.g_DroppedFrames := Engine.g_DroppedFrames st;
     Engine.g_FrameNumber := Engine.g_FrameNumber st;
     Engine.g_TargetFps := Engine.g_TargetFps st;
     Engine.g_PerfFreq := Engine.g_PerfFreq st;
     Engine.g_LastFrameTime := Engine.g_LastFrameTime st;
     Engine.layerToMasks := idx |}.

(** A layer with its [active] flag set to [a]. *)
Definition set_active (a : Z) (l : DaroLayer) : DaroLayer :=
  {| id := id l; active := a; layerType := layerType l;
     posX := posX l; posY := posY l; sizeX := sizeX l; sizeY := sizeY l;
     rotX := rotX l; rotY := rotY l; rotZ := rotZ l;
     anchorX := anchorX l; anchorY := anchorY l;
     opacity := opacity l;
     colorR := colorR l; colorG := colorG l; colorB := colorB l; colorA := colorA l;
     sourceType := sourceType l; textureId := textureId l;
     spoutReceiverId := spoutReceiverId l;
     texX := texX l; texY := texY l; texW := texW l; texH := texH l;
     texRot := texRot l; textureLocked := textureLocked l;
     textContent := textContent l; fontFamily := fontFamily l;
     fontSize := fontSize l; fontBold := fontBold l; fontItalic := fontItalic l;
     textAlignment := textAlignment l;
     lineHeight := lineHeight l; letterSpacing := letterSpacing l;
     textAntialiasMode := textAntialiasMode l;
     texturePath := texturePath l;
     maskMode := maskMode l; maskedLayerCount := maskedLayerCount l;
     maskedLayerIds := maskedLayerIds l |}.

(** ** The pipeline state behind the draw commands *)

(** The depth-stencil state and the blend state the device is in
    ([m_CachedState] follows them): which stencil state is bound, and
    whether colour reaches the render target. *)
Record Pipeline := mkPipeline {
  stencil : Renderer.StencilState;
  color_write : bool
}.

Definition pipeline_step (p : Pipeline) (c : Renderer.DrawCmd) : Pipeline :=
  match c with
  | Renderer.CmdSetStencil s _ => {| stencil := s; color_write := color_write p |}
  | Renderer.CmdColorWrite b => {| stencil := stencil p; color_write := b |}
  | _ => p
  end.

Definition pipeline_run (cmds : list Renderer.DrawCmd) (p : Pipeline) : Pipeline :=
  fold_left pipeline_step cmds p.

(** Every command with the state it is issued in. *)
Fixpoint issued (p : Pipeline) (cmds : list Renderer.DrawCmd)
  : list (Pipeline * Renderer.DrawCmd) :=
  match cmds with
  | [] => []
  | c :: rest => (p, c) :: issued (pipeline_step p c) rest
  end.

(** A draw is either visible -- colour on, the stencil not being written --
    or, for a quad, a stencil write with colour off. *)
Definition draw_ok (pc : Pipeline * Renderer.DrawCmd) : Prop :=
  match pc.2 with
  | Renderer.CmdQuad _ _ =>
      (color_write pc.1 = true ∧ stencil pc.1 ≠ Renderer.DSState_WriteMask)
      ∨ (color_write pc.1 = false ∧ stencil pc.1 = Renderer.DSState_WriteMask)
  | Renderer.CmdFillEllipse _ _ _ _ _ _ | Renderer.CmdText _ _ | Renderer.CmdBounds _ =>
      color_write pc.1 = true ∧ stencil pc.1 ≠ Renderer.DSState_WriteMask
  | _ => True
  end.

(** The state between two layers: no stencil, colour on. *)
Definition pipeline_idle : Pipeline :=
  {| stencil := Renderer.DSState_Disabled; color_write := true |}.

(** What one layer contributes leaves the pipeline idle again. *)
Definition chunk_ok (c : list Renderer.DrawCmd) : Prop :=
  pipeline_run c pipeline_idle = pipeline_idle
  ∧ Forall draw_ok (issued pipeline_idle c).

(** The commands Direct3D takes, as opposed to those Direct2D takes. *)
Definition is_d3d (c : Renderer.DrawCmd) : bool :=
  match c with
  | Renderer.CmdFillEllipse _ _ _ _ _ _ | Renderer.CmdText _ _ | Renderer.CmdBounds _ => false
  | _ => true
  end.

End Spec.

(* ===================================================================== *)
(** * Part III.  Properties                                               *)
(* ===================================================================== *)

(** ** The layer table (C6) *)

Section LayerTable.
Import SharedTypes Engine Spec.

Lemma run_updates_app st ops1 ops2 :
  run_updates st (ops1 ++ ops2) = run_updates (run_updates st ops1) ops2.
Proof. unfold run_updates. apply fold_left_app. Qed.

Lemma update_length st i l :
  length (g_Layers (Daro_UpdateLayer st i l)) = length (g_Layers st).
Proof.
  unfold Daro_UpdateLayer. destruct l as [l|]; [|done].
  destruct (_ || _); [done|]. simpl. apply length_insert.
Qed.

Lemma run_updates_length ops : ∀ st,
  length (g_Layers (run_updates st ops)) = length (g_Layers st).
Proof.
  induction ops as [|op ops IH]; intros st; [done|].
  change (run_updates st (op :: ops))
    with (run_updates (Daro_UpdateLayer st (fst op) (snd op)) ops).
  rewrite IH. apply update_length.
Qed.

(** An update of slot [i] with a record stores that record. *)
Lemma update_lookup_same st i r :
  0 <= i < 64 → length (g_Layers st) = 64%nat →
  g_Layers (Daro_UpdateLayer st i (Some r)) !! Z.to_nat i = Some r.
Proof.
  intros Hi Hlen. unfold Daro_UpdateLayer, DARO_MAX_LAYERS.
  destruct (i <? 0) eqn:E1; [lia|]. destruct (64 <=? i) eqn:E2; [lia|].
  simpl. apply list_lookup_insert_eq. lia.
Qed.

(** An update that does not store a record into slot [i] leaves it alone. *)
Lemma update_lookup_other st i j l :
  0 <= i → (∀ r, (j, l) ≠ (i, Some r)) →
  g_Layers (Daro_UpdateLayer st j l) !! Z.to_nat i = g_Layers st !! Z.to_nat i.
Proof.
  intros Hi Hne. unfold Daro_UpdateLayer, DARO_MAX_LAYERS.
  destruct l as [r|]; [|done].
  destruct (j <? 0) eqn:E1; [done|]. destruct (64 <=? j) eqn:E2; [done|].
  simpl. apply list_lookup_insert_ne.
  intros Heq. apply (Hne r). f_equal. lia.
Qed.

Lemma run_updates_untouched ops : ∀ st i,
  0 <= i → (∀ r, (i, Some r) ∉ ops) →
  g_Layers (run_updates st ops) !! Z.to_nat i = g_Layers st !! Z.to_nat i.
Proof.
  induction ops as [|[j l] ops IH]; intros st i Hi Hno; [done|].
  change (run_updates st ((j, l) :: ops))
    with (run_updates (Daro_UpdateLayer st j l) ops).
  rewrite IH; [|done|].
  - apply update_lookup_other; [done|].
    intros r Heq. apply (Hno r). rewrite Heq. apply list_elem_of_here.
  - intros r Hin. apply (Hno r). by apply list_elem_of_further.
Qed.

(** C6.  For every N in [0,64] and every index i < N: after
    [Daro_SetLayerCount(N)] and any sequence of [Daro_UpdateLayer] calls,
    [Daro_GetLayer(i)] delivers exactly the record handed to the most recent
    [Daro_UpdateLayer(i, ...)] call.  The call sequence is split at that
    most recent call: [post] holds the later calls, none of which stores a
    record into slot [i]. *)
Theorem C6_get_returns_last_update st N i r pre post buf :
  length (g_Layers st) = 64%nat →
  0 <= N <= 64 →
  0 <= i < N →
  (∀ r', (i, Some r') ∉ post) →
  Daro_GetLayer
    (run_updates (Daro_SetLayerCount st N) (pre ++ (i, Some r) :: post))
    i (Some buf)
  = Some r.
Proof.
  intros Hlen HN Hi Hpost.
  unfold Daro_GetLayer, DARO_MAX_LAYERS.
  destruct (i <? 0) eqn:E1; [lia|]. destruct (64 <=? i) eqn:E2; [lia|]. simpl.
  rewrite run_updates_app.
  change (run_updates ?s ((i, Some r) :: post))
    with (run_updates (Daro_UpdateLayer s i (Some r)) post).
  rewrite run_updates_untouched; [|lia|done].
  rewrite update_lookup_same; [done|lia|].
  rewrite run_updates_length. done.
Qed.

Lemma C6_witness :
  Daro_GetLayer
    (run_updates (Daro_SetLayerCount Engine.initial 3)
       ([(1, Some (sample_layer 7 0))] ++ (1, Some (sample_layer 8 1))
          :: [(2, Some (sample_layer 9 0)); (1, None)]))
    1 (Some zero_layer)
  = Some (sample_layer 8 1).
Proof.
  apply (C6_get_returns_last_update Engine.initial 3 1 (sample_layer 8 1)
           [(1, Some (sample_layer 7 0))]
           [(2, Some (sample_layer 9 0)); (1, None)] zero_layer).
  - reflexivity.
  - lia.
  - lia.
  - intros r' Hin.
    apply elem_of_cons in Hin as [Hin|Hin]; [discriminate Hin|].
    apply elem_of_cons in Hin as [Hin|Hin]; [discriminate Hin|].
    by apply elem_of_nil in Hin.
Defined.

End LayerTable.


(** ** Circles (C7) *)

Section Circles.
Import SharedTypes Renderer Spec.

(** On an active Circle layer [RenderLayer] is [RenderCircle]. *)
Lemma RenderLayer_circle r layer :
  active layer ≠ 0 → layerType layer = DARO_TYPE_CIRCLE →
  RenderLayer r layer = RenderCircle r layer.
Proof.
  intros Hact Hty. unfold RenderLayer.
  destruct (active layer =? 0) eqn:E; [lia|].
  rewrite Hty. reflexivity.
Qed.

(** C7, as stated, fails: a white Circle layer at opacity 0.5 is filled with
    the colour (1, 1, 1, 0.5), not with (0.5, 0.5, 0.5, 0.5). *)
Lemma C7_counterexample :
  ¬ circle_claim (sample_renderer false) (sample_layer 1 DARO_TYPE_CIRCLE).
Proof. unfold circle_claim. vm_compute. discriminate. Qed.

(** C7, amended.  For every active Circle layer, when the Direct2D target
    exists and a brush is at hand, the renderer fills exactly one ellipse: its
    centre is (posX, posY), both radii are min(sizeX, sizeY) * 0.5, the
    antialias mode is per-primitive, and the brush colour is
    (colorR, colorG, colorB, colorA * opacity) -- only the alpha channel is
    multiplied by the opacity (up to the [!=] test that guards the brush
    update). *)
Theorem C7_circle_fill r layer :
  active layer ≠ 0 →
  layerType layer = DARO_TYPE_CIRCLE →
  m_D2DRenderTarget r = true →
  brush_available r →
  brush_coherent r →
  ∃ brush,
    snd (RenderLayer r layer)
    = [CmdFillEllipse (posX layer) (posY layer)
         (F32.mul (F32.min (sizeX layer) (sizeY layer)) F32.half)
         (F32.mul (F32.min (sizeX layer) (sizeY layer)) F32.half)
         brush PER_PRIMITIVE]
    ∧ same_color brush (straight_alpha layer).
Proof.
  intros Hact Hty Htgt Havail Hcoh.
  rewrite RenderLayer_circle by done.
  unfold RenderCircle. rewrite Htgt. simpl negb. cbv iota.
  fold (straight_alpha layer).
  destruct (m_CachedShapeBrush r) as [c|] eqn:Hb.
  - destruct (color_differs (straight_alpha layer) (m_LastShapeColor r)) eqn:Hd.
    + eexists. split; [reflexivity|]. simpl. by left.
    + eexists. split; [reflexivity|]. simpl. rewrite Hb. simpl.
      right. by rewrite <- (Hcoh c Hb).
  - rewrite (Havail Hb).
    eexists. split; [reflexivity|]. simpl. by left.
Qed.

Lemma C7_witness :
  ∃ brush,
    snd (RenderLayer (sample_renderer false) (sample_layer 1 DARO_TYPE_CIRCLE))
    = [CmdFillEllipse (F32.of_Z 50) (F32.of_Z 60) (F32.of_Z 50) (F32.of_Z 50)
         brush PER_PRIMITIVE]
    ∧ same_color brush (straight_alpha (sample_layer 1 DARO_TYPE_CIRCLE)).
Proof.
  apply (C7_circle_fill (sample_renderer false) (sample_layer 1 DARO_TYPE_CIRCLE)).
  - vm_compute. discriminate.
  - reflexivity.
  - reflexivity.
  - intros _. reflexivity.
  - intros c Hc. discriminate Hc.
Defined.

End Circles.

(** ** Mask and Group layers in the render loop (C5) *)

Section MaskAndGroup.
Import SharedTypes Renderer Spec.




End MaskAndGroup.

(** ** The mask index (C4) *)

Section MaskIndex.
Import SharedTypes Renderer Engine Spec.

Lemma targets_of_push m x i t :
  targets_of (push_mask m x i) t
  = if decide (x = t) then targets_of m t ++ [i] else targets_of m t.
Proof.
  unfold targets_of, push_mask. case_decide as Hx.
  - subst. by rewrite lookup_insert_eq.
  - by rewrite lookup_insert_ne.
Qed.

Lemma targets_of_add_targets ts : ∀ m i t,
  targets_of (add_targets m i ts) t
  = targets_of m t
      ++ (if 0 <=? t then (fun _ => i) <$> filter (fun x => x = t) ts else []).
Proof.
  induction ts as [|x ts IH]; intros m i t.
  - simpl. destruct (0 <=? t); by rewrite app_nil_r.
  - change (add_targets m i (x :: ts))
      with (add_targets (if 0 <=? x then push_mask m x i else m) i ts).
    rewrite IH. rewrite filter_cons.
    destruct (0 <=? x) eqn:Ex.
    + rewrite targets_of_push. case_decide as Hx.
      * subst x. rewrite Ex. simpl. by rewrite <- app_assoc.
      * done.
    + case_decide as Hx; [|done].
      subst x. by rewrite Ex.
Qed.

Lemma targets_of_index_layer m i layer t :
  targets_of (index_layer m i layer) t = targets_of m t ++ pushes_of t i layer.
Proof.
  unfold index_layer, pushes_of.
  destruct ((layerType layer =? DARO_TYPE_MASK) && (0 <? maskedLayerCount layer)).
  - rewrite targets_of_add_targets. by destruct (0 <=? t).
  - by rewrite app_nil_r.
Qed.

Lemma targets_of_index_from layers : ∀ m i t,
  targets_of (index_from m i layers) t = targets_of m t ++ pushes_from t i layers.
Proof.
  induction layers as [|layer rest IH]; intros m i t; simpl.
  - by rewrite app_nil_r.
  - rewrite IH, targets_of_index_layer. by rewrite <- app_assoc.
Qed.

(** Whatever the previous frame left in the map, the index of this frame
    holds for every target just the indices pushed by this scan. *)
Lemma targets_of_build prev layers t :
  targets_of (build_mask_index prev layers) t = pushes_from t 0 layers.
Proof.
  unfold build_mask_index. rewrite targets_of_index_from.
  unfold targets_of at 1. rewrite lookup_fmap.
  by destruct (prev !! t).
Qed.

Lemma pushes_of_cons t i layer y ys :
  pushes_of t i layer = y :: ys → 0 <= t ∧ lists_target [layer] 0 t.
Proof.
  unfold pushes_of, lists_target. intros Hp.
  destruct (layerType layer =? DARO_TYPE_MASK) eqn:Ety; [|done].
  destruct (0 <? maskedLayerCount layer) eqn:Ec; [|done].
  destruct (0 <=? t) eqn:Et; [|done]. simpl in Hp.
  destruct (filter (fun x => x = t) (scanned_targets layer)) as [|z zs] eqn:Ef;
    [done|].
  split; [lia|].
  exists layer. split; [done|]. split; [lia|]. split; [lia|].
  assert (z ∈ filter (fun x => x = t) (scanned_targets layer)) as Hz
    by (rewrite Ef; apply list_elem_of_here).
  apply list_elem_of_filter in Hz as [-> Hz]. done.
Qed.

Lemma pushes_of_nil t i layer :
  pushes_of t i layer = [] → ¬ (0 <= t ∧ lists_target [layer] 0 t).
Proof.
  unfold pushes_of, lists_target.
  intros Hnil (Ht & mask & Hm & Hty & Hc & Hin).
  injection Hm as <-.
  rewrite Hty in Hnil. simpl in Hnil.
  destruct (0 <? maskedLayerCount layer) eqn:Ec; [|lia].
  destruct (0 <=? t) eqn:Et; [|lia]. simpl in Hnil.
  apply fmap_nil_inv in Hnil.
  assert (t ∈ filter (fun x => x = t) (scanned_targets layer)) as Hf
    by (by apply list_elem_of_filter).
  rewrite Hnil in Hf. by apply elem_of_nil in Hf.
Qed.

Lemma pushes_of_all t i layer : Forall (fun k => k = i) (pushes_of t i layer).
Proof.
  unfold pushes_of. destruct (_ && _); [|constructor].
  apply Forall_fmap. apply Forall_true. done.
Qed.

Lemma lists_target_cons layer rest k t :
  lists_target (layer :: rest) (S k) t ↔ lists_target rest k t.
Proof. unfold lists_target. simpl. done. Qed.

Lemma lists_target_head layer rest t :
  lists_target (layer :: rest) 0 t ↔ lists_target [layer] 0 t.
Proof. unfold lists_target. simpl. done. Qed.

(** The first index pushed for a target is the first Mask layer, in scan
    order, that lists it. *)
Lemma pushes_from_head layers : ∀ t i first others,
  pushes_from t i layers = first :: others →
  ∃ k : nat, first = i + Z.of_nat k
    ∧ 0 <= t
    ∧ lists_target layers k t
    ∧ ∀ j : nat, (j < k)%nat → ¬ lists_target layers j t.
Proof.
  induction layers as [|layer rest IH]; intros t i first others Hp; [done|].
  simpl in Hp.
  destruct (pushes_of t i layer) as [|y ys] eqn:Eo.
  - simpl in Hp. apply IH in Hp as (k & -> & Ht & Hk & Hmin).
    exists (S k). split; [lia|]. split; [done|].
    split; [by apply lists_target_cons|].
    intros [|j] Hj.
    + rewrite lists_target_head. intros Hl.
      by apply (pushes_of_nil _ _ _ Eo).
    + rewrite lists_target_cons. apply Hmin. lia.
  - simpl in Hp. injection Hp as -> _.
    pose proof (pushes_of_all t i layer) as Hall.
    rewrite Eo in Hall. apply Forall_cons in Hall as [-> _].
    apply pushes_of_cons in Eo as [Ht Hl].
    exists 0%nat. split; [lia|]. split; [done|].
    split; [by apply lists_target_head|]. lia.
Qed.

Lemma pushes_from_nil layers : ∀ t i,
  pushes_from t i layers = [] →
  ¬ (0 <= t ∧ ∃ k, lists_target layers k t).
Proof.
  induction layers as [|layer rest IH]; intros t i Hp (Ht & k & Hk).
  - destruct Hk as (mask & Hm & _). by destruct k.
  - simpl in Hp. apply app_eq_nil in Hp as [Ho Hr].
    destruct k as [|k].
    + apply (pushes_of_nil _ _ _ Ho). split; [done|].
      by apply lists_target_head in Hk.
    + apply lists_target_cons in Hk. apply (IH t (i + 1) Hr). eauto.
Qed.

(** For a dispatched layer the route is read off the vector of its id. *)
Lemma route_dispatched n idx layer :
  dispatched layer →
  route n idx layer
  = match targets_of idx (id layer) with
    | maskIndex :: _ =>
        if (maskIndex <? 0) || (n <=? maskIndex) then RouteBadMask
        else RouteMasked maskIndex
    | [] => RoutePlain
    end.
Proof.
  intros (Hact & Hm & Hg). unfold route, targets_of.
  destruct (active layer =? 0) eqn:E1; [lia|].
  destruct (layerType layer =? DARO_TYPE_MASK) eqn:E2; [lia|].
  destruct (layerType layer =? DARO_TYPE_GROUP) eqn:E3; [lia|].
  destruct (idx !! id layer) as [[|? ?]|]; reflexivity.
Qed.

Lemma lists_target_lt layers k t : lists_target layers k t → (k < length layers)%nat.
Proof. intros (mask & Hm & _). by apply lookup_lt_Some in Hm. Qed.

(** C4, as stated, fails: a layer whose id is negative is never masked, even
    when a Mask layer lists that id. *)
Lemma C4_counterexample :
  ¬ masked_iff_listed_claim ∅
      [sample_layer (-1) DARO_TYPE_RECTANGLE; sample_mask 100 [-1]]
      (sample_layer (-1) DARO_TYPE_RECTANGLE).
Proof.
  unfold masked_iff_listed_claim. intros H.
  assert (dispatched (sample_layer (-1) DARO_TYPE_RECTANGLE)) as Hd
    by (repeat split; vm_compute; discriminate).
  destruct (H Hd) as [_ Hback].
  destruct Hback as [m Hm].
  - exists 1%nat, (sample_mask 100 [-1]).
    split; [reflexivity|]. split; [reflexivity|]. split; [reflexivity|].
    vm_compute. apply list_elem_of_here.
  - vm_compute in Hm. discriminate Hm.
Qed.

(** C4, amended.  Let the index be built from the snapshot [layers] (whatever
    the previous frame left in the map).  A dispatched layer -- active,
    neither Mask nor Group -- takes the masked path if and only if its id is
    non-negative and is among the scanned target entries of some Mask layer of
    the snapshot; the mask applied is the first such Mask layer in scan
    order, so later ones listing the same target have no effect; a layer that
    is not masked is rendered plainly; and an index entry for a target that is
    no layer's id changes no layer's route. *)
Theorem C4_masked_iff_listed prev layers layer :
  dispatched layer →
  let idx := build_mask_index prev layers in
  let n := Z.of_nat (length layers) in
  ((∃ m, route n idx layer = RouteMasked m)
   ↔ (0 <= id layer ∧ ∃ k, lists_target layers k (id layer)))
  ∧ (∀ m, route n idx layer = RouteMasked m →
       ∃ k : nat, m = Z.of_nat k
         ∧ lists_target layers k (id layer)
         ∧ ∀ j : nat, (j < k)%nat → ¬ lists_target layers j (id layer))
  ∧ ((¬ ∃ m, route n idx layer = RouteMasked m) → route n idx layer = RoutePlain)
  ∧ (∀ t, (∀ l, l ∈ layers → id l ≠ t) →
       ∀ l, l ∈ layers → route n (delete t idx) l = route n idx l).
Proof.
  intros Hd idx n.
  assert (∀ m, route n idx layer = RouteMasked m →
            ∃ k : nat, m = Z.of_nat k ∧ 0 <= id layer
              ∧ lists_target layers k (id layer)
              ∧ ∀ j : nat, (j < k)%nat → ¬ lists_target layers j (id layer)) as Hfirst.
  { intros m Hm. rewrite (route_dispatched n idx layer Hd) in Hm.
    unfold idx in Hm. rewrite targets_of_build in Hm.
    destruct (pushes_from (id layer) 0 layers) as [|first others] eqn:Ep; [done|].
    apply pushes_from_head in Ep as (k & -> & Ht & Hk & Hmin).
    destruct (_ || _); [done|]. injection Hm as <-.
    exists k. split; [lia|]. done. }
  assert ((0 <= id layer ∧ ∃ k, lists_target layers k (id layer)) →
          ∃ m, route n idx layer = RouteMasked m) as Hback.
  { intros Hl. rewrite (route_dispatched n idx layer Hd).
    unfold idx. rewrite targets_of_build.
    destruct (pushes_from (id layer) 0 layers) as [|first others] eqn:Ep.
    - exfalso. by apply pushes_from_nil in Ep.
    - apply pushes_from_head in Ep as (k & -> & _ & Hk & _).
      apply lists_target_lt in Hk.
      destruct (0 + Z.of_nat k <? 0) eqn:E1; [lia|].
      destruct (n <=? 0 + Z.of_nat k) eqn:E2; [unfold n in E2; lia|].
      simpl. eauto. }
  split; [|split; [|split]].
  - split; [|done].
    intros [m Hm]. apply Hfirst in Hm as (k & _ & Ht & Hk & _). eauto.
  - intros m Hm. apply Hfirst in Hm as (k & -> & _ & Hk & Hmin). eauto.
  - intros Hnot. rewrite (route_dispatched n idx layer Hd).
    unfold idx. rewrite targets_of_build.
    destruct (pushes_from (id layer) 0 layers) as [|first others] eqn:Ep; [done|].
    exfalso. apply Hnot. apply Hback.
    apply pushes_from_head in Ep as (k & _ & Ht & Hk & _). eauto.
  - intros t Hnone l Hl. unfold route.
    rewrite lookup_delete_ne; [done|].
    intros Heq. by apply (Hnone l).
Qed.

Lemma C4_witness :
  let layers := [sample_mask 100 [5; 9; 999]; sample_layer 5 DARO_TYPE_RECTANGLE;
                 sample_mask 101 [5]; sample_layer 7 DARO_TYPE_TEXT] in
  (∃ m, route 4 (build_mask_index ∅ layers) (sample_layer 5 DARO_TYPE_RECTANGLE)
        = RouteMasked m)
  ∧ route 4 (build_mask_index ∅ layers) (sample_layer 5 DARO_TYPE_RECTANGLE)
    = RouteMasked 0
  ∧ route 4 (build_mask_index ∅ layers) (sample_layer 7 DARO_TYPE_TEXT) = RoutePlain.
Proof.
  intros layers.
  assert (dispatched (sample_layer 5 DARO_TYPE_RECTANGLE)) as Hd5
    by (repeat split; vm_compute; discriminate).
  assert (dispatched (sample_layer 7 DARO_TYPE_TEXT)) as Hd7
    by (repeat split; vm_compute; discriminate).
  destruct (C4_masked_iff_listed ∅ layers (sample_layer 5 DARO_TYPE_RECTANGLE) Hd5)
    as (Hiff & _ & _ & _).
  destruct (C4_masked_iff_listed ∅ layers (sample_layer 7 DARO_TYPE_TEXT) Hd7)
    as (_ & _ & Hplain & _).
  split; [|split].
  - apply Hiff. split; [vm_compute; discriminate|].
    exists 0%nat, (sample_mask 100 [5; 9; 999]).
    split; [reflexivity|]. split; [reflexivity|]. split; [reflexivity|].
    vm_compute. apply list_elem_of_here.
  - vm_compute. reflexivity.
  - apply Hplain. intros [m Hm]. vm_compute in Hm. discriminate Hm.
Defined.

End MaskIndex.

(** ** The frame-buffer hand-off (C2) *)

Section FrameBufferWrite.
Import FrameBuffer Spec.

(** What a successful [memcpy] leaves at every index of the destination. *)
Lemma memcpy_lookup dst doff src soff n dst' :
  memcpy dst doff src soff n = Some dst' →
  length dst' = length dst
  ∧ ∀ i, 0 <= i →
      dst' !! Z.to_nat i
      = if decide (doff <= i < doff + n)
        then src !! Z.to_nat (soff + (i - doff))
        else dst !! Z.to_nat i.
Proof.
  unfold memcpy. intros H.
  destruct (0 <=? doff) eqn:E1; [|done]. destruct (0 <=? soff) eqn:E2; [|done].
  destruct (0 <=? n) eqn:E3; [|done].
  destruct (soff + n <=? Z.of_nat (length src)) eqn:E4; [|done].
  destruct (doff + n <=? Z.of_nat (length dst)) eqn:E5; [|done].
  simpl in H. injection H as <-.
  assert (length (take (Z.to_nat doff) dst) = Z.to_nat doff) as L1
    by (rewrite length_take; lia).
  assert (length (take (Z.to_nat n) (drop (Z.to_nat soff) src)) = Z.to_nat n) as L2
    by (rewrite length_take, length_drop; lia).
  split.
  - rewrite !length_app, L1, L2, length_drop. lia.
  - intros i Hi. case_decide as Hr.
    + rewrite lookup_app_r by lia. rewrite L1.
      rewrite lookup_app_l by lia.
      rewrite lookup_take_lt by lia. rewrite lookup_drop. f_equal. lia.
    + destruct (decide (i < doff)) as [Hlt|Hge].
      * rewrite lookup_app_l by lia. rewrite lookup_take_lt by lia. done.
      * rewrite lookup_app_r by lia. rewrite L1.
        rewrite lookup_app_r by lia. rewrite L2.
        rewrite lookup_drop. f_equal. lia.
Qed.

Lemma memcpy_defined dst doff src soff n :
  0 <= doff → 0 <= soff → 0 <= n →
  soff + n <= Z.of_nat (length src) → doff + n <= Z.of_nat (length dst) →
  is_Some (memcpy dst doff src soff n).
Proof.
  intros. unfold memcpy.
  destruct (0 <=? doff) eqn:E1; [|lia]. destruct (0 <=? soff) eqn:E2; [|lia].
  destruct (0 <=? n) eqn:E3; [|lia].
  destruct (soff + n <=? Z.of_nat (length src)) eqn:E4; [|lia].
  destruct (doff + n <=? Z.of_nat (length dst)) eqn:E5; [|lia].
  simpl. eauto.
Qed.

(** The row loop: every row receives [c] bytes of the matching source row,
    the rest of the destination keeps its bytes. *)
Lemma copy_rows_spec src c sS dS rows : ∀ dst doff soff,
  0 <= doff → 0 <= soff → 0 <= c <= dS → 0 <= sS →
  (∀ y, 0 <= y < Z.of_nat rows → soff + y * sS + c <= Z.of_nat (length src)) →
  doff + Z.of_nat rows * dS <= Z.of_nat (length dst) →
  ∃ dst', copy_rows rows dst doff src soff c sS dS = Some dst'
    ∧ length dst' = length dst
    ∧ (∀ i, 0 <= i < doff → dst' !! Z.to_nat i = dst !! Z.to_nat i)
    ∧ (∀ y x, 0 <= y < Z.of_nat rows → 0 <= x < c →
         dst' !! Z.to_nat (doff + y * dS + x) = src !! Z.to_nat (soff + y * sS + x))
    ∧ (∀ y x, 0 <= y < Z.of_nat rows → c <= x < dS →
         dst' !! Z.to_nat (doff + y * dS + x) = dst !! Z.to_nat (doff + y * dS + x)).
Proof.
  induction rows as [|rows IH]; intros dst doff soff Hd Hs Hc HsS Hsrc Hdst.
  - exists dst. simpl. repeat split; intros; try done; lia.
  - simpl copy_rows.
    assert (is_Some (memcpy dst doff src soff c)) as [d1 Hm].
    { apply memcpy_defined; try lia.
      - specialize (Hsrc 0). lia.
      - nia. }
    rewrite Hm. apply memcpy_lookup in Hm as [Hlen1 Hd1].
    assert (∀ y, 0 <= y < Z.of_nat rows →
                 soff + sS + y * sS + c <= Z.of_nat (length src)) as Hsrc'.
    { intros y Hy. specialize (Hsrc (y + 1)). lia. }
    destruct (IH d1 (doff + dS) (soff + sS) ltac:(lia) ltac:(lia) Hc HsS Hsrc' ltac:(lia))
      as (dst' & Hrun & Hlen & Hlow & Hrow & Hgap).
    exists dst'. split; [done|]. split; [lia|].
    split; [|split].
    + intros i Hi. rewrite Hlow by lia. rewrite Hd1 by lia.
      case_decide; [lia|done].
    + intros y x Hy Hx.
      destruct (decide (y = 0)) as [->|Hy0].
      * rewrite Hlow by lia. rewrite Hd1 by lia.
        case_decide; [|lia]. f_equal. lia.
      * replace (doff + y * dS + x) with (doff + dS + (y - 1) * dS + x) by lia.
        rewrite Hrow by lia. f_equal. lia.
    + intros y x Hy Hx.
      destruct (decide (y = 0)) as [->|Hy0].
      * rewrite Hlow by lia. rewrite Hd1 by lia.
        case_decide; [lia|done].
      * replace (doff + y * dS + x) with (doff + dS + (y - 1) * dS + x) by lia.
        rewrite Hgap by lia. rewrite Hd1 by nia.
        case_decide; [nia|done].
Qed.

(** Reader calls other than [Unlock] keep the region locked and touch
    neither the pixels nor the frame number. *)
Lemma reader_no_unlock ops : ∀ fb,
  m_IsLocked fb = true → OpUnlock ∉ ops →
  m_IsLocked (fold_left reader_step ops fb) = true
  ∧ region_pixels (fold_left reader_step ops fb) = region_pixels fb
  ∧ region_frame (fold_left reader_step ops fb) = region_frame fb.
Proof.
  induction ops as [|op ops IH]; intros fb Hl Hno; [done|].
  simpl. destruct op.
  - destruct (IH (reader_step fb OpLock)) as (H1 & H2 & H3).
    + unfold reader_step, Lock. destruct (m_pMapView fb); done.
    + intros Hin. apply Hno. by apply list_elem_of_further.
    + rewrite H1, H2, H3. split; [done|].
      unfold region_pixels, region_frame, reader_step, Lock.
      destruct (m_pMapView fb) eqn:E; simpl; rewrite ?E; split; reflexivity.
  - exfalso. apply Hno. apply list_elem_of_here.
Qed.

(** C2.  (1) If the region is locked when [Write] starts and the reader does
    not unlock it during the bounded wait, [Write] returns and has changed
    neither the pixel bytes nor the stored frame number.  (2) If the region
    is not locked, [Write] copies and then stamps the frame number: with equal
    strides one block of stride * height bytes; with different strides, row by
    row, the smaller of the two strides per row, the remaining bytes of each
    destination row keeping their content. *)
Theorem C2_write_contract ops fb v src srcStride frameNo :
  m_pMapView fb = Some v →
  region_sized fb →
  (m_IsLocked fb = true → OpUnlock ∉ ops →
   ∃ fb', Write ops fb (Some src) srcStride frameNo = Some fb'
     ∧ region_pixels fb' = Some (pixels v)
     ∧ region_frame fb' = Some (frameNumber (header v)))
  ∧ (m_IsLocked fb = false → srcStride = m_Stride fb →
     m_Stride fb * m_Height fb <= Z.of_nat (length src) →
     ∃ fb', Write ops fb (Some src) srcStride frameNo = Some fb'
       ∧ region_frame fb' = Some frameNo
       ∧ region_pixels fb'
         = Some (take (Z.to_nat (m_Stride fb * m_Height fb)) src))
  ∧ (m_IsLocked fb = false → srcStride ≠ m_Stride fb → 0 <= srcStride →
     let copyStride := Z.min srcStride (m_Stride fb) in
     (∀ y, 0 <= y < m_Height fb →
           y * srcStride + copyStride <= Z.of_nat (length src)) →
     ∃ fb' px, Write ops fb (Some src) srcStride frameNo = Some fb'
       ∧ region_frame fb' = Some frameNo
       ∧ region_pixels fb' = Some px
       ∧ length px = length (pixels v)
       ∧ (∀ y x, 0 <= y < m_Height fb → 0 <= x < copyStride →
            px !! Z.to_nat (y * m_Stride fb + x) = src !! Z.to_nat (y * srcStride + x))
       ∧ (∀ y x, 0 <= y < m_Height fb → copyStride <= x < m_Stride fb →
            px !! Z.to_nat (y * m_Stride fb + x)
            = pixels v !! Z.to_nat (y * m_Stride fb + x))).
Proof.
  intros Hv (Hst & Hh & Hsz).
  specialize (Hsz (pixels v)). unfold region_pixels in Hsz. rewrite Hv in Hsz.
  specialize (Hsz eq_refl).
  split; [|split].
  - intros Hl Hno. unfold Write. rewrite Hv, Hl.
    destruct (reader_no_unlock ops fb Hl Hno) as (H1 & H2 & H3).
    unfold wait_for. simpl snd. rewrite H1. simpl.
    eexists. split; [reflexivity|].
    rewrite H2, H3. unfold region_pixels, region_frame. by rewrite Hv.
  - intros Hl Heq Hsrc. unfold Write. rewrite Hv, Hl. simpl. rewrite Hv.
    rewrite Heq, Z.eqb_refl.
    assert (is_Some (memcpy (pixels v) 0 src 0 (m_Stride fb * m_Height fb)))
      as [px Hm] by (apply memcpy_defined; lia).
    rewrite Hm. eexists. split; [reflexivity|]. split; [done|].
    unfold region_pixels. simpl. f_equal.
    unfold memcpy in Hm.
    destruct (_ && _) in Hm; [|done]. injection Hm as <-.
    simpl. rewrite drop_0.
    rewrite (drop_ge (pixels v)) by lia. by rewrite app_nil_r.
  - intros Hl Hne HsS copyStride Hsrc. unfold Write. rewrite Hv, Hl. simpl. rewrite Hv.
    destruct (srcStride =? m_Stride fb) eqn:E; [lia|].
    assert ((if srcStride <? m_Stride fb then srcStride else m_Stride fb) = copyStride)
      as -> by (unfold copyStride; destruct (srcStride <? m_Stride fb) eqn:E'; lia).
    assert (∀ y, 0 <= y < Z.of_nat (Z.to_nat (m_Height fb)) →
                 0 + y * srcStride + copyStride <= Z.of_nat (length src)) as Hsrc'.
    { intros y Hy. specialize (Hsrc y). lia. }
    destruct (copy_rows_spec src copyStride srcStride (m_Stride fb)
                (Z.to_nat (m_Height fb)) (pixels v) 0 0
                ltac:(lia) ltac:(lia) ltac:(lia) HsS Hsrc' ltac:(lia))
      as (px & Hrun & Hlen & _ & Hrow & Hgap).
    rewrite Hrun. eexists. exists px. split; [reflexivity|].
    split; [done|]. split; [done|]. split; [done|].
    split.
    + intros y x Hy Hx. specialize (Hrow y x). simpl in Hrow. apply Hrow; lia.
    + intros y x Hy Hx. specialize (Hgap y x). simpl in Hgap. apply Hgap; lia.
Qed.

Lemma C2_witness :
  (∃ fb', Write [OpLock] (snd (Lock sample_fb)) (Some (sample_frame 16)) 8 7 = Some fb'
     ∧ region_pixels fb' = Some (replicate 16 x00)
     ∧ region_frame fb' = Some 0)
  ∧ (∃ fb', Write [] sample_fb (Some (sample_frame 16)) 8 7 = Some fb'
       ∧ region_frame fb' = Some 7
       ∧ region_pixels fb' = Some (sample_frame 16))
  ∧ (∃ fb' px, Write [] sample_fb (Some (sample_frame 8)) 4 7 = Some fb'
       ∧ region_frame fb' = Some 7
       ∧ region_pixels fb' = Some px
       ∧ px !! 9%nat = Some x2a
       ∧ px !! 13%nat = Some x00).
Proof.
  split; [|split].
  - edestruct (C2_write_contract [OpLock] (snd (Lock sample_fb)) _
                 (sample_frame 16) 8 7 eq_refl) as (Hlocked & _ & _).
    + split; [vm_compute; discriminate|]. split; [vm_compute; discriminate|].
      intros px Hpx. injection Hpx as <-. reflexivity.
    + apply Hlocked; [reflexivity|].
      intros Hin. apply elem_of_cons in Hin as [Hin|Hin]; [discriminate Hin|].
      by apply elem_of_nil in Hin.
  - edestruct (C2_write_contract [] sample_fb _ (sample_frame 16) 8 7 eq_refl)
      as (_ & Hbulk & _).
    + split; [vm_compute; discriminate|]. split; [vm_compute; discriminate|].
      intros px Hpx. injection Hpx as <-. reflexivity.
    + apply Hbulk; [reflexivity|reflexivity|vm_compute; discriminate].
  - edestruct (C2_write_contract [] sample_fb _ (sample_frame 8) 4 7 eq_refl)
      as (_ & _ & Hrows).
    + split; [vm_compute; discriminate|]. split; [vm_compute; discriminate|].
      intros px Hpx. injection Hpx as <-. reflexivity.
    + destruct Hrows as (fb' & px & Hw & Hf & Hp & _ & Hcopied & Hkept).
      * reflexivity.
      * vm_compute. discriminate.
      * lia.
      * intros y Hy. change (m_Height sample_fb) with 2 in Hy.
        change (length (sample_frame 8)) with 8%nat.
        change (Z.min 4 (m_Stride sample_fb)) with 4. lia.
      * exists fb', px. split; [done|]. split; [done|]. split; [done|].
        split.
        -- apply (Hcopied 1 1); vm_compute; (split; [discriminate|reflexivity]).
        -- apply (Hkept 1 5); vm_compute; (split; [discriminate|reflexivity]).
Defined.

End FrameBufferWrite.

(** ** Back-end selection (C8) *)

Section Backends.
Import VideoPlayer Spec.

(** Unfold the small steps of the player and split on every test they make. *)
Local Arguments FFmpegDecoder.pump : simpl never.

Ltac player_cases :=
  unfold DecodeNextFrame, CopyFrameToTexture, CopyBufferToTexture, map_and_copy,
    read_sample, set_position, ffmpeg_decode_and_copy,
    FFmpegDecoder.DecodeNextFrame, FFmpegDecoder.SeekToFrame,
    FFmpegDecoder.SeekToTime, FFmpegDecoder.with_stream in *;
  repeat (simpl in *; try case_match; simplify_eq; try done).

(** What [DecodeNextFrame] leaves alone. *)
Lemma DecodeNextFrame_static p :
  let q := snd (DecodeNextFrame p) in
  m_Loaded q = m_Loaded p ∧ m_UsingFFmpeg q = m_UsingFFmpeg p
  ∧ m_FFmpegDecoder q = m_FFmpegDecoder p
  ∧ (is_Some (m_Reader p) → is_Some (m_Reader q))
  ∧ (m_Reader p = None → m_Reader q = None)
  ∧ primary_seeks q = primary_seeks p
  ∧ m_Width q = m_Width p ∧ m_Height q = m_Height p
  ∧ m_FrameRate q = m_FrameRate p.
Proof.
  unfold primary_seeks. player_cases; repeat split; eauto; try by intros [? ?].
Qed.


Lemma DecodeNextFrame_primary p :
  on_primary p → on_primary (snd (DecodeNextFrame p)).
Proof.
  intros (Hl & Hu & Hr & Hd).
  destruct (DecodeNextFrame_static p) as (E1 & E2 & E3 & E4 & _).
  unfold on_primary. rewrite E1, E2, E3. auto.
Qed.

(** The decoder's [DecodeNextFrame] touches the stream position only. *)
Lemma decoder_decode_static d :
  let d' := snd (FFmpegDecoder.DecodeNextFrame d) in
  FFmpegDecoder.m_Opened d' = FFmpegDecoder.m_Opened d
  ∧ FFmpegDecoder.seek_log d' = FFmpegDecoder.seek_log d
  ∧ FFmpegDecoder.m_Width d' = FFmpegDecoder.m_Width d
  ∧ FFmpegDecoder.m_Height d' = FFmpegDecoder.m_Height d
  ∧ FFmpegDecoder.m_FrameRate d' = FFmpegDecoder.m_FrameRate d.
Proof.
  unfold FFmpegDecoder.DecodeNextFrame.
  destruct (negb (FFmpegDecoder.m_Opened d) || FFmpegDecoder.m_EndOfStream d); [done|].
  destruct (FFmpegDecoder.pump (FFmpegDecoder.packets d)) as [[tag|eof] rest]; done.
Qed.

(** The texture copy touches the texture only. *)
Lemma CopyBufferToTexture_static frame stride p :
  let q := CopyBufferToTexture frame stride p in
  m_Loaded q = m_Loaded p ∧ m_UsingFFmpeg q = m_UsingFFmpeg p
  ∧ m_Reader q = m_Reader p ∧ m_FFmpegDecoder q = m_FFmpegDecoder p
  ∧ m_Width q = m_Width p ∧ m_Height q = m_Height p
  ∧ m_FrameRate q = m_FrameRate p.
Proof.
  unfold CopyBufferToTexture, map_and_copy.
  destruct frame as [tag|]; [|done].
  destruct (m_Texture p); [|done].
  destruct (negb (m_Context p) || (stride <=? 0)); [done|].
  destruct (hd true (texture_maps p)); done.
Qed.

(** What the decoder's [DecodeNextFrame] plus the texture copy leaves alone. *)
Lemma ffmpeg_decode_static d p :
  let q := snd (ffmpeg_decode_and_copy d p) in
  m_Loaded q = m_Loaded p ∧ m_UsingFFmpeg q = m_UsingFFmpeg p
  ∧ m_Reader q = m_Reader p
  ∧ (∃ d', m_FFmpegDecoder q = Some d'
           ∧ FFmpegDecoder.m_Opened d' = FFmpegDecoder.m_Opened d
           ∧ FFmpegDecoder.seek_log d' = FFmpegDecoder.seek_log d
           ∧ FFmpegDecoder.m_Width d' = FFmpegDecoder.m_Width d
           ∧ FFmpegDecoder.m_Height d' = FFmpegDecoder.m_Height d
           ∧ FFmpegDecoder.m_FrameRate d' = FFmpegDecoder.m_FrameRate d)
  ∧ m_Width q = m_Width p ∧ m_Height q = m_Height p
  ∧ m_FrameRate q = m_FrameRate p.
Proof.
  unfold ffmpeg_decode_and_copy.
  pose proof (decoder_decode_static d) as Hd. simpl in Hd.
  destruct (FFmpegDecoder.DecodeNextFrame d) as [ok d']. simpl in Hd.
  destruct ok; simpl.
  - match goal with |- context [CopyBufferToTexture ?f ?s ?x] =>
      destruct (CopyBufferToTexture_static f s x) as (E1 & E2 & E3 & E4 & E5 & E6 & E7)
    end.
    simpl in *. rewrite E1, E2, E3, E4, E5, E6, E7.
    repeat split; try done. by exists d'.
  - repeat split; try done. by exists d'.
Qed.

Lemma ffmpeg_decode_fallback d p :
  on_fallback p → m_FFmpegDecoder p = Some d →
  on_fallback (snd (ffmpeg_decode_and_copy d p))
  ∧ fallback_seeks (snd (ffmpeg_decode_and_copy d p)) = fallback_seeks p.
Proof.
  intros (Hl & Hu & Hr & d0 & Hd & Ho) Hd'. simplify_eq.
  destruct (ffmpeg_decode_static d0 p)
    as (E1 & E2 & E3 & (d' & E4 & E5 & E6 & _) & _).
  unfold on_fallback, fallback_seeks. rewrite E1, E2, E3, E4, Hd, E6.
  split; [|done]. repeat split; try done. exists d'. split; [done|congruence].
Qed.

Lemma seek_decoder_static d seconds :
  let d' := snd (FFmpegDecoder.SeekToTime d seconds) in
  FFmpegDecoder.m_Opened d' = FFmpegDecoder.m_Opened d
  ∧ (FFmpegDecoder.m_Opened d = true →
     FFmpegDecoder.seek_log d'
     = F64.to_int64 (F64.mul seconds (F64.of_Z FFmpegDecoder.AV_TIME_BASE))
         :: FFmpegDecoder.seek_log d).
Proof.
  unfold FFmpegDecoder.SeekToTime.
  destruct (FFmpegDecoder.m_Opened d) eqn:E; simpl; rewrite ?E; split; done.
Qed.

(** A seek on a player that uses the fallback stays on the fallback and
    sends exactly one seek to libav. *)
Lemma SeekToFrameInternal_fallback frame p :
  on_fallback p →
  on_fallback (SeekToFrameInternal frame p)
  ∧ fallback_seeks (SeekToFrameInternal frame p) = S (fallback_seeks p)
  ∧ primary_seeks (SeekToFrameInternal frame p) = primary_seeks p.
Proof.
  intros Hp. pose proof Hp as (Hl & Hu & Hr & d & Hd & Ho).
  unfold SeekToFrameInternal. rewrite Hl, Hu, Hd. simpl negb. cbv iota.
  set (fr := Z.max 0 _).
  unfold FFmpegDecoder.SeekToFrame. rewrite Ho. simpl negb. cbv iota.
  match goal with
  | |- context [FFmpegDecoder.SeekToTime d ?s] => set (secs := s)
  end.
  destruct (seek_decoder_static d secs) as (Ho' & Hlog). specialize (Hlog Ho).
  set (d1 := snd (FFmpegDecoder.SeekToTime d secs)) in *.
  destruct (ffmpeg_decode_static d1 p)
    as (E1 & E2 & E3 & (d' & E4 & E5 & E6 & _) & _).
  unfold on_fallback, fallback_seeks, primary_seeks. simpl.
  rewrite E1, E2, E3, E4, Hd, E6, Hlog, Hr.
  repeat split; try done. exists d'. split; [done|congruence].
Qed.

(** A seek on a player that uses the primary back end stays there and
    positions the reader exactly once. *)
Lemma SeekToFrameInternal_primary frame p :
  on_primary p →
  on_primary (SeekToFrameInternal frame p)
  ∧ primary_seeks (SeekToFrameInternal frame p) = S (primary_seeks p)
  ∧ fallback_seeks (SeekToFrameInternal frame p) = fallback_seeks p.
Proof.
  intros Hp. pose proof Hp as (Hl & Hu & [rd Hr] & Hd).
  unfold SeekToFrameInternal. rewrite Hl, Hu, Hr. simpl negb. cbv iota.
  set (fr := Z.max 0 _). set (tt := if F64.gtb _ _ then _ else _).
  unfold set_position. simpl.
  destruct (hd true (positions rd)).
  - match goal with |- context [DecodeNextFrame ?x] => set (p1 := x) end.
    assert (on_primary p1) as Hp1 by (unfold on_primary, p1; simpl; eauto).
    destruct (DecodeNextFrame_static p1) as (_ & _ & E3 & _ & _ & E6 & _).
    split; [by apply DecodeNextFrame_primary|].
    unfold fallback_seeks. rewrite E3, E6.
    unfold primary_seeks, p1. simpl. rewrite Hr, Hd. done.
  - unfold on_primary, primary_seeks, fallback_seeks. simpl.
    rewrite Hl, Hu, Hr, Hd. eauto 10.
Qed.


Lemma on_end_of_stream_primary p :
  on_primary p → on_primary (on_end_of_stream p).
Proof.
  intros Hp. unfold on_end_of_stream.
  destruct (m_Loop p).
  - destruct (SeekToFrameInternal_primary 0 p Hp) as ((H1 & H2 & H3 & H4) & _).
    unfold on_primary. simpl. done.
  - destruct Hp as (H1 & H2 & H3 & H4). unfold on_primary. simpl. done.
Qed.

Lemma on_end_of_stream_fallback p :
  on_fallback p → on_fallback (on_end_of_stream p).
Proof.
  intros Hp. unfold on_end_of_stream.
  destruct (m_Loop p).
  - destruct (SeekToFrameInternal_fallback 0 p Hp) as ((H1 & H2 & H3 & H4) & _).
    unfold on_fallback. simpl. done.
  - destruct Hp as (H1 & H2 & H3 & H4). unfold on_fallback. simpl. done.
Qed.

Lemma mf_loop_primary fuel : ∀ decoded p r,
  on_primary p → mf_loop fuel decoded p = Some r → on_primary (snd r).
Proof.
  induction fuel as [|fuel IH]; intros decoded p r Hp Hrun; simpl in Hrun.
  - destruct (_ && _); [done|]. by injection Hrun as <-.
  - destruct (_ && _); [|by injection Hrun as <-].
    match type of Hrun with context [DecodeNextFrame ?x] => set (p1 := x) in * end.
    assert (on_primary p1) as Hp1.
    { destruct Hp as (H1 & H2 & H3 & H4). unfold on_primary, p1. simpl. done. }
    pose proof (DecodeNextFrame_primary p1 Hp1) as Hp2.
    destruct (DecodeNextFrame p1) as [dec p2]. simpl in Hp2.
    destruct (m_EndOfStream p2).
    + injection Hrun as <-. simpl. by apply on_end_of_stream_primary.
    + by apply (IH dec p2).
Qed.

Lemma ffmpeg_loop_fallback fuel : ∀ decoded p r,
  on_fallback p → ffmpeg_loop fuel decoded p = Some r → on_fallback (snd r).
Proof.
  induction fuel as [|fuel IH]; intros decoded p r Hp Hrun; simpl in Hrun.
  - destruct (_ && _); [done|]. by injection Hrun as <-.
  - destruct (_ && _); [|by injection Hrun as <-].
    pose proof Hp as (H1 & H2 & H3 & d & Hd & Ho).
    rewrite Hd in Hrun.
    match type of Hrun with context [ffmpeg_decode_and_copy d ?x] =>
      set (p1 := x) in * end.
    assert (on_fallback p1) as Hp1.
    { unfold on_fallback, p1. simpl. eauto 10. }
    destruct (ffmpeg_decode_fallback d p1 Hp1 Hd) as [Hp2 _].
    destruct (ffmpeg_decode_and_copy d p1) as [ok p2]. simpl in Hp2.
    destruct ok.
    + apply (IH _ _ _) in Hrun; [done|].
      destruct Hp2 as (G1 & G2 & G3 & G4). unfold on_fallback. simpl. done.
    + destruct (match m_FFmpegDecoder p2 with Some d' => _ | None => _ end).
      * injection Hrun as <-. simpl. apply on_end_of_stream_fallback.
        destruct Hp2 as (G1 & G2 & G3 & G4). unfold on_fallback. simpl. done.
      * by apply (IH decoded p2).
Qed.

Lemma UpdateFrame_primary now p r :
  on_primary p → UpdateFrame now p = Some r → on_primary (snd r).
Proof.
  intros Hp Hrun. unfold UpdateFrame in Hrun.
  destruct (_ || _); [by injection Hrun as <-|].
  match type of Hrun with context [F64.ltb (m_AccumulatedTime ?x) _] =>
    set (p1 := x) in * end.
  assert (on_primary p1) as Hp1.
  { destruct Hp as (H1 & H2 & H3 & H4). unfold on_primary, p1. simpl. done. }
  destruct (F64.ltb _ _); [by injection Hrun as <-|].
  destruct Hp1 as (H1 & H2 & H3 & H4). rewrite H2 in Hrun. simpl in Hrun.
  apply mf_loop_primary in Hrun; [done|]. unfold on_primary. done.
Qed.

Lemma UpdateFrame_fallback now p r :
  on_fallback p → UpdateFrame now p = Some r → on_fallback (snd r).
Proof.
  intros Hp Hrun. unfold UpdateFrame in Hrun.
  destruct (_ || _); [by injection Hrun as <-|].
  match type of Hrun with context [F64.ltb (m_AccumulatedTime ?x) _] =>
    set (p1 := x) in * end.
  assert (on_fallback p1) as Hp1.
  { destruct Hp as (H1 & H2 & H3 & H4). unfold on_fallback, p1. simpl. done. }
  destruct (F64.ltb _ _); [by injection Hrun as <-|].
  pose proof Hp1 as (H1 & H2 & H3 & d & H4 & H5).
  rewrite H2, H4 in Hrun. simpl in Hrun.
  by apply ffmpeg_loop_fallback in Hrun.
Qed.

Lemma Stop_primary p : on_primary p → on_primary (Stop p).
Proof.
  intros (H1 & H2 & [rd H3] & H4). unfold Stop. simpl.
  rewrite H1, H2, H3. simpl.
  destruct (hd true (positions rd)).
  - apply DecodeNextFrame_primary. unfold on_primary. simpl. eauto.
  - unfold on_primary. simpl. eauto.
Qed.

Lemma Stop_fallback p : on_fallback p → on_fallback (Stop p).
Proof.
  intros (H1 & H2 & H3 & d & H4 & H5). unfold Stop. simpl.
  rewrite H1, H2, H4. simpl.
  destruct (seek_decoder_static d F64.zero) as (Ho & _).
  set (d1 := snd (FFmpegDecoder.SeekToTime d F64.zero)) in *.
  match goal with |- context [ffmpeg_decode_and_copy d1 ?x] => set (p0 := x) end.
  destruct (ffmpeg_decode_static d1 p0)
    as (E1 & E2 & E3 & (d' & E4 & E5 & _) & _).
  unfold on_fallback. simpl. rewrite E1, E2, E3, E4.
  unfold p0. simpl. repeat split; try done. exists d'. split; [done|congruence].
Qed.

(** Every later call leaves a player on the back end its load recorded. *)
Lemma run_op_backend op p q :
  run_op op p = Some q →
  (on_primary p → on_primary q) ∧ (on_fallback p → on_fallback q).
Proof.
  destruct op; simpl; intros Hrun.
  - injection Hrun as <-. unfold Play.
    split; intros Hp; pose proof Hp as (H1 & H2 & H3 & H4);
      rewrite H1; simpl; done.
  - injection Hrun as <-. split; intros (H1 & H2 & H3 & H4); done.
  - injection Hrun as <-. split; [apply Stop_primary|apply Stop_fallback].
  - injection Hrun as <-. unfold SeekToFrame.
    split; intros Hp; pose proof Hp as (H1 & _); rewrite H1; simpl.
    + by apply SeekToFrameInternal_primary.
    + by apply SeekToFrameInternal_fallback.
  - injection Hrun as <-. unfold SeekToTime, SeekToFrame.
    destruct (F64.gtb _ _); [|done].
    split; intros Hp; pose proof Hp as (H1 & _); rewrite H1; simpl.
    + by apply SeekToFrameInternal_primary.
    + by apply SeekToFrameInternal_fallback.
  - destruct (UpdateFrame now p) as [r|] eqn:E; [|done].
    injection Hrun as <-.
    split; intros Hp; [by apply (UpdateFrame_primary now p)
                      |by apply (UpdateFrame_fallback now p)].
  - injection Hrun as <-. split; intros (H1 & H2 & H3 & H4); done.
  - injection Hrun as <-. split; intros (H1 & H2 & H3 & H4); done.
Qed.



(** *** Loading *)

Lemma Open_ok f d :
  FFmpegDecoder.Open f = (true, d) →
  FFmpegDecoder.m_Opened d = true
  ∧ FFmpegDecoder.m_Width d = FFmpegDecoder.av_width f
  ∧ FFmpegDecoder.m_Height d = FFmpegDecoder.av_height f
  ∧ FFmpegDecoder.m_FrameRate d = FFmpegDecoder.probe_frame_rate f.
Proof.
  unfold FFmpegDecoder.Open. intros H.
  repeat match type of H with
         | (if ?c then _ else _) = _ => destruct c; [discriminate H|]
         end.
  injection H as <-. done.
Qed.

(** A successful primary attempt records the primary back end and takes
    the dimensions and the rate from its probe; a failed one leaves no
    reader behind. *)
Lemma LoadVideoMF_result e tex now p b p' :
  m_Reader p = None → m_FFmpegDecoder p = None →
  LoadVideoMF e tex now p = (b, p') →
  (b = true →
   on_primary p'
   ∧ ∃ w h, mf_frame_size e = Some (w, h)
            ∧ m_Width p' = w ∧ m_Height p' = h
            ∧ m_FrameRate p' = fst (mf_rate e))
  ∧ (b = false →
     m_Reader p' = None ∧ m_FFmpegDecoder p' = None
     ∧ m_Device p' = m_Device p ∧ m_Loaded p' = m_Loaded p
     ∧ m_Playing p' = m_Playing p).
Proof.
  intros Hr Hd. unfold LoadVideoMF.
  destruct (negb (mf_attributes_ok e)); [intros [= <- <-]; by split|].
  destruct (mf_reader e) as [rd|]; [|intros [= <- <-]; by split].
  destruct (negb (mf_type_ok e)); [intros [= <- <-]; by split|].
  destruct (mf_negotiate e) as [needsFix|]; [|intros [= <- <-]; by split].
  destruct (negb (mf_current_type_ok e)); [intros [= <- <-]; by split|].
  destruct (mf_frame_size e) as [[w h]|]; [|intros [= <- <-]; by split].
  destruct (_ || _); [intros [= <- <-]; by split|].
  match goal with |- context [CreateTexture tex ?x] => set (p5 := x) end.
  assert (m_Width p5 = w ∧ m_Height p5 = h ∧ m_FrameRate p5 = fst (mf_rate e)
          ∧ m_Reader p5 = Some rd ∧ m_FFmpegDecoder p5 = None
          ∧ m_Device p5 = m_Device p ∧ m_Loaded p5 = m_Loaded p
          ∧ m_Playing p5 = m_Playing p) as Hp5.
  { unfold p5. destruct (mf_duration e); simpl; done. }
  destruct Hp5 as (G1 & G2 & G3 & G4 & G5 & G6 & G7 & G8).
  unfold CreateTexture.
  destruct (_ || _); [intros [= <- <-]; simpl; by split|].
  destruct (negb (fst tex)); [intros [= <- <-]; simpl; by split|].
  destruct (snd tex); [|intros [= <- <-]; simpl; by split].
  intros [= <- <-]. split; [|done]. intros _.
  match goal with |- context [DecodeNextFrame ?x] => set (p7 := x) end.
  destruct (DecodeNextFrame_static p7) as (E1 & E2 & E3 & E4 & _ & _ & E7 & E8 & E9).
  unfold on_primary. simpl. rewrite E1, E2, E3, E7, E8, E9.
  unfold p7. simpl. split.
  - repeat split; try done. apply E4. unfold p7. simpl. rewrite G4. eauto.
  - exists w, h. done.
Qed.

(** A successful fallback attempt records the fallback back end and takes
    the dimensions and the rate from the probe of libav. *)
Lemma LoadVideoFFmpeg_result avail f tex now p b p' :
  m_Reader p = None →
  LoadVideoFFmpeg avail f tex now p = (b, p') →
  b = true →
  on_fallback p'
  ∧ m_Width p' = FFmpegDecoder.av_width f
  ∧ m_Height p' = FFmpegDecoder.av_height f
  ∧ m_FrameRate p' = FFmpegDecoder.probe_frame_rate f.
Proof.
  intros Hr. unfold LoadVideoFFmpeg.
  destruct (negb avail); [by intros [= <- <-]|].
  destruct (FFmpegDecoder.Open f) as [[|] d] eqn:Eo; [|by intros [= <- <-]].
  apply Open_ok in Eo as (Ho & Hw & Hh & Hrate).
  match goal with |- context [CreateTexture tex ?x] => set (p1 := x) end.
  unfold CreateTexture.
  destruct (_ || _); [by intros [= <- <-]|].
  destruct (negb (fst tex)); [by intros [= <- <-]|].
  destruct (snd tex); [|by intros [= <- <-]].
  intros [= <- <-] _.
  match goal with |- context [ffmpeg_decode_and_copy d ?x] => set (p3 := x) end.
  destruct (ffmpeg_decode_static d p3)
    as (E1 & E2 & E3 & (d' & E4 & E5 & _) & E7 & E8 & E9).
  unfold on_fallback. simpl. rewrite E1, E2, E3, E4, E7, E8, E9.
  unfold p3, p1. simpl. rewrite Hr, <- Hw, <- Hh, <- Hrate.
  repeat split; try done. exists d'. split; [done|congruence].
Qed.









End Backends.

(** ** The registry of video sources (C10) *)

Section Registry.
Import VideoManager Spec.

Local Arguments VideoPlayer.LoadVideo : simpl never.
Local Arguments VideoPlayer.Initialize : simpl never.
Local Arguments VideoPlayer.new_player : simpl never.

Lemma on_player_dom f videoId m :
  dom (m_Players (on_player f videoId m)) = dom (m_Players m).
Proof.
  unfold on_player, GetPlayer.
  destruct (m_Players m !! videoId) eqn:E; [|done].
  simpl. rewrite dom_insert_L.
  assert (videoId ∈ dom (m_Players m)) by (apply elem_of_dom; eauto).
  set_solver.
Qed.



(** What one load does to the registry. *)
Lemma LoadVideo_cases env freq now filePath m videoId m' :
  LoadVideo env freq now filePath m = (videoId, m') →
  (videoId = 0 ∧ m' = m ∧ load_fails env freq now filePath m)
  ∨ (0 < videoId ∧ ¬ load_fails env freq now filePath m
     ∧ ∃ player, m_Players m' = <[videoId := player]> (m_Players m)).
Proof.
  unfold LoadVideo, load_fails, fresh_player.
  destruct (m_Initialized m) eqn:Ei; simpl;
    [|intros [= <- <-]; left; auto].
  destruct filePath as [path|]; simpl; [|intros [= <- <-]; left; auto].
  destruct (MAX_LOADED_VIDEOS <=? Z.of_nat (size (m_Players m))) eqn:Es;
    [intros [= <- <-]; left; split; [done|]; split; [done|]; right; right; left; lia|].
  destruct (VideoPlayer.Initialize _ _ _) as [[|] player] eqn:Einit; simpl;
    [|intros [= <- <-]; left; auto 10].
  destruct (VideoPlayer.LoadVideo env (Some path) player) as [[[|] player'] tr] eqn:El;
    simpl; [|intros [= <- <-]; left; auto 10].
  intros Hres. right.
  assert (0 < videoId
          ∧ m_Players m' = <[videoId := player']> (m_Players m)) as [Hpos Hm].
  { destruct (m_NextVideoId m <=? 0) eqn:En; simpl in Hres;
      injection Hres as <- <-; simpl; split; try done; lia. }
  split; [done|]. split; [|eauto].
  intros [?|[?|[?|[?|?]]]]; try done. lia.
Qed.





End Registry.


(** ** The per-tick update (C1, C3) *)

Section UpdateLoop.
Import VideoPlayer Spec.

Lemma drained_S acc fd k :
  drained acc fd (S k) = F64.sub (drained acc fd k) fd.
Proof. revert acc. induction k as [|k IH]; intros acc; [done|]. simpl. apply IH. Qed.

Lemma clock_allows_S acc fd k :
  clock_allows acc fd (S k) ↔
  F64.geb acc fd = true ∧ clock_allows (F64.sub acc fd) fd k.
Proof.
  unfold clock_allows. split.
  - intros H. split; [apply (H 0%nat); lia|].
    intros j Hj. apply (H (S j)). lia.
  - intros [H0 H] [|j] Hj; [done|]. apply H. lia.
Qed.

(** *** The primary path *)

(** One read of the reader, as [DecodeNextFrame] sees it. *)
Lemma DecodeNextFrame_read p rd :
  m_Reader p = Some rd →
  let r := hd RS_EndOfStream (reads rd) in
  ∃ q, DecodeNextFrame p = (is_sample r, q)
    ∧ m_Reader q = Some {| reads := tail (reads rd); positions := positions rd;
                           position_log := position_log rd |}
    ∧ m_EndOfStream q = (is_eos r || m_EndOfStream p)
    ∧ m_CurrentFrame q = frame_after (m_FrameRate p) [r] (m_CurrentFrame p)
    ∧ m_AccumulatedTime q = m_AccumulatedTime p
    ∧ m_FFmpegDecoder q = m_FFmpegDecoder p
    ∧ same_settings p q.
Proof.
  intros Hr. unfold DecodeNextFrame, read_sample. rewrite Hr. simpl.
  destruct (hd RS_EndOfStream (reads rd)) as [| |timestamp buffer_ok|]; simpl.
  - eexists. split; [reflexivity|]. unfold same_settings. simpl. done.
  - eexists. split; [reflexivity|]. unfold same_settings. simpl. done.
  - unfold CopyFrameToTexture, map_and_copy. simpl.
    destruct (m_Texture p); [|eexists; split; [reflexivity|]; unfold same_settings; done].
    destruct (negb (m_Context p)); simpl;
      [eexists; split; [reflexivity|]; unfold same_settings; done|].
    destruct (negb buffer_ok); simpl;
      [eexists; split; [reflexivity|]; unfold same_settings; done|].
    destruct (m_Width p * 4 =? 0); simpl;
      [eexists; split; [reflexivity|]; unfold same_settings; done|].
    destruct (hd true (texture_maps p)); simpl;
      eexists; (split; [reflexivity|]); unfold same_settings; done.
  - eexists. split; [reflexivity|]. unfold same_settings. simpl. done.
Qed.

Lemma same_settings_refl p : same_settings p p.
Proof. unfold same_settings. done. Qed.

Lemma same_settings_trans p q r :
  same_settings p q → same_settings q r → same_settings p r.
Proof.
  unfold same_settings.
  intros (A1 & A2 & A3 & A4 & A5 & A6 & A7) (B1 & B2 & B3 & B4 & B5 & B6 & B7).
  repeat split; congruence.
Qed.

Lemma decoded_after_cons r pre decoded :
  decoded_after (r :: pre) decoded = decoded_after pre (is_sample r).
Proof. reflexivity. Qed.

(** The loop runs through every answer that does not end the stream, as
    long as the clock allows. *)
Lemma mf_loop_prefix pre : ∀ fuel decoded p rd rest,
  m_Reader p = Some rd → reads rd = pre ++ rest →
  Forall (fun r => is_eos r = false) pre →
  m_EndOfStream p = false →
  clock_allows (m_AccumulatedTime p) (m_FrameDuration p) (length pre) →
  (length pre <= fuel)%nat →
  ∃ q, mf_loop fuel decoded p
       = mf_loop (fuel - length pre) (decoded_after pre decoded) q
    ∧ m_Reader q = Some {| reads := rest; positions := positions rd;
                           position_log := position_log rd |}
    ∧ m_EndOfStream q = false
    ∧ m_CurrentFrame q = frame_after (m_FrameRate p) pre (m_CurrentFrame p)
    ∧ m_AccumulatedTime q
      = drained (m_AccumulatedTime p) (m_FrameDuration p) (length pre)
    ∧ m_FFmpegDecoder q = m_FFmpegDecoder p
    ∧ same_settings p q.
Proof.
  induction pre as [|r pre IH]; intros fuel decoded p rd rest Hr Hreads Hpre He Hclock Hfuel.
  - exists p. simpl in *. rewrite Nat.sub_0_r.
    split; [done|]. split; [|by auto using same_settings_refl].
    rewrite Hr. f_equal. destruct rd. simpl in *. by subst.
  - apply Forall_cons in Hpre as [Hr0 Hpre].
    simpl length in *. apply clock_allows_S in Hclock as [Hgo Hclock].
    destruct fuel as [|fuel]; [lia|].
    simpl mf_loop. rewrite Hgo, He. simpl.
    match goal with |- context [DecodeNextFrame ?x] => set (p1 := x) end.
    destruct (DecodeNextFrame_read p1 rd Hr) as (q1 & Hdec & Hr1 & He1 & Hf1 & Ha1 & Hd1 & Hs1).
    rewrite Hreads in Hdec, Hr1, He1, Hf1. simpl in Hdec, Hr1, He1, Hf1.
    rewrite Hdec. rewrite He1, Hr0, He. simpl.
    destruct (IH fuel (is_sample r) q1 _ rest Hr1 eq_refl Hpre)
      as (q & Hrun & Hr2 & He2 & Hf2 & Ha2 & Hd2 & Hs2).
    + by rewrite He1, Hr0, He.
    + rewrite Ha1. destruct Hs1 as (_ & _ & _ & _ & _ & -> & _). done.
    + lia.
    + exists q. split; [done|].
      split; [done|]. split; [done|].
      pose proof Hs1 as (_ & _ & _ & _ & Hrate & Hfd & _).
      split; [|split; [|split]].
      * rewrite Hf2, Hrate, Hf1. simpl. by destruct r.
      * rewrite Ha2, Ha1, Hfd. done.
      * by rewrite Hd2, Hd1.
      * apply (same_settings_trans p q1 q); [|done].
        unfold same_settings in *. simpl in Hs1. done.
Qed.

Lemma mf_loop_stops fuel decoded p :
  F64.geb (m_AccumulatedTime p) (m_FrameDuration p) = false →
  mf_loop fuel decoded p = Some (decoded, p).
Proof. intros H. destruct fuel; simpl; by rewrite H. Qed.


(** *** Comparisons of doubles *)

Lemma SFcompare_swap x y : SFcompare x y = CompOpp <$> SFcompare y x.
Proof.
  destruct x as [sx|sx| |sx mx ex], y as [sy|sy| |sy my ey]; simpl;
    try (destruct sx); try (destruct sy); try reflexivity;
    rewrite (Z.compare_antisym ey ex); destruct (ey ?= ex); simpl;
    try reflexivity; rewrite ?CompOpp_involutive; f_equal;
    first [ apply (Pos.compare_cont_antisym mx my Eq)
          | symmetry; apply (Pos.compare_cont_antisym my mx Eq) ].
Qed.

(** While [acc >= fd] holds, [acc < fd] does not. *)
Lemma geb_not_ltb x y : F64.geb x y = true → F64.ltb x y = false.
Proof.
  unfold F64.geb, F64.ltb, SFleb, SFltb. rewrite (SFcompare_swap x y).
  destruct (SFcompare y x) as [[| |]|]; simpl; done.
Qed.

(** *** The fallback path *)

Lemma pump_le pkts :
  (length (snd (FFmpegDecoder.pump pkts)) <= length pkts)%nat.
Proof.
  induction pkts as [|pk pkts IH]; simpl; [lia|].
  destruct pk as [eof|video send_ok recv]; simpl; [lia|].
  destruct video; simpl; [|lia]. destruct send_ok; simpl; [|lia].
  destruct recv; simpl; lia.
Qed.

Lemma pump_shrinks pkts :
  pkts ≠ [] → (length (snd (FFmpegDecoder.pump pkts)) < length pkts)%nat.
Proof.
  destruct pkts as [|pk pkts]; [done|]. intros _.
  pose proof (pump_le pkts) as Hle. simpl.
  destruct pk as [eof|video send_ok recv]; simpl; [lia|].
  destruct video; simpl; [|lia]. destruct send_ok; simpl; [|lia].
  destruct recv; simpl; lia.
Qed.

Local Arguments FFmpegDecoder.pump : simpl never.

(** A call on an open decoder that is not at the end of its stream either
    reaches the end or uses up at least one packet; a call that delivers a
    frame does not reach the end. *)
Lemma decoder_step d :
  FFmpegDecoder.m_Opened d = true →
  let d' := snd (FFmpegDecoder.DecodeNextFrame d) in
  FFmpegDecoder.m_Opened d' = true
  ∧ FFmpegDecoder.seek_log d' = FFmpegDecoder.seek_log d
  ∧ FFmpegDecoder.seeks d' = FFmpegDecoder.seeks d
  ∧ FFmpegDecoder.m_FrameRate d' = FFmpegDecoder.m_FrameRate d
  ∧ (FFmpegDecoder.m_EndOfStream d = true →
     FFmpegDecoder.DecodeNextFrame d = (false, d))
  ∧ (fst (FFmpegDecoder.DecodeNextFrame d) = true →
     FFmpegDecoder.m_EndOfStream d' = false)
  ∧ (FFmpegDecoder.m_EndOfStream d' = false →
     (length (FFmpegDecoder.packets d') < length (FFmpegDecoder.packets d))%nat).
Proof.
  intros Ho. unfold FFmpegDecoder.DecodeNextFrame. rewrite Ho. simpl.
  destruct (FFmpegDecoder.m_EndOfStream d) eqn:Ee; simpl.
  - repeat split; try done. intros; congruence.
  - assert ((FFmpegDecoder.pump (FFmpegDecoder.packets d) = (FFmpegDecoder.PumpFail true, []))
            ∨ (length (snd (FFmpegDecoder.pump (FFmpegDecoder.packets d)))
               < length (FFmpegDecoder.packets d))%nat) as Hcase.
    { destruct (FFmpegDecoder.packets d); [by left | right; by apply pump_shrinks]. }
    destruct (FFmpegDecoder.pump (FFmpegDecoder.packets d)) as [[tag|eof] rest];
      simpl in *.
    + repeat split; try done. intros _. by destruct Hcase.
    + repeat split; try done. rewrite orb_false_r. intros ->.
      by destruct Hcase.
Qed.

Lemma ff_after_S n : ∀ d,
  ff_after (S n) d = snd (FFmpegDecoder.DecodeNextFrame (ff_after n d)).
Proof. induction n as [|n IH]; intros d; [done|]. simpl in *. by rewrite IH. Qed.

Lemma ff_after_opened n : ∀ d,
  FFmpegDecoder.m_Opened d = true → FFmpegDecoder.m_Opened (ff_after n d) = true.
Proof.
  induction n as [|n IH]; intros d Ho; [done|]. simpl. apply IH.
  by destruct (decoder_step d Ho) as (H & _).
Qed.

(** The decoder's call followed by the texture copy, seen from the player. *)
Lemma ffmpeg_decode_step d p :
  ∃ q, ffmpeg_decode_and_copy d p = (fst (FFmpegDecoder.DecodeNextFrame d), q)
    ∧ m_FFmpegDecoder q = Some (snd (FFmpegDecoder.DecodeNextFrame d))
    ∧ m_Reader q = m_Reader p
    ∧ m_EndOfStream q = m_EndOfStream p
    ∧ m_CurrentFrame q = m_CurrentFrame p
    ∧ m_AccumulatedTime q = m_AccumulatedTime p
    ∧ same_settings p q.
Proof.
  unfold ffmpeg_decode_and_copy.
  destruct (FFmpegDecoder.DecodeNextFrame d) as [ok d']. simpl.
  destruct ok.
  - eexists. split; [reflexivity|].
    unfold CopyBufferToTexture, map_and_copy, same_settings. simpl.
    destruct (FFmpegDecoder.m_OutputBuffer d'); [|done].
    destruct (m_Texture p); [|done].
    destruct (negb (m_Context p) || _); [done|].
    destruct (hd true (texture_maps p)); done.
  - eexists. split; [reflexivity|]. unfold same_settings. done.
Qed.

Lemma successes_cons b l :
  successes (b :: l) = (if b then S (successes l) else successes l).
Proof. unfold successes. rewrite filter_cons. by destruct b. Qed.

(** The loop runs through every call that does not end the stream, as long
    as the clock allows. *)
Lemma ffmpeg_loop_prefix n : ∀ fuel decoded p d,
  m_FFmpegDecoder p = Some d → FFmpegDecoder.m_Opened d = true →
  m_EndOfStream p = false → ff_no_eos n d →
  clock_allows (m_AccumulatedTime p) (m_FrameDuration p) n →
  (length (FFmpegDecoder.packets d) < fuel)%nat →
  ∃ fuel' q,
    ffmpeg_loop fuel decoded p
    = ffmpeg_loop fuel' (decoded || bool_decide (successes (ff_outcomes n d) ≠ 0%nat)) q
    ∧ (length (FFmpegDecoder.packets (ff_after n d)) < fuel')%nat
    ∧ m_FFmpegDecoder q = Some (ff_after n d)
    ∧ m_Reader q = m_Reader p
    ∧ m_EndOfStream q = false
    ∧ m_CurrentFrame q = advance (successes (ff_outcomes n d)) (m_CurrentFrame p)
    ∧ m_AccumulatedTime q = drained (m_AccumulatedTime p) (m_FrameDuration p) n
    ∧ same_settings p q.
Proof.
  induction n as [|n IH]; intros fuel decoded p d Hd Ho He Hno Hclock Hfuel.
  - exists fuel, p. simpl. rewrite orb_false_r.
    repeat split; try done.
  - apply clock_allows_S in Hclock as [Hgo Hclock].
    destruct fuel as [|fuel]; [lia|].
    simpl ffmpeg_loop. rewrite Hgo, He. simpl. rewrite Hd.
    match goal with |- context [ffmpeg_decode_and_copy d ?x] => set (p1 := x) end.
    destruct (ffmpeg_decode_step d p1) as (p2 & Hstep & Hd2 & Hr2 & He2 & Hf2 & Ha2 & Hs2).
    rewrite Hstep.
    destruct (decoder_step d Ho) as (Ho' & _ & _ & _ & _ & _ & Hless).
    assert (FFmpegDecoder.m_EndOfStream (snd (FFmpegDecoder.DecodeNextFrame d)) = false)
      as Hne by (apply (Hno 1%nat); lia).
    specialize (Hless Hne).
    assert (ff_no_eos n (snd (FFmpegDecoder.DecodeNextFrame d))) as Hno'.
    { intros j Hj. apply (Hno (S j)). lia. }
    simpl ff_outcomes. simpl ff_after. rewrite successes_cons.
    pose proof Hs2 as (_ & _ & _ & _ & Hrate & Hfd & _). simpl in Hrate, Hfd.
    destruct (fst (FFmpegDecoder.DecodeNextFrame d)) eqn:Eok.
    + match goal with |- context [ffmpeg_loop fuel true ?x] => set (p3 := x) end.
      assert (m_EndOfStream p3 = false) as He3.
      { unfold p3. simpl. rewrite He2. unfold p1. by simpl. }
      assert (clock_allows (m_AccumulatedTime p3) (m_FrameDuration p3) n) as Hc3.
      { unfold p3. simpl. rewrite Ha2, Hfd. unfold p1. by simpl. }
      destruct (IH fuel true p3 _ Hd2 Ho' He3 Hno' Hc3 ltac:(lia))
        as (fuel' & q & Hrun & G1 & G2 & G3 & G4 & G5 & G6 & G7).
      exists fuel', q. rewrite Hrun. rewrite orb_true_r. simpl.
      split; [done|]. split; [done|]. split; [done|].
      split; [rewrite G3; unfold p3; simpl; by rewrite Hr2|]. split; [done|].
      split; [rewrite G5; unfold p3; simpl; by rewrite Hf2|].
      split; [rewrite G6; unfold p3; simpl; by rewrite Ha2, Hfd|].
      apply (same_settings_trans p p2 q); [done|].
      unfold same_settings in *. simpl in G7. done.
    + rewrite Hd2, Hne.
      assert (m_EndOfStream p2 = false) as He3.
      { rewrite He2. unfold p1. by simpl. }
      assert (clock_allows (m_AccumulatedTime p2) (m_FrameDuration p2) n) as Hc3.
      { rewrite Ha2, Hfd. unfold p1. by simpl. }
      destruct (IH fuel decoded p2 _ Hd2 Ho' He3 Hno' Hc3 ltac:(lia))
        as (fuel' & q & Hrun & G1 & G2 & G3 & G4 & G5 & G6 & G7).
      exists fuel', q. rewrite Hrun.
      split; [done|]. split; [done|]. split; [done|].
      split; [by rewrite G3, Hr2|]. split; [done|].
      split; [by rewrite G5, Hf2|].
      split; [by rewrite G6, Ha2, Hfd|].
      by apply (same_settings_trans p p2 q).
Qed.

Lemma ffmpeg_loop_stops fuel decoded p :
  F64.geb (m_AccumulatedTime p) (m_FrameDuration p) = false →
  ffmpeg_loop fuel decoded p = Some (decoded, p).
Proof. intros H. destruct fuel; simpl; by rewrite H. Qed.

(** *** The update as a whole *)

Lemma UpdateFrame_unfold now p :
  m_Loaded p = true → m_Playing p = true →
  let p1 := set_m_AccumulatedTime (clock_at now p) (set_m_LastFrameTime now p) in
  UpdateFrame now p =
    if F64.ltb (clock_at now p) (m_FrameDuration p) then Some (false, p1)
    else if m_UsingFFmpeg p && bool_decide (is_Some (m_FFmpegDecoder p))
         then ffmpeg_loop (loop_fuel p1) false p1
         else mf_loop (loop_fuel p1) false p1.
Proof. intros Hl Hp. unfold UpdateFrame. rewrite Hl, Hp. reflexivity. Qed.

(** An update whose clock allows [k] iterations and no more, on a stream
    that does not end within them, makes exactly [k] decode calls. *)
Lemma UpdateFrame_paced now p k :
  m_Loaded p = true → m_Playing p = true → m_EndOfStream p = false →
  answers_ahead k p →
  clock_allows (clock_at now p) (m_FrameDuration p) k →
  clock_stops (clock_at now p) (m_FrameDuration p) k →
  ∃ q, UpdateFrame now p = Some (update_flag k p, q)
     ∧ m_AccumulatedTime q = drained (clock_at now p) (m_FrameDuration p) k
     ∧ back_end_after k p q
     ∧ m_CurrentFrame q = frame_counter_after k p
     ∧ m_EndOfStream q = false
     ∧ same_settings p q.
Proof.
  intros Hl Hp He Hahead Hallow Hstop.
  rewrite (UpdateFrame_unfold now p Hl Hp).
  set (p1 := set_m_AccumulatedTime (clock_at now p) (set_m_LastFrameTime now p)).
  assert (same_settings p p1) as Hs1 by (unfold same_settings; done).
  unfold answers_ahead, update_flag, frames_decoded, back_end_after,
    frame_counter_after in *.
  destruct (F64.ltb (clock_at now p) (m_FrameDuration p)) eqn:Eltb.
  { assert (k = 0%nat) as ->.
    { destruct k as [|k]; [done|]. apply clock_allows_S in Hallow as [Hge _].
      apply geb_not_ltb in Hge. congruence. }
    exists p1. destruct (m_UsingFFmpeg p).
    - destruct Hahead as (d & Hd & _). rewrite Hd. simpl.
      repeat split; try done. by exists d.
    - destruct Hahead as (rd & Hrd & _). rewrite Hrd. simpl.
      repeat split; try done. exists rd. split; [done|]. simpl. rewrite Hrd.
      by destruct rd. }
  destruct (m_UsingFFmpeg p) eqn:Eff.
  - destruct Hahead as (d & Hd & Ho & Hno). rewrite Hd. simpl.
    destruct (ffmpeg_loop_prefix k (loop_fuel p1) false p1 d)
      as (fuel' & q & Hrun & _ & G2 & G3 & G4 & G5 & G6 & G7); try done.
    { unfold loop_fuel. simpl. rewrite Eff, Hd. lia. }
    rewrite Hrun, ffmpeg_loop_stops.
    + exists q. simpl. split; [done|]. split; [done|]. split; [by exists d|].
      split; [done|]. split; [done|]. by apply (same_settings_trans p p1 q).
    + rewrite G6. destruct G7 as (_ & _ & _ & _ & _ & -> & _). done.
  - destruct Hahead as (rd & Hrd & Hk & Hgo). rewrite Hrd. simpl.
    destruct (mf_loop_prefix (take k (reads rd)) (loop_fuel p1) false p1 rd
                (drop k (reads rd)))
      as (q & Hrun & G2 & G3 & G4 & G5 & G6 & G7); try done.
    { by rewrite take_drop. }
    { rewrite length_take_le by done. done. }
    { rewrite length_take_le by done. unfold loop_fuel. simpl. rewrite Eff, Hrd. lia. }
    rewrite length_take_le in * by done.
    rewrite Hrun, mf_loop_stops.
    + exists q. split; [done|]. split; [done|]. split; [by exists rd|].
      split; [done|]. split; [done|]. by apply (same_settings_trans p p1 q).
    + rewrite G5. destruct G7 as (_ & _ & _ & _ & _ & -> & _). done.
Qed.

(** At 25 frames per second, 0.12 s on an empty clock pay for two frame
    durations in double arithmetic: 0.12 - 0.04 - 0.04 rounds below 0.04. *)
Lemma clock_25fps_120ms k :
  let fd := F64.div F64.one (F64.of_Z 25) in
  let acc := F64.add F64.zero (F64.decimal 12 2) in
  clock_allows acc fd k → clock_stops acc fd k → k = 2%nat.
Proof.
  intros fd acc Hallow Hstop. unfold clock_stops in Hstop.
  destruct k as [|[|[|k]]].
  - vm_compute in Hstop. discriminate.
  - vm_compute in Hstop. discriminate.
  - reflexivity.
  - specialize (Hallow 2%nat ltac:(lia)). vm_compute in Hallow. discriminate.
Qed.

(** The doubles involved: the frame duration 1.0 / 25.0 is
    0x3FA47AE147AE147B (0.04), and the clock after two subtractions is
    0x3FA47AE147AE1479 (0.03999999999999999), two units in the last place
    below it. *)
Lemma clock_25fps_120ms_values :
  F64.div F64.one (F64.of_Z 25) = S754_finite false 5764607523034235 (-57)
  ∧ drained (F64.add F64.zero (F64.decimal 12 2)) (F64.div F64.one (F64.of_Z 25)) 2
    = S754_finite false 5764607523034233 (-57).
Proof. split; vm_compute; reflexivity. Qed.

(** C1, the code at the failing input.  The sample clip plays at 25 frames
    per second (frame duration [1.0 / 25.0]) with an empty clock; the
    counter runs at 10 MHz and has advanced by 1 200 000 ticks, which
    [UpdateFrame] measures as the double 0.12; every answer of the reader is
    a frame.  Three frames are due -- also in double arithmetic the quotient
    of the elapsed time and the frame duration is exactly 3, and the loop
    tests with [>=] -- but the update decodes two: the clock goes 0.12,
    0.07999999999999999, 0.03999999999999999, and the last value is below
    the frame duration.  One counter tick later the same update decodes
    three. *)
Lemma C1_rounding_loses_a_frame :
  let p := sample_player (sample_env true true 10 [] []) in
  (m_Loaded p = true ∧ m_Playing p = true ∧ m_EndOfStream p = false)
  ∧ m_AccumulatedTime p = F64.zero
  ∧ m_FrameRate p = F64.of_Z 25
  ∧ m_FrameDuration p = F64.div F64.one (F64.of_Z 25)
  ∧ elapsed_since p 1201000 = F64.decimal 12 2
  ∧ F64.div (elapsed_since p 1201000) (m_FrameDuration p) = F64.of_Z 3
  ∧ frames_taken 1201000 p = Some 2%nat
  ∧ ¬ three_frames_claim 1201000 p
  ∧ frames_taken 1201001 p = Some 3%nat.
Proof.
  intros p. subst p.
  repeat split; try (vm_compute; reflexivity).
  vm_compute. discriminate.
Qed.

(** *** The end of the stream *)

(** [SeekToFrameInternal(0)] clamps its argument to frame 0 and asks for
    time 0, whatever the frame rate. *)
Lemma restart_target total :
  Z.max 0 (Z.min 0 (if 0 <? total then total - 1 else 0)) = 0.
Proof. destruct (0 <? total) eqn:E; [apply Z.ltb_lt in E|]; lia. Qed.

Lemma restart_ticks_zero rate :
  F64.to_int64
    (F64.mul (if F64.gtb rate F64.zero then F64.div (F64.of_Z 0) rate else F64.zero)
             ticks_per_second) = 0.
Proof. destruct rate as [[]|[]| |[] m e]; vm_compute; reflexivity. Qed.

Lemma restart_timestamp_zero rate :
  F64.to_int64
    (F64.mul (if F64.gtb rate F64.zero then F64.div (F64.of_Z 0) rate else F64.zero)
             (F64.of_Z FFmpegDecoder.AV_TIME_BASE)) = 0.
Proof. destruct rate as [[]|[]| |[] m e]; vm_compute; reflexivity. Qed.

Lemma ff_after_seek_log n : ∀ d,
  FFmpegDecoder.m_Opened d = true →
  FFmpegDecoder.seek_log (ff_after n d) = FFmpegDecoder.seek_log d.
Proof.
  induction n as [|n IH]; intros d Ho; [done|]. simpl.
  destruct (decoder_step d Ho) as (Ho' & Hlog & _). by rewrite IH.
Qed.

(** The restart on the primary path. *)
Lemma restart_primary p rd :
  m_Loaded p = true → m_UsingFFmpeg p = false → m_Reader p = Some rd →
  ∃ rd', m_Reader (SeekToFrameInternal 0 p) = Some rd'
       ∧ position_log rd' = 0 :: position_log rd
       ∧ m_CurrentFrame (SeekToFrameInternal 0 p)
         = if hd true (positions rd)
           then frame_after (m_FrameRate p) [hd RS_EndOfStream (reads rd)] 0
           else m_CurrentFrame p.
Proof.
  intros Hl Hmf Hrd. unfold SeekToFrameInternal.
  rewrite Hl, Hmf, Hrd, restart_target, restart_ticks_zero. simpl.
  destruct (hd true (positions rd)).
  - match goal with |- context [DecodeNextFrame ?x] => set (p1 := x) end.
    destruct (DecodeNextFrame_read p1 _ eq_refl)
      as (q & Hdec & Hr & _ & Hf & _).
    rewrite Hdec. simpl. eexists. split; [exact Hr|]. split; [done|].
    exact Hf.
  - eexists. split; [reflexivity|]. done.
Qed.

(** The restart on the fallback path. *)
Lemma restart_fallback p d :
  m_Loaded p = true → m_UsingFFmpeg p = true → m_FFmpegDecoder p = Some d →
  FFmpegDecoder.m_Opened d = true →
  m_CurrentFrame (SeekToFrameInternal 0 p) = 0
  ∧ ∃ d', m_FFmpegDecoder (SeekToFrameInternal 0 p) = Some d'
          ∧ FFmpegDecoder.seek_log d' = 0 :: FFmpegDecoder.seek_log d.
Proof.
  intros Hl Hff Hd Ho. unfold SeekToFrameInternal.
  rewrite Hl, Hff, Hd, restart_target. simpl. split; [done|].
  match goal with |- context [ffmpeg_decode_and_copy ?x p] => set (d1 := x) end.
  assert (FFmpegDecoder.m_Opened d1 = true
          ∧ FFmpegDecoder.seek_log d1 = 0 :: FFmpegDecoder.seek_log d) as [Ho1 Hlog1].
  { unfold d1, FFmpegDecoder.SeekToFrame, FFmpegDecoder.SeekToTime.
    rewrite Ho. simpl. by rewrite restart_timestamp_zero. }
  destruct (ffmpeg_decode_step d1 p) as (q & Hstep & Hdq & _).
  rewrite Hstep. simpl. eexists. split; [exact Hdq|].
  destruct (decoder_step d1 Ho1) as (_ & Hlog & _). by rewrite Hlog.
Qed.

Lemma tail_drop {A} k : ∀ l : list A, tail (drop k l) = drop (S k) l.
Proof. induction k as [|k IH]; intros [|x l]; simpl; done. Qed.

Lemma clock_allows_last acc fd k :
  clock_allows acc fd (S k) →
  clock_allows acc fd k ∧ F64.geb (drained acc fd k) fd = true.
Proof.
  intros H. split; [|apply H; lia]. intros j Hj. apply H. lia.
Qed.

Lemma clock_allows_enters now p k :
  clock_allows (clock_at now p) (m_FrameDuration p) (S k) →
  F64.ltb (clock_at now p) (m_FrameDuration p) = false.
Proof. intros H. apply geb_not_ltb, (H 0%nat). lia. Qed.

(** The update that finds the end of the stream at decode call [S k], on the
    primary path: the state in which [UpdateFrame] reacts to it. *)
Lemma UpdateFrame_ends_primary now p rd k :
  m_Loaded p = true → m_Playing p = true → m_EndOfStream p = false →
  m_UsingFFmpeg p = false → m_Reader p = Some rd →
  (k <= length (reads rd))%nat → stream_goes_on (take k (reads rd)) →
  hd RS_EndOfStream (drop k (reads rd)) = RS_EndOfStream →
  clock_allows (clock_at now p) (m_FrameDuration p) (S k) →
  ∃ q, UpdateFrame now p = Some (false, on_end_of_stream q)
     ∧ m_Reader q = Some {| reads := drop (S k) (reads rd);
                            positions := positions rd;
                            position_log := position_log rd |}
     ∧ m_CurrentFrame q = frame_after (m_FrameRate p) (take k (reads rd))
                                      (m_CurrentFrame p)
     ∧ m_EndOfStream q = true
     ∧ same_settings p q.
Proof.
  intros Hl Hp He Hmf Hrd Hk Hgo Hend Hallow.
  rewrite (UpdateFrame_unfold now p Hl Hp), (clock_allows_enters now p k Hallow), Hmf.
  simpl andb. cbv iota.
  apply clock_allows_last in Hallow as [Hallow Hlast].
  set (p1 := set_m_AccumulatedTime (clock_at now p) (set_m_LastFrameTime now p)).
  assert (same_settings p p1) as Hs1 by (unfold same_settings; done).
  destruct (mf_loop_prefix (take k (reads rd)) (loop_fuel p1) false p1 rd
              (drop k (reads rd)))
    as (q1 & Hrun & G2 & G3 & G4 & G5 & G6 & G7); try done.
  { by rewrite take_drop. }
  { rewrite length_take_le by done. done. }
  { rewrite length_take_le by done. unfold loop_fuel. simpl. rewrite Hmf, Hrd. lia. }
  rewrite length_take_le in * by done.
  rewrite Hrun.
  replace (loop_fuel p1 - k)%nat with (S (length (reads rd) - k))
    by (unfold loop_fuel; simpl; rewrite Hmf, Hrd; lia).
  pose proof G7 as (_ & _ & _ & _ & Hrate & Hfd & _).
  simpl mf_loop. rewrite G5, Hfd. simpl in Hlast. simpl. rewrite Hlast, G3. simpl.
  match goal with |- context [DecodeNextFrame ?x] => set (p2 := x) end.
  destruct (DecodeNextFrame_read p2 _ G2) as (q & Hdec & Hr & Heq & Hf & _ & _ & Hs).
  simpl in Hdec, Hr, Heq, Hf. rewrite Hend in Hdec, Heq, Hf. simpl in Hdec, Heq, Hf.
  rewrite Hdec, Heq. exists q.
  split; [done|]. split; [by rewrite Hr, tail_drop|]. split; [by rewrite Hf, G4|].
  split; [done|].
  apply (same_settings_trans p q1 q); [by apply (same_settings_trans p p1 q1)|].
  unfold same_settings in *. simpl in Hs. done.
Qed.

(** The same on the fallback path. *)
Lemma UpdateFrame_ends_fallback now p d k :
  m_Loaded p = true → m_Playing p = true → m_EndOfStream p = false →
  m_UsingFFmpeg p = true → m_FFmpegDecoder p = Some d →
  FFmpegDecoder.m_Opened d = true → ff_no_eos k d →
  FFmpegDecoder.m_EndOfStream (ff_after (S k) d) = true →
  clock_allows (clock_at now p) (m_FrameDuration p) (S k) →
  ∃ q, UpdateFrame now p
       = Some (bool_decide (successes (ff_outcomes k d) ≠ 0%nat), on_end_of_stream q)
     ∧ m_FFmpegDecoder q = Some (ff_after (S k) d)
     ∧ m_CurrentFrame q = advance (successes (ff_outcomes k d)) (m_CurrentFrame p)
     ∧ m_EndOfStream q = true
     ∧ same_settings p q.
Proof.
  intros Hl Hp He Hff Hd Ho Hno Hend Hallow.
  rewrite (UpdateFrame_unfold now p Hl Hp), (clock_allows_enters now p k Hallow), Hff, Hd.
  simpl.
  apply clock_allows_last in Hallow as [Hallow Hlast].
  set (p1 := set_m_AccumulatedTime (clock_at now p) (set_m_LastFrameTime now p)).
  assert (same_settings p p1) as Hs1 by (unfold same_settings; done).
  destruct (ffmpeg_loop_prefix k (loop_fuel p1) false p1 d)
    as (fuel' & q1 & Hrun & Hfuel & G2 & G3 & G4 & G5 & G6 & G7); try done.
  { unfold loop_fuel. simpl. rewrite Hff, Hd. lia. }
  rewrite Hrun. destruct fuel' as [|fuel']; [lia|].
  pose proof G7 as (_ & _ & _ & _ & Hrate & Hfd & _).
  simpl ffmpeg_loop. rewrite G6, Hfd. simpl in Hlast. simpl. rewrite Hlast, G4. simpl.
  rewrite G2.
  match goal with |- context [ffmpeg_decode_and_copy _ ?x] => set (p2 := x) end.
  destruct (ffmpeg_decode_step (ff_after k d) p2)
    as (q2 & Hstep & Hd2 & _ & He2 & Hf2 & _ & Hs2).
  rewrite <- ff_after_S in Hd2.
  pose proof (ff_after_opened k d Ho) as Hok.
  destruct (decoder_step _ Hok) as (_ & _ & _ & _ & _ & Hframe & _).
  rewrite <- ff_after_S in Hframe.
  destruct (fst (FFmpegDecoder.DecodeNextFrame (ff_after k d))) eqn:Eok.
  { specialize (Hframe eq_refl). congruence. }
  rewrite Hstep, Hd2, Hend.
  exists (set_m_EndOfStream true q2).
  split; [done|]. split; [done|]. split; [simpl; rewrite Hf2; unfold p2; simpl; by rewrite G5|].
  split; [done|].
  apply (same_settings_trans p q1 _); [by apply (same_settings_trans p p1 q1)|].
  unfold same_settings in *. simpl in Hs2. simpl. done.
Qed.

(** C3, the claim as worded fails: the sample clip of three frames is
    loaded on the primary path and loops; the update 0.2 s later reads its
    last two samples and then the end of the stream; the reader refuses the
    new position, and the frame counter stays at 2. *)
Lemma C3_counterexample :
  m_Loaded (sample_player (sample_env true true 3 [false] [])) = true
  ∧ m_Loop (sample_player (sample_env true true 3 [false] [])) = true
  ∧ ends_after 2 (sample_player (sample_env true true 3 [false] []))
  ∧ ¬ loop_restart_claim 2001000 (sample_player (sample_env true true 3 [false] [])).
Proof.
  split; [vm_compute; reflexivity|]. split; [vm_compute; reflexivity|]. split.
  - unfold ends_after, answers_ahead.
    replace (m_UsingFFmpeg (sample_player (sample_env true true 3 [false] [])))
      with false by (vm_compute; reflexivity).
    split; eexists; (split; [vm_compute; reflexivity|]).
    + split; [vm_compute; lia|]. vm_compute. repeat constructor.
    + reflexivity.
  - intros (decoded & p' & Hrun & Hframe & _).
    vm_compute in Hrun. injection Hrun as _ <-. discriminate Hframe.
Qed.

(** C3, amended: when the stream ends during an [UpdateFrame] call of a
    loaded, playing player, then with loop off the player stops playing and
    the frame counter holds the last decoded value; with loop on the player
    asks its back end for position 0 and keeps playing, and the frame
    counter is 0 on the fallback path, while on the primary path it is 0 or
    the index of the sample read right after the seek when the reader
    accepts the new position, and is left at the last decoded value when
    the reader refuses it. *)
Theorem C3_end_of_stream now p k :
  m_Loaded p = true → m_Playing p = true → m_EndOfStream p = false →
  ends_after k p →
  clock_allows (clock_at now p) (m_FrameDuration p) (S k) →
  ∃ flag q, UpdateFrame now p = Some (flag, q)
    ∧ (m_Loop p = false →
       m_Playing q = false
       ∧ m_CurrentFrame q = frame_counter_after k p
       ∧ back_end_after (S k) p q)
    ∧ (m_Loop p = true →
       m_Playing q = true
       ∧ m_EndOfStream q = false
       ∧ asked_for_start p q
       ∧ m_CurrentFrame q = restart_frame k p).
Proof.
  intros Hl Hp He [Hahead Hend] Hallow.
  unfold answers_ahead, frame_counter_after, back_end_after, asked_for_start,
    restart_frame, frame_counter_after in *.
  destruct (m_UsingFFmpeg p) eqn:Eff.
  - destruct Hahead as (d & Hd & Ho & Hno). destruct Hend as (d' & Hd' & Hend).
    assert (d' = d) as -> by congruence. rewrite Hd.
    destruct (UpdateFrame_ends_fallback now p d k) as (q & Hrun & Hdq & Hf & _ & Hs);
      try done.
    destruct Hs as (Hlq & _ & Hloop & Hffq & _).
    eexists. exists (on_end_of_stream q). split; [exact Hrun|].
    unfold on_end_of_stream. rewrite Hloop.
    split; intros ->; simpl.
    + split; [done|]. split; [done|]. by exists d.
    + destruct (restart_fallback q (ff_after (S k) d)) as (Hzero & d2 & Hd2 & Hlog);
        try congruence.
      { by apply ff_after_opened. }
      split; [done|]. split; [done|]. split; [|done].
      exists d, d2. split; [done|]. split; [done|].
      rewrite Hlog. f_equal. by apply ff_after_seek_log.
  - destruct Hahead as (rd & Hrd & Hk & Hgo). destruct Hend as (rd' & Hrd' & Hend).
    assert (rd' = rd) as -> by congruence. rewrite Hrd.
    destruct (UpdateFrame_ends_primary now p rd k) as (q & Hrun & Hrq & Hf & _ & Hs);
      try done.
    destruct Hs as (Hlq & _ & Hloop & Hffq & Hrate & _).
    eexists. exists (on_end_of_stream q). split; [exact Hrun|].
    unfold on_end_of_stream. rewrite Hloop.
    split; intros ->; simpl.
    + split; [done|]. split; [done|]. by exists rd.
    + destruct (restart_primary q _ ltac:(congruence) ltac:(congruence) Hrq)
        as (rd2 & Hrd2 & Hlog & Hframe).
      simpl in Hlog, Hframe.
      split; [done|]. split; [done|]. split.
      * by exists rd, rd2.
      * rewrite Hframe, Hrate, Hf. done.
Qed.

Lemma C3_witness :
  ∃ flag q, UpdateFrame 2001000 (sample_player (sample_env true true 3 [] []))
            = Some (flag, q)
     ∧ m_Playing q = true
     ∧ m_CurrentFrame q = 0.
Proof.
  pose (p := sample_player (sample_env true true 3 [] [])).
  assert (m_UsingFFmpeg p = false) as Hmf by (vm_compute; reflexivity).
  destruct (C3_end_of_stream 2001000 p 2) as (flag & q & Hrun & _ & Hloop).
  - vm_compute; reflexivity.
  - vm_compute; reflexivity.
  - vm_compute; reflexivity.
  - unfold ends_after, answers_ahead. rewrite Hmf.
    split; eexists; (split; [vm_compute; reflexivity|]).
    + split; [vm_compute; lia|]. vm_compute. repeat constructor.
    + reflexivity.
  - intros j Hj. destruct j as [|[|[|j]]]; [vm_compute; reflexivity..|lia].
  - destruct Hloop as (Hplay & _ & _ & Hframe); [vm_compute; reflexivity|].
    exists flag, q. split; [exact Hrun|]. split; [exact Hplay|].
    rewrite Hframe. vm_compute. reflexivity.
Defined.

End UpdateLoop.

(** ** Rounding of doubles *)

Section Rounding.

(** The number of binary digits of a mantissa. *)
Lemma digits2_pos_bounds p :
  2 ^ (Z.pos (digits2_pos p) - 1) <= Z.pos p < 2 ^ Z.pos (digits2_pos p).
Proof.
  induction p as [p IH|p IH|]; simpl digits2_pos; [| |simpl; lia].
  - rewrite Pos2Z.inj_succ.
    replace (Z.succ (Z.pos (digits2_pos p)) - 1)
      with (Z.succ (Z.pos (digits2_pos p) - 1)) by lia.
    rewrite !Z.pow_succ_r by lia. lia.
  - rewrite Pos2Z.inj_succ.
    replace (Z.succ (Z.pos (digits2_pos p)) - 1)
      with (Z.succ (Z.pos (digits2_pos p) - 1)) by lia.
    rewrite !Z.pow_succ_r by lia. lia.
Qed.

Lemma Zdigits2_unique x d :
  0 < d → 2 ^ (d - 1) <= x < 2 ^ d → Zdigits2 x = d.
Proof.
  intros Hd [Hlo Hhi].
  assert (0 < x) as Hx by (pose proof (Z.pow_pos_nonneg 2 (d - 1)); lia).
  destruct x as [|p|p]; try lia. simpl.
  pose proof (digits2_pos_bounds p) as [Hlo' Hhi'].
  destruct (Z.lt_trichotomy (Z.pos (digits2_pos p)) d) as [Hlt|[Heq|Hgt]]; [|done|].
  - pose proof (Z.pow_le_mono_r 2 (Z.pos (digits2_pos p)) (d - 1)). lia.
  - pose proof (Z.pow_le_mono_r 2 d (Z.pos (digits2_pos p) - 1)). lia.
Qed.

(** Shifting a mantissa right. *)
Lemma shr_1_m r : 0 <= shr_m r → shr_m (shr_1 r) = shr_m r / 2.
Proof.
  destruct r as [m rb sb]. simpl. intros Hm.
  destruct m as [|[p|p|]|p]; simpl; try lia;
    first [ apply (Z.div_unique _ _ _ 0); lia | apply (Z.div_unique _ _ _ 1); lia ].
Qed.

Lemma iter_pos_shr_m n : ∀ r,
  0 <= shr_m r → shr_m (SpecFloat.iter_pos shr_1 n r) = shr_m r / 2 ^ Z.pos n.
Proof.
  induction n as [n IH|n IH|]; intros r Hr; cbn [SpecFloat.iter_pos].
  - assert (0 <= shr_m (shr_1 r)) as H1 by (rewrite shr_1_m by done; apply Z.div_pos; lia).
    assert (0 <= shr_m (SpecFloat.iter_pos shr_1 n (shr_1 r))) as H2.
    { rewrite IH by done. apply Z.div_pos; [done|]. apply Z.pow_pos_nonneg; lia. }
    rewrite IH, IH, shr_1_m by done.
    rewrite !Z.div_div by (try apply Z.pow_pos_nonneg; lia).
    f_equal.
    replace (Z.pos n~1) with (Z.succ (Z.pos n + Z.pos n)) by lia.
    rewrite Z.pow_succ_r, Z.pow_add_r by lia. lia.
  - assert (0 <= shr_m (SpecFloat.iter_pos shr_1 n r)) as H2.
    { rewrite IH by done. apply Z.div_pos; [done|]. apply Z.pow_pos_nonneg; lia. }
    rewrite IH, IH by done.
    rewrite !Z.div_div by (try apply Z.pow_pos_nonneg; lia).
    f_equal.
    replace (Z.pos n~0) with (Z.pos n + Z.pos n) by lia.
    rewrite Z.pow_add_r by lia. lia.
  - by rewrite shr_1_m.
Qed.

Lemma shr_record_of_loc_m m l : shr_m (shr_record_of_loc m l) = m.
Proof. by destruct l as [|[]]. Qed.

Lemma round_nearest_even_cases m l :
  round_nearest_even m l = m ∨ round_nearest_even m l = m + 1.
Proof. destruct l as [|[]]; simpl; try destruct (Z.even m); auto. Qed.

(** A right shift by [k >= 0] digits, as [shr] does it. *)
Lemma shr_spec r e k :
  0 <= shr_m r → 0 <= k →
  ∃ r', shr r e k = (r', e + k) ∧ shr_m r' = shr_m r / 2 ^ k.
Proof.
  intros Hr Hk. destruct k as [|p|p]; [| |lia].
  - exists r. simpl. rewrite Z.add_0_r, Z.div_1_r. done.
  - eexists. split; [reflexivity|]. by apply iter_pos_shr_m.
Qed.

(** Rounding a mantissa of [d >= 53] digits to a double, away from the ends
    of the exponent range: the result is a normal double, one of the two
    neighbours of the exact value on the grid of step [2 ^ (d - 53)]. *)
Lemma binary_round_aux_faithful mx ex lx d :
  53 <= d → 2 ^ (d - 1) <= mx < 2 ^ d →
  -1074 <= ex + d - 53 → ex + d - 53 < 970 →
  ∃ M j, binary_round_aux 53 1024 false mx ex lx
         = S754_finite false M (ex + (d - 53) + j)
     ∧ 2 ^ 52 <= Z.pos M < 2 ^ 53
     ∧ (j = 0 ∨ j = 1)
     ∧ (Z.pos M * 2 ^ j = mx / 2 ^ (d - 53)
        ∨ Z.pos M * 2 ^ j = mx / 2 ^ (d - 53) + 1).
Proof.
  intros Hd Hmx Hlo Hhi.
  unfold binary_round_aux, shr_fexp.
  rewrite (Zdigits2_unique mx d) by (done || lia).
  unfold fexp, emin.
  replace (Z.max (d + ex - 53) (3 - 1024 - 53) - ex) with (d - 53) by lia.
  destruct (shr_spec (shr_record_of_loc mx lx) ex (d - 53)) as (r1 & -> & Hr1);
    [rewrite shr_record_of_loc_m; pose proof (Z.pow_pos_nonneg 2 (d - 1)); lia | lia |].
  rewrite shr_record_of_loc_m in Hr1.
  assert (0 < 2 ^ (d - 53)) as Hpow by (apply Z.pow_pos_nonneg; lia).
  assert (2 ^ 52 <= shr_m r1 < 2 ^ 53) as Hm0.
  { rewrite Hr1. split.
    - apply Z.div_le_lower_bound; [done|].
      replace (d - 1) with (d - 53 + 52) in Hmx by lia.
      rewrite Z.pow_add_r in Hmx by lia. lia.
    - apply Z.div_lt_upper_bound; [done|].
      replace d with (d - 53 + 53) in Hmx at 2 by lia.
      rewrite Z.pow_add_r in Hmx by lia. lia. }
  set (m1 := round_nearest_even (shr_m r1) (loc_of_shr_record r1)).
  assert (m1 = shr_m r1 ∨ m1 = shr_m r1 + 1) as Hm1
    by apply round_nearest_even_cases.
  destruct (Z.lt_ge_cases m1 (2 ^ 53)) as [Hsmall|Hcarry].
  - rewrite (Zdigits2_unique m1 53) by lia.
    replace (Z.max (53 + (ex + (d - 53)) - 53) (3 - 1024 - 53) - (ex + (d - 53)))
      with 0 by lia.
    simpl shr. simpl shr_m.
    destruct m1 as [|M|M] eqn:EM; try lia.
    replace (ex + (d - 53) <=? 1024 - 53) with true by (symmetry; apply Z.leb_le; lia).
    exists M, 0. rewrite Z.add_0_r, Z.mul_1_r, <- Hr1.
    split; [done|]. split; [lia|]. split; [by left|]. lia.
  - assert (m1 = 9007199254740992) as Hm by lia. rewrite Hm.
    rewrite (Zdigits2_unique 9007199254740992 54) by lia.
    replace (Z.max (54 + (ex + (d - 53)) - 53) (3 - 1024 - 53) - (ex + (d - 53)))
      with 1 by lia.
    cbv [shr SpecFloat.iter_pos shr_record_of_loc shr_1 shr_m].
    replace (ex + (d - 53) + 1 <=? 1024 - 53) with true by (symmetry; apply Z.leb_le; lia).
    eexists. exists 1. split; [reflexivity|]. split; [lia|]. split; [by right|].
    rewrite <- Hr1. lia.
Qed.

(** The product of two normal positive doubles. *)
Lemma mul_normal m e c ec d :
  53 <= d → 2 ^ (d - 1) <= Z.pos m * Z.pos c < 2 ^ d →
  -1074 <= e + ec + d - 53 → e + ec + d - 53 < 970 →
  ∃ M j, F64.mul (S754_finite false m e) (S754_finite false c ec)
         = S754_finite false M (e + ec + (d - 53) + j)
     ∧ 2 ^ 52 <= Z.pos M < 2 ^ 53
     ∧ (j = 0 ∨ j = 1)
     ∧ (Z.pos M * 2 ^ j = Z.pos m * Z.pos c / 2 ^ (d - 53)
        ∨ Z.pos M * 2 ^ j = Z.pos m * Z.pos c / 2 ^ (d - 53) + 1).
Proof.
  intros Hd Hmx Hlo Hhi. unfold F64.mul, SFmul, F64.prec, F64.emax.
  rewrite Pos2Z.inj_mul. simpl xorb.
  apply binary_round_aux_faithful; (done || lia).
Qed.

(** The quotient of two normal positive doubles. *)
Lemma div_normal M E m e :
  2 ^ 52 <= Z.pos M < 2 ^ 53 → 2 ^ 52 <= Z.pos m < 2 ^ 53 →
  -900 <= E - e <= 900 →
  let q := Z.pos M * 2 ^ 53 / Z.pos m in
  2 ^ 52 <= q < 2 ^ 54
  ∧ ∀ d, 2 ^ (d - 1) <= q < 2 ^ d →
    ∃ Mq j, F64.div (S754_finite false M E) (S754_finite false m e)
            = S754_finite false Mq (E - e - 53 + (d - 53) + j)
       ∧ 2 ^ 52 <= Z.pos Mq < 2 ^ 53
       ∧ (j = 0 ∨ j = 1)
       ∧ (Z.pos Mq * 2 ^ j = q / 2 ^ (d - 53)
          ∨ Z.pos Mq * 2 ^ j = q / 2 ^ (d - 53) + 1).
Proof.
  intros HM Hm HE q.
  assert (2 ^ 52 <= q < 2 ^ 54) as Hq.
  { unfold q. split.
    - apply Z.div_le_lower_bound; lia.
    - apply Z.div_lt_upper_bound; lia. }
  split; [done|]. intros d Hd.
  assert (53 <= d) as Hd53.
  { destruct (Z.le_gt_cases 53 d) as [|Hlt]; [done|].
    pose proof (Z.pow_le_mono_r 2 d 52). lia. }
  assert (d <= 54) as Hd54.
  { destruct (Z.le_gt_cases d 54) as [|Hgt]; [done|].
    pose proof (Z.pow_le_mono_r 2 54 (d - 1)). lia. }
  unfold F64.div, SFdiv, SFdiv_core_binary, F64.prec, F64.emax.
  rewrite (Zdigits2_unique (Z.pos M) 53), (Zdigits2_unique (Z.pos m) 53) by lia.
  unfold fexp, emin.
  replace (Z.min (Z.max (53 + E - (53 + e) - 53) (3 - 1024 - 53)) (E - e))
    with (E - e - 53) by lia.
  replace (E - e - (E - e - 53)) with 53 by lia.
  rewrite Z.shiftl_mul_pow2 by lia.
  destruct (Z.div_eucl (Z.pos M * 2 ^ 53) (Z.pos m)) as [q' r] eqn:Hqr.
  assert (q' = q) as ->.
  { unfold q, Z.div. by rewrite Hqr. }
  simpl xorb.
  apply binary_round_aux_faithful; lia.
Qed.

(** Comparison of positive doubles. *)
Lemma ltb_finite M1 E1 M2 E2 :
  E1 < E2 ∨ (E1 = E2 ∧ Z.pos M1 < Z.pos M2) →
  SFltb (S754_finite false M1 E1) (S754_finite false M2 E2) = true.
Proof.
  intros H. unfold SFltb, SFcompare.
  destruct (Z.compare_spec E1 E2) as [Heq|Hlt|Hgt]; [|done|lia].
  destruct H as [|[_ H]]; [lia|].
  change (Z.pos M1 < Z.pos M2) with (Pos.lt M1 M2) in H.
  apply Pos.compare_lt_iff in H. unfold Pos.compare in H. by rewrite H.
Qed.

End Rounding.

(** ** Dropped frames (C9) *)

Section DroppedFrames.
Import Engine Spec.

Lemma two_and_half_eq : two_and_half = S754_finite false 5629499534213120 (-51).
Proof. vm_compute. reflexivity. Qed.

Lemma one_and_half_eq : one_and_half = S754_finite false 6755399441055744 (-52).
Proof. vm_compute. reflexivity. Qed.

(** 2.5 times a normal double [m * 2^e]: the mantissa is 5m/4 or 5m/8,
    rounded to a neighbour. *)
Lemma mul_two_and_half m e :
  2 ^ 52 <= Z.pos m < 2 ^ 53 → -900 <= e <= 900 →
  ∃ M δ, F64.mul (S754_finite false m e) two_and_half = S754_finite false M (e + δ)
     ∧ 2 ^ 52 <= Z.pos M < 2 ^ 53
     ∧ ((δ = 1 ∧ 5 * Z.pos m - 4 < 4 * Z.pos M <= 5 * Z.pos m + 4)
        ∨ (δ = 2 ∧ 5 * Z.pos m - 8 < 8 * Z.pos M <= 5 * Z.pos m + 8)).
Proof.
  intros Hm He. rewrite two_and_half_eq.
  destruct (Z.lt_ge_cases (5 * Z.pos m) (2 ^ 55)) as [Hsmall|Hbig].
  - destruct (mul_normal m e 5629499534213120 (-51) 105) as (M & j & -> & HM & Hj & Hval);
      try lia.
    change (2 ^ (105 - 53)) with 4503599627370496 in Hval.
    pose proof (Z.mul_div_le (Z.pos m * 5629499534213120) 4503599627370496 ltac:(lia)).
    pose proof (Z.mul_succ_div_gt (Z.pos m * 5629499534213120) 4503599627370496 ltac:(lia)).
    destruct Hj as [-> | ->].
    + exists M, 1. split; [f_equal; lia|]. split; [done|]. left. lia.
    + exists M, 2. split; [f_equal; lia|]. split; [done|]. right. lia.
  - destruct (mul_normal m e 5629499534213120 (-51) 106) as (M & j & -> & HM & Hj & Hval);
      try lia.
    change (2 ^ (106 - 53)) with 9007199254740992 in Hval.
    pose proof (Z.mul_div_le (Z.pos m * 5629499534213120) 9007199254740992 ltac:(lia)).
    pose proof (Z.mul_succ_div_gt (Z.pos m * 5629499534213120) 9007199254740992 ltac:(lia)).
    destruct Hj as [-> | ->]; [|lia].
    exists M, 2. split; [f_equal; lia|]. split; [done|]. right. lia.
Qed.

(** 1.5 times a normal double. *)
Lemma mul_one_and_half m e :
  2 ^ 52 <= Z.pos m < 2 ^ 53 → -900 <= e <= 900 →
  ∃ M δ, F64.mul (S754_finite false m e) one_and_half = S754_finite false M (e + δ)
     ∧ ((δ = 0 ∧ 2 * Z.pos M <= 3 * Z.pos m + 2)
        ∨ (δ = 1 ∧ 4 * Z.pos M <= 3 * Z.pos m + 4)).
Proof.
  intros Hm He. rewrite one_and_half_eq.
  destruct (Z.lt_ge_cases (3 * Z.pos m) (2 ^ 54)) as [Hsmall|Hbig].
  - destruct (mul_normal m e 6755399441055744 (-52) 105) as (M & j & -> & HM & Hj & Hval);
      try lia.
    change (2 ^ (105 - 53)) with 4503599627370496 in Hval.
    pose proof (Z.mul_div_le (Z.pos m * 6755399441055744) 4503599627370496 ltac:(lia)).
    pose proof (Z.mul_succ_div_gt (Z.pos m * 6755399441055744) 4503599627370496 ltac:(lia)).
    destruct Hj as [-> | ->].
    + exists M, 0. split; [f_equal; lia|]. left. lia.
    + exists M, 1. split; [f_equal; lia|]. right. lia.
  - destruct (mul_normal m e 6755399441055744 (-52) 106) as (M & j & -> & HM & Hj & Hval);
      try lia.
    change (2 ^ (106 - 53)) with 9007199254740992 in Hval.
    pose proof (Z.mul_div_le (Z.pos m * 6755399441055744) 9007199254740992 ltac:(lia)).
    pose proof (Z.mul_succ_div_gt (Z.pos m * 6755399441055744) 9007199254740992 ltac:(lia)).
    destruct Hj as [-> | ->]; [|lia].
    exists M, 1. split; [f_equal; lia|]. right. lia.
Qed.

(** Dividing such a product by the double it came from gives a double
    between 2 and 3. *)
Lemma div_back m e M δ :
  2 ^ 52 <= Z.pos m < 2 ^ 53 → 2 ^ 52 <= Z.pos M < 2 ^ 53 → -900 <= e <= 900 →
  (δ = 1 ∧ 5 * Z.pos m - 4 < 4 * Z.pos M <= 5 * Z.pos m + 4)
  ∨ (δ = 2 ∧ 5 * Z.pos m - 8 < 8 * Z.pos M <= 5 * Z.pos m + 8) →
  ∃ Mq, F64.div (S754_finite false M (e + δ)) (S754_finite false m e)
        = S754_finite false Mq (-51)
     ∧ 2 * 2 ^ 51 <= Z.pos Mq < 3 * 2 ^ 51.
Proof.
  intros Hm HM He Hcase.
  destruct (div_normal M (e + δ) m e HM Hm) as [_ Hdiv]; [lia|].
  set (q := Z.pos M * 2 ^ 53 / Z.pos m) in *.
  destruct Hcase as [[-> Hb]|[-> Hb]].
  - assert (5 * 2 ^ 51 - 2 <= q < 5 * 2 ^ 51 + 3) as Hq.
    { unfold q. split.
      - apply Z.div_le_lower_bound; lia.
      - apply Z.div_lt_upper_bound; lia. }
    destruct (Hdiv 54) as (Mq & j & -> & HMq & Hj & Hval); [lia|].
    change (2 ^ (54 - 53)) with 2 in Hval.
    pose proof (Z.mul_div_le q 2 ltac:(lia)).
    pose proof (Z.mul_succ_div_gt q 2 ltac:(lia)).
    destruct Hj as [-> | ->]; [|lia].
    exists Mq. split; [f_equal; lia|]. lia.
  - assert (5 * 2 ^ 50 - 2 <= q < 5 * 2 ^ 50 + 3) as Hq.
    { unfold q. split.
      - apply Z.div_le_lower_bound; lia.
      - apply Z.div_lt_upper_bound; lia. }
    destruct (Hdiv 53) as (Mq & j & -> & HMq & Hj & Hval); [lia|].
    change (2 ^ (53 - 53)) with 1 in Hval. rewrite Z.div_1_r in Hval.
    destruct Hj as [-> | ->]; [|lia].
    exists Mq. split; [f_equal; lia|]. lia.
Qed.

(** C9.  When the engine is initialised, the target frame interval is an
    ordinary positive double and the measured elapsed time is 2.5 times that
    interval (the double product), the quotient elapsed / interval lies
    between 2 and 3, so its integer part is 2, and [Daro_EndFrame] adds that
    integer part minus one, which is exactly 1, to the dropped-frames
    counter. *)
Theorem C9_dropped_frames st now :
  g_Initialized st = true →
  ordinary (targetFrameTime st) →
  measured_elapsed st now = F64.mul (targetFrameTime st) two_and_half →
  F64.trunc (F64.div (measured_elapsed st now) (targetFrameTime st)) = Some 2
  ∧ dropped_increment (measured_elapsed st now) (targetFrameTime st)
    = F64.to_int (F64.div (measured_elapsed st now) (targetFrameTime st)) - 1
  ∧ dropped_increment (measured_elapsed st now) (targetFrameTime st) = 1
  ∧ g_DroppedFrames (Daro_EndFrame st now) = Int.wrap32 (g_DroppedFrames st + 1).
Proof.
  intros Hinit Hord Hel.
  assert (F64.trunc (F64.div (measured_elapsed st now) (targetFrameTime st)) = Some 2
          ∧ F64.gtb (measured_elapsed st now)
                    (F64.mul (targetFrameTime st) one_and_half) = true) as [Htrunc Hgt].
  { rewrite Hel. destruct (targetFrameTime st) as [| | |[] m e]; try done.
    destruct Hord as [Hm He].
    destruct (mul_two_and_half m e Hm He) as (M & δ & -> & HM & Hcase).
    destruct (div_back m e M δ Hm HM He Hcase) as (Mq & -> & HMq).
    destruct (mul_one_and_half m e Hm He) as (M' & δ' & -> & Hcase').
    split.
    - unfold F64.trunc. simpl. f_equal.
      change (2 ^ 51) with 2251799813685248 in *.
      symmetry. apply (Z.div_unique _ _ _ (Z.pos Mq - 2 * 2251799813685248)); lia.
    - unfold F64.gtb. apply ltb_finite. lia. }
  assert (dropped_increment (measured_elapsed st now) (targetFrameTime st) = 1) as Hinc.
  { unfold dropped_increment, F64.to_int. rewrite Hgt, Htrunc. reflexivity. }
  split; [done|]. split; [|split; [done|]].
  - rewrite Hinc. unfold F64.to_int. rewrite Htrunc. reflexivity.
  - unfold Daro_EndFrame. rewrite Hinit. simpl. by rewrite Hinc.
Qed.

Lemma C9_witness :
  g_DroppedFrames (Daro_EndFrame (running_engine (F64.of_Z 50) 10000000 1000 7) 501000)
  = 8.
Proof.
  destruct (C9_dropped_frames (running_engine (F64.of_Z 50) 10000000 1000 7) 501000)
    as (_ & _ & _ & ->).
  - reflexivity.
  - vm_compute. repeat split; discriminate.
  - vm_compute. reflexivity.
  - reflexivity.
Defined.

End DroppedFrames.

(* ===================================================================== *)
(** * Part IV.  Further properties of the code                            *)
(* ===================================================================== *)

(** ** The frame buffer over its life *)

Section FrameBufferLife.
Import FrameBuffer Spec.

Lemma reader_step_view op fb :
  m_Width (reader_step fb op) = m_Width fb
  ∧ m_Height (reader_step fb op) = m_Height fb
  ∧ m_Stride (reader_step fb op) = m_Stride fb
  ∧ (m_pMapView fb = None → reader_step fb op = match op with
                                                  | OpLock => fb
                                                  | OpUnlock => set_locked fb false
                                                  end)
  ∧ ∀ v, m_pMapView fb = Some v →
      ∃ v', m_pMapView (reader_step fb op) = Some v'
        ∧ pixels v' = pixels v
        ∧ width (header v') = width (header v)
        ∧ height (header v') = height (header v)
        ∧ stride (header v') = stride (header v)
        ∧ frameNumber (header v') = frameNumber (header v)
        ∧ locked (header v') = (if m_IsLocked (reader_step fb op) then 1 else 0).
Proof.
  destruct fb as [w h s [v|] l]; destruct op; simpl; unfold Lock, Unlock; simpl;
    (repeat split; try done);
    intros v0 [= <-]; eexists; (split; [reflexivity|]); done.
Qed.

Lemma copy_rows_length rows : ∀ dst doff src soff c sS dS dst',
  copy_rows rows dst doff src soff c sS dS = Some dst' → length dst' = length dst.
Proof.
  induction rows as [|rows IH]; intros dst doff src soff c sS dS dst' H; simpl in H.
  - by injection H as <-.
  - destruct (memcpy dst doff src soff c) as [d1|] eqn:Em; [|done].
    apply memcpy_lookup in Em as [Hlen _]. apply IH in H. congruence.
Qed.

Lemma fb_inv_reader w h fb op : fb_inv w h fb → fb_inv w h (reader_step fb op).
Proof.
  intros [(Hw & Hh & Hs & v & Hv & Hvw & Hvh & Hvs & Hlen) Hlock].
  destruct (reader_step_view op fb) as (Ew & Eh & Es & _ & Hview).
  destruct (Hview v Hv) as (v' & Hv' & Hpx & Hw' & Hh' & Hs' & _ & Hl').
  split.
  - split; [congruence|]. split; [congruence|]. split; [congruence|].
    exists v'. repeat split; congruence.
  - intros v0 Hv0. congruence.
Qed.

Lemma fb_inv_readers w h ops : ∀ fb,
  fb_inv w h fb → fb_inv w h (fold_left reader_step ops fb).
Proof.
  induction ops as [|op ops IH]; intros fb Hinv; [done|].
  simpl. apply IH. by apply fb_inv_reader.
Qed.

Lemma fb_inv_write w h reader fb pData srcStride frameNo fb' :
  fb_inv w h fb → Write reader fb pData srcStride frameNo = Some fb' →
  fb_inv w h fb'.
Proof.
  intros Hinv Hw. unfold Write in Hw.
  destruct (m_pMapView fb) as [v0|] eqn:Ev0; [|by injection Hw as <-].
  destruct pData as [src|]; [|by injection Hw as <-].
  set (fb1 := if m_IsLocked fb then snd (wait_for reader fb) else fb) in *.
  assert (fb_inv w h fb1) as Hinv1.
  { unfold fb1. destruct (m_IsLocked fb); [|done]. by apply fb_inv_readers. }
  destruct (m_IsLocked fb && m_IsLocked fb1); [by injection Hw as <-|].
  destruct Hinv1 as [(Ew & Eh & Es & v & Hv & Hvw & Hvh & Hvs & Hlen) Hlock].
  rewrite Hv in Hw.
  match type of Hw with
  | match ?c with _ => _ end = _ => destruct c as [px|] eqn:Ec; [|done]
  end.
  injection Hw as <-.
  assert (length px = length (pixels v)) as Hpx.
  { destruct (srcStride =? m_Stride fb1).
    - by apply memcpy_lookup in Ec as [? _].
    - by apply copy_rows_length in Ec. }
  split.
  - split; [done|]. split; [done|]. split; [done|].
    eexists. split; [reflexivity|]. simpl. repeat split; try done. congruence.
  - intros v1 [= <-]. simpl. by apply Hlock.
Qed.

Lemma fb_inv_run w h ops : ∀ fb fb',
  fb_inv w h fb → fb_run ops fb = Some fb' → fb_inv w h fb'.
Proof.
  induction ops as [|op ops IH]; intros fb fb' Hinv Hrun; simpl in Hrun.
  - by injection Hrun as <-.
  - destruct (fb_step op fb) as [fb1|] eqn:Es; [|done].
    apply (IH fb1); [|done].
    destruct op; simpl in Es.
    + injection Es as <-. apply (fb_inv_reader w h fb OpLock Hinv).
    + injection Es as <-. apply (fb_inv_reader w h fb OpUnlock Hinv).
    + by apply (fb_inv_write w h reader fb pData srcStride frameNo).
Qed.

Lemma Initialize_ok map_ok fb0 w h fb :
  Initialize map_ok fb0 w h = (true, fb) →
  0 < w <= 16384 ∧ 0 < h <= 16384 ∧ fb_inv w h fb
  ∧ m_IsLocked fb = false
  ∧ region_frame fb = Some 0
  ∧ region_pixels fb = Some (replicate (Z.to_nat (w * 4 * h)) x00).
Proof.
  unfold Initialize.
  destruct (w <=? 0) eqn:E1; [done|]. destruct (h <=? 0) eqn:E2; [done|].
  destruct (16384 <? w) eqn:E3; [done|]. destruct (16384 <? h) eqn:E4; [done|].
  simpl. destruct map_ok; [|done]. intros [= <-].
  split; [lia|]. split; [lia|]. split; [|done].
  split.
  - repeat split; try done. eexists. split; [reflexivity|]. simpl.
    repeat split; try done. by rewrite length_replicate.
  - intros v [= <-]. done.
Qed.

(** X1.  Once [Initialize] has succeeded for [w] x [h] pixels, whatever the
    reader and the writer then call -- [Lock], [Unlock], [Write] with any
    source, stride and frame number, any reader activity during the waits --
    the buffer stays mapped with the geometry of the call (stride 4w, header
    fields, a pixel area of exactly 4wh bytes), and the lock flag in the
    shared header always mirrors the in-process flag. *)
Theorem X1_frame_buffer_invariant map_ok fb0 w h fb ops fb' :
  Initialize map_ok fb0 w h = (true, fb) →
  fb_run ops fb = Some fb' →
  0 < w <= 16384 ∧ 0 < h <= 16384
  ∧ mapped_for w h fb' ∧ lock_mirrored fb' ∧ region_sized fb'.
Proof.
  intros Hinit Hrun.
  apply Initialize_ok in Hinit as (Hw & Hh & Hinv & _).
  apply (fb_inv_run w h ops fb fb' Hinv) in Hrun as [Hmap Hlock].
  split; [done|]. split; [done|]. split; [done|]. split; [done|].
  destruct Hmap as (Ew & Eh & Es & v & Hv & _ & _ & _ & Hlen).
  unfold region_sized, region_pixels. rewrite Eh, Es, Hv. simpl.
  split; [lia|]. split; [lia|]. intros px [= <-]. rewrite Hlen. nia.
Qed.

Lemma X1_witness :
  ∃ fb', fb_run [FbLock; FbWrite [OpLock] (Some (sample_frame 16)) 8 7; FbUnlock;
                 FbWrite [] (Some (sample_frame 16)) 8 8] sample_fb = Some fb'
       ∧ mapped_for 2 2 fb' ∧ lock_mirrored fb' ∧ region_sized fb'
       ∧ region_frame fb' = Some 8.
Proof.
  assert (∃ fb', fb_run [FbLock; FbWrite [OpLock] (Some (sample_frame 16)) 8 7; FbUnlock;
                         FbWrite [] (Some (sample_frame 16)) 8 8] sample_fb = Some fb')
    as [fb' Hrun] by (eexists; vm_compute; reflexivity).
  exists fb'. split; [exact Hrun|].
  destruct (X1_frame_buffer_invariant true unmapped 2 2 sample_fb _ fb' eq_refl Hrun)
    as (_ & _ & Hm & Hl & Hs).
  split; [exact Hm|]. split; [exact Hl|]. split; [exact Hs|].
  vm_compute in Hrun. injection Hrun as <-. reflexivity.
Defined.

Lemma fb_step_unmapped op fb :
  m_pMapView fb = None →
  ∃ fb', fb_step op fb = Some fb'
         ∧ m_pMapView fb' = None
         ∧ m_Width fb' = m_Width fb ∧ m_Height fb' = m_Height fb
         ∧ m_Stride fb' = m_Stride fb
         ∧ (m_IsLocked fb = false → fb' = fb).
Proof.
  intros Hv. destruct fb as [w h s v l]. simpl in Hv. subst v.
  destruct op as [| |reader pData srcStride frameNo]; simpl.
  - by eexists.
  - eexists. split; [reflexivity|]. repeat split; try done. by intros ->.
  - eexists. split; [reflexivity|]. done.
Qed.

(** X2.  A buffer without a view is inert and stays so.  On a buffer whose
    [m_pHeader] and [m_pPixels] are null -- never initialised, shut down,
    or refused its first mapping -- every sequence of [Lock], [Unlock] and
    [Write] calls runs to its end: no copy is attempted, so none can leave
    the source or the region; the buffer still has no view, its dimensions
    are untouched, a [Lock] on it fails, and if it was not flagged locked
    it is exactly as before.  An [Initialize] that is refused afterwards,
    for its size or by the operating system, leaves it without a view. *)
Theorem X2_unmapped_buffer_is_inert ops fb :
  m_pMapView fb = None →
  ∃ fb', fb_run ops fb = Some fb'
         ∧ m_pMapView fb' = None
         ∧ m_Width fb' = m_Width fb ∧ m_Height fb' = m_Height fb
         ∧ m_Stride fb' = m_Stride fb
         ∧ (m_IsLocked fb = false → fb' = fb)
         ∧ Lock fb' = (false, fb')
         ∧ ∀ map_ok w h,
             Initialize map_ok fb' w h = (false, snd (Initialize map_ok fb' w h)) →
             m_pMapView (snd (Initialize map_ok fb' w h)) = None.
Proof.
  revert fb. induction ops as [|op ops IH]; intros fb Hv.
  - exists fb. simpl. repeat split; try done.
    + unfold Lock. by rewrite Hv.
    + intros map_ok w h. unfold Initialize.
      destruct (_ || _); [done|]. by destruct map_ok.
  - destruct (fb_step_unmapped op fb Hv) as (fb1 & E1 & Hv1 & Hw1 & Hh1 & Hs1 & Hsame1).
    destruct (IH fb1 Hv1) as (fb' & E & Hv' & Hw' & Hh' & Hs' & Hsame' & Hlock & Hinit).
    exists fb'. simpl. rewrite E1.
    split; [done|]. split; [done|]. split; [congruence|]. split; [congruence|].
    split; [congruence|]. split; [|done].
    intros Hl. specialize (Hsame1 Hl). subst fb1. by apply Hsame'.
Qed.

Lemma X2_witness :
  ∃ fb', fb_run [FbLock; FbWrite [OpUnlock] (Some (sample_frame 16)) 8 7; FbUnlock]
                (Shutdown (snd (Lock sample_fb))) = Some fb'
         ∧ fb' = Shutdown (snd (Lock sample_fb))
         ∧ Lock fb' = (false, fb').
Proof.
  destruct (X2_unmapped_buffer_is_inert
              [FbLock; FbWrite [OpUnlock] (Some (sample_frame 16)) 8 7; FbUnlock]
              (Shutdown (snd (Lock sample_fb))) eq_refl)
    as (fb' & Hrun & _ & _ & _ & _ & Hsame & Hlock & _).
  exists fb'. split; [exact Hrun|]. split; [apply Hsame; reflexivity|exact Hlock].
Defined.

(** The reader's calls change neither the pixels nor the frame number. *)
Lemma readers_keep_region ops : ∀ fb,
  region_pixels (fold_left reader_step ops fb) = region_pixels fb
  ∧ region_frame (fold_left reader_step ops fb) = region_frame fb
  ∧ (is_Some (m_pMapView fb) → is_Some (m_pMapView (fold_left reader_step ops fb))).
Proof.
  induction ops as [|op ops IH]; intros fb; [done|].
  simpl. destruct (IH (reader_step fb op)) as (-> & -> & Hsome).
  destruct (reader_step_view op fb) as (_ & _ & _ & Hnone & Hview).
  unfold region_pixels, region_frame.
  destruct (m_pMapView fb) as [v|] eqn:Ev.
  - destruct (Hview v eq_refl) as (v' & Hv' & Hpx & _ & _ & _ & Hf & _).
    rewrite Hv'. simpl. rewrite Hpx, Hf. split; [done|]. split; [done|].
    intros _. apply Hsome. by rewrite Hv'.
  - rewrite (Hnone eq_refl). destruct op; simpl; rewrite ?Ev; split; try done.
    all: split; [done|]; by intros [? [=]].
Qed.

(** X3.  A write that finds the region locked waits; when the reader's
    calls during the wait leave the region unlocked, the write goes on
    exactly as a write on the unlocked region would, and the reader's calls
    have changed neither the pixels nor the frame number in between. *)
Theorem X3_write_after_unlock reader fb v src srcStride frameNo :
  m_pMapView fb = Some v →
  m_IsLocked fb = true →
  m_IsLocked (fold_left reader_step reader fb) = false →
  Write reader fb (Some src) srcStride frameNo
  = Write [] (fold_left reader_step reader fb) (Some src) srcStride frameNo
  ∧ region_pixels (fold_left reader_step reader fb) = Some (pixels v)
  ∧ region_frame (fold_left reader_step reader fb) = Some (frameNumber (header v)).
Proof.
  intros Hv Hl Hu.
  destruct (readers_keep_region reader fb) as (Hpx & Hf & Hsome).
  split; [|by rewrite Hpx, Hf; unfold region_pixels, region_frame; rewrite Hv].
  destruct Hsome as [v1 Hv1]; [by rewrite Hv|].
  unfold Write. rewrite Hv, Hv1, Hl, Hu. unfold wait_for. simpl. by rewrite Hu.
Qed.

Lemma X3_witness :
  Write [OpLock; OpUnlock] (snd (Lock sample_fb)) (Some (sample_frame 16)) 8 7
  = Write [] sample_fb (Some (sample_frame 16)) 8 7
  ∧ region_frame (default sample_fb
       (Write [OpLock; OpUnlock] (snd (Lock sample_fb)) (Some (sample_frame 16)) 8 7))
    = Some 7.
Proof.
  assert (∃ v, m_pMapView (snd (Lock sample_fb)) = Some v) as [v Hv]
    by (eexists; vm_compute; reflexivity).
  destruct (X3_write_after_unlock [OpLock; OpUnlock] (snd (Lock sample_fb)) v
              (sample_frame 16) 8 7 Hv eq_refl eq_refl) as (Heq & _ & _).
  split; [rewrite Heq; vm_compute; reflexivity|]. vm_compute. reflexivity.
Defined.

(** X4.  [Lock] succeeds exactly when the buffer is mapped; [Lock] and
    [Unlock] touch neither the pixels nor the frame number; on an unlocked
    buffer whose header mirrors the flag, [Lock] followed by [Unlock] gives
    the buffer back as it was; [Unlock] on an unlocked such buffer and a
    second [Lock] on a locked one change nothing. *)
Theorem X4_lock_unlock fb :
  lock_mirrored fb →
  fst (Lock fb) = bool_decide (is_Some (m_pMapView fb))
  ∧ region_pixels (snd (Lock fb)) = region_pixels fb
  ∧ region_frame (snd (Lock fb)) = region_frame fb
  ∧ region_pixels (Unlock fb) = region_pixels fb
  ∧ region_frame (Unlock fb) = region_frame fb
  ∧ (m_IsLocked fb = false → Unlock (snd (Lock fb)) = fb ∧ Unlock fb = fb)
  ∧ snd (Lock (snd (Lock fb))) = snd (Lock fb).
Proof.
  intros Hm. unfold lock_mirrored in Hm.
  destruct fb as [w h s [[[hw hh hs hf hl] px]|] l];
    cbv [Lock Unlock region_pixels region_frame set_locked set_view set_header
         option_map fmap option_fmap option_map m_pMapView m_Width m_Height m_Stride
         m_IsLocked header pixels width height stride frameNumber locked fst snd] in *.
  - specialize (Hm _ eq_refl). simpl in Hm.
    split; [done|]. split; [done|]. split; [done|]. split; [done|]. split; [done|].
    split; [|done].
    intros ->. subst hl. done.
  - split; [done|]. split; [done|]. split; [done|]. split; [done|]. split; [done|].
    split; [|done]. by intros ->.
Qed.

Lemma X4_witness :
  Unlock (snd (Lock sample_fb)) = sample_fb ∧ fst (Lock sample_fb) = true.
Proof.
  destruct (X4_lock_unlock sample_fb) as (Hok & _ & _ & _ & _ & Hround & _).
  - intros v Hv. vm_compute in Hv. injection Hv as <-. reflexivity.
  - split; [apply Hround; reflexivity|]. rewrite Hok. reflexivity.
Defined.

End FrameBufferLife.

(** ** The layer table over its life *)

Section LayerTableLife.
Import SharedTypes Engine Spec.

Lemma table_ok_step st op : table_ok st → table_ok (layer_step st op).
Proof.
  intros [Hlen Hcount]. destruct op; simpl.
  - unfold Daro_SetLayerCount, table_ok, DARO_MAX_LAYERS. simpl.
    split; [done|]. destruct (count <? 0) eqn:E; lia.
  - unfold Daro_UpdateLayer. destruct layer as [l|]; [|done].
    destruct (_ || _); [done|]. unfold table_ok. simpl.
    by rewrite length_insert.
  - split; [reflexivity|]. simpl. lia.
Qed.

Lemma table_ok_run ops : ∀ st, table_ok st → table_ok (layer_run ops st).
Proof.
  induction ops as [|op ops IH]; intros st H; [done|].
  simpl. apply IH. by apply table_ok_step.
Qed.

(** X5.  Whatever is called on the layer table -- any count, including
    negative and huge ones, updates at any index, clears -- the table keeps
    its 64 slots and the count stays within 0..64; so the snapshot
    [Daro_Render] takes holds exactly [g_LayerCount] layers, and
    [Daro_GetLayer] with an index in 0..63 always overwrites the caller's
    buffer with the slot's record. *)
Theorem X5_layer_table_bounds ops st :
  table_ok st →
  let st' := layer_run ops st in
  table_ok st'
  ∧ length (snapshot st') = Z.to_nat (g_LayerCount st')
  ∧ ∀ index old, 0 <= index < 64 →
      ∃ l, g_Layers st' !! Z.to_nat index = Some l
           ∧ Daro_GetLayer st' index (Some old) = Some l.
Proof.
  intros Hok st'. pose proof (table_ok_run ops st Hok) as [Hlen Hcount].
  fold st' in Hlen, Hcount.
  split; [done|]. split.
  - unfold snapshot. rewrite length_take. lia.
  - intros index old Hi.
    destruct (lookup_lt_is_Some_2 (g_Layers st') (Z.to_nat index)) as [l Hl]; [lia|].
    exists l. split; [done|]. unfold Daro_GetLayer, DARO_MAX_LAYERS.
    destruct (index <? 0) eqn:E1; [lia|]. destruct (64 <=? index) eqn:E2; [lia|].
    simpl. by rewrite Hl.
Qed.

Lemma X5_witness :
  let st := layer_run [LSetCount 200; LUpdate 70 (Some (sample_layer 1 0));
                       LUpdate 3 (Some (sample_layer 1 0)); LSetCount (-5)]
                      Engine.initial in
  g_LayerCount st = 0 ∧ length (g_Layers st) = 64%nat
  ∧ Daro_GetLayer st 3 (Some zero_layer) = Some (sample_layer 1 0).
Proof.
  destruct (X5_layer_table_bounds
              [LSetCount 200; LUpdate 70 (Some (sample_layer 1 0));
               LUpdate 3 (Some (sample_layer 1 0)); LSetCount (-5)]
              Engine.initial) as ((Hlen & _) & _ & _).
  - split; [reflexivity|]. simpl. lia.
  - intros st. split; [reflexivity|]. split; [exact Hlen|]. reflexivity.
Defined.

(** X6.  The slots are independent.  A record written at an index in
    0..63 is the one read back there; an update at one index changes no
    other slot and not the count; an update with a null record or an index
    outside 0..63 changes nothing; changing the count changes no slot, so
    lowering and raising it again brings the same layers back; a clear
    zeroes every slot and the count. *)
Theorem X6_layer_slots_independent st :
  table_ok st →
  (∀ i l old, 0 <= i < 64 →
     Daro_GetLayer (Daro_UpdateLayer st i (Some l)) i (Some old) = Some l)
  ∧ (∀ i l j out, i ≠ j →
     Daro_GetLayer (Daro_UpdateLayer st i (Some l)) j out = Daro_GetLayer st j out)
  ∧ (∀ i l, g_LayerCount (Daro_UpdateLayer st i l) = g_LayerCount st)
  ∧ (∀ i l, i < 0 ∨ 64 <= i ∨ l = None → Daro_UpdateLayer st i l = st)
  ∧ (∀ count, g_Layers (Daro_SetLayerCount st count) = g_Layers st)
  ∧ (∀ count j out, Daro_GetLayer (Daro_SetLayerCount st count) j out
                    = Daro_GetLayer st j out)
  ∧ g_LayerCount (Daro_ClearLayers st) = 0
  ∧ (∀ j old, 0 <= j < 64 →
       Daro_GetLayer (Daro_ClearLayers st) j (Some old) = Some zero_layer).
Proof.
  intros [Hlen Hcount].
  split; [|split; [|split; [|split; [|split; [|split; [|split]]]]]].
  - intros i l old Hi. unfold Daro_GetLayer, Daro_UpdateLayer, DARO_MAX_LAYERS.
    destruct (i <? 0) eqn:E1; [lia|]. destruct (64 <=? i) eqn:E2; [lia|].
    cbn [g_Layers with_layers orb].
    rewrite list_lookup_insert_eq; [done|lia].
  - intros i l j out Hij. unfold Daro_GetLayer, Daro_UpdateLayer, DARO_MAX_LAYERS.
    destruct out as [old|]; [|done].
    destruct ((j <? 0) || (64 <=? j)) eqn:Ej; [done|].
    destruct ((i <? 0) || (64 <=? i)) eqn:Ei; [done|].
    simpl. rewrite list_lookup_insert_ne; [done|]. lia.
  - intros i l. unfold Daro_UpdateLayer. destruct l; [|done]. by destruct (_ || _).
  - intros i l H. unfold Daro_UpdateLayer, DARO_MAX_LAYERS. destruct l as [l|]; [|done].
    destruct H as [H|[H|H]]; [| |done].
    + destruct (i <? 0) eqn:E; [done|lia].
    + destruct (64 <=? i) eqn:E; [by rewrite orb_true_r|lia].
  - done.
  - done.
  - done.
  - intros j old Hj. unfold Daro_GetLayer, Daro_ClearLayers, DARO_MAX_LAYERS.
    destruct (j <? 0) eqn:E1; [lia|]. destruct (64 <=? j) eqn:E2; [lia|].
    cbn [g_Layers with_layers orb].
    rewrite lookup_replicate_2; [done|lia].
Qed.

Lemma X6_witness :
  Daro_GetLayer (Daro_UpdateLayer Engine.initial 3 (Some (sample_layer 8 1))) 4
                (Some (sample_layer 9 2))
  = Some zero_layer.
Proof.
  destruct (X6_layer_slots_independent Engine.initial) as (_ & Hother & _).
  - split; [reflexivity|]. simpl. lia.
  - rewrite Hother by lia. reflexivity.
Defined.

End LayerTableLife.

(** ** One pass over the layers *)

Section RenderPass.
Import SharedTypes Renderer Spec.

Lemma issued_app p a b :
  issued p (a ++ b) = issued p a ++ issued (pipeline_run a p) b.
Proof.
  revert p. induction a as [|c a IH]; intros p; [done|].
  simpl. by rewrite IH.
Qed.

Lemma pipeline_run_app a b p :
  pipeline_run (a ++ b) p = pipeline_run b (pipeline_run a p).
Proof. unfold pipeline_run. by rewrite fold_left_app. Qed.

Lemma chunk_ok_nil : chunk_ok [].
Proof. split; [done|constructor]. Qed.

Lemma chunk_ok_app a b : chunk_ok a → chunk_ok b → chunk_ok (a ++ b).
Proof.
  intros [Ha1 Ha2] [Hb1 Hb2]. split.
  - by rewrite pipeline_run_app, Ha1.
  - rewrite issued_app, Ha1. by apply Forall_app.
Qed.

Lemma chunk_ok_visible c :
  match c with CmdQuad _ _ | CmdFillEllipse _ _ _ _ _ _ | CmdText _ _ | CmdBounds _ => True
          | _ => False end →
  chunk_ok [c].
Proof.
  intros H. destruct c; try done; (split; [done|]);
    repeat constructor; try (left; split; [done|done]); done.
Qed.

Lemma RenderCircle_chunk r layer : chunk_ok (RenderCircle r layer).2.
Proof.
  unfold RenderCircle. destruct (negb _); [apply chunk_ok_nil|].
  destruct (m_CachedShapeBrush r).
  - destruct (color_differs _ _); by apply chunk_ok_visible.
  - destruct (brush_create_ok r); [by apply chunk_ok_visible|apply chunk_ok_nil].
Qed.

(** [RenderText] issues one text draw or nothing. *)
Lemma RenderText_cmds r layer mask :
  (RenderText r layer mask).2 = []
  ∨ ∃ m, (RenderText r layer mask).2 = [CmdText layer m].
Proof.
  unfold RenderText.
  destruct (_ || _); [by left|].
  destruct (_ =? _); [by left|].
  match goal with
  | |- context [match ?x with Some _ => _ | None => _ end] =>
      destruct x as [r1|]; [|by left]
  end.
  match goal with
  | |- context [match ?x with Some _ => _ | None => _ end] =>
      destruct x as [r2|]; [|by left]
  end.
  right. by eexists.
Qed.

Lemma RenderText_chunk r layer mask : chunk_ok (RenderText r layer mask).2.
Proof.
  destruct (RenderText_cmds r layer mask) as [->|[m ->]];
    [apply chunk_ok_nil|by apply chunk_ok_visible].
Qed.

Lemma RenderBoundingBox_chunk r layer : chunk_ok (bounds_if_shown r layer).2.
Proof.
  unfold bounds_if_shown, RenderBoundingBox. destruct (m_ShowBounds r); [|apply chunk_ok_nil].
  destruct (_ || _); [apply chunk_ok_nil|].
  destruct (negb _); [apply chunk_ok_nil|by apply chunk_ok_visible].
Qed.

Lemma RenderLayer_chunk r layer : chunk_ok (RenderLayer r layer).2.
Proof.
  unfold RenderLayer. destruct (active layer =? 0); [apply chunk_ok_nil|].
  destruct (layerType layer =? DARO_TYPE_TEXT); [apply RenderText_chunk|].
  destruct (layerType layer =? DARO_TYPE_CIRCLE); [apply RenderCircle_chunk|].
  destruct (_ || _); [apply chunk_ok_nil|]. by apply chunk_ok_visible.
Qed.

(** Under a stencil test a layer's own draws are as visible as without. *)
Lemma RenderLayer_tested r layer s :
  s ≠ DSState_WriteMask →
  let p := {| stencil := s; color_write := true |} in
  pipeline_run (RenderLayer r layer).2 p = p
  ∧ Forall draw_ok (issued p (RenderLayer r layer).2).
Proof.
  intros Hs p. unfold RenderLayer.
  destruct (active layer =? 0); [by split; [|constructor]|].
  destruct (layerType layer =? DARO_TYPE_TEXT).
  { destruct (RenderText_cmds r layer None) as [->|[m ->]];
      [by split; [|constructor]|].
    split; [done|]. by repeat constructor. }
  destruct (layerType layer =? DARO_TYPE_CIRCLE).
  { unfold RenderCircle. destruct (negb _); [by split; [|constructor]|].
    destruct (m_CachedShapeBrush r).
    - destruct (color_differs _ _); (split; [done|]); by repeat constructor.
    - destruct (brush_create_ok r); [|by split; [|constructor]].
      split; [done|]. by repeat constructor. }
  destruct (_ || _); [by split; [|constructor]|].
  split; [done|]. constructor; [|constructor]. left. by split.
Qed.

Lemma render_masked_chunk r layer mask : chunk_ok (render_masked r layer mask).2.
Proof.
  unfold render_masked.
  destruct (layerType layer =? DARO_TYPE_TEXT); [apply RenderText_chunk|].
  destruct (RenderLayer_tested r layer
              (if maskMode mask =? 0 then DSState_TestInner else DSState_TestOuter))
    as [Hrun Hall]; [by destruct (_ =? _)|].
  destruct (RenderLayer r layer) as [r1 cmds]. simpl in *.
  split.
  - unfold pipeline_run in *. cbn [fold_left pipeline_step color_write stencil].
    rewrite fold_left_app.
    unfold pipeline_idle. cbn [color_write stencil]. rewrite Hrun. done.
  - constructor; [done|]. constructor; [done|]. constructor; [done|].
    constructor.
    { right. by split. }
    constructor; [done|]. constructor; [done|].
    cbn [pipeline_step color_write stencil pipeline_idle].
    rewrite issued_app. apply Forall_app. split; [exact Hall|].
    by repeat constructor.
Qed.

Lemma render_one_chunk layers layerCount idx r layer :
  chunk_ok (render_one layers layerCount idx r layer).2.
Proof.
  unfold render_one. destruct (route _ _ _); try apply chunk_ok_nil.
  - pose proof (RenderBoundingBox_chunk r layer) as Hb.
    destruct (bounds_if_shown r layer) as [r1 b]. simpl in *.
    apply (chunk_ok_app [_]); [by apply chunk_ok_visible|done].
  - destruct (layers !! _) as [mask|]; [|apply chunk_ok_nil].
    pose proof (render_masked_chunk r layer mask) as Hc.
    destruct (render_masked r layer mask) as [r1 c].
    pose proof (RenderBoundingBox_chunk r1 layer) as Hb.
    destruct (bounds_if_shown r1 layer) as [r2 b]. simpl in *.
    by apply chunk_ok_app.
  - pose proof (RenderLayer_chunk r layer) as Hc.
    destruct (RenderLayer r layer) as [r1 c].
    pose proof (RenderBoundingBox_chunk r1 layer) as Hb.
    destruct (bounds_if_shown r1 layer) as [r2 b]. simpl in *.
    by apply chunk_ok_app.
Qed.

Lemma render_loop_chunks layers layerCount idx todo :
  ∀ r c0,
    ∃ c, (fold_left
            (fun acc layer =>
               let '(r1, c) := render_one layers layerCount idx (fst acc) layer in
               (r1, snd acc ++ c))
            todo (r, c0)).2 = c0 ++ c
         ∧ chunk_ok c.
Proof.
  induction todo as [|layer todo IH]; intros r c0.
  - exists []. simpl. rewrite app_nil_r. split; [done|apply chunk_ok_nil].
  - simpl. pose proof (render_one_chunk layers layerCount idx r layer) as Hc.
    destruct (render_one layers layerCount idx r layer) as [r1 c1]. simpl in Hc.
    destruct (IH r1 (c0 ++ c1)) as (c & -> & Hok).
    exists (c1 ++ c). rewrite app_assoc. split; [done|]. by apply chunk_ok_app.
Qed.

(** X7.  The depth-stencil and blend states are bracketed.  Whatever the
    layers, the mask index and the renderer, and whatever stencil state the
    pass starts in (with colour writes on), every quad is drawn either with
    colour writes on and a stencil state that does not write the stencil,
    or with the stencil-writing state and colour writes off; ellipses, text
    and outlines are always drawn with colour writes on and a state that
    does not write the stencil; and the pass ends with the stencil disabled
    and colour writes on. *)
Theorem X7_pipeline_state_bracketed r layers layerCount idx s0 :
  let p0 := {| stencil := s0; color_write := true |} in
  let cmds := (RenderWithMasks r layers layerCount idx).2 in
  Forall draw_ok (issued p0 cmds)
  ∧ pipeline_run cmds p0 = pipeline_idle.
Proof.
  intros p0 cmds. subst cmds. unfold RenderWithMasks.
  destruct (render_loop_chunks layers layerCount idx
              (take (Z.to_nat layerCount) layers) r [CmdSetStencil DSState_Disabled 0])
    as (c & -> & Hrun & Hall).
  split.
  - constructor; [done|]. exact Hall.
  - exact Hrun.
Qed.

Lemma render_one_no_d2d layers layerCount idx r layer :
  m_D2DRenderTarget r = false →
  (render_one layers layerCount idx r layer).1 = r
  ∧ Forall (λ c, is_d3d c = true) (render_one layers layerCount idx r layer).2.
Proof.
  intros Hr.
  assert (Hbounds : bounds_if_shown r layer = (r, [])).
  { unfold bounds_if_shown, RenderBoundingBox. rewrite Hr. by destruct (m_ShowBounds r). }
  assert (Htext : ∀ m, RenderText r layer m = (r, [])).
  { intros m. unfold RenderText. by rewrite Hr. }
  assert (Hlayer : (RenderLayer r layer).1 = r
                   ∧ Forall (λ c, is_d3d c = true) (RenderLayer r layer).2).
  { unfold RenderLayer. destruct (active layer =? 0); [done|].
    destruct (layerType layer =? DARO_TYPE_TEXT); [by rewrite Htext|].
    destruct (layerType layer =? DARO_TYPE_CIRCLE).
    { unfold RenderCircle. by rewrite Hr. }
    destruct (_ || _); [done|]. split; [done|]. by repeat constructor. }
  unfold render_one. destruct (route _ _ _); try done.
  - rewrite Hbounds. split; [done|]. by repeat constructor.
  - destruct (layers !! _) as [mask|]; [|done].
    unfold render_masked.
    destruct (layerType layer =? DARO_TYPE_TEXT).
    + rewrite Htext, Hbounds. done.
    + destruct (RenderLayer r layer) as [r1 c]. simpl in Hlayer.
      destruct Hlayer as [-> Hc]. rewrite Hbounds. split; [done|].
      rewrite app_nil_r. simpl. repeat (constructor; [done|]).
      apply Forall_app. split; [done|]. by repeat constructor.
  - destruct (RenderLayer r layer) as [r1 c]. simpl in Hlayer.
    destruct Hlayer as [-> Hc]. rewrite Hbounds. split; [done|].
    by rewrite app_nil_r.
Qed.

Lemma render_loop_no_d2d layers layerCount idx todo :
  ∀ r c0,
    m_D2DRenderTarget r = false → Forall (λ c, is_d3d c = true) c0 →
    let out := fold_left
                 (fun acc layer =>
                    let '(r1, c) := render_one layers layerCount idx (fst acc) layer in
                    (r1, snd acc ++ c))
                 todo (r, c0) in
    out.1 = r ∧ Forall (λ c, is_d3d c = true) out.2.
Proof.
  induction todo as [|layer todo IH]; intros r c0 Hr Hc0; [done|].
  simpl. destruct (render_one_no_d2d layers layerCount idx r layer Hr) as [H1 H2].
  destruct (render_one layers layerCount idx r layer) as [r1 c1]. simpl in *. subst r1.
  apply IH; [done|]. by apply Forall_app.
Qed.

(** X8.  Without a Direct2D target -- never created, or lost when an
    [EndDraw] asked for a rebuild that failed -- a pass draws quads and
    stencil work only: no ellipse, no text and no outline is issued, and the
    renderer is left exactly as it was (no brush is made, no [EndDraw]
    answer consumed). *)
Theorem X8_pass_without_direct2d r layers layerCount idx :
  m_D2DRenderTarget r = false →
  (RenderWithMasks r layers layerCount idx).1 = r
  ∧ Forall (λ c, is_d3d c = true) (RenderWithMasks r layers layerCount idx).2.
Proof.
  intros Hr. unfold RenderWithMasks.
  apply render_loop_no_d2d; [done|]. by repeat constructor.
Qed.

Lemma X8_witness :
  let r := RecreateD2DTarget false (Lifecycle.fresh_renderer true true true true true []) in
  let layers := [sample_layer 1 DARO_TYPE_CIRCLE; sample_layer 2 DARO_TYPE_TEXT;
                 sample_layer 3 DARO_TYPE_RECTANGLE] in
  (RenderWithMasks r layers 3 ∅).1 = r
  ∧ Forall (λ c, is_d3d c = true) (RenderWithMasks r layers 3 ∅).2.
Proof.
  intros r layers. apply (X8_pass_without_direct2d r layers 3 ∅). reflexivity.
Defined.

Lemma render_loop_inactive layers layerCount idx todo :
  ∀ r c0,
    Forall (λ l, active l = 0) todo →
    fold_left
      (fun acc layer =>
         let '(r1, c) := render_one layers layerCount idx (fst acc) layer in
         (r1, snd acc ++ c))
      todo (r, c0) = (r, c0).
Proof.
  induction todo as [|layer todo IH]; intros r c0 Hall; [done|].
  inversion Hall as [|? ? Hl Hrest]; subst. simpl.
  unfold render_one, route. rewrite Hl. simpl. rewrite app_nil_r. by apply IH.
Qed.

End RenderPass.

(** ** A frame *)

Section Frame.
Import SharedTypes Renderer Engine Spec.

(** X9.  A frame shows the first [g_LayerCount] slots and nothing else:
    writing any slot at or beyond the count leaves the commands of
    [Daro_Render], the renderer and the published buffer exactly as they
    were -- the only trace is the slot itself. *)
Theorem X9_slots_beyond_count_invisible reader staging st i l :
  g_LayerCount st <= i →
  Daro_Render reader staging (Daro_UpdateLayer st i l)
  = option_map (λ out, (Daro_UpdateLayer out.1 i l, out.2))
               (Daro_Render reader staging st).
Proof.
  intros Hi. unfold Daro_UpdateLayer. destruct l as [l|]; [|by destruct (Daro_Render _ _ _) as [[]|]].
  destruct ((i <? 0) || (DARO_MAX_LAYERS <=? i)) eqn:Ei;
    [by destruct (Daro_Render _ _ _) as [[]|]|].
  destruct st as [rr fbo init layers count fps ft dropped frameNo target freq lastT idx].
  unfold Daro_Render, with_layers. simpl in *.
  destruct init; simpl; [|done].
  destruct rr as [r|]; [|done].
  rewrite take_insert_ge by lia.
  destruct (RenderWithMasks r _ _ _) as [r' drawn].
  destruct staging as [[pData rowPitch]|]; [destruct fbo as [fb|]|];
    simpl; try done.
  by destruct (FrameBuffer.Write _ _ _ _ _).
Qed.

Lemma X9_witness :
  let st := Daro_SetLayerCount
              (Daro_UpdateLayer
                 (Lifecycle.engine
                    (Lifecycle.Daro_Initialize (sample_init (all_steps true) true)
                                               2 2 (F64.of_Z 50) Lifecycle.initial).2)
                 0 (Some (sample_layer 1 DARO_TYPE_RECTANGLE))) 1 in
  Daro_Render [] None (Daro_UpdateLayer st 1 (Some (sample_layer 2 DARO_TYPE_CIRCLE)))
  = option_map (λ out, (Daro_UpdateLayer out.1 1
                          (Some (sample_layer 2 DARO_TYPE_CIRCLE)), out.2))
               (Daro_Render [] None st).
Proof.
  intros st. apply (X9_slots_beyond_count_invisible [] None st 1). simpl. lia.
Defined.

(** X10.  An engine that is not initialised, or has no renderer, renders
    nothing and changes nothing.  A running engine whose snapshot holds no
    active layer -- in particular one with a layer count of zero -- clears the
    target to transparent black, resets the stencil, and draws nothing; and
    no pass ever changes the layer table, the count or the frame number. *)
Theorem X10_empty_frames reader staging st :
  (g_Initialized st = false ∨ g_Renderer st = None →
     Daro_Render reader staging st = Some (st, []))
  ∧ (∀ r st' cmds,
       g_Initialized st = true → g_Renderer st = Some r →
       Forall (λ l, active l = 0) (snapshot st) →
       Daro_Render reader staging st = Some (st', cmds) →
       cmds = [CmdClearTarget (mkColor F32.zero F32.zero F32.zero F32.zero);
               CmdClearStencil; CmdSetStencil DSState_Disabled 0]
       ∧ g_Renderer st' = Some r)
  ∧ (∀ st' cmds,
       Daro_Render reader staging st = Some (st', cmds) →
       g_Layers st' = g_Layers st ∧ g_LayerCount st' = g_LayerCount st
       ∧ g_FrameNumber st' = g_FrameNumber st
       ∧ g_Initialized st' = g_Initialized st
       ∧ (is_Some (g_Renderer st') ↔ is_Some (g_Renderer st))).
Proof.
  split; [|split].
  - intros [H|H]; unfold Daro_Render; [by rewrite H|].
    rewrite H. by destruct (negb _).
  - intros r st' cmds Hinit Hr Hall. unfold Daro_Render. rewrite Hinit, Hr. simpl.
    unfold RenderWithMasks. rewrite take_take, Nat.min_id.
    unfold snapshot in Hall. rewrite (render_loop_inactive _ _ _ _ _ _ Hall).
    destruct staging as [[pData rowPitch]|]; [destruct (g_FrameBuffer st) as [fb|]|].
    + destruct (FrameBuffer.Write _ _ _ _ _); simpl; [|done]. by intros [= <- <-].
    + simpl. by intros [= <- <-].
    + simpl. by intros [= <- <-].
  - intros st' cmds. unfold Daro_Render.
    destruct (negb (g_Initialized st)); [by intros [= <- <-]|].
    destruct (g_Renderer st) as [r|] eqn:Hr; [|intros [= <- <-]; by rewrite Hr].
    destruct (RenderWithMasks r _ _ _) as [r' drawn].
    destruct staging as [[pData rowPitch]|]; [destruct (g_FrameBuffer st) as [fb|]|].
    + destruct (FrameBuffer.Write _ _ _ _ _); simpl; [|done].
      intros [= <- <-]. simpl. repeat split; by eexists.
    + simpl. intros [= <- <-]. simpl. repeat split; by eexists.
    + simpl. intros [= <- <-]. simpl. repeat split; by eexists.
Qed.

End Frame.

(** ** The timeline *)

Section TimelineLife.
Import Timeline Spec.

Lemma clock_step_inv c op :
  g_TotalFrames c = 250 ∧ 0 <= g_CurrentFrame c <= 249 →
  g_TotalFrames (clock_step c op) = 250 ∧ 0 <= g_CurrentFrame (clock_step c op) <= 249.
Proof.
  intros [Ht Hc]. destruct op; simpl; try done.
  - unfold Daro_SeekToFrame. destruct (negb initialized); [done|].
    rewrite Ht. simpl. lia.
  - unfold Daro_SeekToTime, Daro_SeekToFrame. destruct (negb initialized); [done|].
    rewrite Ht. simpl. lia.
Qed.

(** X11.  The timeline position never leaves the timeline.  After any
    sequence of play, stop and seeks -- by frame or by time, with any
    argument, a negative, huge, infinite or not-a-number time included --
    the total stays 250 frames and the current frame lies in 0..249; a seek
    on an engine that is not initialised moves nothing, and play and stop
    never move the position. *)
Theorem X11_timeline_position_in_range ops :
  let c := clock_run ops Timeline.initial in
  g_TotalFrames c = 250
  ∧ 0 <= Daro_GetCurrentFrame c <= 249
  ∧ (∀ frame, Daro_GetCurrentFrame (Daro_SeekToFrame true frame c)
              = Z.max 0 (Z.min frame 249))
  ∧ (∀ frame, Daro_SeekToFrame false frame c = c)
  ∧ (∀ fps time, Daro_SeekToTime false fps time c = c)
  ∧ Daro_GetCurrentFrame (Daro_Play c) = Daro_GetCurrentFrame c
  ∧ Daro_GetCurrentFrame (Daro_Stop c) = Daro_GetCurrentFrame c.
Proof.
  intros c.
  assert (Hinv : g_TotalFrames c = 250 ∧ 0 <= g_CurrentFrame c <= 249).
  { subst c. unfold clock_run. rewrite <- fold_left_rev_right.
    induction (rev ops) as [|op l IH]; simpl; [by split; [|lia]|].
    by apply clock_step_inv. }
  destruct Hinv as [Ht Hc].
  split; [done|]. split; [done|]. split; [|done].
  intros frame. unfold Daro_SeekToFrame, Daro_GetCurrentFrame. rewrite Ht. done.
Qed.

End TimelineLife.

(** ** Start-up and shut-down *)

Section EngineLife.
Import Lifecycle Spec.

Lemma Renderer_Initialize_codes steps :
  0 <= Renderer_Initialize steps <= 6 ∧ Renderer_Initialize steps ≠ 1.
Proof.
  unfold Renderer_Initialize.
  repeat match goal with |- context [negb ?b] => destruct b; simpl end;
    cbv; split; try split; congruence.
Qed.

Lemma fb_Initialize_inv map_ok w h fb :
  FrameBuffer.Initialize map_ok FrameBuffer.unmapped w h = (true, fb) →
  0 < w <= 16384 ∧ 0 < h <= 16384 ∧ fb_inv w h fb.
Proof.
  intros H. apply Initialize_ok in H as (Hw & Hh & Hinv & _). done.
Qed.

Ltac crush_life :=
  repeat match goal with
         | |- _ ∧ _ => split
         | |- _ ↔ _ => split
         | |- _ → _ => intros ?
         end;
  try done; try congruence; try lia;
  repeat match goal with
         | |- _ ∧ _ => split
         | |- ∃ _, _ => eexists
         | |- is_Some _ => eexists
         end;
  try done.

Lemma Daro_Initialize_session_ok env width height targetFps s :
  session_ok s → session_ok (Daro_Initialize env width height targetFps s).2.
Proof.
  unfold session_ok, Daro_Initialize.
  destruct (Engine.g_Initialized (engine s)) eqn:Hinit; simpl.
  { by rewrite Hinit. }
  intros (Hr & Hfb & Hv & Hvi).
  destruct (com env); simpl;
    try (destruct (Renderer_Initialize (steps env) =? DARO_OK) eqn:Hrr; simpl;
         [destruct (FrameBuffer.Initialize (map_ok env) FrameBuffer.unmapped width height)
            as [[|] fb] eqn:Hi; simpl;
          [apply fb_Initialize_inv in Hi as (Hw & Hh & Hi)|]|]);
    rewrite ?Hinit; crush_life.
Qed.

Lemma life_step_session_ok s op : session_ok s → session_ok (life_step s op).
Proof.
  intros Hok. destruct op; simpl.
  - by apply Daro_Initialize_session_ok.
  - unfold Daro_Shutdown. destruct (negb _) eqn:E; [done|]. unfold session_ok. simpl. done.
  - unfold Daro_LoadVideo. destruct (ready s) eqn:Hready; [|done]. simpl.
    destruct (VideoManager.Renderer_LoadVideo _ _ _ _ _ _ _ _) as [videoId m].
    simpl. unfold ready in Hready. unfold session_ok in *. simpl.
    by destruct (Engine.g_Initialized (engine s)).
  - unfold Daro_UnloadVideo. destruct (ready s) eqn:Hready; [|done].
    unfold ready in Hready. unfold session_ok in *. simpl.
    by destruct (Engine.g_Initialized (engine s)).
  - unfold Daro_LockFrameBuffer.
    destruct (Engine.g_FrameBuffer (engine s)) as [fb|] eqn:Hfb; [|done].
    destruct (Engine.g_Initialized (engine s)) eqn:Hinit; simpl; [|done].
    destruct (negb outs); simpl; [done|].
    destruct (FrameBuffer.Lock fb) as [ok fb'] eqn:El. simpl.
    unfold session_ok in *. simpl. rewrite Hinit in Hok. rewrite Hfb in Hok.
    destruct Hok as (Hr & fb0 & w & h & [= <-] & Hinv).
    split; [done|]. exists fb', w, h. split; [done|].
    apply (fb_inv_run w h [FbLock] fb); [done|]. simpl. by rewrite El.
  - unfold Daro_UnlockFrameBuffer.
    destruct (Engine.g_FrameBuffer (engine s)) as [fb|] eqn:Hfb; [|done].
    unfold session_ok in *. simpl. rewrite Hfb in Hok.
    destruct (Engine.g_Initialized (engine s)) eqn:Hinit; [|by destruct Hok as (_ & ? & _)].
    destruct Hok as (Hr & fb0 & w & h & [= <-] & Hinv).
    split; [done|]. exists (FrameBuffer.Unlock fb), w, h. split; [done|].
    by apply (fb_inv_run w h [FbUnlock] fb).
Qed.

Lemma life_run_session_ok ops : ∀ s, session_ok s → session_ok (life_run ops s).
Proof.
  induction ops as [|op ops IH]; intros s H; [done|].
  simpl. apply IH. by apply life_step_session_ok.
Qed.

Lemma initial_session_ok : session_ok Lifecycle.initial.
Proof. unfold session_ok. simpl. done. Qed.

(** X12.  What [Daro_Initialize] returns is what [Daro_GetLastError] then
    reports, a code in 0..7.  On an initialised engine it returns
    [DARO_ERROR_ALREADY_INIT] and touches neither the engine nor the
    videos.  Otherwise it returns [DARO_OK] exactly when the engine is
    initialised afterwards; success means a renderer, a frame buffer mapped
    for the requested size -- which lies within 1..16384 each way -- an
    all-zero layer table and a count of zero, whatever layers were set
    before; failure leaves the engine without a renderer and the layer table
    as it was. *)
Theorem X12_initialize_contract env width height targetFps s :
  session_ok s →
  let code := (Daro_Initialize env width height targetFps s).1 in
  let s' := (Daro_Initialize env width height targetFps s).2 in
  Daro_GetLastError s' = code
  ∧ 0 <= code <= 7
  ∧ session_ok s'
  ∧ (Daro_IsInitialized s = true →
       code = DARO_ERROR_ALREADY_INIT ∧ engine s' = engine s ∧ videos s' = videos s)
  ∧ (Daro_IsInitialized s = false →
       code ≠ DARO_ERROR_ALREADY_INIT
       ∧ (code = DARO_OK ↔ Daro_IsInitialized s' = true)
       ∧ (code = DARO_OK →
            is_Some (Engine.g_Renderer (engine s'))
            ∧ (∃ fb, Engine.g_FrameBuffer (engine s') = Some fb ∧ fb_inv width height fb)
            ∧ 0 < width <= 16384 ∧ 0 < height <= 16384
            ∧ Engine.g_Layers (engine s') = replicate 64 SharedTypes.zero_layer
            ∧ Engine.g_LayerCount (engine s') = 0
            ∧ Engine.g_TargetFps (engine s') = targetFps)
       ∧ (code ≠ DARO_OK →
            Engine.g_Renderer (engine s') = None
            ∧ Engine.g_FrameBuffer (engine s') = None
            ∧ Engine.g_Layers (engine s') = Engine.g_Layers (engine s)
            ∧ Engine.g_LayerCount (engine s') = Engine.g_LayerCount (engine s))).
Proof.
  intros Hok code s'.
  split; [|split; [|split; [by apply Daro_Initialize_session_ok|]]];
    subst code s'; revert Hok;
    unfold session_ok, Daro_Initialize, Daro_IsInitialized, Daro_GetLastError;
    (destruct (Engine.g_Initialized (engine s)) eqn:Hinit;
     [simpl; intros _; unfold DARO_ERROR_ALREADY_INIT; crush_life|]);
    intros (Hr & Hfb & Hv & Hvi);
    pose proof (Renderer_Initialize_codes (steps env)) as [Hcodes Hnot1];
    unfold DARO_ERROR_ALREADY_INIT, DARO_ERROR_CREATE_FRAMEBUFFER, DARO_OK,
      DARO_ERROR_CREATE_DEVICE;
    (destruct (com env); simpl;
     try (destruct (Renderer_Initialize (steps env) =? 0) eqn:Hrr; simpl;
          [destruct (FrameBuffer.Initialize (map_ok env) FrameBuffer.unmapped width height)
             as [[|] fb] eqn:Hi; simpl;
           [apply fb_Initialize_inv in Hi as (Hw & Hh & Hi)|]
          |apply Z.eqb_neq in Hrr]));
    crush_life.
Qed.

Lemma X12_witness :
  let out := Daro_Initialize (sample_init (all_steps true) true) 1920 1080
                             (F64.of_Z 50) Lifecycle.initial in
  Daro_GetLastError out.2 = out.1 ∧ out.1 = DARO_OK ∧ Daro_IsInitialized out.2 = true.
Proof.
  intros out.
  destruct (X12_initialize_contract (sample_init (all_steps true) true) 1920 1080
              (F64.of_Z 50) Lifecycle.initial) as (Herr & _ & _ & _ & Hfresh).
  - unfold session_ok. simpl. done.
  - destruct (Hfresh eq_refl) as (_ & Hiff & _).
    assert (Hcode : out.1 = DARO_OK) by reflexivity.
    split; [exact Herr|]. split; [exact Hcode|]. apply Hiff. exact Hcode.
Defined.

(** X13.  Over any sequence of initialise, shut down, load and unload video,
    lock and unlock calls from program start, the engine is initialised
    exactly when it owns a renderer, and then it owns a mapped frame buffer
    whose lock flag agrees with the shared header.  While it is not
    initialised it owns no frame buffer and no video: [Daro_LoadVideo]
    answers -1, [Daro_LockFrameBuffer] fails, the video queries answer
    false and 0, [Daro_Render] draws nothing, and none of them changes
    anything.  While it is initialised, [Daro_LockFrameBuffer] with its four
    out-pointers succeeds, and [Daro_LoadVideo] never answers a negative
    number. *)
Theorem X13_engine_life ops :
  let s := life_run ops Lifecycle.initial in
  session_ok s
  ∧ (Daro_IsInitialized s = true ↔ is_Some (Engine.g_Renderer (engine s)))
  ∧ (Daro_IsInitialized s = false →
       Engine.g_FrameBuffer (engine s) = None
       ∧ VideoManager.m_Players (videos s) = ∅
       ∧ (∀ startup_ok env freq now path,
            Daro_LoadVideo startup_ok env freq now path s = (-1, s))
       ∧ (∀ outs, Daro_LockFrameBuffer outs s = (false, s))
       ∧ (∀ videoId, Daro_IsVideoPlaying videoId s = false
                     ∧ Daro_GetVideoFrame videoId s = 0
                     ∧ Daro_GetVideoTotalFrames videoId s = 0
                     ∧ Daro_UnloadVideo videoId s = s)
       ∧ (∀ reader staging,
            Engine.Daro_Render reader staging (engine s) = Some (engine s, []))
       ∧ Daro_Shutdown s = s)
  ∧ (Daro_IsInitialized s = true →
       (Daro_LockFrameBuffer true s).1 = true
       ∧ (∀ startup_ok env freq now path,
            0 <= (Daro_LoadVideo startup_ok env freq now path s).1)
       ∧ Daro_IsInitialized (Daro_Shutdown s) = false).
Proof.
  intros s.
  assert (Hok : session_ok s) by apply life_run_session_ok, initial_session_ok.
  split; [done|]. clearbody s.
  unfold session_ok, Daro_IsInitialized in *.
  destruct (Engine.g_Initialized (engine s)) eqn:Hinit.
  - destruct Hok as (Hr & fb & w & h & Hfb & (Hmap & Hlock)).
    split; [done|]. split; [done|]. intros _.
    split; [|split].
    + unfold Daro_LockFrameBuffer. rewrite Hfb, Hinit. simpl.
      destruct Hmap as (_ & _ & _ & v & Hv & _). unfold FrameBuffer.Lock. by rewrite Hv.
    + intros startup_ok env freq now path. unfold Daro_LoadVideo, ready.
      rewrite Hinit. rewrite bool_decide_true by done. simpl.
      destruct (VideoManager.Renderer_LoadVideo _ _ _ _ _ _ _ _) as [videoId m] eqn:E.
      simpl. unfold VideoManager.Renderer_LoadVideo in E.
      destruct (LoadVideo_cases env freq now path _ _ _ E) as [H|H]; lia.
    + unfold Daro_Shutdown. rewrite Hinit. simpl. done.
  - destruct Hok as (Hr & Hfb & Hv & Hvi).
    split; [by rewrite Hr; split; [|intros [? ?]]|].
    split; [|done]. intros _.
    unfold Daro_LoadVideo, Daro_LockFrameBuffer, Daro_IsVideoPlaying, Daro_GetVideoFrame,
      Daro_GetVideoTotalFrames, Daro_UnloadVideo, Daro_Shutdown, ready, Engine.Daro_Render.
    rewrite Hinit, Hfb. simpl. done.
Qed.

End EngineLife.

(** ** A video source over its life *)

Section PlayerLife.
Import VideoPlayer Spec.

Local Arguments FFmpegDecoder.pump : simpl never.

(** *** What an update leaves behind *)

Lemma on_end_of_stream_outcome p :
  on_primary p ∨ on_fallback p →
  let q := on_end_of_stream p in
  (m_Loop p = true →
   m_Playing q = true ∧ m_EndOfStream q = false ∧ seeks_sent q = S (seeks_sent p))
  ∧ (m_Loop p = false → m_Playing q = false ∧ m_EndOfStream q = m_EndOfStream p).
Proof.
  intros Hp. unfold on_end_of_stream. split; intros ->; [|done].
  split; [done|]. split; [done|]. unfold seeks_sent.
  destruct Hp as [Hp|Hp].
  - destruct (SeekToFrameInternal_primary 0 p Hp) as (_ & H1 & H2).
    unfold primary_seeks, fallback_seeks in *. simpl. lia.
  - destruct (SeekToFrameInternal_fallback 0 p Hp) as (_ & H1 & H2).
    unfold primary_seeks, fallback_seeks in *. simpl. lia.
Qed.

Lemma mf_loop_outcome fuel : ∀ decoded p flag q,
  on_primary p → m_Playing p = true →
  mf_loop fuel decoded p = Some (flag, q) →
  (m_Loop p = true → m_Playing q = true)
  ∧ (clock_paid q
     ∨ (m_EndOfStream p = true ∧ flag = decoded)
     ∨ (m_Loop p = false ∧ m_Playing q = false ∧ m_EndOfStream q = true)
     ∨ (m_Loop p = true ∧ m_Playing q = true ∧ m_EndOfStream q = false
        ∧ seeks_sent q = S (seeks_sent p))).
Proof.
  assert (∀ (decoded : bool) (p : Player) (flag : bool) (q : Player),
            F64.geb (m_AccumulatedTime p) (m_FrameDuration p)
              && negb (m_EndOfStream p) = false →
            m_Playing p = true → (decoded, p) = (flag, q) →
            (m_Loop p = true → m_Playing q = true)
            ∧ (clock_paid q ∨ (m_EndOfStream p = true ∧ flag = decoded)
               ∨ (m_Loop p = false ∧ m_Playing q = false ∧ m_EndOfStream q = true)
               ∨ (m_Loop p = true ∧ m_Playing q = true ∧ m_EndOfStream q = false
                  ∧ seeks_sent q = S (seeks_sent p)))) as Hexit.
  { intros decoded p flag q Hc Hplay [= <- <-]. split; [done|].
    apply andb_false_iff in Hc as [Hc|Hc]; [by left|].
    right. left. by destruct (m_EndOfStream p). }
  induction fuel as [|fuel IH]; intros decoded p flag q Hp Hplay Hrun; simpl in Hrun.
  - destruct (_ && _) eqn:Ec; [done|]. injection Hrun as <- <-.
    by apply (Hexit decoded p).
  - destruct (_ && _) eqn:Ec; [|injection Hrun as <- <-; by apply (Hexit decoded p)].
    apply andb_true_iff in Ec as [_ Heos]. apply negb_true_iff in Heos.
    match type of Hrun with context [DecodeNextFrame ?x] => set (p1 := x) in * end.
    assert (on_primary p1) as Hp1.
    { destruct Hp as (H1 & H2 & H3 & H4). unfold on_primary, p1. simpl. done. }
    pose proof Hp1 as (_ & _ & [rd Hrd] & Hnod).
    destruct (DecodeNextFrame_read p1 rd Hrd)
      as (p2 & Hdec & Hrd2 & Heos2 & _ & _ & Hd2 & Hsame).
    pose proof (DecodeNextFrame_primary p1 Hp1) as Hp2.
    rewrite Hdec in Hrun, Hp2. simpl in Hp2.
    destruct Hsame as (_ & Hplay2 & Hloop2 & _).
    assert (seeks_sent p2 = seeks_sent p) as Hseeks.
    { unfold seeks_sent, primary_seeks, fallback_seeks. rewrite Hrd2, Hd2.
      unfold p1. simpl. destruct Hp as (_ & _ & _ & ->).
      assert (m_Reader p = Some rd) as -> by done. done. }
    assert (m_Loop p2 = m_Loop p ∧ m_Playing p2 = true) as [Hl Hpl].
    { rewrite Hloop2, Hplay2. done. }
    destruct (m_EndOfStream p2) eqn:Ee2.
    + injection Hrun as <- <-.
      destruct (on_end_of_stream_outcome p2 (or_introl Hp2)) as [Hyes Hno].
      rewrite Hl in Hyes, Hno. split; [by intros H; apply Hyes|].
      right. right. destruct (m_Loop p) eqn:El.
      * right. destruct (Hyes eq_refl) as (G1 & G2 & G3).
        split; [done|]. split; [done|]. split; [done|]. by rewrite G3, Hseeks.
      * left. destruct (Hno eq_refl) as (G1 & G2).
        split; [done|]. split; [done|]. by rewrite G2.
    + destruct (IH _ p2 flag q Hp2 Hpl Hrun) as [Hkeep Hout].
      rewrite Hl in Hkeep, Hout. rewrite Hseeks in Hout. split; [done|].
      destruct Hout as [H|[[H _]|[H|H]]]; [by left|congruence|by right; right; left
                                           |by right; right; right].
Qed.

Lemma ffmpeg_loop_outcome fuel : ∀ decoded p flag q,
  on_fallback p → m_Playing p = true →
  ffmpeg_loop fuel decoded p = Some (flag, q) →
  (m_Loop p = true → m_Playing q = true)
  ∧ (clock_paid q
     ∨ (m_EndOfStream p = true ∧ flag = decoded)
     ∨ (m_Loop p = false ∧ m_Playing q = false ∧ m_EndOfStream q = true)
     ∨ (m_Loop p = true ∧ m_Playing q = true ∧ m_EndOfStream q = false
        ∧ seeks_sent q = S (seeks_sent p))).
Proof.
  assert (∀ (decoded : bool) (p : Player) (flag : bool) (q : Player),
            F64.geb (m_AccumulatedTime p) (m_FrameDuration p)
              && negb (m_EndOfStream p) = false →
            m_Playing p = true → (decoded, p) = (flag, q) →
            (m_Loop p = true → m_Playing q = true)
            ∧ (clock_paid q ∨ (m_EndOfStream p = true ∧ flag = decoded)
               ∨ (m_Loop p = false ∧ m_Playing q = false ∧ m_EndOfStream q = true)
               ∨ (m_Loop p = true ∧ m_Playing q = true ∧ m_EndOfStream q = false
                  ∧ seeks_sent q = S (seeks_sent p)))) as Hexit.
  { intros decoded p flag q Hc Hplay [= <- <-]. split; [done|].
    apply andb_false_iff in Hc as [Hc|Hc]; [by left|].
    right. left. by destruct (m_EndOfStream p). }
  induction fuel as [|fuel IH]; intros decoded p flag q Hp Hplay Hrun; simpl in Hrun.
  - destruct (_ && _) eqn:Ec; [done|]. injection Hrun as <- <-.
    by apply (Hexit decoded p).
  - destruct (_ && _) eqn:Ec; [|injection Hrun as <- <-; by apply (Hexit decoded p)].
    apply andb_true_iff in Ec as [_ Heos]. apply negb_true_iff in Heos.
    pose proof Hp as (Hl0 & Hu0 & Hr0 & d & Hd & Ho).
    rewrite Hd in Hrun.
    match type of Hrun with context [ffmpeg_decode_and_copy d ?x] =>
      set (p1 := x) in * end.
    assert (on_fallback p1) as Hp1.
    { unfold on_fallback, p1. simpl. eauto 10. }
    destruct (ffmpeg_decode_fallback d p1 Hp1 Hd) as [Hp2 Hfs].
    destruct (ffmpeg_decode_step d p1)
      as (p2 & Hstep & Hd2 & Hr2 & He2 & _ & _ & Hsame).
    rewrite Hstep in Hrun, Hp2, Hfs. simpl in Hp2, Hfs.
    destruct Hsame as (_ & Hplay2 & Hloop2 & _).
    assert (seeks_sent p2 = seeks_sent p) as Hseeks.
    { unfold seeks_sent, primary_seeks. rewrite Hfs, Hr2. done. }
    assert (m_Loop p2 = m_Loop p ∧ m_Playing p2 = true
            ∧ m_EndOfStream p2 = false) as (Hl & Hpl & Hee).
    { rewrite Hloop2, Hplay2, He2. done. }
    destruct (fst (FFmpegDecoder.DecodeNextFrame d)) eqn:Ef.
    + match type of Hrun with context [ffmpeg_loop fuel true ?x] =>
        set (p3 := x) in * end.
      assert (on_fallback p3) as Hp3.
      { destruct Hp2 as (G1 & G2 & G3 & G4). unfold on_fallback, p3. simpl. done. }
      destruct (IH _ p3 flag q Hp3 Hpl Hrun) as [Hkeep Hout].
      assert (seeks_sent p3 = seeks_sent p) as Hs3 by (rewrite <- Hseeks; done).
      assert (m_Loop p3 = m_Loop p) as Hl3 by done.
      assert (m_EndOfStream p3 = false) as He3 by done.
      rewrite Hl3 in Hkeep, Hout. rewrite Hs3 in Hout. split; [done|].
      destruct Hout as [H|[[H _]|[H|H]]]; [by left|congruence|by right; right; left
                                           |by right; right; right].
    + rewrite Hd2 in Hrun.
      destruct (FFmpegDecoder.m_EndOfStream (snd (FFmpegDecoder.DecodeNextFrame d))).
      * injection Hrun as <- <-.
        match goal with |- context [on_end_of_stream ?x] => set (p3 := x) in * end.
        assert (on_fallback p3) as Hp3.
        { destruct Hp2 as (G1 & G2 & G3 & G4). unfold on_fallback, p3. simpl. done. }
        destruct (on_end_of_stream_outcome p3 (or_intror Hp3)) as [Hyes Hno].
        assert (seeks_sent p3 = seeks_sent p) as Hs3 by (rewrite <- Hseeks; done).
        assert (m_Loop p3 = m_Loop p) as Hl3 by done.
        rewrite Hl3 in Hyes, Hno. split; [by intros H; apply Hyes|].
        right. right. destruct (m_Loop p) eqn:El.
        -- right. destruct (Hyes eq_refl) as (G1 & G2 & G3).
           split; [done|]. split; [done|]. split; [done|]. by rewrite G3, Hs3.
        -- left. destruct (Hno eq_refl) as (G1 & G2). done.
      * destruct (IH _ p2 flag q Hp2 Hpl Hrun) as [Hkeep Hout].
        rewrite Hl in Hkeep, Hout. rewrite Hseeks in Hout. split; [done|].
        destruct Hout as [H|[[H _]|[H|H]]]; [by left|congruence|by right; right; left
                                             |by right; right; right].
Qed.

(** X14.  Why an update returns.  When [UpdateFrame] returns on a loaded,
    playing video, on either back end, one of four things has happened:
    the accumulated time is below one frame duration, so no backlog is
    carried over to the next update; or the stream had ended before the call
    and nothing was decoded; or the stream ended during the call and the
    video, which does not loop, has stopped at its end; or the stream ended
    during the call and the video, which loops, keeps playing after exactly
    one seek was sent to its back end.  A looping video never stops playing
    by itself. *)
Theorem X14_why_an_update_returns now p flag q :
  on_primary p ∨ on_fallback p → m_Playing p = true →
  UpdateFrame now p = Some (flag, q) →
  update_outcome p flag q
  ∧ (m_Loop p = true → m_Playing q = true).
Proof.
  intros Hp Hplay Hrun.
  assert (m_Loaded p = true) as Hl by (destruct Hp as [(H & _)|(H & _)]; exact H).
  rewrite (UpdateFrame_unfold now p Hl Hplay) in Hrun.
  set (p1 := set_m_AccumulatedTime (clock_at now p) (set_m_LastFrameTime now p)) in *.
  assert (seeks_sent p1 = seeks_sent p ∧ m_Loop p1 = m_Loop p
          ∧ m_EndOfStream p1 = m_EndOfStream p ∧ m_Playing p1 = true)
    as (Hs1 & Hl1 & He1 & Hp1) by done.
  destruct (F64.ltb (clock_at now p) (m_FrameDuration p)) eqn:Elt.
  { injection Hrun as <- <-. split; [|done]. left. unfold clock_paid.
    change (F64.geb (clock_at now p) (m_FrameDuration p) = false).
    destruct (F64.geb (clock_at now p) (m_FrameDuration p)) eqn:Ege; [|done].
    apply geb_not_ltb in Ege. congruence. }
  assert ((m_Loop p1 = true → m_Playing q = true)
          ∧ (clock_paid q
             ∨ (m_EndOfStream p1 = true ∧ flag = false)
             ∨ (m_Loop p1 = false ∧ m_Playing q = false ∧ m_EndOfStream q = true)
             ∨ (m_Loop p1 = true ∧ m_Playing q = true ∧ m_EndOfStream q = false
                ∧ seeks_sent q = S (seeks_sent p1)))) as [Hkeep Hout].
  { destruct Hp as [Hp|Hp].
    - pose proof Hp as (_ & Hu & _).
      rewrite Hu in Hrun. simpl in Hrun.
      apply (mf_loop_outcome (loop_fuel p1) false p1 flag q); [|done|done].
      destruct Hp as (G1 & G2 & G3 & G4). unfold on_primary, p1. simpl. done.
    - pose proof Hp as (_ & Hu & _ & d & Hd & _).
      rewrite Hu, Hd in Hrun. rewrite bool_decide_true in Hrun by done.
      simpl in Hrun.
      apply (ffmpeg_loop_outcome (loop_fuel p1) false p1 flag q); [|done|done].
      destruct Hp as (G1 & G2 & G3 & G4). unfold on_fallback, p1. simpl. done. }
  rewrite Hl1 in Hkeep, Hout. rewrite He1, Hs1 in Hout. done.
Qed.

(** The sample clip, ten frames long, set not to loop: an update after
    0.12 s pays the clock; an update after a stall of ninety seconds runs
    into the end of the stream and stops the video. *)
Lemma X14_witness :
  let p := SetLoop false (sample_player (sample_env true true 10 [] [])) in
  (∃ flag q, UpdateFrame 1201000 p = Some (flag, q) ∧ update_outcome p flag q)
  ∧ (∃ flag q, UpdateFrame 900000000 p = Some (flag, q)
               ∧ update_outcome p flag q ∧ m_Playing q = false).
Proof.
  intros p.
  assert (Hp : on_primary p ∨ on_fallback p).
  { left. repeat split; try (vm_compute; reflexivity). eexists. vm_compute. reflexivity. }
  assert (Hplay : m_Playing p = true) by (vm_compute; reflexivity).
  split.
  - destruct (UpdateFrame 1201000 p) as [[flag q]|] eqn:E;
      [|exfalso; vm_compute in E; discriminate E].
    exists flag, q. split; [reflexivity|].
    exact (proj1 (X14_why_an_update_returns 1201000 p flag q Hp Hplay E)).
  - destruct (UpdateFrame 900000000 p) as [[flag q]|] eqn:E;
      [|exfalso; vm_compute in E; discriminate E].
    exists flag, q. split; [reflexivity|].
    split; [exact (proj1 (X14_why_an_update_returns 900000000 p flag q Hp Hplay E))|].
    vm_compute in E. injection E as _ <-. reflexivity.
Defined.

(** *** Stop, seek and resume *)

Lemma of_Z_0 : F64.of_Z 0 = F64.zero.
Proof. reflexivity. Qed.

Lemma zero_over_positive r :
  F64.gtb r F64.zero = true → F64.div (F64.of_Z 0) r = F64.zero.
Proof.
  rewrite of_Z_0. unfold F64.gtb, F64.div, F64.zero, SFltb, SFdiv.
  destruct r as [s|s| |s m e]; simpl; try done; by destruct s.
Qed.

Lemma seek_time_of_frame_0 r :
  (if F64.gtb r F64.zero then F64.div (F64.of_Z 0) r else F64.zero) = F64.zero.
Proof.
  destruct (F64.gtb r F64.zero) eqn:E; [|done]. by apply zero_over_positive.
Qed.

Lemma clamp_frame_0 total :
  Z.max 0 (Z.min 0 (if 0 <? total then total - 1 else 0)) = 0.
Proof. destruct (0 <? total) eqn:E; lia. Qed.

(** X15.  [Stop] is [Pause] followed by a seek to frame 0: on every player
    -- loaded or not, on either back end, whether or not the seek
    succeeds -- the two leave the same state, the same requests sent to the
    back end included. *)
Theorem X15_stop_is_pause_then_rewind p :
  Stop p = SeekToFrame 0 (Pause p).
Proof.
  unfold Stop, SeekToFrame, Pause, SeekToFrameInternal.
  set (p0 := set_m_Playing false p).
  destruct (negb (m_Loaded p0)) eqn:El; [done|].
  rewrite clamp_frame_0, seek_time_of_frame_0.
  destruct (m_UsingFFmpeg p0).
  - destruct (m_FFmpegDecoder p0) as [d|]; [|done].
    unfold FFmpegDecoder.SeekToFrame. rewrite seek_time_of_frame_0.
    unfold FFmpegDecoder.SeekToTime. by destruct (negb (FFmpegDecoder.m_Opened d)).
  - destruct (m_Reader p0) as [rd|]; [|done].
    replace (F64.to_int64 (F64.mul F64.zero ticks_per_second)) with 0
      by (vm_compute; reflexivity).
    done.
Qed.

Lemma elapsed_none freq :
  let e := F64.div (F64.of_Z (Int.wrap64 0)) (F64.of_Z freq) in
  ∀ fd, F64.gtb fd F64.zero = true →
        F64.ltb (F64.add F64.zero e) fd = true
        ∨ (F64.ltb (F64.add F64.zero e) fd = false
           ∧ F64.geb (F64.add F64.zero e) fd = false).
Proof.
  intros e fd Hfd. subst e.
  change (F64.of_Z (Int.wrap64 0)) with F64.zero.
  unfold F64.gtb, F64.ltb, F64.geb, F64.add, F64.div, F64.zero, SFltb, SFleb in *.
  destruct (F64.of_Z freq) as [s|s| |s m e]; simpl;
    try (destruct s; simpl); try (right; by destruct fd as [?|[]| |[] ? ?]);
    left; by destruct fd as [?|[]| |[] ? ?].
Qed.

(** X16.  Resuming does not burst.  [Play] discards the time that passed
    while the player was paused and whatever backlog it held: on a loaded
    player whose frame duration is positive, an [UpdateFrame] at the counter
    reading of the [Play] returns false and decodes nothing -- reader,
    decoder, texture and frame counter are as [Play] left them -- whatever
    the counter frequency. *)
Theorem X16_resume_without_burst now p :
  m_Loaded p = true → F64.gtb (m_FrameDuration p) F64.zero = true →
  ∃ q, UpdateFrame now (Play now p) = Some (false, q)
       ∧ m_Playing q = true
       ∧ m_Reader q = m_Reader p
       ∧ m_FFmpegDecoder q = m_FFmpegDecoder p
       ∧ m_Texture q = m_Texture p
       ∧ m_CurrentFrame q = m_CurrentFrame p
       ∧ m_EndOfStream q = m_EndOfStream p.
Proof.
  intros Hl Hfd. unfold UpdateFrame, Play. rewrite Hl. simpl. rewrite Hl. simpl.
  unfold elapsed_since. simpl. rewrite Z.sub_diag.
  destruct (elapsed_none (m_Frequency p) (m_FrameDuration p) Hfd) as [->|[-> Hge]].
  - eexists. split; [reflexivity|]. done.
  - match goal with
    | |- context [ffmpeg_loop ?f false ?x] =>
        rewrite (ffmpeg_loop_stops f false x), (mf_loop_stops f false x) by exact Hge
    end.
    destruct (_ && _); eexists; (split; [reflexivity|]); done.
Qed.

Lemma X16_witness :
  ∃ q, UpdateFrame 777000000
         (Play 777000000 (Pause (sample_player (sample_env true true 10 [] []))))
       = Some (false, q)
       ∧ m_CurrentFrame q = 0.
Proof.
  destruct (X16_resume_without_burst 777000000
              (Pause (sample_player (sample_env true true 10 [] []))))
    as (q & E & _ & _ & _ & _ & Hf & _).
  - vm_compute. reflexivity.
  - vm_compute. reflexivity.
  - exists q. split; [exact E|]. rewrite Hf. vm_compute. reflexivity.
Defined.

(** *** Loading *)

Lemma has_dotdot_spec s :
  has_dotdot s = true ↔ ∃ a b, s = String.append a (String.append ".." b).
Proof.
  split.
  - induction s as [|c s IH]; [done|]. simpl.
    destruct s as [|c' s']; [done|].
    destruct (Ascii.eqb c "." && Ascii.eqb c' ".") eqn:E; simpl.
    + intros _. apply andb_true_iff in E as [E1 E2].
      apply Ascii.eqb_eq in E1, E2. subst. by exists EmptyString, s'.
    + intros H. destruct (IH H) as (a & b & ->).
      by exists (String c a), b.
  - intros (a & b & ->). induction a as [|c a IH]; [done|].
    change (String.append (String c a) (String.append ".." b))
      with (String c (String.append a (String.append ".." b))).
    remember (String.append a (String.append ".." b)) as rest eqn:Er.
    destruct rest as [|c' rest'].
    + destruct a; discriminate Er.
    + change (has_dotdot (String c (String c' rest')))
        with ((Ascii.eqb c "." && Ascii.eqb c' ".") || has_dotdot (String c' rest')).
      rewrite IH. apply orb_true_r.
Qed.

Lemma map_and_copy_keeps tag p :
  let q := map_and_copy tag p in
  m_Loaded q = m_Loaded p ∧ m_Playing q = m_Playing p ∧ m_Loop q = m_Loop p
  ∧ m_Width q = m_Width p ∧ m_Height q = m_Height p ∧ m_SRV q = m_SRV p
  ∧ m_Device q = m_Device p ∧ m_FilePath q = m_FilePath p
  ∧ m_UsingFFmpeg q = m_UsingFFmpeg p
  ∧ (is_Some (m_Texture p) → is_Some (m_Texture q)).
Proof. unfold map_and_copy. destruct (hd true _); simpl; repeat split; eauto. Qed.

Lemma DecodeNextFrame_keeps p :
  let q := snd (DecodeNextFrame p) in
  m_Loaded q = m_Loaded p ∧ m_Playing q = m_Playing p ∧ m_Loop q = m_Loop p
  ∧ m_Width q = m_Width p ∧ m_Height q = m_Height p ∧ m_SRV q = m_SRV p
  ∧ m_Device q = m_Device p ∧ m_FilePath q = m_FilePath p
  ∧ m_UsingFFmpeg q = m_UsingFFmpeg p
  ∧ (is_Some (m_Texture p) → is_Some (m_Texture q)).
Proof.
  unfold DecodeNextFrame. destruct (m_Reader p) as [rd|]; [|done].
  unfold read_sample. simpl.
  destruct (hd RS_EndOfStream (reads rd)) as [| |timestamp buffer_ok|]; simpl; try done.
  unfold CopyFrameToTexture. simpl.
  destruct (m_Texture p) as [tx|] eqn:Et; simpl; [|by rewrite Et].
  destruct (negb (m_Context p)); simpl; [by rewrite Et|].
  destruct (negb buffer_ok); simpl; [by rewrite Et|].
  destruct (m_Width p * 4 =? 0); simpl; [by rewrite Et|].
  match goal with |- context [map_and_copy timestamp ?x] =>
    pose proof (map_and_copy_keeps timestamp x) as H; simpl in H end.
  destruct H as (H1 & H2 & H3 & H4 & H5 & H6 & H7 & H8 & H9 & H10).
  repeat split; try done. intros _. apply H10. by rewrite Et.
Qed.

Lemma ffmpeg_decode_keeps d p :
  let q := snd (ffmpeg_decode_and_copy d p) in
  m_Loaded q = m_Loaded p ∧ m_Playing q = m_Playing p ∧ m_Loop q = m_Loop p
  ∧ m_Width q = m_Width p ∧ m_Height q = m_Height p ∧ m_SRV q = m_SRV p
  ∧ m_Device q = m_Device p ∧ m_FilePath q = m_FilePath p
  ∧ m_UsingFFmpeg q = m_UsingFFmpeg p
  ∧ (is_Some (m_Texture p) → is_Some (m_Texture q)).
Proof.
  unfold ffmpeg_decode_and_copy.
  destruct (FFmpegDecoder.DecodeNextFrame d) as [[|] d']; simpl; [|done].
  unfold CopyBufferToTexture. simpl.
  destruct (FFmpegDecoder.m_OutputBuffer d') as [tag|]; [|done].
  destruct (m_Texture p) as [tx|] eqn:Et; simpl; [|by rewrite Et].
  destruct (_ || _); simpl; [by rewrite Et|].
  match goal with |- context [map_and_copy tag ?x] =>
    pose proof (map_and_copy_keeps tag x) as H; simpl in H end.
  destruct H as (H1 & H2 & H3 & H4 & H5 & H6 & H7 & H8 & H9 & H10).
  repeat split; try done. intros _. apply H10. by rewrite Et.
Qed.

Lemma Open_dims f d :
  FFmpegDecoder.Open f = (true, d) →
  0 < FFmpegDecoder.m_Width d <= 8192 ∧ 0 < FFmpegDecoder.m_Height d <= 8192.
Proof.
  unfold FFmpegDecoder.Open. intros H.
  repeat match type of H with
         | (if ?c then _ else _) = _ => destruct c eqn:?; [discriminate H|]
         end.
  injection H as <-. simpl.
  repeat match goal with
         | H : (_ || _) = false |- _ => apply orb_false_iff in H as [? ?]
         end.
  lia.
Qed.

Lemma LoadVideoMF_post e tex now p b p' :
  unloaded p →
  LoadVideoMF e tex now p = (b, p') →
  m_FilePath p' = m_FilePath p ∧ m_Device p' = m_Device p
  ∧ (b = true → loaded_ok p') ∧ (b = false → unloaded p').
Proof.
  intros (Hl & Hp & Hr & Hd & Hw & Hh & Hs). unfold LoadVideoMF.
  destruct (negb (mf_attributes_ok e)); [by intros [= <- <-]|].
  destruct (mf_reader e) as [rd|]; [|by intros [= <- <-]].
  destruct (negb (mf_type_ok e)); [by intros [= <- <-]|].
  destruct (mf_negotiate e) as [needsFix|]; [|by intros [= <- <-]].
  destruct (negb (mf_current_type_ok e)); [by intros [= <- <-]|].
  destruct (mf_frame_size e) as [[width height]|]; [|by intros [= <- <-]].
  destruct (_ || _) eqn:Edim; [by intros [= <- <-]|].
  unfold MAX_VIDEO_DIMENSION in Edim.
  repeat match goal with
         | H : (_ || _) = false |- _ => apply orb_false_iff in H as [? ?]
         end.
  match goal with |- context [CreateTexture tex ?x] => set (p5 := x) end.
  assert (m_Width p5 = width ∧ m_Height p5 = height ∧ m_Device p5 = m_Device p
          ∧ m_Loaded p5 = false ∧ m_Playing p5 = false ∧ m_FFmpegDecoder p5 = None
          ∧ m_SRV p5 = false ∧ m_FilePath p5 = m_FilePath p) as (E1 & E2 & E3 & E4 & E5 & E6 & E7 & E8).
  { unfold p5. by destruct (mf_duration e). }
  unfold CreateTexture. rewrite E1, E2, E3.
  destruct (negb (m_Device p) || (width <=? 0) || (height <=? 0)) eqn:Eg.
  { intros [= <- <-]. split; [done|]. split; [done|]. split; [done|]. intros _.
    unfold unloaded. simpl. by rewrite E4, E5, E6, E7. }
  repeat match goal with
         | H : (_ || _) = false |- _ => apply orb_false_iff in H as [? ?]
         end.
  destruct (negb (fst tex)).
  { intros [= <- <-]. split; [done|]. split; [done|]. split; [done|]. intros _.
    unfold unloaded. simpl. by rewrite E4, E5, E6, E7. }
  destruct (snd tex) eqn:Esrv.
  - match goal with |- context [DecodeNextFrame ?x] => set (p7 := x) end.
    pose proof (DecodeNextFrame_keeps p7) as K. simpl in K.
    destruct K as (K1 & K2 & K3 & K4 & K5 & K6 & K7 & K8 & K9 & K10).
    intros [= <- <-]. simpl. rewrite K8, K7. simpl.
    split; [done|]. split; [done|]. split; [|done]. intros _.
    unfold loaded_ok. simpl. rewrite K1, K4, K5, K6. simpl. rewrite E1, E2.
    repeat split; try done; try lia.
    apply K10. by eexists.
  - intros [= <- <-]. split; [done|]. split; [done|]. split; [done|]. intros _.
    unfold unloaded. simpl. by rewrite E4, E5, E6.
Qed.

Lemma LoadVideoFFmpeg_post avail f tex now p b p' :
  unloaded p →
  LoadVideoFFmpeg avail f tex now p = (b, p') →
  m_FilePath p' = m_FilePath p ∧ m_Device p' = m_Device p
  ∧ (b = true → loaded_ok p') ∧ (b = false → unloaded p').
Proof.
  intros (Hl & Hp & Hr & Hd & Hw & Hh & Hs). unfold LoadVideoFFmpeg.
  destruct (negb avail); [by intros [= <- <-]|].
  destruct (FFmpegDecoder.Open f) as [[|] d] eqn:Eo; [|by intros [= <- <-]].
  apply Open_dims in Eo as [Hdw Hdh].
  unfold CreateTexture. simpl.
  destruct (negb (m_Device p) || (FFmpegDecoder.m_Width d <=? 0)
            || (FFmpegDecoder.m_Height d <=? 0)) eqn:Eg.
  { by intros [= <- <-]. }
  destruct (negb (fst tex)).
  { by intros [= <- <-]. }
  destruct (snd tex) eqn:Esrv.
  - match goal with |- context [ffmpeg_decode_and_copy d ?x] => set (p3 := x) end.
    pose proof (ffmpeg_decode_keeps d p3) as K. simpl in K.
    destruct K as (K1 & K2 & K3 & K4 & K5 & K6 & K7 & K8 & K9 & K10).
    intros [= <- <-]. simpl. rewrite K8, K7. simpl.
    split; [done|]. split; [done|]. split; [|done]. intros _.
    unfold loaded_ok. simpl. rewrite K1, K4, K5, K6. simpl.
    repeat split; try done; try lia.
    apply K10. by eexists.
  - by intros [= <- <-].
Qed.

Lemma prepared_unloaded env s p : unloaded (prepared env s p).
Proof. done. Qed.

(** X17.  A load that cannot start leaves the player exactly as it was: a
    null path, a player without a device, or a path with two consecutive
    dots anywhere in it is refused before anything is touched, and no back
    end is tried -- a video that was loaded stays loaded.  Any other failed
    load has already unloaded what was there: afterwards the player holds
    no video, no reader, no decoder, no shader resource view, and a size of
    0 x 0. *)
Theorem X17_failed_load env p :
  LoadVideo env None p = (false, p, [])
  ∧ (∀ path, m_Device p = false → LoadVideo env path p = (false, p, []))
  ∧ (∀ a b, LoadVideo env (Some (String.append a (String.append ".." b))) p
            = (false, p, []))
  ∧ (∀ s p' tried,
       m_Device p = true → has_dotdot s = false →
       LoadVideo env (Some s) p = (false, p', tried) →
       unloaded p' ∧ m_FilePath p' = s).
Proof.
  split; [done|]. split; [|split].
  - intros [s|] Hd; [|done]. unfold LoadVideo. by rewrite Hd.
  - intros a b. unfold LoadVideo.
    destruct (negb (m_Device p)); [done|].
    assert (has_dotdot (String.append a (String.append ".." b)) = true) as ->; [|done].
    apply has_dotdot_spec. eauto.
  - intros s p' tried Hd Hdots. unfold LoadVideo. rewrite Hd, Hdots. simpl.
    fold (prepared env s p).
    pose proof (prepared_unloaded env s p) as Hu.
    destruct (negb (wide_ok env)); [by intros [= <- <-]|].
    destruct (file_size env) as [size|]; [|by intros [= <- <-]].
    destruct (MAX_VIDEO_FILE_SIZE <? size); [by intros [= <- <-]|].
    destruct (LoadVideoMF _ _ _ _) as [[|] p2] eqn:Emf; [done|].
    destruct (LoadVideoMF_post _ _ _ _ _ _ Hu Emf) as (F2 & _ & _ & Hu2).
    specialize (Hu2 eq_refl).
    destruct (LoadVideoFFmpeg _ _ _ _ _) as [[|] p3] eqn:Eff; [done|].
    destruct (LoadVideoFFmpeg_post _ _ _ _ _ _ _ Hu2 Eff) as (F3 & _ & _ & Hu3).
    intros [= <- <-]. split; [by apply Hu3|]. by rewrite F3, F2.
Qed.

(** X18.  A load that succeeds hands over a video that is loaded, playing
    and looping, whose width and height lie in 1..8192, with its texture and
    shader resource view in place, on exactly one back end, under the path
    it was asked for. *)
Theorem X18_successful_load env path p p' tried :
  LoadVideo env path p = (true, p', tried) →
  loaded_ok p'
  ∧ (on_primary p' ∨ on_fallback p')
  ∧ path = Some (m_FilePath p')
  ∧ m_Device p' = true.
Proof.
  unfold LoadVideo. destruct path as [s|]; [|done].
  destruct (negb (m_Device p)) eqn:Hd; [done|]. apply negb_false_iff in Hd.
  destruct (has_dotdot s); [done|].
  fold (prepared env s p).
  pose proof (prepared_unloaded env s p) as Hu.
  assert (m_Reader (prepared env s p) = None
          ∧ m_FFmpegDecoder (prepared env s p) = None) as [Hr0 Hd0] by done.
  destruct (negb (wide_ok env)); [done|].
  destruct (file_size env) as [size|]; [|done].
  destruct (MAX_VIDEO_FILE_SIZE <? size); [done|].
  destruct (LoadVideoMF _ _ _ _) as [[|] p2] eqn:Emf.
  - intros [= <- <-].
    destruct (LoadVideoMF_post _ _ _ _ _ _ Hu Emf) as (F2 & D2 & Hok & _).
    destruct (LoadVideoMF_result _ _ _ _ _ _ Hr0 Hd0 Emf) as [Hprim _].
    split; [by apply Hok|]. split; [left; by apply Hprim|].
    split; [by rewrite F2|]. by rewrite D2.
  - destruct (LoadVideoMF_post _ _ _ _ _ _ Hu Emf) as (F2 & D2 & _ & Hu2).
    specialize (Hu2 eq_refl).
    destruct (LoadVideoFFmpeg _ _ _ _ _) as [[|] p3] eqn:Eff; [|done].
    intros [= <- <-].
    destruct (LoadVideoFFmpeg_post _ _ _ _ _ _ _ Hu2 Eff) as (F3 & D3 & Hok & _).
    destruct Hu2 as (_ & _ & Hr2 & _).
    destruct (LoadVideoFFmpeg_result _ _ _ _ _ _ _ Hr2 Eff eq_refl) as [Hfb _].
    split; [by apply Hok|]. split; [by right|].
    split; [by rewrite F3, F2|]. by rewrite D3, D2.
Qed.

Lemma X17_witness :
  LoadVideo (sample_env true true 10 [] []) (Some "C:/media/../secret.mov"%string)
            (sample_player (sample_env true true 10 [] []))
  = (false, sample_player (sample_env true true 10 [] []), []).
Proof.
  destruct (X17_failed_load (sample_env true true 10 [] [])
              (sample_player (sample_env true true 10 [] []))) as (_ & _ & Hdots & _).
  exact (Hdots "C:/media/"%string "/secret.mov"%string).
Defined.

Lemma X18_witness :
  loaded_ok (sample_player (sample_env false true 10 [] [])).
Proof.
  destruct (X18_successful_load (sample_env false true 10 [] []) sample_path
              (fresh_player sample_manager 10000000 1000)
              (sample_player (sample_env false true 10 [] []))
              [Primary; Fallback]) as (Hok & _).
  - vm_compute. reflexivity.
  - exact Hok.
Defined.

End PlayerLife.

(** ** The registry over its life *)

Section RegistryLife.
Import VideoManager Spec.

Local Arguments VideoPlayer.LoadVideo : simpl never.
Local Arguments VideoPlayer.Initialize : simpl never.
Local Arguments VideoPlayer.new_player : simpl never.
Local Arguments VideoPlayer.UpdateFrame : simpl never.

Lemma LoadVideo_ready env path p p' tried :
  VideoPlayer.LoadVideo env path p = (true, p', tried) →
  on_primary p' ∨ on_fallback p'.
Proof.
  unfold VideoPlayer.LoadVideo. destruct path as [s|]; [|done].
  destruct (negb (VideoPlayer.m_Device p)); [done|].
  destruct (VideoPlayer.has_dotdot s); [done|].
  fold (prepared env s p).
  assert (VideoPlayer.m_Reader (prepared env s p) = None
          ∧ VideoPlayer.m_FFmpegDecoder (prepared env s p) = None) as [Hr0 Hd0] by done.
  destruct (negb (VideoPlayer.wide_ok env)); [done|].
  destruct (VideoPlayer.file_size env) as [size|]; [|done].
  destruct (VideoPlayer.MAX_VIDEO_FILE_SIZE <? size); [done|].
  destruct (VideoPlayer.LoadVideoMF _ _ _ _) as [[|] p2] eqn:Emf.
  - intros [= <- <-].
    destruct (LoadVideoMF_result _ _ _ _ _ _ Hr0 Hd0 Emf) as [Hprim _].
    left. by apply Hprim.
  - destruct (LoadVideoMF_result _ _ _ _ _ _ Hr0 Hd0 Emf) as [_ Hfail].
    destruct (Hfail eq_refl) as (Hr2 & _).
    destruct (VideoPlayer.LoadVideoFFmpeg _ _ _ _ _) as [[|] p3] eqn:Eff; [|done].
    intros [= <- <-].
    destruct (LoadVideoFFmpeg_result _ _ _ _ _ _ _ Hr2 Eff eq_refl) as [Hfb _].
    by right.
Qed.

(** What a successful load does to the registry. *)
Lemma LoadVideo_issue env freq now filePath m videoId m' :
  LoadVideo env freq now filePath m = (videoId, m') →
  1 <= m_NextVideoId m < Int.INT_MAX →
  (videoId = 0 ∧ m' = m)
  ∨ (videoId = m_NextVideoId m
     ∧ m_NextVideoId m' = m_NextVideoId m + 1
     ∧ Z.of_nat (size (m_Players m)) < MAX_LOADED_VIDEOS
     ∧ ∃ player, m_Players m' = <[videoId := player]> (m_Players m)
                 ∧ (on_primary player ∨ on_fallback player)).
Proof.
  intros Hload Hnext. unfold LoadVideo in Hload.
  destruct (_ || _); [injection Hload as <- <-; by left|].
  destruct (MAX_LOADED_VIDEOS <=? Z.of_nat (size (m_Players m))) eqn:Es;
    [injection Hload as <- <-; by left|].
  destruct (VideoPlayer.Initialize _ _ _) as [[|] player];
    [|injection Hload as <- <-; by left].
  destruct (VideoPlayer.LoadVideo env filePath player) as [[[|] player'] tr] eqn:El;
    [|injection Hload as <- <-; by left].
  apply LoadVideo_ready in El.
  destruct (m_NextVideoId m <=? 0) eqn:E0; [lia|].
  injection Hload as <- <-. right. simpl.
  split; [done|]. split; [unfold Int.wrap32, Int.INT_MAX in *|].
  { rewrite Z.mod_small by lia. lia. }
  split; [lia|]. eauto.
Qed.

Lemma on_player_ok f videoId m issued n :
  (∀ p, (on_primary p → on_primary (f p)) ∧ (on_fallback p → on_fallback (f p))) →
  registry_ok m issued n → registry_ok (on_player f videoId m) issued (n + 1).
Proof.
  intros Hf (Hsize & Hnext & Hdom & Hiss & Hready).
  pose proof (on_player_dom f videoId m) as Hd.
  unfold registry_ok.
  assert (m_NextVideoId (on_player f videoId m) = m_NextVideoId m) as ->.
  { unfold on_player. by destruct (GetPlayer videoId m). }
  split; [|split; [lia|split; [by rewrite Hd|split; [done|]]]].
  - rewrite <- size_dom, Hd, size_dom. done.
  - intros k p. unfold on_player, GetPlayer.
    destruct (m_Players m !! videoId) as [player|] eqn:Ev; [|apply Hready].
    simpl. destruct (decide (k = videoId)) as [->|Hne].
    + rewrite lookup_insert_eq. intros [= <-].
      destruct (Hf player) as [Ha Hb]. destruct (Hready _ _ Ev); auto.
    + rewrite lookup_insert_ne by done. apply Hready.
Qed.

Lemma run_op_keeps op f :
  (∀ p, run_op op p = Some (f p)) →
  ∀ p, (on_primary p → on_primary (f p)) ∧ (on_fallback p → on_fallback (f p)).
Proof. intros H p. exact (run_op_backend op p (f p) (H p)). Qed.

Lemma manager_step_ok op m issued n m' issued' :
  registry_ok m issued n → n + 1 < Int.INT_MAX →
  manager_step op (m, issued) = Some (m', issued') →
  registry_ok m' issued' (n + 1) ∧ issued ⊆ issued'.
Proof.
  intros Hok Hn. pose proof Hok as (Hsize & Hnext & Hdom & Hiss & Hready).
  destruct op; simpl.
  - intros [= <- <-]. split; [|done].
    unfold Initialize. destruct (m_Initialized m); [|destruct (_ || _); [|destruct (negb _)]];
      (split; [done|]; split; [simpl; lia|]; done).
  - intros [= <- <-]. split; [|done].
    split; [simpl; rewrite map_size_empty; unfold MAX_LOADED_VIDEOS; lia|].
    split; [simpl; lia|]. split; [simpl; set_solver|]. split; [done|].
    intros k p. simpl. by rewrite lookup_empty.
  - destruct (LoadVideo env freq now filePath m) as [videoId m1] eqn:El.
    intros [= <- <-].
    apply LoadVideo_issue in El as [[-> ->]|(-> & Hn' & Hsz & player & Hp & Hrdy)];
      [| |lia].
    + simpl. split; [|done].
      split; [done|]. split; [lia|]. done.
    + assert ((m_NextVideoId m =? 0) = false) as -> by lia.
      split; [|set_solver].
      split; [|split; [lia|split; [|split]]].
      * rewrite Hp. unfold MAX_LOADED_VIDEOS in *.
        destruct (m_Players m !! m_NextVideoId m) eqn:Ek.
        -- rewrite map_size_insert_Some by eauto. lia.
        -- rewrite map_size_insert_None by done. lia.
      * rewrite Hp, dom_insert_L. set_solver.
      * intros k Hk. rewrite Hn'. apply elem_of_union in Hk as [Hk|Hk].
        -- apply elem_of_singleton in Hk as ->. lia.
        -- specialize (Hiss k Hk). lia.
      * intros k p. rewrite Hp. destruct (decide (k = m_NextVideoId m)) as [->|Hne].
        -- rewrite lookup_insert_eq. by intros [= <-].
        -- rewrite lookup_insert_ne by done. apply Hready.
  - intros [= <- <-]. split; [|done].
    unfold UnloadVideo. destruct (m_Players m !! videoId) as [player|] eqn:Ev.
    + split; [|split; [simpl; lia|split; [|split; [done|]]]]; simpl.
      * rewrite map_size_delete_Some by eauto. lia.
      * rewrite dom_delete_L. set_solver.
      * intros k p Hk. apply lookup_delete_Some in Hk as [_ Hk]. by apply (Hready k).
    + split; [done|]. split; [lia|]. done.
  - unfold UpdateAll.
    destruct (bool_decide _); [|done].
    simpl. intros [= <- <-]. split; [|done].
    set (ps := omap _ _).
    assert (∀ k q, ps !! k = Some q →
              ∃ p r, m_Players m !! k = Some p
                     ∧ VideoPlayer.UpdateFrame (clock k) p = Some r ∧ q = snd r) as Hps.
    { intros k q Hk. unfold ps in Hk. rewrite lookup_omap, map_lookup_imap in Hk.
      destruct (m_Players m !! k) as [p|] eqn:Ek; [|done]. simpl in Hk.
      destruct (VideoPlayer.UpdateFrame (clock k) p) as [r|] eqn:Er; [|done].
      simpl in Hk. injection Hk as <-. eauto. }
    assert (dom ps ⊆ dom (m_Players m)) as Hsub.
    { intros k Hk. apply elem_of_dom in Hk as [q Hq].
      destruct (Hps k q Hq) as (p & r & Hp & _). apply elem_of_dom. eauto. }
    split; [|split; [simpl; lia|split; [simpl; set_solver|split; [done|]]]]; simpl.
    + apply subseteq_size in Hsub. rewrite !size_dom in Hsub. lia.
    + intros k q Hq. destruct (Hps k q Hq) as (p & r & Hp & Hr & ->).
      destruct (Hready k p Hp) as [H|H].
      * left. by apply (UpdateFrame_primary (clock k) p r).
      * right. by apply (UpdateFrame_fallback (clock k) p r).
  - intros [= <- <-]. split; [|done].
    apply on_player_ok; [|done]. apply (run_op_keeps (DoPlay now)). done.
  - intros [= <- <-]. split; [|done].
    apply on_player_ok; [|done]. apply (run_op_keeps DoPause). done.
  - intros [= <- <-]. split; [|done].
    apply on_player_ok; [|done]. apply (run_op_keeps DoStop). done.
  - intros [= <- <-]. split; [|done].
    apply on_player_ok; [|done]. apply (run_op_keeps (DoSeekToFrame frame)). done.
  - intros [= <- <-]. split; [|done].
    apply on_player_ok; [|done]. apply (run_op_keeps (DoSeekToTime seconds)). done.
  - intros [= <- <-]. split; [|done].
    apply on_player_ok; [|done]. apply (run_op_keeps (DoSetLoop loop)). done.
  - intros [= <- <-]. split; [|done].
    apply on_player_ok; [|done]. apply (run_op_keeps (DoSetVideoAlpha alpha)). done.
Qed.

Lemma manager_run_ok ops : ∀ m issued n m' issued',
  registry_ok m issued n → n + Z.of_nat (length ops) < Int.INT_MAX →
  manager_run ops (m, issued) = Some (m', issued') →
  registry_ok m' issued' (n + Z.of_nat (length ops)) ∧ issued ⊆ issued'.
Proof.
  induction ops as [|op ops IH]; intros m issued n m' issued' Hok Hn Hrun.
  - simpl in Hrun. injection Hrun as <- <-. simpl. rewrite Z.add_0_r. done.
  - change (manager_run (op :: ops) (m, issued))
      with (match manager_step op (m, issued) with
            | Some st' => manager_run ops st'
            | None => None
            end) in Hrun.
    simpl length in *.
    destruct (manager_step op (m, issued)) as [[m1 issued1]|] eqn:Es; [|done].
    destruct (manager_step_ok op m issued n m1 issued1 Hok) as [Hok1 Hsub1];
      [lia|done|].
    destruct (IH m1 issued1 (n + 1) m' issued' Hok1) as [Hok' Hsub']; [lia|done|].
    replace (n + Z.of_nat (S (length ops))) with (n + 1 + Z.of_nat (length ops)) by lia.
    split; [done|]. set_solver.
Qed.

Lemma initial_registry_ok : registry_ok VideoManager.initial ∅ 0.
Proof.
  split; [simpl; rewrite map_size_empty; unfold MAX_LOADED_VIDEOS; lia|].
  split; [simpl; lia|]. split; [done|]. split; [set_solver|].
  intros k p. simpl. by rewrite lookup_empty.
Qed.

(** X19.  What the registry holds.  After any sequence of registry calls
    that has run to its end -- initialise, shut down, load, unload, update
    all, and the per-video controls -- the registry holds at most 32
    videos, each of them loaded on one of the two back ends and stored under
    an id that a load has returned, and every id returned so far is
    positive and below the next id to be issued.  (Stated for fewer than
    2^31 - 1 calls since program start.) *)
Theorem X19_registry_invariant ops m issued :
  Z.of_nat (length ops) < Int.INT_MAX →
  manager_run ops (VideoManager.initial, ∅) = Some (m, issued) →
  Z.of_nat (size (m_Players m)) <= 32
  ∧ dom (m_Players m) ⊆ issued
  ∧ (∀ videoId p, GetPlayer videoId m = Some p → on_primary p ∨ on_fallback p)
  ∧ (∀ videoId, videoId ∈ issued → 1 <= videoId < m_NextVideoId m).
Proof.
  intros Hn Hrun.
  destruct (manager_run_ok ops VideoManager.initial ∅ 0 m issued initial_registry_ok)
    as [Hok _]; [lia|done|].
  destruct Hok as (Hsize & Hnext & Hdom & Hiss & Hready). done.
Qed.

Lemma X19_witness :
  ∃ m issued,
    manager_run [MInitialize true true true;
                 MLoadVideo (sample_env true true 10 [] []) 10000000 1000 sample_path;
                 MLoadVideo (sample_env false true 10 [] []) 10000000 1000 sample_path;
                 MUpdateAll (λ _, 900000000); MStopVideo 1; MUnloadVideo 2]
                (VideoManager.initial, ∅) = Some (m, issued)
    ∧ Z.of_nat (size (m_Players m)) <= 32
    ∧ dom (m_Players m) ⊆ issued.
Proof.
  pose (ops := [MInitialize true true true;
                MLoadVideo (sample_env true true 10 [] []) 10000000 1000 sample_path;
                MLoadVideo (sample_env false true 10 [] []) 10000000 1000 sample_path;
                MUpdateAll (λ _, 900000000); MStopVideo 1; MUnloadVideo 2]).
  assert (Hn : Z.of_nat (length ops) < Int.INT_MAX) by (vm_compute; reflexivity).
  change (∃ m issued, manager_run ops (VideoManager.initial, ∅) = Some (m, issued)
                      ∧ Z.of_nat (size (m_Players m)) <= 32
                      ∧ dom (m_Players m) ⊆ issued).
  destruct (manager_run ops (VideoManager.initial, ∅)) as [[m issued]|] eqn:Hrun;
    [|exfalso; vm_compute in Hrun; discriminate Hrun].
  exists m, issued. split; [reflexivity|].
  destruct (X19_registry_invariant ops m issued Hn Hrun) as (Hsize & Hdom & _).
  split; [exact Hsize|exact Hdom].
Defined.

(** X20.  Video ids are handed out in increasing order and never twice.
    After any sequence of registry calls (fewer than 2^31 - 2 since program
    start), a load that succeeds returns the next id, which is greater than
    every id returned before -- so it names no video loaded earlier, unloaded
    or not -- and shutting the registry down does not start the ids over. *)
Theorem X20_video_ids_never_reused ops m issued env freq now filePath :
  Z.of_nat (length ops) + 1 < Int.INT_MAX →
  manager_run ops (VideoManager.initial, ∅) = Some (m, issued) →
  let videoId := (LoadVideo env freq now filePath m).1 in
  let m' := (LoadVideo env freq now filePath m).2 in
  videoId ≠ 0 →
  videoId = m_NextVideoId m
  ∧ m_NextVideoId m' = videoId + 1
  ∧ (∀ k, k ∈ issued → 1 <= k < videoId)
  ∧ m_Players m !! videoId = None
  ∧ is_Some (GetPlayer videoId m')
  ∧ m_NextVideoId (Shutdown m') = videoId + 1.
Proof.
  intros Hn Hrun videoId m' Hid.
  destruct (manager_run_ok ops VideoManager.initial ∅ 0 m issued initial_registry_ok)
    as [Hok _]; [lia|done|].
  pose proof Hok as (Hsize & Hnext & Hdom & Hiss & Hready).
  subst videoId m'.
  destruct (LoadVideo env freq now filePath m) as [videoId m'] eqn:El. simpl in *.
  apply LoadVideo_issue in El as [[-> ->]|(-> & Hn' & Hsz & player & Hp & Hrdy)];
    [done| |lia].
  split; [done|]. split; [done|]. split; [done|]. split; [|split; [|done]].
  - destruct (m_Players m !! m_NextVideoId m) as [p|] eqn:Ek; [|done].
    assert (m_NextVideoId m ∈ issued) as Hin.
    { apply Hdom. apply elem_of_dom. eauto. }
    specialize (Hiss _ Hin). lia.
  - unfold GetPlayer. rewrite Hp, lookup_insert_eq. by eexists.
Qed.

Lemma X20_witness :
  let m := (default (VideoManager.initial, ∅)
              (manager_run
                 [MInitialize true true true;
                  MLoadVideo (sample_env true true 10 [] []) 10000000 1000 sample_path;
                  MUnloadVideo 1]
                 (VideoManager.initial, ∅))).1 in
  (LoadVideo (sample_env true true 10 [] []) 10000000 1000 sample_path m).1 = 2.
Proof.
  intros m.
  destruct (X20_video_ids_never_reused
              [MInitialize true true true;
               MLoadVideo (sample_env true true 10 [] []) 10000000 1000 sample_path;
               MUnloadVideo 1]
              m {[1]} (sample_env true true 10 [] []) 10000000 1000 sample_path)
    as (Hid & _).
  - vm_compute. reflexivity.
  - vm_compute. reflexivity.
  - vm_compute. intros H. discriminate H.
  - rewrite Hid. vm_compute. reflexivity.
Defined.

End RegistryLife.

(** ** The fallback decoder over its life *)

Section DecoderLife.
Import FFmpegDecoder Spec.

Lemma pump_passes skip : ∀ rest,
  Forall (λ pk, passed_over pk = true) skip →
  pump (skip ++ rest) = pump rest.
Proof.
  induction skip as [|pk skip IH]; intros rest Hall; [done|].
  inversion Hall as [|? ? Hpk Hrest]; subst.
  simpl. destruct pk as [eof|video send_ok recv]; [done|].
  simpl in Hpk. destruct video; simpl; [|by apply IH].
  destruct send_ok; simpl; [|by apply IH].
  destruct recv; try done. by apply IH.
Qed.

Lemma pump_frame pkts : ∀ tag rest,
  pump pkts = (PumpFrame tag, rest) →
  ∃ skip, pkts = skip ++ AvPkt true true (RecvFrame tag) :: rest
          ∧ Forall (λ pk, passed_over pk = true) skip.
Proof.
  induction pkts as [|pk pkts IH]; intros tag rest Hp; [done|].
  simpl in Hp. destruct pk as [eof|video send_ok recv]; [done|].
  destruct video; simpl in Hp.
  2:{ destruct (IH _ _ Hp) as (skip & -> & Hall).
      exists (AvPkt false send_ok recv :: skip). split; [done|]. by constructor. }
  destruct send_ok; simpl in Hp.
  2:{ destruct (IH _ _ Hp) as (skip & -> & Hall).
      exists (AvPkt true false recv :: skip). split; [done|]. by constructor. }
  destruct recv as [tag'| |]; [| |done].
  - injection Hp as <- <-. by exists [].
  - destruct (IH _ _ Hp) as (skip & -> & Hall).
    exists (AvPkt true true RecvAgain :: skip). split; [done|]. by constructor.
Qed.


(** X21.  What [DecodeNextFrame] delivers.  On an open decoder that is not
    at the end of its stream, the call returns true exactly when a video
    packet the codec turns into a frame comes before any read failure or
    decode error, the packets before it being of other streams, refused by
    the codec, or answered with "need more input"; the output buffer then
    holds that frame and the stream stands right after that packet.  When
    every packet left is passed over in that way, the call returns false
    with the end-of-stream flag set. *)
Theorem X21_decode_next_frame d :
  m_Opened d = true → m_EndOfStream d = false →
  (∀ skip tag rest,
     packets d = skip ++ AvPkt true true (RecvFrame tag) :: rest →
     Forall (λ pk, passed_over pk = true) skip →
     DecodeNextFrame d
     = (true, with_stream d false (Some tag) rest (seeks d) (seek_log d)))
  ∧ ((DecodeNextFrame d).1 = true →
     ∃ skip tag,
       packets d = skip ++ AvPkt true true (RecvFrame tag)
                             :: packets (DecodeNextFrame d).2
       ∧ Forall (λ pk, passed_over pk = true) skip
       ∧ m_OutputBuffer (DecodeNextFrame d).2 = Some tag)
  ∧ (Forall (λ pk, passed_over pk = true) (packets d) →
     DecodeNextFrame d
     = (false, with_stream d true (m_OutputBuffer d) [] (seeks d) (seek_log d))).
Proof.
  intros Ho He. unfold DecodeNextFrame. rewrite Ho, He. simpl.
  split; [|split].
  - intros skip tag rest Hp Hall. rewrite Hp, (pump_passes skip _ Hall). done.
  - destruct (pump (packets d)) as [[tag|eof] rest] eqn:Ep; [|done].
    intros _. destruct (pump_frame _ _ _ Ep) as (skip & Hp & Hall).
    exists skip, tag. done.
  - intros Hall.
    rewrite <- (app_nil_r (packets d)), (pump_passes _ [] Hall). done.
Qed.

Lemma X21_witness :
  let d := (Open (sample_av_file true
                    [AvPkt false true RecvAgain; AvPkt true true RecvAgain;
                     AvPkt true true (RecvFrame 7); AvPkt true true (RecvFrame 8)]
                    [])).2 in
  (DecodeNextFrame d).1 = true ∧ m_OutputBuffer (DecodeNextFrame d).2 = Some 7.
Proof.
  intros d.
  destruct (X21_decode_next_frame d) as (Hframe & _).
  - reflexivity.
  - reflexivity.
  - rewrite (Hframe [AvPkt false true RecvAgain; AvPkt true true RecvAgain] 7
               [AvPkt true true (RecvFrame 8)]).
    + split; reflexivity.
    + reflexivity.
    + repeat constructor.
Defined.





End DecoderLife.

(** ** Textures and Spout over their life *)

Section ResourceLife.
Import Resources Spec.

Lemma find_path_list path (l : list (Z * TextureInfo)) :
  let r := foldr (fun kv acc =>
                    if bool_decide (tex_path (snd kv) = path)
                    then Some (match acc with Some j => Z.min (fst kv) j | None => fst kv end)
                    else acc) None l in
  (∀ id, r = Some id → ∃ info, (id, info) ∈ l ∧ tex_path info = path)
  ∧ (r = None → ∀ id info, (id, info) ∈ l → tex_path info ≠ path).
Proof.
  induction l as [|[k v] l [IH1 IH2]]; simpl.
  - split; [done|]. intros _ id info H. by apply elem_of_nil in H.
  - destruct (bool_decide (tex_path v = path)) eqn:E.
    + apply bool_decide_eq_true in E. split; [|done].
      intros id [= <-].
      destruct (foldr _ None l) as [j|] eqn:Ef.
      * destruct (Z.min_spec k j) as [[_ ->]|[_ ->]].
        -- exists v. split; [left|done].
        -- destruct (IH1 j eq_refl) as (info & Hin & Hp).
           exists info. split; [by right|done].
      * exists v. split; [left|done].
    + apply bool_decide_eq_false in E. split.
      * intros id Hid. destruct (IH1 id Hid) as (info & Hin & Hp).
        exists info. split; [by right|done].
      * intros Hnone id info Hin. apply elem_of_cons in Hin as [[= -> ->]|Hin]; [done|].
        by apply (IH2 Hnone id).
Qed.

Lemma find_path_Some path ts id :
  find_path path ts = Some id →
  ∃ info, ts !! id = Some info ∧ tex_path info = path.
Proof.
  intros H. destruct (find_path_list path (map_to_list ts)) as [H1 _].
  destruct (H1 id H) as (info & Hin & Hp).
  exists info. split; [by apply elem_of_map_to_list|done].
Qed.

Lemma find_path_None path ts :
  find_path path ts = None →
  ∀ id info, ts !! id = Some info → tex_path info ≠ path.
Proof.
  intros H id info Hl. destruct (find_path_list path (map_to_list ts)) as [_ H2].
  apply (H2 H id). by apply elem_of_map_to_list.
Qed.

Lemma find_path_present path ts id info :
  ts !! id = Some info → tex_path info = path → is_Some (find_path path ts).
Proof.
  intros Hl Hp. destruct (find_path path ts) eqn:E; [by eexists|].
  by destruct (find_path_None path ts E id info Hl).
Qed.

Lemma issue_id_spec next :
  1 <= next < Int.INT_MAX → issue_id next = (next, next + 1).
Proof.
  intros H. unfold issue_id. destruct (next <=? 0) eqn:E; [lia|].
  unfold Int.wrap32, Int.INT_MAX in *. rewrite Z.mod_small by lia. f_equal. lia.
Qed.

(** The ways a load ends. *)
Lemma LoadTexture_cases img filePath s :
  (LoadTexture img filePath s = (-1, s))
  ∨ (∃ path id info, filePath = Some path
       ∧ m_Textures s !! id = Some info ∧ tex_path info = path
       ∧ find_path path (m_Textures s) = Some id
       ∧ LoadTexture img filePath s = (id, s))
  ∨ (∃ path width height, filePath = Some path
       ∧ path ≠ EmptyString ∧ VideoPlayer.has_dotdot path = false
       ∧ find_path path (m_Textures s) = None
       ∧ (∃ w h, img_size img = Some (w, h) ∧ width = Z.of_N w ∧ height = Z.of_N h)
       ∧ 0 < width <= 8192 ∧ 0 < height <= 8192
       ∧ LoadTexture img filePath s
         = ((issue_id (m_NextTextureId s)).1,
            with_textures s
              (<[(issue_id (m_NextTextureId s)).1 :=
                   {| tex_width := width; tex_height := height; tex_path := path |}]>
                 (m_Textures s))
              (issue_id (m_NextTextureId s)).2)).
Proof.
  unfold LoadTexture.
  destruct (_ || _); [by left|].
  destruct filePath as [path|]; [|by left].
  destruct path as [|c rest] eqn:Epath; [by left|]. rewrite <- Epath.
  destruct (VideoPlayer.has_dotdot path) eqn:Ed; [by left|].
  destruct (find_path path (m_Textures s)) as [id|] eqn:Ef.
  { right. left. destruct (find_path_Some _ _ _ Ef) as (info & Hl & Hp).
    exists path, id, info. rewrite Epath in *. done. }
  destruct (negb (img_wide_ok img)); [by left|].
  destruct (negb (img_decoder_ok img)); [by left|].
  destruct (negb (img_frame_ok img)); [by left|].
  destruct (img_size img) as [[w h]|]; [|by left]. cbv zeta.
  destruct (_ || _) eqn:Edim; [by left|].
  unfold MAX_TEXTURE_DIMENSION in Edim.
  repeat match goal with
         | H : (_ || _) = false |- _ => apply orb_false_iff in H as [? ?]
         end.
  destruct (negb (img_converter_ok img)); [by left|].
  destruct (negb (img_convert_init_ok img)); [by left|].
  destruct (negb (img_copy_ok img)); [by left|].
  destruct (negb (img_texture_ok img)); [by left|].
  destruct (negb (img_srv_ok img)); [by left|].
  right. right. exists path, (Z.of_N w), (Z.of_N h).
  destruct (issue_id (m_NextTextureId s)) as [id next]. simpl.
  rewrite Epath in *.
  repeat split; try done; try lia. by exists w, h.
Qed.

Lemma textures_ok_weaken s n : textures_ok s n → textures_ok s (n + 1).
Proof. intros (H1 & H2 & H3). split; [lia|done]. Qed.

Lemma receivers_ok_weaken s n : receivers_ok s n → receivers_ok s (n + 1).
Proof. intros (H1 & H2). split; [lia|done]. Qed.

Lemma LoadTexture_ok img filePath s n :
  textures_ok s n → n + 1 < Int.INT_MAX →
  textures_ok (LoadTexture img filePath s).2 (n + 1).
Proof.
  intros Hok Hn. pose proof Hok as (Hnext & Hall & Huniq).
  destruct (LoadTexture_cases img filePath s)
    as [->|[(path & id & info & _ & _ & _ & _ & ->)
           |(path & width & height & _ & Hne & Hdots & Hnone & _ & Hw & Hh & ->)]];
    try by apply textures_ok_weaken.
  rewrite issue_id_spec by lia. simpl.
  split; [simpl; lia|]. split; simpl.
  - intros id info Hl. apply lookup_insert_Some in Hl as [[<- <-]|[Hne' Hl]].
    + simpl. repeat split; try done; lia.
    + destruct (Hall id info Hl) as (? & ?). split; [lia|done].
  - intros i j a b Ha Hb Hp.
    apply lookup_insert_Some in Ha as [[<- <-]|[Hni Ha]];
      apply lookup_insert_Some in Hb as [[<- <-]|[Hnj Hb]]; try done.
    + simpl in Hp. by destruct (find_path_None path _ Hnone j b Hb).
    + simpl in Hp. by destruct (find_path_None path _ Hnone i a Ha).
    + by apply (Huniq i j a b).
Qed.

Lemma UnloadTexture_ok textureId s n :
  textures_ok s n → textures_ok (UnloadTexture textureId s) (n + 1).
Proof.
  intros (Hnext & Hall & Huniq). split; [simpl; lia|]. split; simpl.
  - intros id info Hl. apply lookup_delete_Some in Hl as [_ Hl]. by apply Hall.
  - intros i j a b Ha Hb. apply lookup_delete_Some in Ha as [_ Ha].
    apply lookup_delete_Some in Hb as [_ Hb]. by apply Huniq.
Qed.

Lemma ConnectSpoutReceiver_cases name s :
  ConnectSpoutReceiver name s = (-1, s)
  ∨ ∃ n, name = Some n ∧ (0 < String.length n <= 255)%nat
         ∧ m_Device s = true
         ∧ ConnectSpoutReceiver name s
           = ((issue_id (m_NextReceiverId s)).1,
              with_receivers s
                (<[(issue_id (m_NextReceiverId s)).1 :=
                     {| senderName := n; connected := false;
                        rcv_width := 0; rcv_height := 0;
                        rcv_texture := false; rcv_srv := false |}]>
                   (m_SpoutReceivers s))
                (issue_id (m_NextReceiverId s)).2).
Proof.
  unfold ConnectSpoutReceiver.
  destruct (m_Device s); simpl; [|by left].
  destruct name as [n|]; [|by left].
  destruct n as [|c rest] eqn:En; [by left|]. rewrite <- En.
  destruct (255 <? Z.of_nat (String.length n)) eqn:El; [by left|].
  apply Z.ltb_ge in El.
  right. exists n. destruct (issue_id (m_NextReceiverId s)) as [id next]. simpl.
  split; [done|]. split; [|done].
  split; [rewrite En; simpl; lia|lia].
Qed.

Lemma resource_step_textures s op n :
  textures_ok s n → n + 1 < Int.INT_MAX → textures_ok (resource_step s op) (n + 1).
Proof.
  intros Hok Hn. destruct op; simpl.
  - by apply LoadTexture_ok.
  - by apply UnloadTexture_ok.
  - apply textures_ok_weaken. unfold EnableSpout.
    destruct (m_SpoutEnabled s); [done|]. destruct (negb _); [done|].
    destruct name as [[|c rest]|]; try done. by destruct (_ <? _).
  - apply textures_ok_weaken. unfold DisableSpout. by destruct (negb _).
  - apply textures_ok_weaken.
    destruct (ConnectSpoutReceiver_cases name s) as [->|(nm & _ & _ & _ & ->)]; done.
  - apply textures_ok_weaken. unfold DisconnectSpoutReceiver.
    by destruct (m_SpoutReceivers s !! receiverId).
  - by apply textures_ok_weaken.
Qed.

Lemma resource_step_receivers s op n :
  receivers_ok s n → n + 1 < Int.INT_MAX → receivers_ok (resource_step s op) (n + 1).
Proof.
  intros Hok Hn. pose proof Hok as (Hnext & Hall). destruct op; simpl.
  - apply receivers_ok_weaken.
    destruct (LoadTexture_cases img filePath s)
      as [->|[(path & id & info & _ & _ & _ & _ & ->)
             |(path & width & height & _ & _ & _ & _ & _ & _ & _ & ->)]]; done.
  - by apply receivers_ok_weaken.
  - apply receivers_ok_weaken. unfold EnableSpout.
    destruct (m_SpoutEnabled s); [done|]. destruct (negb _); [done|].
    destruct name as [[|c rest]|]; try done. by destruct (_ <? _).
  - apply receivers_ok_weaken. unfold DisableSpout. by destruct (negb _).
  - destruct (ConnectSpoutReceiver_cases name s) as [->|(nm & _ & Hlen & _ & ->)];
      [by apply receivers_ok_weaken|].
    rewrite issue_id_spec by lia. simpl.
    split; [simpl; lia|]. simpl.
    intros id info Hl. apply lookup_insert_Some in Hl as [[<- <-]|[Hne' Hl]].
    + simpl. split; [lia|]. done.
    + destruct (Hall id info Hl) as (? & ?). split; [lia|done].
  - unfold DisconnectSpoutReceiver.
    destruct (m_SpoutReceivers s !! receiverId) eqn:E; [|by apply receivers_ok_weaken].
    split; [simpl; lia|]. simpl.
    intros id info Hl. apply lookup_delete_Some in Hl as [_ Hl]. by apply Hall.
  - split; [simpl; lia|]. simpl.
    intros id info Hl. rewrite map_lookup_imap in Hl.
    destruct (m_SpoutReceivers s !! id) as [old|] eqn:E; [|done].
    simpl in Hl. injection Hl as <-.
    destruct (Hall id old E) as (Hid & Hname & Hconn).
    split; [done|]. unfold update_receiver.
    destruct (negb (receive_ok (answers id))); [done|].
    destruct (_ || _); [|done].
    destruct ((Z.of_N (sender_size (answers id)).1 =? 0)
              || (Z.of_N (sender_size (answers id)).2 =? 0)) eqn:Ez; simpl; [done|].
    apply orb_false_iff in Ez as [? ?].
    split; [done|]. intros ->. repeat split; try done; lia.
Qed.

Lemma resource_step_sender s op : sender_ok s → sender_ok (resource_step s op).
Proof.
  intros Hok. destruct op; simpl; try done.
  - destruct (LoadTexture_cases img filePath s)
      as [->|[(path & id & info & _ & _ & _ & _ & ->)
             |(path & width & height & _ & _ & _ & _ & _ & _ & _ & ->)]]; done.
  - unfold EnableSpout. destruct (m_SpoutEnabled s) eqn:Ee; [done|].
    destruct (negb _); [done|].
    destruct name as [n|]; [|done].
    destruct n as [|c rest] eqn:En; [done|]. rewrite <- En.
    destruct (255 <? Z.of_nat (String.length n)) eqn:El; [done|].
    apply Z.ltb_ge in El.
    unfold sender_ok. simpl. exists n. split; [done|].
    split; [rewrite En; simpl; lia|lia].
  - unfold DisableSpout. destruct (m_SpoutEnabled s) eqn:Ee; simpl; [done|].
    unfold sender_ok in *. by rewrite Ee in *.
  - destruct (ConnectSpoutReceiver_cases name s) as [->|(nm & _ & _ & _ & ->)]; done.
  - unfold DisconnectSpoutReceiver. by destruct (m_SpoutReceivers s !! receiverId).
Qed.

Lemma resource_run_ok ops : ∀ s n,
  textures_ok s n → receivers_ok s n → sender_ok s →
  n + Z.of_nat (length ops) < Int.INT_MAX →
  textures_ok (resource_run ops s) (n + Z.of_nat (length ops))
  ∧ receivers_ok (resource_run ops s) (n + Z.of_nat (length ops))
  ∧ sender_ok (resource_run ops s).
Proof.
  induction ops as [|op ops IH]; intros s n Ht Hr Hs Hn.
  - simpl. by rewrite Z.add_0_r.
  - simpl length in *. simpl.
    replace (n + Z.of_nat (S (length ops))) with (n + 1 + Z.of_nat (length ops)) by lia.
    apply IH; [apply resource_step_textures|apply resource_step_receivers
               |apply resource_step_sender|]; try done; lia.
Qed.

Lemma initial_resources_ok :
  textures_ok Resources.initial 0 ∧ receivers_ok Resources.initial 0
  ∧ sender_ok Resources.initial.
Proof.
  split; [|split]; [| |done].
  - split; [simpl; lia|]. split; simpl; intros *; by rewrite lookup_empty.
  - split; [simpl; lia|]. simpl. intros *. by rewrite lookup_empty.
Qed.

(** X23.  The texture cache.  After any sequence of texture, Spout sender
    and Spout receiver calls on an initialised renderer (fewer than 2^31 - 1
    of them), every cached texture has a positive id and a size within
    1..8192 each way, is filed under a path that is not empty and has no two
    dots in a row, and no file is cached twice.  [LoadTexture] then answers
    either -1, changing nothing, or a positive id under which the texture of
    that very path is found -- never 0. *)
Theorem X23_texture_cache ops img filePath :
  Z.of_nat (length ops) < Int.INT_MAX →
  let s := resource_run ops Resources.initial in
  let id := (LoadTexture img filePath s).1 in
  let s' := (LoadTexture img filePath s).2 in
  textures_ok s (Z.of_nat (length ops))
  ∧ ((id = -1 ∧ s' = s)
     ∨ (0 < id ∧ GetTextureSRV id s' = true
        ∧ ∃ info, m_Textures s' !! id = Some info
                  ∧ filePath = Some (tex_path info))).
Proof.
  intros Hn s id s'.
  destruct (resource_run_ok ops Resources.initial 0) as (Ht & _ & _);
    try apply initial_resources_ok; [lia|].
  rewrite Z.add_0_l in Ht. fold s in Ht. split; [done|].
  pose proof Ht as (Hnext & Hall & Huniq). subst id s'.
  destruct (LoadTexture_cases img filePath s)
    as [->|[(path & id & info & -> & Hl & Hp & _ & ->)
           |(path & width & height & -> & _ & _ & _ & _ & _ & _ & ->)]];
    [by left| |]; right; simpl.
  - destruct (Hall id info Hl) as (Hid & _).
    split; [lia|]. unfold GetTextureSRV. rewrite Hl.
    split; [by apply bool_decide_eq_true|]. exists info. by rewrite Hp.
  - unfold issue_id. destruct (m_NextTextureId s <=? 0) eqn:E; [lia|]. simpl.
    split; [lia|]. unfold GetTextureSRV. simpl. rewrite lookup_insert_eq.
    split; [by apply bool_decide_eq_true|]. by eexists.
Qed.

Lemma X23_witness :
  let s := resource_run [RLoadTexture (sample_image 640 480) (Some "logo.png"%string);
                         RLoadTexture (sample_image 9000 480) (Some "huge.png"%string)]
                        Resources.initial in
  textures_ok s 2 ∧ (LoadTexture (sample_image 64 64) (Some "logo.png"%string) s).1 = 1.
Proof.
  intros s.
  destruct (X23_texture_cache
              [RLoadTexture (sample_image 640 480) (Some "logo.png"%string);
               RLoadTexture (sample_image 9000 480) (Some "huge.png"%string)]
              (sample_image 64 64) (Some "logo.png"%string)) as (Hok & _).
  - vm_compute. reflexivity.
  - split; [exact Hok|]. vm_compute. reflexivity.
Defined.

(** X24.  A file is loaded once.  When [LoadTexture] has answered an id for
    a path, every later [LoadTexture] of that path answers the same id and
    changes nothing, whatever has become of the file -- until the id is
    unloaded.  After [UnloadTexture] the id yields no view, a layer that
    names it is drawn without texture, and loading the path again gives a
    new, greater id. *)
Theorem X24_texture_loaded_once s n img path id :
  textures_ok s n → n + 2 < Int.INT_MAX →
  (LoadTexture img (Some path) s).1 = id → id ≠ -1 →
  let s' := (LoadTexture img (Some path) s).2 in
  (∀ img', LoadTexture img' (Some path) s' = (id, s'))
  ∧ GetTextureSRV id (UnloadTexture id s') = false
  ∧ (∀ videos layer,
       SharedTypes.sourceType layer = 2 → SharedTypes.textureId layer = id →
       has_texture s' videos layer = true
       ∧ has_texture (UnloadTexture id s') videos layer = false)
  ∧ (∀ img' id2,
       (LoadTexture img' (Some path) (UnloadTexture id s')).1 = id2 →
       id2 = -1 ∨ id < id2).
Proof.
  intros Hok Hn Hid Hne s'.
  assert (Hok' : textures_ok s' (n + 1)) by (apply LoadTexture_ok; [done|lia]).
  pose proof Hok' as (Hnext' & Hall' & Huniq').
  assert (Hentry : ∃ info, m_Textures s' !! id = Some info ∧ tex_path info = path
                           ∧ m_WICFactory s' = true ∧ m_Device s' = true) .
  { subst s'. unfold LoadTexture in *.
    destruct (negb (m_WICFactory s) || negb (m_Device s)) eqn:Eg; [simpl in *; lia|].
    apply orb_false_iff in Eg as [Ew Ed].
    apply negb_false_iff in Ew, Ed.
    destruct (LoadTexture_cases img (Some path) s)
      as [E|[(path' & id' & info & [= <-] & Hl & Hp & _ & E)
            |(path' & width & height & [= <-] & _ & _ & _ & _ & _ & _ & E)]];
      unfold LoadTexture in E; rewrite Ew, Ed in E; simpl in E; rewrite E in *;
      simpl in *; [lia| |].
    - subst id'. exists info. by rewrite Ew, Ed.
    - subst id. rewrite lookup_insert_eq. eexists. by rewrite Ew, Ed. }
  destruct Hentry as (info & Hl & Hp & Hw & Hd).
  destruct (Hall' id info Hl) as (Hidpos & _ & _ & Hnonempty & Hdots).
  rewrite Hp in Hnonempty, Hdots.
  split; [|split; [|split]].
  - intros img'. unfold LoadTexture. rewrite Hw, Hd. simpl.
    destruct path as [|c rest] eqn:Epath; [done|]. rewrite <- Epath in *.
    rewrite Hdots.
    destruct (find_path_present path (m_Textures s') id info Hl Hp) as [id' Hf].
    rewrite Hf. destruct (find_path_Some _ _ _ Hf) as (info' & Hl' & Hp').
    assert (id' = id) as -> by (apply (Huniq' id' id info' info); congruence).
    done.
  - unfold GetTextureSRV, UnloadTexture. simpl. rewrite lookup_delete_eq.
    by apply bool_decide_eq_false; intros [? ?].
  - intros videos layer Hs Ht. unfold has_texture. rewrite Hs, Ht. simpl.
    assert ((0 <? id) = true) as -> by lia. simpl.
    unfold GetTextureSRV, UnloadTexture. simpl. rewrite Hl, lookup_delete_eq.
    split; [by apply bool_decide_eq_true|by apply bool_decide_eq_false; intros [? ?]].
  - intros img' id2 Hid2.
    assert (Hok2 : textures_ok (UnloadTexture id s') (n + 2)).
    { replace (n + 2) with (n + 1 + 1) by lia. by apply UnloadTexture_ok. }
    destruct (LoadTexture_cases img' (Some path) (UnloadTexture id s'))
      as [E|[(path' & id' & info' & [= <-] & Hl2 & Hp2 & _ & E)
            |(path' & width & height & [= <-] & _ & _ & _ & _ & _ & _ & E)]];
      rewrite E in Hid2; simpl in Hid2; subst id2.
    + by left.
    + simpl in Hl2. apply lookup_delete_Some in Hl2 as [Hne2 Hl2].
      destruct Hne2. apply (Huniq' id id' info info'); congruence.
    + right. unfold issue_id. simpl.
      destruct (m_NextTextureId s' <=? 0) eqn:E0; [lia|]. simpl. lia.
Qed.

Lemma X24_witness :
  let s' := (LoadTexture (sample_image 640 480) (Some "logo.png"%string)
                         Resources.initial).2 in
  LoadTexture (sample_image 0 0) (Some "logo.png"%string) s' = (1, s').
Proof.
  intros s'.
  destruct (X24_texture_loaded_once Resources.initial 0 (sample_image 640 480)
              "logo.png"%string 1) as (Hsame & _).
  - apply initial_resources_ok.
  - vm_compute. reflexivity.
  - vm_compute. reflexivity.
  - lia.
  - exact (Hsame (sample_image 0 0)).
Defined.

Lemma resource_run_sender ops : ∀ s, sender_ok s → sender_ok (resource_run ops s).
Proof.
  induction ops as [|op ops IH]; intros s Hs; [done|].
  simpl. apply IH. by apply resource_step_sender.
Qed.

(** X25.  The Spout sender.  After any sequence of calls the sender is
    enabled exactly when it carries a name, of 1..255 characters.
    [EnableSpout] answers true exactly when the sender is enabled
    afterwards; on a sender that is already enabled it answers true and
    keeps the name it has, whatever name is passed (a null, empty or
    over-long one included); a refused call changes nothing.  [SendSpout]
    sends nothing once the sender is disabled, and disabling twice is
    disabling once. *)
Theorem X25_spout_sender ops :
  let s := resource_run ops Resources.initial in
  sender_ok s
  ∧ (∀ name,
       ((EnableSpout name s).1 = true ↔ m_SpoutEnabled (EnableSpout name s).2 = true)
       ∧ (m_SpoutEnabled s = true → EnableSpout name s = (true, s))
       ∧ ((EnableSpout name s).1 = false → (EnableSpout name s).2 = s)
       ∧ (m_SpoutEnabled s = false → (EnableSpout name s).1 = true →
            sender_name (EnableSpout name s).2 = name
            ∧ ∃ n, name = Some n ∧ (0 < String.length n <= 255)%nat))
  ∧ SendSpout (DisableSpout s) = false
  ∧ (SendSpout s = true → m_SpoutEnabled s = true ∧ is_Some (sender_name s))
  ∧ DisableSpout (DisableSpout s) = DisableSpout s.
Proof.
  intros s.
  assert (Hs : sender_ok s).
  { apply resource_run_sender. apply initial_resources_ok. }
  split; [done|]. clearbody s. split; [|split; [|split]].
  - intros name. unfold EnableSpout.
    destruct (m_SpoutEnabled s) eqn:Ee; [done|].
    destruct (negb (m_Device s)); [simpl; rewrite Ee; done|].
    destruct name as [n|]; [|simpl; rewrite Ee; done].
    destruct n as [|c rest] eqn:En; [simpl; rewrite Ee; done|]. rewrite <- En.
    destruct (255 <? Z.of_nat (String.length n)) eqn:El; [simpl; rewrite Ee; done|].
    apply Z.ltb_ge in El. simpl. repeat split; try done.
    exists n. split; [done|]. split; [rewrite En; simpl; lia|lia].
  - unfold SendSpout, DisableSpout. destruct (m_SpoutEnabled s) eqn:Ee; simpl; [done|].
    by rewrite Ee.
  - unfold SendSpout. intros H. apply andb_true_iff in H as [He _].
    split; [done|]. unfold sender_ok in Hs. rewrite He in Hs.
    destruct Hs as (n & -> & _). by eexists.
  - unfold DisableSpout. destruct (m_SpoutEnabled s) eqn:Ee; simpl; [done|].
    by rewrite Ee.
Qed.

(** X26.  Spout receivers.  After any sequence of calls (fewer than
    2^31 - 1), every receiver has a positive id and a sender name of 1..255
    characters, and one that yields a view is connected, holds a texture,
    and has a size that is not zero.  [ConnectSpoutReceiver] answers either
    -1, changing nothing, or a positive id that was not in use, under which
    a receiver for that sender is registered that yields no view yet.
    After [DisconnectSpoutReceiver] the id yields no view. *)
Theorem X26_spout_receivers ops name :
  Z.of_nat (length ops) < Int.INT_MAX →
  let s := resource_run ops Resources.initial in
  let id := (ConnectSpoutReceiver name s).1 in
  let s' := (ConnectSpoutReceiver name s).2 in
  receivers_ok s (Z.of_nat (length ops))
  ∧ ((id = -1 ∧ s' = s)
     ∨ (0 < id ∧ m_SpoutReceivers s !! id = None
        ∧ GetSpoutReceiverSRV id s' = false
        ∧ ∃ info, m_SpoutReceivers s' !! id = Some info
                  ∧ name = Some (senderName info)))
  ∧ (∀ k, GetSpoutReceiverSRV k s = true →
          ∃ info, m_SpoutReceivers s !! k = Some info
                  ∧ 0 < k ∧ connected info = true ∧ rcv_texture info = true
                  ∧ 0 < rcv_width info ∧ 0 < rcv_height info)
  ∧ (∀ k, GetSpoutReceiverSRV k (DisconnectSpoutReceiver k s) = false).
Proof.
  intros Hn s id s'.
  destruct (resource_run_ok ops Resources.initial 0) as (_ & Hr & _);
    try apply initial_resources_ok; [lia|].
  rewrite Z.add_0_l in Hr. fold s in Hr. split; [done|].
  pose proof Hr as (Hnext & Hall). subst id s'. clearbody s.
  split; [|split].
  - destruct (ConnectSpoutReceiver_cases name s) as [->|(n & -> & Hlen & _ & ->)];
      [by left|]. right. simpl.
    unfold issue_id. destruct (m_NextReceiverId s <=? 0) eqn:E; [lia|]. simpl.
    split; [lia|]. split.
    + destruct (m_SpoutReceivers s !! m_NextReceiverId s) as [info|] eqn:El; [|done].
      destruct (Hall _ _ El). lia.
    + unfold GetSpoutReceiverSRV. simpl. rewrite lookup_insert_eq. simpl.
      split; [done|]. by eexists.
  - intros k. unfold GetSpoutReceiverSRV.
    destruct (m_SpoutReceivers s !! k) as [info|] eqn:El; [|done].
    intros H. apply andb_true_iff in H as [Hc _].
    destruct (Hall k info El) as (Hk & _ & Hconn).
    destruct (Hconn Hc) as (Ht & _ & Hw & Hh).
    exists info. repeat split; try done. lia.
  - intros k. unfold GetSpoutReceiverSRV, DisconnectSpoutReceiver.
    destruct (m_SpoutReceivers s !! k) as [info|] eqn:El; simpl.
    + by rewrite lookup_delete_eq.
    + by rewrite El.
Qed.

Lemma X26_witness :
  let s := resource_run
             [RConnectSpoutReceiver (Some "Camera 1"%string);
              RUpdateSpoutReceivers
                (λ _, {| receive_ok := true; is_updated := true;
                         sender_size := (1920%N, 1080%N);
                         rcv_texture_ok := true; rcv_srv_ok := true |})]
             Resources.initial in
  GetSpoutReceiverSRV 1 s = true
  ∧ (ConnectSpoutReceiver (Some "Camera 2"%string) s).1 = 2.
Proof.
  intros s.
  destruct (X26_spout_receivers
              [RConnectSpoutReceiver (Some "Camera 1"%string);
               RUpdateSpoutReceivers
                 (λ _, {| receive_ok := true; is_updated := true;
                          sender_size := (1920%N, 1080%N);
                          rcv_texture_ok := true; rcv_srv_ok := true |})]
              (Some "Camera 2"%string)) as (Hok & _).
  - vm_compute. reflexivity.
  - split; vm_compute; reflexivity.
Defined.

End ResourceLife.

(** ** What a frame's masks depend on *)

Section MaskIndexLife.
Import SharedTypes Renderer Engine Spec.

Lemma route_reads_targets n idx idx' layer :
  targets_of idx (id layer) = targets_of idx' (id layer) →
  route n idx layer = route n idx' layer.
Proof.
  unfold route, targets_of. intros H.
  destruct (active layer =? 0); [done|].
  destruct (layerType layer =? DARO_TYPE_MASK); [done|].
  destruct (layerType layer =? DARO_TYPE_GROUP); [done|].
  destruct (idx !! id layer) as [[|a l]|], (idx' !! id layer) as [[|a' l']|];
    simpl in H; try done; by injection H as -> _.
Qed.

Lemma pushes_of_same t i a b :
  same_mask_data a b → pushes_of t i a = pushes_of t i b.
Proof.
  intros (H1 & H2 & H3). unfold pushes_of, scanned_targets. by rewrite H1, H2, H3.
Qed.

Lemma pushes_from_same t layers : ∀ layers' i,
  Forall2 same_mask_data layers layers' →
  pushes_from t i layers = pushes_from t i layers'.
Proof.
  induction layers as [|a layers IH]; intros layers' i H.
  - by inversion H.
  - inversion H as [|? b ? rest Hab Hrest]; subst. simpl.
    by rewrite (pushes_of_same t i a b Hab), (IH rest).
Qed.

Lemma render_loop_same_routes layers n idx idx' todo :
  (∀ layer, route n idx layer = route n idx' layer) →
  ∀ acc,
    fold_left
      (fun acc layer =>
         let '(r1, c) := render_one layers n idx (fst acc) layer in
         (r1, snd acc ++ c)) todo acc
    = fold_left
        (fun acc layer =>
           let '(r1, c) := render_one layers n idx' (fst acc) layer in
           (r1, snd acc ++ c)) todo acc.
Proof.
  intros Hroute.
  assert (Hone : ∀ rr layer,
            render_one layers n idx rr layer = render_one layers n idx' rr layer).
  { intros rr layer. unfold render_one. by rewrite (Hroute layer). }
  induction todo as [|layer todo IH]; intros acc; [done|].
  simpl. rewrite Hone. apply IH.
Qed.

(** X27.  A frame does not depend on earlier frames' masks.  The mask index
    is kept from frame to frame with its vectors emptied; whatever it held,
    every layer takes the same route, [RenderWithMasks] issues the same
    commands and leaves the same renderer, and [Daro_Render] draws and
    publishes the same frame. *)
Theorem X27_no_masks_left_over prev prev' layers n r reader staging st :
  (∀ layer, route n (build_mask_index prev layers) layer
            = route n (build_mask_index prev' layers) layer)
  ∧ RenderWithMasks r layers n (build_mask_index prev layers)
    = RenderWithMasks r layers n (build_mask_index prev' layers)
  ∧ option_map snd (Daro_Render reader staging (with_left_over st prev'))
    = option_map snd (Daro_Render reader staging st)
  ∧ option_map (λ out, g_FrameBuffer out.1)
               (Daro_Render reader staging (with_left_over st prev'))
    = option_map (λ out, g_FrameBuffer out.1) (Daro_Render reader staging st).
Proof.
  assert (Hroute : ∀ p p' ls k layer,
            route k (build_mask_index p ls) layer
            = route k (build_mask_index p' ls) layer).
  { intros p p' ls k layer. apply route_reads_targets. by rewrite !targets_of_build. }
  assert (Hpass : ∀ p p' ls k rr,
            RenderWithMasks rr ls k (build_mask_index p ls)
            = RenderWithMasks rr ls k (build_mask_index p' ls)).
  { intros p p' ls k rr. unfold RenderWithMasks.
    apply render_loop_same_routes. intros layer. apply Hroute. }
  split; [apply Hroute|]. split; [apply Hpass|].
  unfold Daro_Render, with_left_over. simpl.
  destruct (negb (g_Initialized st)); [done|].
  destruct (g_Renderer st) as [rr|]; [|done].
  rewrite (Hpass prev' (layerToMasks st)).
  destruct (RenderWithMasks rr _ _ _) as [r' drawn].
  destruct staging as [[pData rowPitch]|]; [destruct (g_FrameBuffer st) as [fb|]|];
    simpl; try done.
  by destruct (FrameBuffer.Write _ _ _ _ _).
Qed.

(** X28.  Switching a mask off does not unmask its targets.  The index is
    built from each layer's type and target list alone: two snapshots that
    agree on those -- differing, say, in which masks are active -- give every
    layer the same route, so a layer listed by an inactive mask still goes
    down the masked path. *)
Theorem X28_inactive_mask_still_masks prev layers layers' n layer :
  Forall2 same_mask_data layers layers' →
  route n (build_mask_index prev layers) layer
  = route n (build_mask_index prev layers') layer.
Proof.
  intros H. apply route_reads_targets.
  rewrite !targets_of_build. by apply pushes_from_same.
Qed.

Lemma X28_witness :
  route 2 (build_mask_index ∅ [set_active 0 (sample_mask 1 [7]);
                               sample_layer 7 DARO_TYPE_RECTANGLE])
        (sample_layer 7 DARO_TYPE_RECTANGLE)
  = RouteMasked 0.
Proof.
  rewrite <- (X28_inactive_mask_still_masks ∅
                [sample_mask 1 [7]; sample_layer 7 DARO_TYPE_RECTANGLE]
                [set_active 0 (sample_mask 1 [7]); sample_layer 7 DARO_TYPE_RECTANGLE]
                2 (sample_layer 7 DARO_TYPE_RECTANGLE)).
  - vm_compute. reflexivity.
  - repeat constructor.
Defined.

End MaskIndexLife.

(** ** Frames in order *)

Section FrameNumbers.
Import SharedTypes Renderer Engine Spec.

(** X29.  Frames are published in order.  On a running engine whose frame
    buffer is mapped for w x h and not locked, [Daro_Render] with a staging
    texture of matching pitch publishes the rendered pixels under the
    engine's current frame number and keeps the buffer well formed; the
    [Daro_EndFrame] that follows moves the frame number on by one and
    leaves the published frame alone -- so consecutive frames carry
    consecutive numbers. *)
Theorem X29_frames_numbered_in_order reader st r fb w h pData now :
  g_Initialized st = true → g_Renderer st = Some r → g_FrameBuffer st = Some fb →
  fb_inv w h fb → 0 <= w → 0 <= h →
  FrameBuffer.m_IsLocked fb = false →
  w * 4 * h <= Z.of_nat (length pData) →
  ∃ st1 cmds fb1,
    Daro_Render reader (Some (pData, w * 4)) st = Some (st1, cmds)
    ∧ g_FrameBuffer st1 = Some fb1
    ∧ region_frame fb1 = Some (g_FrameNumber st)
    ∧ region_pixels fb1 = Some (take (Z.to_nat (w * 4 * h)) pData)
    ∧ fb_inv w h fb1
    ∧ g_FrameNumber (Daro_EndFrame st1 now) = Int.wrap64 (g_FrameNumber st + 1)
    ∧ g_FrameBuffer (Daro_EndFrame st1 now) = Some fb1.
Proof.
  intros Hinit Hr Hfb Hinv Hw Hh Hl Hsrc.
  pose proof Hinv as ((Hmw & Hmh & Hms & v & Hv & Hvw & Hvh & Hvs & Hlen) & Hlock).
  assert (Hwrite : ∃ fb1,
            FrameBuffer.Write reader fb (Some pData) (w * 4) (g_FrameNumber st) = Some fb1
            ∧ region_frame fb1 = Some (g_FrameNumber st)
            ∧ region_pixels fb1 = Some (take (Z.to_nat (w * 4 * h)) pData)).
  { unfold FrameBuffer.Write. rewrite Hv, Hl. simpl. rewrite Hv, Hms, Hmh, Z.eqb_refl.
    assert (is_Some (FrameBuffer.memcpy (FrameBuffer.pixels v) 0 pData 0 (w * 4 * h)))
      as [px Hm] by (apply memcpy_defined; lia).
    rewrite Hm. eexists. split; [reflexivity|]. split; [done|].
    unfold region_pixels. simpl. f_equal.
    unfold FrameBuffer.memcpy in Hm.
    destruct (_ && _) in Hm; [|done]. injection Hm as <-.
    simpl. rewrite drop_0.
    rewrite (drop_ge (FrameBuffer.pixels v)) by lia. by rewrite app_nil_r. }
  destruct Hwrite as (fb1 & Hw1 & Hf1 & Hp1).
  assert (Hinv1 : fb_inv w h fb1).
  { by apply (fb_inv_write w h reader fb (Some pData) (w * 4) (g_FrameNumber st)). }
  unfold Daro_Render. rewrite Hinit, Hr, Hfb. simpl.
  destruct (RenderWithMasks r _ _ _) as [r' drawn].
  rewrite Hw1. simpl.
  eexists _, _, fb1. split; [reflexivity|]. simpl.
  split; [done|]. split; [done|]. split; [done|]. split; [done|].
  done.
Qed.

Lemma X29_witness :
  let st := Lifecycle.engine
              (Lifecycle.Daro_Initialize (sample_init (all_steps true) true)
                                         2 2 (F64.of_Z 50) Lifecycle.initial).2 in
  ∃ st1 cmds fb1,
    Daro_Render [] (Some (replicate 16 x01, 8)) st = Some (st1, cmds)
    ∧ region_frame fb1 = Some 0
    ∧ g_FrameNumber (Daro_EndFrame st1 12345) = 1.
Proof.
  intros st.
  assert (H1 : g_Initialized st = true) by (vm_compute; reflexivity).
  assert (H2 : g_Renderer st = Some (Lifecycle.fresh_renderer true true true true true []))
    by (vm_compute; reflexivity).
  assert (H3 : g_FrameBuffer st
               = Some (FrameBuffer.Initialize true FrameBuffer.unmapped 2 2).2)
    by (vm_compute; reflexivity).
  assert (H4 : fb_inv 2 2 (FrameBuffer.Initialize true FrameBuffer.unmapped 2 2).2).
  { destruct (Initialize_ok true FrameBuffer.unmapped 2 2
                (FrameBuffer.Initialize true FrameBuffer.unmapped 2 2).2 eq_refl)
      as (_ & _ & H & _).
    exact H. }
  assert (H5 : 2 * 4 * 2 <= Z.of_nat (length (replicate 16 x01)))
    by (vm_compute; intros H; discriminate H).
  destruct (X29_frames_numbered_in_order [] st
              (Lifecycle.fresh_renderer true true true true true [])
              (FrameBuffer.Initialize true FrameBuffer.unmapped 2 2).2
              2 2 (replicate 16 x01) 12345 H1 H2 H3 H4 ltac:(lia) ltac:(lia) eq_refl H5)
    as (st1 & cmds & fb1 & Hrun & _ & Hframe & _ & _ & Hnum & _).
  exists st1, cmds, fb1. split; [exact Hrun|].
  split; [rewrite Hframe|rewrite Hnum]; vm_compute; reflexivity.
Defined.

End FrameNumbers.

(** ** One video among many *)

Section RegistryLocal.
Import VideoManager Spec.

Lemma on_player_other f videoId k m :
  k ≠ videoId → GetPlayer k (on_player f videoId m) = GetPlayer k m.
Proof.
  intros Hne. unfold on_player, GetPlayer.
  destruct (m_Players m !! videoId); [|done]. simpl.
  by rewrite lookup_insert_ne.
Qed.

Lemma on_player_same f videoId m :
  GetPlayer videoId (on_player f videoId m) = f <$> GetPlayer videoId m.
Proof.
  unfold on_player, GetPlayer.
  destruct (m_Players m !! videoId) eqn:E; simpl; [|by rewrite E].
  by rewrite lookup_insert_eq.
Qed.

(** X30.  The per-video calls reach one video only.  Play, pause, stop,
    seek, loop and alpha on one id act on that player just as the player's
    own routine does and leave every other video, and the set of ids,
    untouched; unloading an id removes that video and no other, after which
    the id answers as an unknown one: not playing, frame 0, no view. *)
Theorem X30_video_calls_are_local m videoId k :
  k ≠ videoId →
  (∀ now, GetPlayer k (PlayVideo now videoId m) = GetPlayer k m
          ∧ GetPlayer videoId (PlayVideo now videoId m)
            = VideoPlayer.Play now <$> GetPlayer videoId m)
  ∧ GetPlayer k (PauseVideo videoId m) = GetPlayer k m
  ∧ GetPlayer videoId (PauseVideo videoId m) = VideoPlayer.Pause <$> GetPlayer videoId m
  ∧ GetPlayer k (StopVideo videoId m) = GetPlayer k m
  ∧ GetPlayer videoId (StopVideo videoId m) = VideoPlayer.Stop <$> GetPlayer videoId m
  ∧ (∀ frame, GetPlayer k (SeekVideo videoId frame m) = GetPlayer k m
              ∧ GetPlayer videoId (SeekVideo videoId frame m)
                = VideoPlayer.SeekToFrame frame <$> GetPlayer videoId m)
  ∧ (∀ loop, GetPlayer k (SetVideoLoop videoId loop m) = GetPlayer k m)
  ∧ (∀ alpha, GetPlayer k (SetVideoAlpha videoId alpha m) = GetPlayer k m)
  ∧ GetPlayer k (UnloadVideo videoId m) = GetPlayer k m
  ∧ GetPlayer videoId (UnloadVideo videoId m) = None
  ∧ IsVideoPlaying videoId (UnloadVideo videoId m) = false
  ∧ GetVideoFrame videoId (UnloadVideo videoId m) = 0
  ∧ GetVideoSRV videoId (UnloadVideo videoId m) = false
  ∧ dom (m_Players (UnloadVideo videoId m)) = dom (m_Players m) ∖ {[videoId]}.
Proof.
  intros Hne.
  assert (Hun : GetPlayer videoId (UnloadVideo videoId m) = None).
  { unfold UnloadVideo, GetPlayer.
    destruct (m_Players m !! videoId) eqn:E; simpl; [by rewrite lookup_delete_eq|done]. }
  unfold PlayVideo, PauseVideo, StopVideo, SeekVideo, SetVideoLoop, SetVideoAlpha.
  repeat split; intros;
    try (by apply on_player_other); try (by apply on_player_same); try done.
  - unfold UnloadVideo, GetPlayer.
    destruct (m_Players m !! videoId) eqn:E; simpl; [|done].
    by rewrite lookup_delete_ne.
  - unfold IsVideoPlaying. by rewrite Hun.
  - unfold GetVideoFrame. by rewrite Hun.
  - unfold GetVideoSRV. by rewrite Hun.
  - unfold UnloadVideo. destruct (m_Players m !! videoId) eqn:E; simpl.
    + by rewrite dom_delete_L.
    + apply not_elem_of_dom in E. set_solver.
Qed.

Lemma X30_witness :
  let m := (default (VideoManager.initial, ∅)
              (manager_run
                 [MInitialize true true true;
                  MLoadVideo (sample_env true true 10 [] []) 10000000 1000 sample_path;
                  MLoadVideo (sample_env false true 10 [] []) 10000000 1000 sample_path]
                 (VideoManager.initial, ∅))).1 in
  IsVideoPlaying 2 (StopVideo 1 m) = true ∧ IsVideoPlaying 1 (StopVideo 1 m) = false.
Proof.
  intros m.
  destruct (X30_video_calls_are_local m 1 2) as (_ & _ & _ & Hother & Hsame & _);
    [lia|].
  unfold IsVideoPlaying. rewrite Hother, Hsame.
  split; vm_compute; reflexivity.
Defined.

End RegistryLocal.
